(* ===== verification/_CoqProject ===== *)
-Q . S2P
Prelude.v
Text.v
Regex.v
Dict.v
Gateway.v
GatewaySystem.v
GatewayInv.v
GatewayStreams.v
GatewayJobs.v
GatewayOrigin.v
GatewayRuns.v
GatewayCancels.v
GatewayProps.v
Store.v
Redaction.v
Json.v
JsonEq.v
Builtins.v
Url.v
Sha256.v
Telemetry.v
Models.v
Services.v
ServicesProps.v
Pipeline.v
PipelineInv.v
PipelineProps.v
TelemetryProps.v
Kubernetes.v
KubernetesProps.v
ValuesProps.v
Releases.v
ReleasesInv.v
ReleasesRows.v
ReleasesProps.v
ControlPlane.v
ControlPlaneProps.v
Shell.v
Config.v
ConfigProps.v
Deploy.v
DeployProps.v
Health.v
HealthProps.v
Observability.v
ObservabilityProps.v
Graphql.v
GraphqlProps.v
Spans.v
SpansProps.v
Integrations.v
IntegrationsProps.v
Compose.v
ComposeProps.v
Script.v
Backup.v
Stamps.v
BackupProps.v
Schema.v
SchemaProps.v
Migrations.v
MigrationsProps.v
Api.v
Isolation.v
Cli.v
CliProps.v
Ecosystem.v
EcosystemProps.v
Settings.v
Http.v
HttpProps.v
Runtime.v
RuntimeProps.v
