(* ===== verification/Prelude.v ===== *)
(** * A verified model of DjangoOps

    DjangoOps has two halves.  The control plane ([src/controlplane/]) is a Django
    application with a gRPC gateway: agents connect to the gateway, users start
    diagnoses and Kubernetes releases through GraphQL or HTML forms, background
    tasks carry the jobs to the agents and record what comes back.  The command
    line ([src/cli/djangoops/]) writes the configuration of a project, generates its
    Docker Compose stack, and deploys, checks, backs up and restores it over SSH.
    Both use the bounded integrations of [cli/djangoops/integrations.py].

    ** How the files correspond to the program

    Shared ground:
    - [Prelude]: exceptions, results, labelled executions, tactics.
    - [Text], [Regex], [Json] with [JsonEq], [Builtins], [Url], [Sha256], [Dict]: the strings,
      patterns, JSON texts, conversions, URLs, digests and dictionaries of Python,
      as far as the sources use them.
    - [Redaction]: substituting a pattern away leaves no match of it.
    - [Store]: database tables behind the ORM ([Table] with its laws [TableLaws]),
      and threads, whose statements may be interleaved with those of others.

    The control plane:
    - [Gateway]: [AgentGateway] of [gateway.py], one definition per method.
      [GatewaySystem] interleaves connections, job streams and cancellations at
      their awaits, the waiting for [_lock] among them; [GatewayInv], [GatewayStreams], [GatewayJobs], [GatewayOrigin],
      [GatewayRuns], [GatewayCancels] hold the invariants and [GatewayProps] the
      properties.
    - [Telemetry]: [telemetry.py], with its concurrent clients in [Spans];
      [Observability]: [observability.py].
    - [Models]: the rows of [models.py]; [Services]: [services.py]; [Kubernetes]:
      [kubernetes.py] with [kubernetes_observability.py].
    - [Pipeline]: the task [_consume] of [services.py] composed with the running
      gateway, with requests and with the table, one step per piece between two
      awaits; [PipelineInv] holds its invariants.
    - [Releases]: [start_release] and [_run] of [kubernetes.py] composed with the
      running gateway and the tables: request threads in [future.result], coroutines
      on the event loop, their time-outs and cancellations; [ReleasesInv] and
      [ReleasesRows] hold its invariants.
    - [ControlPlane]: [Pipeline] and [Releases] on one gateway.
    - [Migrations]: the model classes of [models.py] and both migrations, as data.
    - [Graphql]: the resource check and the view of [graphql/views.py]; [Schema] and
      [Api]: the types, resolvers and root types of [graphql/schema.py], and the
      views of [views.py].
    - [Ecosystem]: [ecosystem.py], [ecosystem_views.py] and the settings of
      [config.py].
    - [Settings] and [Http]: [settings.py] and [urls.py], and what each route runs
      under which decorators.
    - [Runtime]: [runtime.py], [gateway_runtime.py], [server.py], [webserver.py],
      the polling of [wait_for_agent], and the hooks of [apps.py].

    The command line:
    - [Config]: [config.py]; [Integrations]: [integrations.py] and
      [ecosystem_config.py]; [Compose]: [compose.py].
    - [Shell] and [Script]: quoting, and the part of the POSIX shell that reads the
      commands back; [Deploy]: [deploy.py]; [Health]: [health.py]; [Backup]:
      [backup.py]; [Stamps]: the time stamps in identifiers.
    - [Cli]: [cli.py], with the file operations of [config.py] and [compose.py].

    A file [XProps] holds the properties of [X], [ValuesProps] those of the Helm
    values of [Kubernetes] as text, [Isolation] those that cross [Schema], [Api],
    [Services] and [Kubernetes].

    ** How the parts interact

    A mutation of [Api] looks its rows up ([Schema]), then runs a thread of
    [Services] or [Kubernetes] on its part of the database.  These call a backend
    ([OperationsBackend], [KubernetesBackend]): records of functions, instantiated
    by [RuntimeGatewayBackend] and [RuntimeKubernetesBackend] with what the gateway
    answers.  The task [consume] reads the frames of a job stream, a list; [Pipeline]
    runs it frame by frame against the gateway of [GatewaySystem], and
    [task_refines_consume] says that what it writes is what [consume] writes for the
    frames that were delivered.  [Releases] does the same for the backend of
    [start_release]: [releases_refine_requests] says that tables and requests evolve
    as in some run of the sequential requests whose backends answer what the gateway
    delivered, so what [KubernetesProps] proves for any backend holds with the
    gateway in the loop.  Both compositions let the gateway do anything else
    meanwhile; [sides_are_independent] shows that this covers running them together,
    and [sides_share_limits] that together they keep the limits of the gateway.
    [Http.serve] dispatches a request to [Graphql],
    [Schema], [Api] or [Ecosystem]; a GraphQL document becomes a thread that runs
    several fields of [Api.Mutation].  [Runtime] builds the gateway from the settings
    of [Ecosystem] and registers it for the backends.
    Saved rows reach [Observability], which counts them in [Telemetry].  The
    ecosystem view runs the parser and the evaluation of [Integrations].  The
    command line composes [Config], [Compose], [Deploy], [Health] and [Backup].

    ** What the theorems show

    - Gateway: along every interleaving, streams are in
      order, queues and admission keep their bounds, the window of completed ids is
      the specified one, an active job has a running generator or a caller that was
      cancelled while it waited for the queue or the lock, sessions were
      authenticated, an accepted cancellation is told to the agent, and agents do
      not touch one another's jobs; a connection aborted while its consumer reads
      and its queue is full locks its agent out.
    - Diagnoses: finished operations are never rewritten, the
      history keeps the newest, a result is recorded in its row only, and every
      stored row is declared and bounded, its messages and details redacted; which
      rows fit their columns is exact.
    - Pipeline: a task that ended has settled its operation, refines [consume], can
      always be ended by its timeout, and stores frames of the operation's own agent.
    - Releases: one open release per key, ended ones stay, Helm
      values are free of secrets, do not depend on the order of their keys, and the
      text that is sent reads back as the stored values with the correlation id.
    - Release pipeline: it refines the sequential requests, a release is recorded as
      succeeded or rolled back only on the word of its own agent, and an active one
      is driven by a run or was refused with an exception nothing catches.
    - Control plane: diagnoses and releases on one gateway do not disturb each
      other, and share its limit of jobs per agent and its job ids.
    - GraphQL and views: users see and change rows of their
      own projects only, stored operations and targets can always be served and
      releases while their revisions are GraphQL integers, the form does what the
      mutation does, and the resource check measures the expanded query, or meets
      the recursion limit.
    - HTTP and processes: a request of a user, also one with several mutations,
      stays in the user's projects and an anonymous one changes nothing; outside
      debug mode the site is locked down; a server runs only with credentials and a
      registered gateway; waiting for an agent ends; hooks are installed once.
    - Schema: the migrations build what the model classes declare.
    - Telemetry: bounded state, one line per sample, every outcome
      counted, and once while it is remembered, and a gauge that counts the requests
      in flight.
    - Integrations: what parsing accepts evaluates, also behind the
      view, and a configuration reads back as it was rendered.
    - Configuration and command line: configurations round-trip and
      upgrade to the current schema, new files are complete, or absent unless their
      clean-up failed or was interrupted, and [init] is followed by a successful
      [compose].
    - Compose: the document refers to what it declares, and only its
      templates are substituted.
    - Deployment, health, backups: commands are read as
      meant, stages and rollbacks come in order, archives hold the deployable
      files, reports are exact, restores check and save before they replace.

    Theorems named with a C number are the properties; the others are further behaviour
    worth keeping, among them the consequences of defects (for instance
    [failed_upgrade_loses_configuration]).  The hypotheses of a property are met by a
    concrete run, its witness.

    ** Bounds and fuel

    The limits of the sources keep their values ([MAX_JOB_EVENTS] 32, the history
    of 200 operations, [MAX_SEEN] 2048, pages of 50, eight integrations, ...).
    Recursion with fuel: repetition in [Regex.results] has one unit per character
    left, enough because an iteration that consumes nothing is not repeated;
    [Json.parse_value] one unit per character; the fuel of [Graphql.walk] is the
    number of calls Python's recursion limit leaves to it, and running out of it is
    the [RecursionError] of the program; [Runtime.wait_until] one unit per look, of
    which [timeout / 50 + 2] are enough.  Integers are exact; the widths that matter are
    checked where they are used (32-bit words of [Sha256], GraphQL [Int] in
    [Schema.conforms], unsigned sequence numbers of frames).

    ** What is not modelled

    Text is Latin-1.  Times are integers.  Floats do not occur in Helm values;
    YAML floats are opaque fractions.  Django's ORM, graphql-core, grpc, asyncio,
    PyYAML, argparse's splitting of arguments, subprocesses and remote programs are
    arguments of the definitions that use them, with the laws they are relied on
    for ([TableLaws], [YamlLaws], [UrlChecks], [redirects_anonymous],
    [refuses_methods], [runs_fields]).  Django's middleware, CSRF protection among
    it, can only refuse requests that [Http] serves.  A refused [Connect] is the only
    holder of the gateway's lock that suspends inside ([context.abort]): the lock
    needs no field, since whoever waits for it goes on, where it gets it, in one
    piece, or is cancelled while it waits ([ALockCancelled], [AAbort]).  The tasks of
    [Pipeline] and the requests of [Releases] meet no database error, and the gateway
    stays registered and its event loop running meanwhile; in [Releases] the answers
    of [cancel] and [validate] are arbitrary.  Left out as
    glue, generated or of another language: [protocol.py], [asgi.py], [wsgi.py],
    the protobuf bindings, the templates, the Go agent, the Helm chart
    and the examples. *)

From Stdlib Require Export Ascii.
From stdpp Require Export base gmap strings list pretty.

#[export] Set Warnings "-clear-no-such-hyp,-register-all".

(** * Python values the components share *)

(** Exceptions the modelled code raises and catches by class.  The payload is
    the message handed to the constructor ([str(exc)]). *)
Inductive exn :=
| ValueError (msg : string)
| LookupError (msg : string)
| RuntimeError (msg : string)
| TimeoutError (msg : string)
| OtherError (msg : string).

#[export] Instance exn_eq_dec : EqDecision exn.
Proof. solve_decision. Defined.

(** Fallible code: the value it returns, or the error it raises. *)
Inductive result (E A : Type) :=
| Ok (a : A)
| Err (e : E).
Arguments Ok {E A} _.
Arguments Err {E A} _.

#[export] Instance result_eq_dec {E A} `{EqDecision E, EqDecision A} :
  EqDecision (result E A).
Proof. solve_decision. Defined.

#[export] Instance result_ret {E} : MRet (result E) := λ A a, Ok a.
#[export] Instance result_bind {E} : MBind (result E) :=
  λ A B f m, match m with Ok a => f a | Err e => Err e end.

(** [if c: raise e]. *)
Definition raise_if {E} (c : bool) (e : E) : result E () :=
  if c then Err e else Ok ().

(** [if not c: raise e]. *)
Definition require {E} (c : bool) (e : E) : result E () :=
  if c then Ok () else Err e.

Definition is_ok {E A} (m : result E A) : bool :=
  match m with Ok _ => true | Err _ => false end.

Lemma bind_ok {E A B} (m : result E A) (f : A → result E B) b :
  m ≫= f = Ok b → ∃ a, m = Ok a ∧ f a = Ok b.
Proof. destruct m as [a|e]; [|done]. eauto. Qed.

Lemma bind_err {E A B} (m : result E A) (f : A → result E B) e :
  m ≫= f = Err e → m = Err e ∨ ∃ a, m = Ok a ∧ f a = Err e.
Proof. destruct m as [a|e']; cbn; [by eauto|]. intros [= ->]. by left. Qed.

Lemma raise_if_ok {E} c (e : E) u : raise_if c e = Ok u → c = false.
Proof. by destruct c. Qed.

(** * Bounded queues

    [asyncio.Queue(maxsize=n)] and [queue.Queue(maxsize=n)] with [n > 0]: a put
    succeeds at once when the queue has room and otherwise blocks (or, for
    [put_nowait], raises [Full]); a get takes the oldest element. *)
Definition has_room {A} (maxsize : nat) (q : list A) : bool :=
  bool_decide (length q < maxsize).

Lemma NoDup_omap_snd {A B C} (f : A → option (B * C)) (l : list A) :
  (∀ i i' x x' w w', l !! i = Some x → l !! i' = Some x' → f x = Some w → f x' = Some w' →
     w.2 = w'.2 → i = i') →
  NoDup (omap f l).*2.
Proof.
  induction l as [|x l IH]; intros Hf; [constructor|].
  assert (IH' : NoDup (omap f l).*2).
  { apply IH. intros i i' y y' w w' Hi Hi' Hw Hw' E.
    by injection (Hf (S i) (S i') y y' w w' Hi Hi' Hw Hw' E). }
  cbn. destruct (f x) as [w|] eqn:E; [|done]. cbn. constructor; [|done].
  rewrite list_elem_of_fmap. intros (w' & Ew & Hin).
  apply list_elem_of_omap in Hin as (y & [i Hi]%list_elem_of_lookup & Hy).
  by specialize (Hf 0 (S i) x y w w' eq_refl Hi E Hy Ew).
Qed.

Lemma filter_length_sublist {A} (P : A → Prop) `{!∀ x, Decision (P x)} (l1 l2 : list A) :
  l1 `sublist_of` l2 → length (filter P l1) ≤ length (filter P l2).
Proof.
  induction 1; rewrite ?filter_nil, ?filter_cons; repeat case_decide; simpl; lia.
Qed.

Lemma filter_all {A} (P : A → Prop) `{!∀ x, Decision (P x)} l : Forall P l → filter P l = l.
Proof. induction 1 as [|x l Hx Hl IH]; [done|]. by rewrite filter_cons_True, IH. Qed.

(** * Labelled executions *)

Section exec.
  Context {S L : Type} (step : S → L → S → Prop).

(** [exec s tr s']: a finite run from [s] to [s'] whose steps carry the labels [tr]. *)
Inductive exec : S → list L → S → Prop :=
| exec_nil s : exec s [] s
| exec_cons s l s1 tr s2 : step s l s1 → exec s1 tr s2 → exec s (l :: tr) s2.

Definition reachable (init : S → Prop) (s : S) : Prop :=
  ∃ s0 tr, init s0 ∧ exec s0 tr s.

Lemma exec_one s l s' : step s l s' → exec s [l] s'.
Proof. intros. eapply exec_cons; [done | constructor]. Qed.

Lemma exec_app s tr1 s1 tr2 s2 :
  exec s tr1 s1 → exec s1 tr2 s2 → exec s (tr1 ++ tr2) s2.
Proof. induction 1; simpl; eauto using exec. Qed.

Lemma exec_snoc_inv s tr l s' :
  exec s (tr ++ [l]) s' → ∃ s1, exec s tr s1 ∧ step s1 l s'.
Proof.
  revert s. induction tr as [|l0 tr IH]; intros s; simpl; inversion 1; subst.
  - match goal with H : exec _ [] _ |- _ => inversion H; subst end.
    eauto using exec.
  - edestruct IH as (s3 & ? & ?); eauto using exec.
Qed.

(** Induction from the right: the usual principle for trace invariants. *)
Lemma exec_ind_r s (P : list L → S → Prop) :
  P [] s →
  (∀ tr s1 l s2, exec s tr s1 → P tr s1 → step s1 l s2 → P (tr ++ [l]) s2) →
  ∀ tr s', exec s tr s' → P tr s'.
Proof.
  intros Hnil Hstep tr. induction tr as [|l tr IH] using rev_ind; intros s' Hex.
  - by inversion Hex; subst.
  - apply exec_snoc_inv in Hex as (s1 & Hex & ?). eauto.
Qed.

(** An invariant that steps preserve holds along every run. *)
Lemma exec_invariant (I : S → Prop) :
  (∀ s l s', I s → step s l s' → I s') →
  ∀ s tr s', exec s tr s' → I s → I s'.
Proof. intros Hpres. induction 1; eauto. Qed.

(** The same for a property that steps of runs from [s0] preserve. *)
Lemma exec_stable s0 (I : S → Prop) :
  (∀ tr s l s', exec s0 tr s → I s → step s l s' → I s') →
  ∀ tr1 s1 tr2 s2, exec s0 tr1 s1 → I s1 → exec s1 tr2 s2 → I s2.
Proof.
  intros Hpres tr1 s1 tr2 s2 Hex Hi Hex2. revert tr1 Hex Hi.
  induction Hex2 as [|s l s' tr s2 Hstep _ IH]; intros tr1 Hex Hi; [done|].
  eapply (IH (tr1 ++ [l])); [|by eapply Hpres].
  eapply exec_app; [done|by apply exec_one].
Qed.

Lemma reachable_invariant (init I : S → Prop) :
  (∀ s, init s → I s) →
  (∀ s l s', I s → step s l s' → I s') →
  ∀ s, reachable init s → I s.
Proof. intros Hi Hp s (s0 & tr & ? & ?). eapply exec_invariant; eauto. Qed.

Lemma reachable_step (init : S → Prop) s l s' :
  reachable init s → step s l s' → reachable init s'.
Proof.
  intros (s0 & tr & ? & ?) ?. exists s0, (tr ++ [l]). split; [done|].
  eapply exec_app; eauto using exec_one.
Qed.
End exec.

(** * Tactics and hints *)

Create HintDb ops discriminated.

(** A choice for each entry of a list. *)
Lemma choose_each {A B} (P : nat → A → B → Prop) (l : list A) (b0 : B) :
  (∀ i x, l !! i = Some x → ∃ b, P i x b) → ∃ f, ∀ i x, l !! i = Some x → P i x (f i).
Proof.
  induction l as [|x l IH] using rev_ind; intros Hl; [by exists (λ _, b0)|].
  destruct IH as [f Hf]; [intros i y Hi; apply Hl; by apply lookup_app_l_Some|].
  destruct (Hl (length l) x) as [b Hb]; [by rewrite list_lookup_middle|].
  exists (λ i, if decide (i = length l) then b else f i). intros i y Hi.
  apply lookup_app_Some in Hi as [Hi|[Hge [Ei <-]%list_lookup_singleton_Some]].
  - rewrite decide_False; [auto|]. intros ->. by apply lookup_lt_Some in Hi; lia.
  - assert (i = length l) as -> by lia. by rewrite decide_True.
Qed.

(** Splits the monadic binds and conditionals of a hypothesis [H : m = r]. *)
Ltac inv_res H :=
  repeat (progress (cbn in H) ||
    match type of H with
    | context [match ?x with _ => _ end] =>
        let E := fresh "E" in destruct x eqn:E; try discriminate H
    end).

(** The intermediate results of a hypothesis [H : m ≫= ... = Ok r]. *)
Ltac binds H :=
  repeat match type of H with
  | _ ≫= _ = Ok _ => apply bind_ok in H; destruct H as (? & ? & H); cbn beta in H
  end.

(** Case analysis on every conditional of the goal. *)
Ltac split_match :=
  repeat match goal with
  | |- context [match ?x with _ => _ end] => let E := fresh "E" in destruct x eqn:E
  end.

(** Turns boolean facts into propositions. *)
Ltac bool_to_prop :=
  rewrite ?andb_true_iff, ?orb_true_iff, ?negb_true_iff,
    ?andb_false_iff, ?orb_false_iff, ?negb_false_iff,
    ?bool_decide_eq_true, ?bool_decide_eq_false in *.
