(* ===== verification/Text.v ===== *)
(** Python [str] values and the [str] methods the sources call.

    A [str] is modelled as a Rocq [string] whose characters are the code points
    0..255 (the Latin-1 range): each predicate and method below is the Python
    one on that range ([str.isspace], [\w], [str.lower], ...). *)

From S2P Require Import Prelude.

Open Scope string_scope.
Open Scope list_scope.
Open Scope nat_scope.

(** * Characters *)

Definition code (c : ascii) : nat := nat_of_ascii c.
Definition char (n : nat) : ascii := ascii_of_nat n.

(** The one-character strings a Rocq literal cannot hold or that read badly. *)
Definition dquote : string := String (char 34) EmptyString.
Definition newline : string := String (char 10) EmptyString.
Definition tab : string := String (char 9) EmptyString.
Definition cr : string := String (char 13) EmptyString.

Definition in_range (lo hi : nat) (c : ascii) : bool :=
  (lo <=? code c) && (code c <=? hi).

Definition is_digit : ascii → bool := in_range 48 57.
Definition is_upper : ascii → bool := in_range 65 90.
Definition is_lower : ascii → bool := in_range 97 122.
Definition is_alpha (c : ascii) : bool := is_upper c || is_lower c.
Definition is_alnum (c : ascii) : bool := is_alpha c || is_digit c.
(** [[A-Za-z]] and friends are the ASCII classes above; [\w] and [\s] of a
    [str] pattern are the Unicode classes, here on code points below 256. *)
Definition is_word (c : ascii) : bool :=
  is_alnum c || (code c =? 95) || (code c =? 170) || in_range 178 179 c ||
  (code c =? 181) || in_range 185 186 c || in_range 188 190 c ||
  in_range 192 214 c || in_range 216 246 c || in_range 248 255 c.
Definition is_space (c : ascii) : bool :=
  in_range 9 13 c || in_range 28 32 c || (code c =? 133) || (code c =? 160).

(** [c in chars]. *)
Fixpoint char_in (c : ascii) (chars : string) : bool :=
  match chars with
  | EmptyString => false
  | String d rest => Ascii.eqb c d || char_in c rest
  end.

(** [str.lower] on one code point below 256. *)
Definition lower_char (c : ascii) : ascii :=
  if is_upper c || (in_range 192 222 c && negb (code c =? 215))
  then char (code c + 32) else c.

(** * Methods *)

Fixpoint str_map (f : ascii → ascii) (s : string) : string :=
  match s with
  | EmptyString => EmptyString
  | String c rest => String (f c) (str_map f rest)
  end.

Definition lower : string → string := str_map lower_char.

Fixpoint str_forallb (p : ascii → bool) (s : string) : bool :=
  match s with
  | EmptyString => true
  | String c rest => p c && str_forallb p rest
  end.

Definition str_existsb (p : ascii → bool) (s : string) : bool :=
  negb (str_forallb (λ c, negb (p c)) s).

(** [s.isascii()]. *)
Definition is_ascii (s : string) : bool := str_forallb (in_range 0 127) s.

(** [s[:n]] for [n >= 0]. *)
Fixpoint str_take (n : nat) (s : string) : string :=
  match n, s with
  | S n, String c rest => String c (str_take n rest)
  | _, _ => EmptyString
  end.

(** [s[n:]] for [n >= 0]. *)
Fixpoint str_drop (n : nat) (s : string) : string :=
  match n, s with
  | S n, String _ rest => str_drop n rest
  | _, _ => s
  end.

(** [s.startswith(p)]. *)
Fixpoint startswith (p s : string) : bool :=
  match p, s with
  | EmptyString, _ => true
  | String a p, String b s => Ascii.eqb a b && startswith p s
  | String _ _, EmptyString => false
  end.

(** [p in s]. *)
Fixpoint contains (p s : string) : bool :=
  startswith p s ||
  match s with EmptyString => false | String _ rest => contains p rest end.

(** [s.endswith(p)]. *)
Definition endswith (p s : string) : bool :=
  (String.length p <=? String.length s) &&
  String.eqb p (str_drop (String.length s - String.length p) s).

(** [s.removesuffix(p)] (for non-empty [p]). *)
Definition removesuffix (p s : string) : string :=
  if endswith p s then str_take (String.length s - String.length p) s else s.

Fixpoint lstrip_by (p : ascii → bool) (s : string) : string :=
  match s with
  | String c rest => if p c then lstrip_by p rest else s
  | EmptyString => EmptyString
  end.

Fixpoint rstrip_by (p : ascii → bool) (s : string) : string :=
  match s with
  | EmptyString => EmptyString
  | String c rest =>
      match rstrip_by p rest with
      | EmptyString => if p c then EmptyString else String c EmptyString
      | rest' => String c rest'
      end
  end.

(** [s.strip()], [s.rstrip(chars)], [s.lstrip(chars)]. *)
Definition strip (s : string) : string := rstrip_by is_space (lstrip_by is_space s).
Definition rstrip (chars s : string) : string := rstrip_by (λ c, char_in c chars) s.
Definition lstrip (chars s : string) : string := lstrip_by (λ c, char_in c chars) s.

(** [s.split(sep)] for a one-character separator: never empty. *)
Fixpoint split_on (sep : ascii) (s : string) : list string :=
  match s with
  | EmptyString => [EmptyString]
  | String c rest =>
      if Ascii.eqb c sep then EmptyString :: split_on sep rest
      else match split_on sep rest with
           | [] => [String c EmptyString]
           | w :: ws => String c w :: ws
           end
  end.

(** [s.split()]: maximal runs of non-blank characters; [word] is the run in
    progress. *)
Fixpoint split_ws_from (word s : string) : list string :=
  match s with
  | EmptyString => if String.eqb word EmptyString then [] else [word]
  | String c rest =>
      if is_space c
      then (if String.eqb word EmptyString then [] else [word]) ++ split_ws_from EmptyString rest
      else split_ws_from (word +:+ String c EmptyString) rest
  end.

Definition split_ws (s : string) : list string := split_ws_from EmptyString s.

(** [s.splitlines()]; [line] is the line in progress. *)
Definition is_line_break (c : ascii) : bool :=
  in_range 10 13 c || in_range 28 30 c || (code c =? 133).

Fixpoint splitlines_from (line s : string) : list string :=
  match s with
  | EmptyString => if String.eqb line EmptyString then [] else [line]
  | String c rest =>
      if is_line_break c then
        line :: match rest with
                | String d rest' =>
                    if (code c =? 13) && (code d =? 10) then splitlines_from EmptyString rest'
                    else splitlines_from EmptyString rest
                | EmptyString => []
                end
      else splitlines_from (line +:+ String c EmptyString) rest
  end.

Definition splitlines (s : string) : list string := splitlines_from EmptyString s.

(** [sep.join(parts)]. *)
Fixpoint join (sep : string) (parts : list string) : string :=
  match parts with
  | [] => EmptyString
  | [p] => p
  | p :: rest => p +:+ sep +:+ join sep rest
  end.

(** [s.replace(c, by)] for a one-character pattern. *)
Fixpoint replace_char (c : ascii) (by_ : string) (s : string) : string :=
  match s with
  | EmptyString => EmptyString
  | String d rest =>
      (if Ascii.eqb d c then by_ else String d EmptyString) +:+ replace_char c by_ rest
  end.

(** [value in words] for a tuple or set of strings. *)
Definition str_in (value : string) (words : list string) : bool :=
  bool_decide (value ∈ words).

(** ** [pathlib.PurePosixPath]

    [is_absolute] is a leading slash; [parts] drops empty and ["."] segments,
    the first part being the root for an absolute path (["//"] keeps both
    slashes when there are exactly two). *)
Definition path_is_absolute (s : string) : bool := startswith "/" s.

Definition path_root (s : string) : string :=
  if startswith "///" s then "/"
  else if startswith "//" s then "//"
  else if startswith "/" s then "/" else "".

Definition path_segments (s : string) : list string :=
  filter (λ seg, seg ≠ "" ∧ seg ≠ ".") (split_on "/" s).

Definition path_parts (s : string) : list string :=
  (if path_is_absolute s then [path_root s] else []) ++ path_segments s.

(** [PurePosixPath.as_posix()]. *)
Definition path_as_posix (s : string) : string :=
  match path_segments s with
  | [] => if path_is_absolute s then path_root s else "."
  | segs => path_root s +:+ join "/" segs
  end.

(** [s.upper()].  Within Latin-1 only the sharp s grows; the micro sign and the y
    with diaeresis have uppercase forms outside the range of the model, and are
    kept. *)
Definition upper_char (c : ascii) : string :=
  if is_lower c || (in_range 224 254 c && negb (code c =? 247))
  then String (char (code c - 32)) EmptyString
  else if code c =? 223 then "SS" else String c EmptyString.

Fixpoint upper (s : string) : string :=
  match s with
  | EmptyString => EmptyString
  | String c rest => upper_char c +:+ upper rest
  end.

(** ** Decimal rendering of an [int] in an f-string *)
Definition str_of_Z (z : Z) : string := pretty z.

(** * Lemmas *)

Lemma char_eqb_eq a b : Ascii.eqb a b = true ↔ a = b.
Proof. apply Ascii.eqb_eq. Qed.

Lemma str_take_length n s : String.length (str_take n s) ≤ n.
Proof. revert s. induction n; intros []; simpl; [lia..|]. specialize (IHn s). lia. Qed.

Lemma str_take_ge n s : String.length s ≤ n → str_take n s = s.
Proof. revert s. induction n; intros []; simpl; intros; [done|lia|done|]. f_equal. apply IHn. lia. Qed.

Lemma str_in_spec v ws : str_in v ws = true ↔ v ∈ ws.
Proof. unfold str_in. by rewrite bool_decide_eq_true. Qed.

Lemma str_app_nil_l (s : string) : "" +:+ s = s.
Proof. done. Qed.

Lemma str_app_cons c (a b : string) : String c a +:+ b = String c (a +:+ b).
Proof. done. Qed.

Lemma str_app_nil_r (s : string) : s +:+ "" = s.
Proof. induction s as [|c s IH]; [done|]. by rewrite str_app_cons, IH. Qed.

Lemma str_app_assoc (a b c : string) : a +:+ (b +:+ c) = (a +:+ b) +:+ c.
Proof. induction a as [|x a IH]; [done|]. by rewrite !str_app_cons, IH. Qed.

Lemma split_on_not_nil sep s : split_on sep s ≠ [].
Proof. destruct s; simpl; [done|]. case_match; [done|]. by destruct (split_on sep s). Qed.

Lemma join_cons sep p ps : ps ≠ [] → join sep (p :: ps) = p +:+ sep +:+ join sep ps.
Proof. by destruct ps. Qed.

(** [sep.join(s.split(sep)) == s]. *)
Lemma join_split_on sep s : join (String sep "") (split_on sep s) = s.
Proof.
  induction s as [|c s IH]; [done|]. cbn [split_on].
  pose proof (split_on_not_nil sep s) as Hne.
  destruct (Ascii.eqb c sep) eqn:E.
  - apply char_eqb_eq in E as ->. rewrite join_cons, IH by done.
    by rewrite str_app_nil_l, str_app_cons, str_app_nil_l.
  - destruct (split_on sep s) as [|w ws] eqn:Hs; [done|]. destruct ws as [|w' ws].
    + cbn [join] in *. by rewrite IH.
    + rewrite join_cons in * by done. by rewrite str_app_cons, IH.
Qed.

Lemma str_forallb_app p a b :
  str_forallb p (a +:+ b) = str_forallb p a && str_forallb p b.
Proof.
  induction a as [|c a IH]; [done|].
  rewrite str_app_cons. simpl. by rewrite IH, andb_assoc.
Qed.

Lemma startswith_spec p s : startswith p s = true ↔ ∃ r, s = p +:+ r.
Proof.
  split.
  - revert s. induction p as [|a p IH]; intros s; [by exists s|]. destruct s as [|b s]; [done|].
    cbn [startswith]. intros [->%char_eqb_eq (r & ->)%IH]%andb_true_iff. by exists r.
  - intros (r & ->). induction p as [|a p IH]; [done|]. rewrite str_app_cons. cbn [startswith].
    by rewrite Ascii.eqb_refl.
Qed.

Create Rewrite HintDb text.
#[export] Hint Rewrite str_app_nil_l str_app_cons str_app_nil_r str_forallb_app : text.

#[global] Arguments str_take : simpl never.
#[global] Arguments str_drop : simpl never.
