(* ===== verification/Regex.v ===== *)
(** The part of Python's [re] module the sources use: patterns as syntax trees,
    the backtracking matcher with greedy repetition, [fullmatch], [search] and
    [sub].

    [results r s] lists, in the order the backtracking engine tries them, what
    is left of [s] after each way [r] matches a prefix of it.  [fullmatch]
    succeeds when one of them leaves nothing; [match] and [sub] commit to the
    first.  [results_spec] proves that the list is exactly the language
    semantics [lang], so a pattern can be reasoned about without its search. *)

From S2P Require Import Prelude Text.

Open Scope list_scope.
Open Scope nat_scope.

(** * Syntax *)

Inductive re :=
| Eps
| Cls (p : ascii → bool)
| Seq (r1 r2 : re)
| Alt (r1 r2 : re)
| Rep (r : re) (lo : nat) (hi : option nat).

Declare Scope re_scope.
Delimit Scope re_scope with re.
Bind Scope re_scope with re.
Infix "⋅" := Seq (at level 41, right associativity) : re_scope.
Infix "∥" := Alt (at level 51, right associativity) : re_scope.

(** [r*], [r+], [r?], [r{lo,hi}], one literal character, a literal string. *)
Definition Star (r : re) : re := Rep r 0 None.
Definition Plus (r : re) : re := Rep r 1 None.
Definition Opt (r : re) : re := Rep r 0 (Some 1).
Definition Between (r : re) (lo hi : nat) : re := Rep r lo (Some hi).
Definition Chr (c : ascii) : re := Cls (Ascii.eqb c).

Fixpoint Lit (s : string) : re :=
  match s with
  | EmptyString => Eps
  | String c rest => Seq (Chr c) (Lit rest)
  end.

(** A literal under [re.IGNORECASE]. *)
Fixpoint ILit (s : string) : re :=
  match s with
  | EmptyString => Eps
  | String c rest => Seq (Cls (λ d, Ascii.eqb (lower_char c) (lower_char d))) (ILit rest)
  end.

(** Character classes: one of the listed characters, and complement. *)
Definition one_of (chars : string) (c : ascii) : bool := char_in c chars.
Definition or_class (p q : ascii → bool) (c : ascii) : bool := p c || q c.
Definition not_class (p : ascii → bool) (c : ascii) : bool := negb (p c).

(** * The matcher *)

Abbreviation text := (list ascii).

(** Up to [fuel] more rounds of [step], the longest first; a round that
    consumes nothing is not repeated. *)
Fixpoint greedy (step : text → list text) (fuel : nat) (s : text) : list text :=
  match fuel with
  | 0 => [s]
  | S fuel =>
      flat_map (λ s', if length s' <? length s then greedy step fuel s' else []) (step s)
      ++ [s]
  end.

Fixpoint exactly (step : text → list text) (n : nat) (s : text) : list text :=
  match n with
  | 0 => [s]
  | S n => flat_map (exactly step n) (step s)
  end.

Fixpoint results (r : re) (s : text) : list text :=
  match r with
  | Eps => [s]
  | Cls p =>
      match s with
      | c :: rest => if p c then [rest] else []
      | [] => []
      end
  | Seq r1 r2 => flat_map (results r2) (results r1 s)
  | Alt r1 r2 => results r1 s ++ results r2 s
  | Rep r lo hi =>
      flat_map
        (λ s', greedy (results r) (match hi with Some hi => hi - lo | None => length s' end) s')
        (if match hi with Some hi => lo <=? hi | None => true end
         then exactly (results r) lo s else [])
  end.

(** [re.compile(r).fullmatch(s) is not None].  The anchors [^] and [$] of the
    sources' patterns are redundant under [fullmatch] and are not represented. *)
Definition fullmatch (r : re) (s : string) : bool :=
  existsb (λ rest, match rest with [] => true | _ => false end)
    (results r (String.list_ascii_of_string s)).

(** [re.compile(r).search(s) is not None]. *)
Fixpoint search_text (r : re) (s : text) : bool :=
  match results r s with
  | _ :: _ => true
  | [] => match s with [] => false | _ :: rest => search_text r rest end
  end.
Definition search (r : re) (s : string) : bool :=
  search_text r (String.list_ascii_of_string s).

(** [re.compile(r).sub(by, s)] for a pattern that matches no empty string:
    leftmost matches, not overlapping, each the first the matcher finds. *)
Fixpoint sub_text (fuel : nat) (r : re) (by_ s : text) : text :=
  match fuel with
  | 0 => s
  | S fuel =>
      match s with
      | [] => []
      | c :: rest =>
          match results r s with
          | s' :: _ =>
              if length s' <? length s then by_ ++ sub_text fuel r by_ s'
              else c :: sub_text fuel r by_ rest
          | [] => c :: sub_text fuel r by_ rest
          end
      end
  end.
Definition sub (r : re) (by_ s : string) : string :=
  let s := String.list_ascii_of_string s in
  String.string_of_list_ascii
    (sub_text (S (length s)) r (String.list_ascii_of_string by_) s).

(** * Language semantics *)

Fixpoint lang (r : re) : text → Prop :=
  match r with
  | Eps => λ s, s = []
  | Cls p => λ s, ∃ c, s = [c] ∧ p c = true
  | Seq r1 r2 => λ s, ∃ s1 s2, s = s1 ++ s2 ∧ lang r1 s1 ∧ lang r2 s2
  | Alt r1 r2 => λ s, lang r1 s ∨ lang r2 s
  | Rep r lo hi => λ s, ∃ ss, s = concat ss ∧ Forall (lang r) ss ∧ lo ≤ length ss ∧
      match hi with Some hi => length ss ≤ hi | None => True end
  end.

Definition lang_str (r : re) (s : string) : Prop :=
  lang r (String.list_ascii_of_string s).

(** * Correctness of the matcher *)

Section steps.
  Context (step : text → list text) (L : text → Prop).
  Hypothesis step_spec :
    ∀ s rest, rest ∈ step s ↔ ∃ p, s = p ++ rest ∧ L p.

Lemma exactly_spec n s rest :
  rest ∈ exactly step n s ↔
  ∃ ss, s = concat ss ++ rest ∧ Forall L ss ∧ length ss = n.
Proof.
  revert s. induction n as [|n IH]; intros s; cbn [exactly].
  - rewrite list_elem_of_singleton. split.
    + intros ->. by exists [].
    + intros ([|] & -> & _ & ?); [done|discriminate].
  - rewrite list_elem_of_In, in_flat_map. setoid_rewrite <- list_elem_of_In. split.
    + intros (s' & (p & -> & Hp)%step_spec & (ss & -> & Hss & Hn)%IH).
      exists (p :: ss). simpl. rewrite <- app_assoc, Hn. auto.
    + intros ([|p ss] & -> & Hss & [= Hn]). inversion Hss; subst.
      exists (concat ss ++ rest). split.
      * apply step_spec. exists p. simpl. by rewrite <- app_assoc.
      * apply IH. eauto.
Qed.

Lemma greedy_sound fuel s rest :
  rest ∈ greedy step fuel s →
  ∃ ss, s = concat ss ++ rest ∧ Forall L ss ∧ length ss ≤ fuel.
Proof.
  revert s. induction fuel as [|fuel IH]; intros s; cbn [greedy].
  - intros ->%list_elem_of_singleton. by exists [].
  - rewrite elem_of_app, list_elem_of_singleton, list_elem_of_In, in_flat_map.
    setoid_rewrite <- list_elem_of_In. intros [(s' & (p & -> & Hp)%step_spec & Hin)| ->].
    + destruct (_ <? _); [|by apply elem_of_nil in Hin].
      apply IH in Hin as (ss & -> & Hss & Hn). exists (p :: ss).
      simpl. rewrite <- app_assoc. repeat split; [by constructor|lia].
    + exists []. repeat split; [constructor|simpl; lia].
Qed.

Lemma greedy_complete fuel ss rest :
  Forall L ss → Forall (λ p, p ≠ []) ss → length ss ≤ fuel →
  rest ∈ greedy step fuel (concat ss ++ rest).
Proof.
  revert ss. induction fuel as [|fuel IH]; intros ss HL Hne Hn; cbn [greedy].
  - destruct ss; simpl in *; [by apply list_elem_of_singleton|lia].
  - destruct ss as [|p ss].
    { rewrite elem_of_app, list_elem_of_singleton. by right. }
    inversion HL; inversion Hne; subst.
    rewrite elem_of_app, list_elem_of_In, in_flat_map. left.
    exists (concat ss ++ rest). rewrite <- list_elem_of_In. split.
    + apply step_spec. exists p. simpl. by rewrite <- app_assoc.
    + destruct p as [|c p]; [done|]. simpl concat.
      replace (_ <? _) with true
        by (symmetry; apply Nat.ltb_lt; cbn; rewrite !length_app; lia).
      rewrite <- list_elem_of_In. apply IH; [done..|]. simpl in Hn. lia.
Qed.
End steps.

Lemma concat_drop_empty (L : text → Prop) ss :
  Forall L ss →
  ∃ ss', concat ss' = concat ss ∧ Forall L ss' ∧ Forall (λ p, p ≠ []) ss' ∧
         length ss' ≤ length ss.
Proof.
  induction 1 as [|p ss Hp _ (ss' & Hc & HL & Hne & Hn)]; [by exists []|].
  destruct p as [|c p].
  - exists ss'. simpl. repeat split; [done..|lia].
  - exists ((c :: p) :: ss'). simpl. rewrite Hc. repeat split; [by constructor..|lia].
Qed.

Lemma concat_length_ge ss : Forall (λ p : text, p ≠ []) ss → length ss ≤ length (concat ss).
Proof.
  induction 1 as [|p ss Hp _ IH]; simpl; [done|].
  destruct p; [done|]. rewrite length_app. simpl. lia.
Qed.

(** The matcher finds exactly the splits of [s] whose first part is in the
    language of the pattern. *)
Lemma results_spec r s rest :
  rest ∈ results r s ↔ ∃ p, s = p ++ rest ∧ lang r p.
Proof.
  revert s rest. induction r as [|p|r1 IH1 r2 IH2|r1 IH1 r2 IH2|r IH lo hi]; intros s rest.
  - simpl. rewrite list_elem_of_singleton. split; [intros ->; by exists []|].
    by intros (? & -> & ->).
  - simpl. destruct s as [|c s]; [|destruct (p c) eqn:Hc];
      rewrite ?list_elem_of_singleton, ?elem_of_nil; split.
    + done.
    + intros (? & ? & (c & -> & ?)). done.
    + intros ->. exists [c]. eauto.
    + intros (? & ? & (c' & -> & ?)). by simplify_eq/=.
    + done.
    + intros (? & ? & (c' & -> & ?)). simplify_eq/=. congruence.
  - simpl. rewrite list_elem_of_In, in_flat_map. setoid_rewrite <- list_elem_of_In.
    setoid_rewrite IH1. setoid_rewrite IH2. split.
    + intros (s' & (p1 & -> & ?) & (p2 & -> & ?)). exists (p1 ++ p2).
      rewrite <- app_assoc. eauto 10.
    + intros (? & -> & (p1 & p2 & -> & ? & ?)). exists (p2 ++ rest).
      rewrite <- app_assoc. eauto 10.
  - simpl. rewrite elem_of_app, IH1, IH2. split.
    + intros [(q & -> & ?)|(q & -> & ?)]; eauto.
    + intros (q & -> & [?|?]); eauto.
  - cbn [results]. rewrite list_elem_of_In, in_flat_map. setoid_rewrite <- list_elem_of_In.
    split.
    + intros (s' & Hex & Hgr).
      destruct (match hi with Some hi => lo <=? hi | None => true end) eqn:Hb;
        [|by apply elem_of_nil in Hex].
      apply (exactly_spec _ _ IH) in Hex as (ss1 & -> & Hss1 & <-).
      apply (greedy_sound _ _ IH) in Hgr as (ss2 & -> & Hss2 & Hn2).
      exists (concat (ss1 ++ ss2)). rewrite concat_app, <- app_assoc. split; [done|].
      exists (ss1 ++ ss2). rewrite concat_app, length_app, Forall_app.
      repeat split; auto; [lia|].
      destruct hi; [apply Nat.leb_le in Hb; lia|done].
    + intros (p & -> & ss & -> & Hss & Hlo & Hhi).
      exists (concat (drop lo ss) ++ rest). split.
      * replace (match hi with Some hi => lo <=? hi | None => true end) with true
          by (destruct hi; [symmetry; apply Nat.leb_le; lia|done]).
        apply (exactly_spec _ _ IH). exists (take lo ss).
        rewrite app_assoc, <- concat_app, take_drop, length_take.
        repeat split; [by apply Forall_take|lia].
      * destruct (concat_drop_empty (lang r) (drop lo ss)) as (ss' & <- & HL & Hne & Hn);
          [by apply Forall_drop|].
        apply (greedy_complete _ _ IH); [done..|].
        rewrite length_drop in Hn. destruct hi; [lia|].
        rewrite length_app. pose proof (concat_length_ge ss' Hne). lia.
Qed.

Lemma fullmatch_spec r s : fullmatch r s = true ↔ lang_str r s.
Proof.
  unfold fullmatch, lang_str. rewrite existsb_exists. setoid_rewrite <- list_elem_of_In.
  setoid_rewrite results_spec. split.
  - intros ([|] & (p & -> & ?) & ?); [|done]. by rewrite app_nil_r.
  - intros H. exists []. split; [|done]. eexists. by rewrite app_nil_r.
Qed.

(** * Reading patterns built from character classes *)

Lemma lang_cls_rep p lo hi s :
  lang (Rep (Cls p) lo hi) s ↔
  forallb p s = true ∧ lo ≤ length s ∧ match hi with Some hi => length s ≤ hi | None => True end.
Proof.
  cbn [lang]. split.
  - intros (ss & -> & Hss & Hlo & Hhi).
    assert (length (concat ss) = length ss ∧ forallb p (concat ss) = true) as [Hl Hp].
    { clear Hlo Hhi. induction Hss as [|? ss (c & -> & Hc) _ [IH1 IH2]]; [done|].
      simpl. by rewrite IH1, IH2, Hc. }
    by rewrite Hl.
  - intros (Hp & Hb). exists (map (λ c, [c]) s). rewrite length_map.
    assert (concat (map (λ c, [c]) s) = s) as -> by (clear; induction s; simpl; congruence).
    split; [done|]. split; [|done]. rewrite Forall_forall. intros x.
    rewrite list_elem_of_In, in_map_iff. intros (c & <- & Hin). exists c.
    rewrite forallb_forall in Hp. auto.
Qed.

Lemma lang_cls_seq p r c s :
  lang (Seq (Cls p) r) (c :: s) ↔ p c = true ∧ lang r s.
Proof.
  cbn [lang]. split.
  - intros (? & s2 & Heq & (c' & -> & ?) & ?). by simplify_eq/=.
  - intros [? ?]. exists [c], s. eauto.
Qed.

Lemma lang_cls_seq_nil p r : ¬ lang (Seq (Cls p) r) [].
Proof. cbn [lang]. by intros (? & ? & ? & (c & -> & ?) & ?). Qed.

Lemma str_forallb_list p s :
  forallb p (String.list_ascii_of_string s) = str_forallb p s.
Proof. induction s; simpl; congruence. Qed.

Lemma length_list_ascii s : length (String.list_ascii_of_string s) = String.length s.
Proof. induction s; simpl; congruence. Qed.

(** [[A][B]{lo,hi}]: one character of a class, then a bounded run of another. *)
Definition head_tail (p q : ascii → bool) (lo : nat) (hi : option nat) (s : string) : bool :=
  match s with
  | EmptyString => false
  | String c rest =>
      p c && str_forallb q rest && (lo <=? String.length rest) &&
      match hi with Some hi => String.length rest <=? hi | None => true end
  end.

Lemma fullmatch_head_tail p q lo hi s :
  fullmatch (Seq (Cls p) (Rep (Cls q) lo hi)) s = head_tail p q lo hi s.
Proof.
  apply eq_true_iff_eq. rewrite fullmatch_spec. unfold lang_str.
  destruct s as [|c s]; simpl String.list_ascii_of_string; simpl head_tail.
  - split; [by intros ?%lang_cls_seq_nil|done].
  - rewrite lang_cls_seq, lang_cls_rep, str_forallb_list, length_list_ascii.
    rewrite !andb_true_iff, Nat.leb_le.
    destruct hi; rewrite ?Nat.leb_le; tauto.
Qed.

Lemma fullmatch_cls_rep p lo hi s :
  fullmatch (Rep (Cls p) lo hi) s =
  str_forallb p s && (lo <=? String.length s) &&
  match hi with Some hi => String.length s <=? hi | None => true end.
Proof.
  apply eq_true_iff_eq. rewrite fullmatch_spec. unfold lang_str.
  rewrite lang_cls_rep, str_forallb_list, length_list_ascii.
  rewrite !andb_true_iff, Nat.leb_le. destruct hi; rewrite ?Nat.leb_le; tauto.
Qed.

(** Patterns are read through the lemmas above, not by unfolding the matcher. *)
#[global] Arguments fullmatch : simpl never.
#[global] Arguments search : simpl never.
#[global] Arguments sub : simpl never.
