(* ===== verification/Dict.v ===== *)
(** Python dictionaries: finite maps that remember insertion order.

    Assigning to a present key keeps its position; a new key goes to the end;
    [pop] removes; iteration follows the order.  [dict_get_set] and its
    companions are the usual map laws; [dict_wf] (no key twice) is what every
    dictionary built by these operations satisfies. *)

From S2P Require Import Prelude.

Open Scope list_scope.

Section dict.
Context {K V : Type} `{EqDecision K}.

Abbreviation dict := (list (K * V)).
Implicit Types (d : dict) (k : K) (v : V).

Fixpoint dict_get d k : option V :=
  match d with
  | [] => None
  | (k', v) :: rest => if decide (k = k') then Some v else dict_get rest k
  end.

Fixpoint dict_set d k v : dict :=
  match d with
  | [] => [(k, v)]
  | (k', v') :: rest =>
      if decide (k = k') then (k', v) :: rest else (k', v') :: dict_set rest k v
  end.

Fixpoint dict_pop d k : dict :=
  match d with
  | [] => []
  | (k', v) :: rest => if decide (k = k') then rest else (k', v) :: dict_pop rest k
  end.

Definition dict_has d k : bool := bool_decide (k ∈ d.*1).

Definition dict_wf d : Prop := NoDup d.*1.

Lemma dict_get_set_eq d k v : dict_get (dict_set d k v) k = Some v.
Proof.
  induction d as [|[k' v'] d IH]; simpl; repeat (case_decide; simpl); simplify_eq; auto.
Qed.

Lemma dict_get_set_ne d k k' v : k ≠ k' → dict_get (dict_set d k v) k' = dict_get d k'.
Proof.
  intros. induction d as [|[k1 v1] d IH]; simpl; repeat (case_decide; simpl); simplify_eq; auto.
Qed.

Lemma dict_get_pop_ne d k k' : k ≠ k' → dict_get (dict_pop d k) k' = dict_get d k'.
Proof.
  intros. induction d as [|[k1 v1] d IH]; simpl; repeat (case_decide; simpl); simplify_eq; auto.
Qed.

Lemma dict_get_None d k : dict_get d k = None ↔ k ∉ d.*1.
Proof.
  induction d as [|[k' v] d IH]; simpl; [set_solver|].
  rewrite not_elem_of_cons. case_decide; naive_solver.
Qed.

Lemma dict_get_Some_elem d k v : dict_get d k = Some v → (k, v) ∈ d.
Proof.
  induction d as [|[k' v'] d IH]; simpl; [done|].
  case_decide; rewrite elem_of_cons; naive_solver.
Qed.

Lemma dict_get_elem d k v : dict_wf d → (k, v) ∈ d → dict_get d k = Some v.
Proof.
  unfold dict_wf. induction d as [|[k' v'] d IH]; simpl; [by intros _ ?%elem_of_nil|].
  rewrite NoDup_cons, elem_of_cons. intros [Hk Hwf] [?|Hin]; simplify_eq.
  - by rewrite decide_True.
  - rewrite decide_False; [auto|]. intros ->. apply Hk.
    apply list_elem_of_fmap. by exists (k', v).
Qed.

Lemma dict_get_pop_eq d k : dict_wf d → dict_get (dict_pop d k) k = None.
Proof.
  unfold dict_wf. induction d as [|[k' v'] d IH]; simpl; [done|].
  rewrite NoDup_cons. intros [Hk Hwf]. case_decide; simplify_eq.
  - by apply dict_get_None.
  - simpl. by rewrite decide_False, IH.
Qed.

Lemma dict_set_fresh d k v : dict_get d k = None → dict_set d k v = d ++ [(k, v)].
Proof.
  induction d as [|[k' v'] d IH]; simpl; [done|].
  case_decide; [done|]. intros. by rewrite IH.
Qed.

Lemma dict_set_keys d k v :
  (dict_set d k v).*1 = if decide (k ∈ d.*1) then d.*1 else d.*1 ++ [k].
Proof.
  induction d as [|[k' v'] d IH]; [done|]. cbn [dict_set].
  destruct (decide (k = k')) as [->|]; rewrite !fmap_cons; simpl.
  - rewrite decide_True by set_solver. done.
  - rewrite IH. destruct (decide (k ∈ d.*1)), (decide (k ∈ k' :: d.*1)); set_solver.
Qed.

Lemma dict_set_wf d k v : dict_wf d → dict_wf (dict_set d k v).
Proof.
  unfold dict_wf. rewrite dict_set_keys. case_decide; [done|].
  rewrite NoDup_app. intros. split_and!; [done|set_solver|apply NoDup_singleton].
Qed.

Lemma dict_pop_sublist d k : dict_pop d k `sublist_of` d.
Proof.
  induction d as [|[k' v'] d IH]; simpl; [constructor|].
  case_decide; by constructor.
Qed.

Lemma dict_pop_wf d k : dict_wf d → dict_wf (dict_pop d k).
Proof. intros Hwf. eapply sublist_NoDup; [exact Hwf|]. apply fmap_sublist, dict_pop_sublist. Qed.

Lemma dict_pop_snoc d k v : dict_get d k = None → dict_pop (d ++ [(k, v)]) k = d.
Proof.
  induction d as [|[k' v'] d IH]; simpl; [intros _; by case_decide|].
  case_decide; [done|]. intros. by rewrite IH.
Qed.

Lemma dict_get_snoc d k v k' :
  dict_get (d ++ [(k, v)]) k' =
    match dict_get d k' with Some v' => Some v' | None => if decide (k' = k) then Some v else None end.
Proof. induction d as [|[k1 v1] d IH]; cbn; repeat case_decide; done || exact IH. Qed.

Lemma dict_pop_elem d k k' v : (k', v) ∈ dict_pop d k → (k', v) ∈ d.
Proof. intros H. eapply elem_of_sublist; [done|apply dict_pop_sublist]. Qed.
End dict.
