(* ===== verification/Gateway.v ===== *)
(** The agent gateway: [controlplane/gateway.py].

    One definition per method of [AgentGateway]; methods that suspend are cut at
    their [await]s, also where they enter [async with self._lock], and [sys_step]
    interleaves the pieces the way the asyncio event loop can.  Python objects that
    are shared by reference ([JobState], [AgentSession]) live in heaps indexed by
    [ref]. *)

From S2P Require Import Prelude Text Regex Dict.

Open Scope list_scope.
Open Scope nat_scope.

(** * Protocol messages ([proto/djangoops/agent/v1/agent.proto]) *)

Record AgentHello := Hello {
  hello_agent_id : string;
  hello_major : Z;
  hello_minor : Z;
  hello_capabilities : list string;
  hello_auth_token : string
}.

Record DiagnosticCheck := Check_ {
  check_name : string;
  check_status : string;
  check_detail : string
}.

Record DiagnosticsResult := DResult {
  dr_job_id : string;
  dr_sequence : Z;
  dr_status : string;
  dr_checks : list DiagnosticCheck
}.

Record KubernetesReleaseResult := KResult {
  kr_job_id : string;
  kr_sequence : Z;
  kr_status : string;
  kr_helm_revision : Z;
  kr_previous_revision : Z;
  kr_rollback_status : string;
  kr_error_code : string
}.

Record KubernetesReleaseRequest := KRequest {
  kq_job_id : string;
  kq_namespace : string;
  kq_release_name : string;
  kq_chart_path : string;
  kq_image : string;
  kq_values_json : string;
  kq_credential_ref : string;
  kq_migration_timeout_seconds : Z;
  kq_rollout_timeout_seconds : Z;
  kq_rollback_policy : string;
  kq_mode : string;
  kq_previous_revision : Z
}.

(** The [payload] oneof of [AgentFrame]; [FUnset] is a frame with no field set. *)
Inductive AgentFrame :=
| FHello (h : AgentHello)
| FHeartbeat
| FProgress (job_id : string) (sequence : Z) (phase message : string)
| FResult (r : DiagnosticsResult)
| FKubernetesProgress (job_id : string) (sequence : Z) (phase message : string)
| FKubernetesResult (r : KubernetesReleaseResult)
| FUnset.

Inductive ControlFrame :=
| CDiagnostics (job_id release_root : string)
| CCancel (job_id : string)
| CKubernetesRelease (r : KubernetesReleaseRequest).

(** [frame.HasField("result") or frame.HasField("kubernetes_result")]. *)
Definition is_terminal (f : AgentFrame) : bool :=
  match f with FResult _ | FKubernetesResult _ => true | _ => false end.

(** The job and sequence number an event frame carries. *)
Definition event_of (f : AgentFrame) : option (string * Z) :=
  match f with
  | FProgress j n _ _ | FKubernetesProgress j n _ _ => Some (j, n)
  | FResult r => Some (dr_job_id r, dr_sequence r)
  | FKubernetesResult r => Some (kr_job_id r, kr_sequence r)
  | _ => None
  end.

(** * Constants and validators *)

Definition PROTOCOL_MAJOR : Z := 1.
Definition DIAGNOSTIC_CAPABILITY : string := "django_diagnostics_v1".
Definition KUBERNETES_CAPABILITY : string := "kubernetes_release_v1".
Definition ID_RE : re :=
  Cls is_alnum ⋅ Between (Cls (or_class is_alnum (one_of "._-"))) 0 63.
Definition DEFAULT_MAX_COMPLETED_JOBS : nat := 256.
Definition DEFAULT_MAX_INFLIGHT_PER_AGENT : nat := 4.
Definition MAX_JOB_EVENTS : nat := 32.
Definition MAX_OUTGOING_FRAMES : nat := 32.

Definition validate_job_id (job_id : string) : result exn () :=
  require (fullmatch ID_RE job_id)
    (ValueError "job_id must be a safe 1-64 character identifier").

Definition validate_release_root (release_root : string) : result exn () :=
  _ ← raise_if (String.eqb release_root "" || (256 <? String.length release_root)
                || contains "\" release_root)
        (ValueError "release_root must be a bounded relative path");
  raise_if (path_is_absolute release_root || str_in ".." (path_parts release_root))
    (ValueError "release_root may not escape the configured project root").

(** * State *)

Definition ref := nat.

Record JobState := mkJob {
  js_agent_id : string;
  js_kind : string;
  js_queue : list AgentFrame;
  js_next_sequence : Z;
  js_cancel_sent : bool
}.

Record AgentSession := mkSession {
  as_agent_id : string;
  as_capabilities : list string;
  as_protocol_major : Z;
  as_protocol_minor : Z;
  as_outgoing : list (option ControlFrame);
  as_last_heartbeat : Z
}.

(** The attributes of [AgentGateway], with the heaps of the objects they refer
    to.  [_lock] is not a field.  The one task that suspends while it holds the lock
    is a refused [Connect], in [context.abort], and it has changed nothing; so every
    critical section that does change something is one atomic piece, and a piece
    begins where its task gets the lock.  A task that must wait for the lock is one
    whose piece comes later, in any order; one that is cancelled while it waits
    never runs its critical section ([ALockCancelled] and [AAbort] of
    [GatewaySystem]). *)
Record AgentGateway := mkGateway {
  gw_agent_tokens : gmap string string;
  gw_sessions : gmap string ref;
  gw_jobs : list (string * ref);
  gw_completed_jobs : gset string;
  gw_completed_order : list string;
  gw_max_completed_jobs : nat;
  gw_max_inflight_per_agent : nat;
  gw_session_objs : gmap ref AgentSession;
  gw_job_objs : gmap ref JobState;
  gw_next_ref : ref
}.

(** [AgentGateway.__init__]; the limits are any Python integers. *)
Definition gateway_init (tokens : gmap string string)
    (max_completed_jobs max_inflight_per_agent : Z) : result exn AgentGateway :=
  _ ← raise_if ((max_completed_jobs <? 1) || (max_inflight_per_agent <? 1))%Z
        (ValueError "gateway resource limits must be positive");
  Ok (mkGateway tokens ∅ [] ∅ []
        (Z.to_nat max_completed_jobs) (Z.to_nat max_inflight_per_agent) ∅ ∅ 0).

(** ** Field updates *)

Definition upd_job (f : JobState → JobState) (r : ref) (g : AgentGateway) : AgentGateway :=
  mkGateway (gw_agent_tokens g) (gw_sessions g) (gw_jobs g) (gw_completed_jobs g)
    (gw_completed_order g) (gw_max_completed_jobs g) (gw_max_inflight_per_agent g)
    (gw_session_objs g) (alter f r (gw_job_objs g)) (gw_next_ref g).

Definition upd_session (f : AgentSession → AgentSession) (s : ref) (g : AgentGateway) : AgentGateway :=
  mkGateway (gw_agent_tokens g) (gw_sessions g) (gw_jobs g) (gw_completed_jobs g)
    (gw_completed_order g) (gw_max_completed_jobs g) (gw_max_inflight_per_agent g)
    (alter f s (gw_session_objs g)) (gw_job_objs g) (gw_next_ref g).

Definition set_sessions (m : gmap string ref) (g : AgentGateway) : AgentGateway :=
  mkGateway (gw_agent_tokens g) m (gw_jobs g) (gw_completed_jobs g)
    (gw_completed_order g) (gw_max_completed_jobs g) (gw_max_inflight_per_agent g)
    (gw_session_objs g) (gw_job_objs g) (gw_next_ref g).

Definition set_jobs (d : list (string * ref)) (g : AgentGateway) : AgentGateway :=
  mkGateway (gw_agent_tokens g) (gw_sessions g) d (gw_completed_jobs g)
    (gw_completed_order g) (gw_max_completed_jobs g) (gw_max_inflight_per_agent g)
    (gw_session_objs g) (gw_job_objs g) (gw_next_ref g).

Definition set_completed (done : gset string) (order : list string) (g : AgentGateway) : AgentGateway :=
  mkGateway (gw_agent_tokens g) (gw_sessions g) (gw_jobs g) done
    order (gw_max_completed_jobs g) (gw_max_inflight_per_agent g)
    (gw_session_objs g) (gw_job_objs g) (gw_next_ref g).

Definition alloc_session (s : AgentSession) (g : AgentGateway) : AgentGateway :=
  mkGateway (gw_agent_tokens g) (gw_sessions g) (gw_jobs g) (gw_completed_jobs g)
    (gw_completed_order g) (gw_max_completed_jobs g) (gw_max_inflight_per_agent g)
    (<[gw_next_ref g := s]> (gw_session_objs g)) (gw_job_objs g) (S (gw_next_ref g)).

Definition alloc_job (j : JobState) (g : AgentGateway) : AgentGateway :=
  mkGateway (gw_agent_tokens g) (gw_sessions g) (gw_jobs g) (gw_completed_jobs g)
    (gw_completed_order g) (gw_max_completed_jobs g) (gw_max_inflight_per_agent g)
    (gw_session_objs g) (<[gw_next_ref g := j]> (gw_job_objs g)) (S (gw_next_ref g)).

Definition enqueue_event (f : AgentFrame) (j : JobState) : JobState :=
  mkJob (js_agent_id j) (js_kind j) (js_queue j ++ [f]) (js_next_sequence j) (js_cancel_sent j).
Definition dequeue_event (j : JobState) : JobState :=
  mkJob (js_agent_id j) (js_kind j) (tail (js_queue j)) (js_next_sequence j) (js_cancel_sent j).
Definition bump_sequence (j : JobState) : JobState :=
  mkJob (js_agent_id j) (js_kind j) (js_queue j) (js_next_sequence j + 1) (js_cancel_sent j).
Definition mark_cancel_sent (j : JobState) : JobState :=
  mkJob (js_agent_id j) (js_kind j) (js_queue j) (js_next_sequence j) true.

Definition set_outgoing (q : list (option ControlFrame)) (s : AgentSession) : AgentSession :=
  mkSession (as_agent_id s) (as_capabilities s) (as_protocol_major s) (as_protocol_minor s)
    q (as_last_heartbeat s).
Definition send_frame (c : option ControlFrame) (s : AgentSession) : AgentSession :=
  set_outgoing (as_outgoing s ++ [c]) s.
Definition pop_outgoing (s : AgentSession) : AgentSession :=
  set_outgoing (tail (as_outgoing s)) s.
Definition set_heartbeat (now : Z) (s : AgentSession) : AgentSession :=
  mkSession (as_agent_id s) (as_capabilities s) (as_protocol_major s) (as_protocol_minor s)
    (as_outgoing s) now.

(** * Connect *)

Inductive StatusCode := INVALID_ARGUMENT | FAILED_PRECONDITION | UNAUTHENTICATED | ALREADY_EXISTS.

(** How [Connect] leaves before the session is served. *)
Inductive refusal :=
| Abort_ (code : StatusCode) (msg : string)
| Raise_ (e : exn).

(** [hmac.compare_digest] on two [str]: defined for ASCII strings only. *)
Definition compare_digest (a b : string) : result exn bool :=
  if is_ascii a && is_ascii b then Ok (String.eqb a b)
  else Err (OtherError "comparing strings with non-ASCII characters is not supported").

(** The guards of [Connect], in order, on the first frame of the stream
    ([None]: the stream ended). *)
Definition connect_check (tokens : gmap string string) (first : option AgentFrame)
    : result refusal AgentHello :=
  match first with
  | None => Err (Abort_ INVALID_ARGUMENT "agent hello is required")
  | Some (FHello hello) =>
      if negb (fullmatch ID_RE (hello_agent_id hello)) then
        Err (Abort_ INVALID_ARGUMENT "invalid agent identity")
      else if negb (hello_major hello =? PROTOCOL_MAJOR)%Z then
        Err (Abort_ FAILED_PRECONDITION "unsupported protocol version")
      else if negb (str_in DIAGNOSTIC_CAPABILITY (hello_capabilities hello)) then
        Err (Abort_ FAILED_PRECONDITION "diagnostics capability required")
      else
        match tokens !! hello_agent_id hello with
        | None => Err (Abort_ UNAUTHENTICATED "agent authentication failed")
        | Some expected =>
            match compare_digest expected (hello_auth_token hello) with
            | Ok true => Ok hello
            | Ok false => Err (Abort_ UNAUTHENTICATED "agent authentication failed")
            | Err e => Err (Raise_ e)
            end
        end
  | Some _ => Err (Abort_ INVALID_ARGUMENT "first frame must be agent hello")
  end.

(** [Connect] up to its serving loop: the session is registered, or the call is
    refused.  Returns the reference of the new session. *)
Definition connect (now : Z) (first : option AgentFrame) (g : AgentGateway)
    : result refusal (AgentGateway * ref) :=
  hello ← connect_check (gw_agent_tokens g) first;
  match gw_sessions g !! hello_agent_id hello with
  | Some _ => Err (Abort_ ALREADY_EXISTS "agent identity already connected")
  | None =>
      let sid := gw_next_ref g in
      let session := mkSession (hello_agent_id hello) (hello_capabilities hello)
        (hello_major hello) (hello_minor hello) [] now in
      Ok (set_sessions (<[hello_agent_id hello := sid]> (gw_sessions g))
            (alloc_session session g), sid)
  end.

(** * The consumer task *)

(** A suspended [queue.put]: on a job's event queue, or on a session's outgoing
    queue. *)
Inductive put_op :=
| PutJob (job : ref) (f : AgentFrame)
| PutOut (session : ref) (c : ControlFrame).

Definition failure_frame (kind job_id : string) (sequence : Z) (code : string) : AgentFrame :=
  if String.eqb kind "kubernetes" then
    FKubernetesResult (KResult job_id sequence "failed" 0 0 "" code)
  else
    FResult (DResult job_id sequence "failed"
      [Check_ "control_channel" "fail" (lower code)]).

(** [_accept_event]: the state after the call has run up to its first [put],
    and the puts it still has to make, in order. *)
Definition accept_event (sid : ref) (job_id : string) (sequence : Z) (frame : AgentFrame)
    (g : AgentGateway) : AgentGateway * list put_op :=
  match dict_get (gw_jobs g) job_id, gw_session_objs g !! sid with
  | Some r, Some session =>
      match gw_job_objs g !! r with
      | Some state =>
          if negb (String.eqb (js_agent_id state) (as_agent_id session)) then (g, [])
          else if negb (sequence =? js_next_sequence state)%Z then
            (g, [PutJob r (failure_frame (js_kind state) job_id (js_next_sequence state)
                             "STREAM_ORDER");
                 PutOut sid (CCancel job_id)])
          else (upd_job bump_sequence r g, [PutJob r frame])
      | None => (g, [])
      end
  | _, _ => (g, [])
  end.

(** One iteration of the [async for] of [_consume]. *)
Definition consume_frame (now : Z) (sid : ref) (frame : AgentFrame) (g : AgentGateway)
    : AgentGateway * list put_op :=
  match frame with
  | FHeartbeat => (upd_session (set_heartbeat now) sid g, [])
  | FHello _ | FUnset => (g, [])
  | FProgress job_id sequence _ _ | FKubernetesProgress job_id sequence _ _ =>
      accept_event sid job_id sequence frame g
  | FResult r => accept_event sid (dr_job_id r) (dr_sequence r) frame g
  | FKubernetesResult r => accept_event sid (kr_job_id r) (kr_sequence r) frame g
  end.

(** [queue.put] when it does not block; [None] when it does. *)
Definition perform_put (op : put_op) (g : AgentGateway) : option AgentGateway :=
  match op with
  | PutJob r f =>
      j ← gw_job_objs g !! r;
      if has_room MAX_JOB_EVENTS (js_queue j) then Some (upd_job (enqueue_event f) r g) else None
  | PutOut sid c =>
      s ← gw_session_objs g !! sid;
      if has_room MAX_OUTGOING_FRAMES (as_outgoing s)
      then Some (upd_session (send_frame (Some c)) sid g) else None
  end.

(** [session.outgoing.put(None)]. *)
Definition perform_put_none (sid : ref) (g : AgentGateway) : option AgentGateway :=
  s ← gw_session_objs g !! sid;
  if has_room MAX_OUTGOING_FRAMES (as_outgoing s)
  then Some (upd_session (send_frame None) sid g) else None.

(** * Disconnect *)

(** The locked part of [_disconnect]. *)
Definition disconnect_unregister (sid : ref) (g : AgentGateway) : AgentGateway :=
  match gw_session_objs g !! sid with
  | Some session =>
      if decide (gw_sessions g !! as_agent_id session = Some sid)
      then set_sessions (delete (as_agent_id session) (gw_sessions g)) g else g
  | None => g
  end.

(** One iteration of its loop over [list(self._jobs.items())]: the frame to put,
    if the job is the session's. *)
Definition disconnect_item (sid : ref) (item : string * ref) (g : AgentGateway) : option put_op :=
  let '(job_id, r) := item in
  session ← gw_session_objs g !! sid;
  state ← gw_job_objs g !! r;
  if String.eqb (js_agent_id state) (as_agent_id session)
  then Some (PutJob r (failure_frame (js_kind state) job_id (js_next_sequence state)
                         "AGENT_DISCONNECTED"))
  else None.

(** * Jobs *)

Definition inflight (agent_id : string) (g : AgentGateway) : nat :=
  length (filter
    (λ item : string * ref, js_agent_id <$> gw_job_objs g !! item.2 = Some agent_id)
    (gw_jobs g)).

(** [_open_job]: the session's and the new job's references. *)
Definition open_job (agent_id job_id kind : string) (allow_completed_reuse : bool)
    (g : AgentGateway) : result exn (AgentGateway * ref * ref) :=
  _ ← validate_job_id job_id;
  _ ← raise_if (dict_has (gw_jobs g) job_id) (ValueError "job_id is already active");
  _ ← raise_if (bool_decide (job_id ∈ gw_completed_jobs g) && negb allow_completed_reuse)
        (ValueError "job_id has already been used");
  match gw_sessions g !! agent_id with
  | None => Err (LookupError "agent is not connected")
  | Some sid =>
      _ ← raise_if (gw_max_inflight_per_agent g <=? inflight agent_id g)
            (RuntimeError "agent operation capacity reached");
      let r := gw_next_ref g in
      let g := alloc_job (mkJob agent_id kind [] 1 false) g in
      Ok (set_jobs (dict_set (gw_jobs g) job_id r) g, sid, r)
  end.

Definition remember_completed (job_id : string) (g : AgentGateway) : AgentGateway :=
  if bool_decide (job_id ∈ gw_completed_jobs g) then g
  else
    let '(done, order) :=
      match gw_completed_order g with
      | oldest :: rest =>
          if gw_max_completed_jobs g <=? length (gw_completed_order g)
          then (gw_completed_jobs g ∖ {[oldest]}, rest)
          else (gw_completed_jobs g, gw_completed_order g)
      | [] => (gw_completed_jobs g, [])
      end in
    set_completed ({[job_id]} ∪ done) (order ++ [job_id]) g.

(** The [finally] of [_events]. *)
Definition events_finally (job_id : string) (g : AgentGateway) : AgentGateway :=
  remember_completed job_id (set_jobs (dict_pop (gw_jobs g) job_id) g).

(** [diagnostics] up to its first [put]: the put it waits for. *)
Definition diagnostics (agent_id job_id release_root : string) (g : AgentGateway)
    : result exn (AgentGateway * ref * put_op) :=
  _ ← validate_release_root release_root;
  '(g, sid, r) ← open_job agent_id job_id "diagnostic" false g;
  Ok (g, r, PutOut sid (CDiagnostics job_id release_root)).

(** [kubernetes_release] up to its first [put], or, on the missing capability, up to
    the critical section that removes the job it has just opened ([None]). *)
Definition kubernetes_release (agent_id : string) (request : KubernetesReleaseRequest)
    (g : AgentGateway) : result exn (AgentGateway * ref * option put_op) :=
  '(g, sid, r) ← open_job agent_id (kq_job_id request) "kubernetes" true g;
  let capabilities := from_option as_capabilities [] (gw_session_objs g !! sid) in
  Ok (g, r, if str_in KUBERNETES_CAPABILITY capabilities
            then Some (PutOut sid (CKubernetesRelease request)) else None).

(** That critical section, and the error raised after it. *)
Definition withdraw_job (job_id : string) (g : AgentGateway) : AgentGateway * exn :=
  (set_jobs (dict_pop (gw_jobs g) job_id) g,
   LookupError "agent does not advertise Kubernetes release capability").

(** [cancel] up to its [put]: the answer, and the put it still waits for. *)
Definition cancel (job_id : string) (g : AgentGateway) : AgentGateway * bool * option put_op :=
  match r ← dict_get (gw_jobs g) job_id; state ← gw_job_objs g !! r; Some (r, state) with
  | None => (g, false, None)
  | Some (r, state) =>
      if js_cancel_sent state then (g, true, None)
      else match gw_sessions g !! js_agent_id state with
           | None => (g, false, None)
           | Some sid => (upd_job mark_cancel_sent r g, true, Some (PutOut sid (CCancel job_id)))
           end
  end.

(** * Queries *)

Definition session_of (agent_id : string) (g : AgentGateway) : option AgentSession :=
  sid ← gw_sessions g !! agent_id; gw_session_objs g !! sid.

Definition is_connected (agent_id : string) (g : AgentGateway) : bool :=
  bool_decide (is_Some (gw_sessions g !! agent_id)).

Definition heartbeat_age (now : Z) (agent_id : string) (g : AgentGateway) : result exn Z :=
  match session_of agent_id g with
  | None => Err (LookupError "agent is not connected")
  | Some s => Ok (Z.max 0 (now - as_last_heartbeat s))
  end.

Definition capabilities (agent_id : string) (g : AgentGateway) : result exn (list string) :=
  match session_of agent_id g with
  | None => Err (LookupError "agent is not connected")
  | Some s => Ok (as_capabilities s)
  end.

Definition protocol_version (agent_id : string) (g : AgentGateway) : result exn (Z * Z) :=
  match session_of agent_id g with
  | None => Err (LookupError "agent is not connected")
  | Some s => Ok (as_protocol_major s, as_protocol_minor s)
  end.
