(* ===== verification/GatewaySystem.v ===== *)
(** The gateway under the asyncio event loop: every interleaving of connections,
    job streams and cancellations ([controlplane/gateway.py]).

    A task is suspended only at an [await] that blocks.  [sys_step] runs one
    piece of one task, from one such point to the next: a piece is chosen by an
    [action], and is refused ([None]) when its task is not at that point or its
    queue operation would block.  What the environment sees (frames sent to
    agents, frames a stream yields, answers, errors) is the list of [obs]. *)

From S2P Require Import Prelude Text Regex Dict Gateway.

Open Scope list_scope.
Open Scope nat_scope.

(** * Tasks *)

(** The consumer task of a connection, [_consume]: not started, waiting for a
    frame, waiting in a [put] of [_accept_event], waiting in the [put(None)] of
    its [finally], finished. *)
Inductive consumer :=
| CNew
| CReading
| CPutting (op : put_op) (rest : list put_op)
| CClosing
| CDone.

(** The handler task, [Connect] after registration: serving the outgoing queue,
    waiting for the cancelled consumer ([gather]) and then for the lock, in
    [_disconnect] with the jobs still to visit and the put in progress, finished. *)
Inductive handler :=
| HServing
| HStopping
| HDisconnecting (rest : list (string * ref)) (blocked : option put_op)
| HDone.

Record conn := mkConn { c_consumer : consumer; c_handler : handler }.

(** A [diagnostics] or [kubernetes_release] generator: before the critical section
    that removes the job of an agent without the capability, waiting to enqueue its
    request, in [_events] waiting for a frame, suspended at the [yield] of a frame
    (a terminal one?), finished.  The [finally] of [_events] is the end of the piece
    that gets the lock: a generator that waits for it is still at [KStream] or
    [KYielded]. *)
Inductive call :=
| KWithdraw (job_id : string)
| KDispatch (job_id : string) (op : put_op)
| KStream (job_id : string)
| KYielded (job_id : string) (last : bool)
| KDone.

Record system := mkSys {
  sys_gw : AgentGateway;
  sys_conns : gmap ref conn;
  sys_calls : gmap ref call;
  sys_cancels : list put_op
}.

Definition sys_init (g : AgentGateway) : system := mkSys g ∅ ∅ [].

Inductive obs :=
| OConnected (sid : ref)
| ORefused (why : refusal)
| OSent (sid : ref) (c : ControlFrame)
| OOpened (r : ref)
| ODelivered (r : ref) (f : AgentFrame)
| OAnswer (b : bool)
| ORaised (e : exn).

(** [consumer.cancel()]: the exception arrives at the current [await]; a task
    that never started does not run, and one already in its [finally] leaves it. *)
Definition cancel_consumer (c : consumer) : consumer :=
  match c with
  | CReading | CPutting _ _ => CClosing
  | CNew | CClosing | CDone => CDone
  end.

Definition after_puts (ops : list put_op) : consumer :=
  match ops with [] => CReading | op :: rest => CPutting op rest end.

(** * Actions *)

Inductive action :=
| AConnect (now : Z) (first : option AgentFrame)
| AStart (sid : ref)
| ARecv (now : Z) (sid : ref) (frame : AgentFrame)
| APut (sid : ref)
| AEnd (sid : ref)
| APutNone (sid : ref)
| ASend (sid : ref)
| AAbort (sid : ref)
| ADisconnect (sid : ref)
| ADiscVisit (sid : ref)
| ADiscPut (sid : ref)
| ADiscDone (sid : ref)
| ADiagnostics (agent_id job_id release_root : string)
| AKubernetes (agent_id : string) (request : KubernetesReleaseRequest)
| ADispatch (r : ref)
| ADispatchCancelled (r : ref)
| AWithdraw (r : ref)
| ALockCancelled (r : ref)
| AGet (r : ref)
| AResume (r : ref)
| AClose (r : ref)
| ACancel (job_id : string)
| ACancelPut (i : nat)
| ACancelDrop (i : nat).

Definition set_gw (g : AgentGateway) (s : system) : system :=
  mkSys g (sys_conns s) (sys_calls s) (sys_cancels s).
Definition set_conn (sid : ref) (c : conn) (s : system) : system :=
  mkSys (sys_gw s) (<[sid := c]> (sys_conns s)) (sys_calls s) (sys_cancels s).
Definition set_call (r : ref) (c : call) (s : system) : system :=
  mkSys (sys_gw s) (sys_conns s) (<[r := c]> (sys_calls s)) (sys_cancels s).
Definition set_cancels (l : list put_op) (s : system) : system :=
  mkSys (sys_gw s) (sys_conns s) (sys_calls s) l.

(** A piece of a connection's tasks.  [AAbort]: the call is cancelled (the client is
    gone, the server stops).  While the handler serves, that starts its [finally];
    in the [finally] it ends it: [gather] passes the cancellation on to the consumer
    and [_disconnect] does not run, or does not go on. *)
Definition conn_step (a : action) (sid : ref) (c : conn) (s : system)
    : option (system * list obs) :=
  let g := sys_gw s in
  match a, c_consumer c, c_handler c with
  | AStart _, CNew, h => Some (set_conn sid (mkConn CReading h) s, [])
  | ARecv now _ frame, CReading, h =>
      let '(g', ops) := consume_frame now sid frame g in
      Some (set_conn sid (mkConn (after_puts ops) h) (set_gw g' s), [])
  | APut _, CPutting op rest, h =>
      g' ← perform_put op g;
      Some (set_conn sid (mkConn (after_puts rest) h) (set_gw g' s), [])
  | AEnd _, CReading, h => Some (set_conn sid (mkConn CClosing h) s, [])
  | APutNone _, CClosing, h =>
      g' ← perform_put_none sid g;
      Some (set_conn sid (mkConn CDone h) (set_gw g' s), [])
  | ASend _, k, HServing =>
      session ← gw_session_objs g !! sid;
      match as_outgoing session with
      | [] => None
      | Some frame :: _ => Some (set_gw (upd_session pop_outgoing sid g) s, [OSent sid frame])
      | None :: _ =>
          Some (set_conn sid (mkConn (cancel_consumer k) HStopping)
                  (set_gw (upd_session pop_outgoing sid g) s), [])
      end
  | AAbort _, k, HServing =>
      Some (set_conn sid (mkConn (cancel_consumer k) HStopping) s, [])
  | AAbort _, k, HStopping =>
      Some (set_conn sid (mkConn (cancel_consumer k) HDone) s, [])
  | AAbort _, k, HDisconnecting _ _ => Some (set_conn sid (mkConn k HDone) s, [])
  | ADisconnect _, CDone, HStopping =>
      let g' := disconnect_unregister sid g in
      Some (set_conn sid (mkConn CDone (HDisconnecting (gw_jobs g') None)) (set_gw g' s), [])
  | ADiscVisit _, k, HDisconnecting (item :: rest) None =>
      Some (set_conn sid (mkConn k (HDisconnecting rest (disconnect_item sid item g))) s, [])
  | ADiscPut _, k, HDisconnecting rest (Some op) =>
      g' ← perform_put op g;
      Some (set_conn sid (mkConn k (HDisconnecting rest None)) (set_gw g' s), [])
  | ADiscDone _, k, HDisconnecting [] None =>
      Some (set_conn sid (mkConn k HDone) s, [])
  | _, _, _ => None
  end.

(** A piece of a job stream.  [ALockCancelled]: the caller is cancelled while the
    generator waits for the lock, of its [finally] or of the removal of its job. *)
Definition call_step (a : action) (r : ref) (c : call) (s : system)
    : option (system * list obs) :=
  let g := sys_gw s in
  match a, c with
  | ADispatch _, KDispatch job_id op =>
      g' ← perform_put op g;
      Some (set_call r (KStream job_id) (set_gw g' s), [])
  | ADispatchCancelled _, KDispatch _ _ => Some (set_call r KDone s, [])
  | AWithdraw _, KWithdraw job_id =>
      let '(g', e) := withdraw_job job_id g in
      Some (set_call r KDone (set_gw g' s), [ORaised e])
  | ALockCancelled _, (KWithdraw _ | KStream _ | KYielded _ _) => Some (set_call r KDone s, [])
  | AGet _, KStream job_id =>
      state ← gw_job_objs g !! r;
      match js_queue state with
      | [] => None
      | frame :: _ =>
          Some (set_call r (KYielded job_id (is_terminal frame))
                  (set_gw (upd_job dequeue_event r g) s), [ODelivered r frame])
      end
  | AResume _, KYielded job_id false => Some (set_call r (KStream job_id) s, [])
  | AResume _, KYielded job_id true | AClose _, KStream job_id | AClose _, KYielded job_id _ =>
      Some (set_call r KDone (set_gw (events_finally job_id g) s), [])
  | _, _ => None
  end.

Definition action_conn (a : action) : option ref :=
  match a with
  | AStart sid | ARecv _ sid _ | APut sid | AEnd sid | APutNone sid | ASend sid | AAbort sid
  | ADisconnect sid | ADiscVisit sid | ADiscPut sid | ADiscDone sid => Some sid
  | _ => None
  end.

Definition action_call (a : action) : option ref :=
  match a with
  | ADispatch r | ADispatchCancelled r | AWithdraw r | ALockCancelled r | AGet r | AResume r | AClose r => Some r
  | _ => None
  end.

(** The first piece of an incoming request. *)
Definition request_step (a : action) (s : system) : option (system * list obs) :=
  let g := sys_gw s in
  match a with
  | AConnect now first =>
      match connect now first g with
      | Ok (g', sid) =>
          Some (set_conn sid (mkConn CNew HServing) (set_gw g' s), [OConnected sid])
      | Err why => Some (s, [ORefused why])
      end
  | ADiagnostics agent_id job_id release_root =>
      match diagnostics agent_id job_id release_root g with
      | Ok (g', r, op) => Some (set_call r (KDispatch job_id op) (set_gw g' s), [OOpened r])
      | Err e => Some (s, [ORaised e])
      end
  | AKubernetes agent_id request =>
      match kubernetes_release agent_id request g with
      | Ok (g', r, op) =>
          let waiting := match op with
                         | Some op => KDispatch (kq_job_id request) op
                         | None => KWithdraw (kq_job_id request)
                         end in
          Some (set_call r waiting (set_gw g' s), [OOpened r])
      | Err e => Some (s, [ORaised e])
      end
  | ACancel job_id =>
      let '(g', answer, op) := cancel job_id g in
      Some (set_cancels (sys_cancels s ++ option_list op) (set_gw g' s), [OAnswer answer])
  | ACancelPut i =>
      op ← sys_cancels s !! i;
      g' ← perform_put op g;
      Some (set_cancels (delete i (sys_cancels s)) (set_gw g' s), [])
  | ACancelDrop i =>
      _ ← sys_cancels s !! i;
      Some (set_cancels (delete i (sys_cancels s)) s, [])
  | _ => None
  end.

Definition sys_run (a : action) (s : system) : option (system * list obs) :=
  match action_conn a, action_call a with
  | Some sid, _ => c ← sys_conns s !! sid; conn_step a sid c s
  | None, Some r => c ← sys_calls s !! r; call_step a r c s
  | None, None => request_step a s
  end.

Definition sys_step (s : system) (l : action * list obs) (s' : system) : Prop :=
  sys_run l.1 s = Some (s', l.2).

(** Runs from a fresh gateway with the given tokens and (positive) limits. *)
Definition sys_start (tokens : gmap string string) (max_completed max_inflight : Z) (s : system) : Prop :=
  ∃ g, gateway_init tokens max_completed max_inflight = Ok g ∧ s = sys_init g.

(** Running a list of actions, for concrete executions. *)
Fixpoint sys_exec (acts : list action) (s : system) : option (system * list (action * list obs)) :=
  match acts with
  | [] => Some (s, [])
  | a :: acts =>
      '(s1, o) ← sys_run a s;
      '(s2, tr) ← sys_exec acts s1;
      Some (s2, (a, o) :: tr)
  end.

Lemma sys_exec_exec acts s s' tr :
  sys_exec acts s = Some (s', tr) → exec sys_step s tr s'.
Proof.
  revert s s' tr. induction acts as [|a acts IH]; intros s s' tr; simpl.
  - intros [= <- <-]. constructor.
  - intros ([s1 o] & Hrun & Hrest)%bind_Some.
    apply bind_Some in Hrest as ([s2 tr2] & Hex & [= <- <-]).
    econstructor; [exact Hrun|eauto].
Qed.

(** The state and the trace a list of actions leads to. *)
Definition run_state (acts : list action) (s : system) : system :=
  from_option fst s (sys_exec acts s).
Definition run_trace (acts : list action) (s : system) : list (action * list obs) :=
  from_option snd [] (sys_exec acts s).

Lemma run_exec acts s :
  is_Some (sys_exec acts s) → exec sys_step s (run_trace acts s) (run_state acts s).
Proof.
  unfold run_state, run_trace. intros [[s' tr] E]. rewrite E. by eapply sys_exec_exec.
Qed.
