(* ===== verification/GatewayInv.v ===== *)
(** Invariants of the gateway ([controlplane/gateway.py]) along every run of
    [GatewaySystem]: bounded queues and admission, the completed-job window,
    authenticated and unique sessions. *)

From S2P Require Import Prelude Text Regex Dict Gateway GatewaySystem.

Open Scope list_scope.
Open Scope nat_scope.

(** * The primitive state changes

    Every piece of every task changes the gateway by a sequence of these. *)
Inductive gw_op : AgentGateway → AgentGateway → Prop :=
| op_connect now first g g' sid : connect now first g = Ok (g', sid) → gw_op g g'
| op_consume now sid f g : gw_op g (consume_frame now sid f g).1
| op_put op g g' : perform_put op g = Some g' → gw_op g g'
| op_put_none sid g g' : perform_put_none sid g = Some g' → gw_op g g'
| op_pop_outgoing sid g : gw_op g (upd_session pop_outgoing sid g)
| op_unregister sid g : gw_op g (disconnect_unregister sid g)
| op_open a j k allow g g' sid r : open_job a j k allow g = Ok (g', sid, r) → gw_op g g'
| op_pop_job j g : gw_op g (set_jobs (dict_pop (gw_jobs g) j) g)
| op_dequeue r g : gw_op g (upd_job dequeue_event r g)
| op_finish j g : gw_op g (events_finally j g)
| op_cancel j g : gw_op g (cancel j g).1.1.

#[export] Hint Constructors gw_op : ops.
#[export] Hint Resolve rtc_refl rtc_once : ops.

Lemma conn_step_gw_op a sid c s s' o :
  conn_step a sid c s = Some (s', o) → rtc gw_op (sys_gw s) (sys_gw s').
Proof.
  unfold conn_step. intros H.
  destruct a; try discriminate H; destruct (c_consumer c), (c_handler c) as [| |[|] []|];
    try discriminate H; cbn in H;
    repeat (match type of H with
    | context [consume_frame ?n ?x ?f ?g] =>
        pose proof (op_consume n x f g); destruct (consume_frame n x f g) eqn:?
    | context [perform_put ?op ?g] => destruct (perform_put op g) eqn:?
    | context [perform_put_none ?x ?g] => destruct (perform_put_none x g) eqn:?
    | context [gw_session_objs ?g !! ?x] => destruct (gw_session_objs g !! x) eqn:?
    | context [as_outgoing ?x] => destruct (as_outgoing x) as [|[]] eqn:?
    end; cbn in H); simplify_eq/=; eauto with ops.
Qed.

Lemma call_step_gw_op a r c s s' o :
  call_step a r c s = Some (s', o) → rtc gw_op (sys_gw s) (sys_gw s').
Proof.
  unfold call_step. intros H.
  destruct a; try discriminate H; destruct c as [| | |? []|]; try discriminate H; cbn in H;
    repeat (match type of H with
    | context [perform_put ?op ?g] => destruct (perform_put op g) eqn:?
    | context [gw_job_objs ?g !! ?x] => destruct (gw_job_objs g !! x) eqn:?
    | context [js_queue ?x] => destruct (js_queue x) as [|[]] eqn:?
    end; cbn in H); simplify_eq/=; eauto with ops.
Qed.

Lemma diagnostics_open a j root g g' r op :
  diagnostics a j root g = Ok (g', r, op) →
  ∃ sid, open_job a j "diagnostic" false g = Ok (g', sid, r) ∧
         op = PutOut sid (CDiagnostics j root).
Proof.
  unfold diagnostics. intros H.
  destruct (validate_release_root root); [|discriminate H]. cbn in H.
  destruct (open_job a j "diagnostic" false g) as [[[g1 sid] r1]|]; [|discriminate H].
  cbn in H. simplify_eq. eauto.
Qed.

Lemma kubernetes_release_open a q g g' r op :
  kubernetes_release a q g = Ok (g', r, op) →
  ∃ sid, open_job a (kq_job_id q) "kubernetes" true g = Ok (g', sid, r) ∧
         (op = None ∨ op = Some (PutOut sid (CKubernetesRelease q))).
Proof.
  unfold kubernetes_release. intros H.
  destruct (open_job a (kq_job_id q) "kubernetes" true g) as [[[g1 sid] r1]|]; [|discriminate H].
  cbn in H. injection H as <- <- <-. exists sid. split; [done|]. destruct (str_in _ _); auto.
Qed.

Lemma request_step_gw_op a s s' o :
  request_step a s = Some (s', o) → rtc gw_op (sys_gw s) (sys_gw s').
Proof.
  intros H. destruct a; try discriminate H; cbn in H.
  - destruct (connect now first (sys_gw s)) as [[g' sid]|] eqn:?; simplify_eq/=; eauto with ops.
  - destruct (diagnostics agent_id job_id release_root (sys_gw s)) as [[[g' r] op]|] eqn:E;
      simplify_eq/=; [|auto with ops].
    apply diagnostics_open in E as (sid & E & _). eauto with ops.
  - destruct (kubernetes_release agent_id request (sys_gw s)) as [[[g' r] op]|] eqn:E;
      simplify_eq/=; [|auto with ops].
    apply kubernetes_release_open in E as (sid & E & _). eauto with ops.
  - pose proof (op_cancel job_id (sys_gw s)) as Hop.
    destruct (cancel job_id (sys_gw s)) as [[g' b] op]; simplify_eq/=; auto with ops.
  - destruct (sys_cancels s !! i); [|discriminate H]. cbn in H.
    destruct (perform_put p (sys_gw s)) eqn:?; [|discriminate H]. cbn in H.
    simplify_eq/=. eauto with ops.
  - destruct (sys_cancels s !! i); simplify_eq/=. auto with ops.
Qed.

Lemma sys_step_gw_op s l s' : sys_step s l s' → rtc gw_op (sys_gw s) (sys_gw s').
Proof.
  destruct l as [a o]. unfold sys_step, sys_run. cbn. intros H.
  destruct (action_conn a) as [sid|].
  - destruct (sys_conns s !! sid); [|discriminate H]. eauto using conn_step_gw_op.
  - destruct (action_call a) as [r|]; [|eauto using request_step_gw_op].
    destruct (sys_calls s !! r); [|discriminate H]. eauto using call_step_gw_op.
Qed.

(** An invariant of the primitive changes holds in every reachable state. *)
Lemma gw_invariant (I : AgentGateway → Prop) tokens mc mi :
  (∀ g, gateway_init tokens mc mi = Ok g → I g) →
  (∀ g g', I g → gw_op g g' → I g') →
  ∀ s, reachable sys_step (sys_start tokens mc mi) s → I (sys_gw s).
Proof.
  intros Hinit Hop. apply reachable_invariant.
  - intros s (g & Hg & ->). cbn. auto.
  - intros s l s' HI Hstep. apply sys_step_gw_op in Hstep.
    induction Hstep; eauto.
Qed.

(** ** Normal forms

    The same changes with the handlers' case distinctions resolved: an update of
    one job or session object that keeps its identity and never grows its queue
    past the bound, or a change of one dictionary. *)
Definition keeps_job (f : JobState → JobState) : Prop :=
  ∀ j, js_agent_id (f j) = js_agent_id j ∧ js_kind (f j) = js_kind j.

Definition keeps_session (f : AgentSession → AgentSession) : Prop :=
  ∀ s, as_agent_id (f s) = as_agent_id s ∧ as_capabilities (f s) = as_capabilities s ∧
       as_protocol_major (f s) = as_protocol_major s.

Inductive gw_prim : AgentGateway → AgentGateway → Prop :=
| p_register now hello g :
    connect_check (gw_agent_tokens g) (Some (FHello hello)) = Ok hello →
    gw_sessions g !! hello_agent_id hello = None →
    gw_prim g (set_sessions (<[hello_agent_id hello := gw_next_ref g]> (gw_sessions g))
      (alloc_session (mkSession (hello_agent_id hello) (hello_capabilities hello)
         (hello_major hello) (hello_minor hello) [] now) g))
| p_job f r g :
    keeps_job f →
    (∀ j, gw_job_objs g !! r = Some j →
       length (js_queue (f j)) ≤ length (js_queue j) ∨ length (js_queue (f j)) ≤ MAX_JOB_EVENTS) →
    gw_prim g (upd_job f r g)
| p_session f sid g :
    keeps_session f →
    (∀ s, gw_session_objs g !! sid = Some s →
       length (as_outgoing (f s)) ≤ length (as_outgoing s) ∨
       length (as_outgoing (f s)) ≤ MAX_OUTGOING_FRAMES) →
    gw_prim g (upd_session f sid g)
| p_unregister a sid g :
    gw_sessions g !! a = Some sid →
    gw_prim g (set_sessions (delete a (gw_sessions g)) g)
| p_open a j k sid g :
    fullmatch ID_RE j = true → dict_get (gw_jobs g) j = None →
    gw_sessions g !! a = Some sid → inflight a g < gw_max_inflight_per_agent g →
    gw_prim g (set_jobs (dict_set (gw_jobs g) j (gw_next_ref g))
                 (alloc_job (mkJob a k [] 1 false) g))
| p_pop_job j g : gw_prim g (set_jobs (dict_pop (gw_jobs g) j) g)
| p_remember j g : gw_prim g (remember_completed j g).

#[export] Hint Constructors gw_prim : ops.

Lemma dict_has_false {V} (d : list (string * V)) k : dict_has d k = false → dict_get d k = None.
Proof. unfold dict_has. rewrite bool_decide_eq_false. by rewrite dict_get_None. Qed.

Lemma connect_check_hello tokens first hello :
  connect_check tokens first = Ok hello → first = Some (FHello hello).
Proof.
  destruct first as [[h| | | | | |]|]; simpl; try done.
  repeat case_match; intros; simplify_eq; done.
Qed.

Lemma connect_prim now first g g' sid : connect now first g = Ok (g', sid) → gw_prim g g'.
Proof.
  unfold connect. destruct (connect_check _ first) as [hello|] eqn:E; [|done]. cbn.
  destruct (gw_sessions g !! hello_agent_id hello) eqn:Hs; [done|].
  intros [= <- <-]. pose proof (connect_check_hello _ _ _ E) as ->. by constructor.
Qed.

Lemma accept_event_prim sid j n f g : rtc gw_prim g (accept_event sid j n f g).1.
Proof.
  unfold accept_event. repeat case_match; cbn; auto with ops.
  apply rtc_once, p_job; [by intros ?|]. intros. by left.
Qed.

Lemma consume_frame_prim now sid f g : rtc gw_prim g (consume_frame now sid f g).1.
Proof.
  destruct f; cbn; auto using accept_event_prim with ops.
  apply rtc_once, p_session; [by intros ?|]. intros. by left.
Qed.

Lemma put_prim op g g' : perform_put op g = Some g' → gw_prim g g'.
Proof.
  destruct op as [r f|sid c]; cbn.
  - destruct (gw_job_objs g !! r) as [j|] eqn:E; [|done]. cbn.
    destruct (has_room _ _) eqn:Hr; [|done]. intros [= <-].
    apply p_job; [by intros ?|]. intros j' Hj'. simplify_eq. right. cbn.
    unfold has_room in Hr. apply bool_decide_eq_true in Hr. rewrite length_app. cbn. lia.
  - destruct (gw_session_objs g !! sid) as [s|] eqn:E; [|done]. cbn.
    destruct (has_room _ _) eqn:Hr; [|done]. intros [= <-].
    apply p_session; [by intros ?|]. intros s' Hs'. simplify_eq. right. cbn.
    unfold has_room in Hr. apply bool_decide_eq_true in Hr. rewrite length_app. cbn. lia.
Qed.

Lemma put_none_prim sid g g' : perform_put_none sid g = Some g' → gw_prim g g'.
Proof.
  unfold perform_put_none. destruct (gw_session_objs g !! sid) as [s|] eqn:E; [|done]. cbn.
  destruct (has_room _ _) eqn:Hr; [|done]. intros [= <-].
  apply p_session; [by intros ?|]. intros s' Hs'. simplify_eq. right. cbn.
  unfold has_room in Hr. apply bool_decide_eq_true in Hr. rewrite length_app. cbn. lia.
Qed.

Lemma length_tail_le {A} (l : list A) : length (tail l) ≤ length l.
Proof. destruct l; cbn; lia. Qed.

Lemma open_job_inv a j k allow g g' sid r :
  open_job a j k allow g = Ok (g', sid, r) →
  fullmatch ID_RE j = true ∧ dict_get (gw_jobs g) j = None ∧
  (j ∈ gw_completed_jobs g → allow = true) ∧ gw_sessions g !! a = Some sid ∧
  inflight a g < gw_max_inflight_per_agent g ∧ r = gw_next_ref g ∧
  g' = set_jobs (dict_set (gw_jobs g) j r) (alloc_job (mkJob a k [] 1 false) g).
Proof.
  unfold open_job, validate_job_id, require, raise_if. intros H.
  destruct (fullmatch ID_RE j) eqn:Hid; [|discriminate H]. cbn in H.
  destruct (dict_has (gw_jobs g) j) eqn:Hj; [discriminate H|]. cbn in H.
  destruct (bool_decide (j ∈ gw_completed_jobs g) && negb allow) eqn:Hc; [discriminate H|]. cbn in H.
  destruct (gw_sessions g !! a) as [sid'|] eqn:Hs; [|discriminate H].
  destruct (gw_max_inflight_per_agent g <=? inflight a g) eqn:Hi; [discriminate H|]. cbn in H.
  simplify_eq. apply Nat.leb_gt in Hi. split_and!; auto using dict_has_false.
  intros Hin. rewrite (bool_decide_eq_true_2 _ Hin) in Hc. by destruct allow.
Qed.

Lemma open_job_prim a j k allow g g' sid r :
  open_job a j k allow g = Ok (g', sid, r) → gw_prim g g'.
Proof. intros (? & ? & ? & ? & ? & -> & ->)%open_job_inv. by eapply p_open. Qed.

Lemma gw_op_prim g g' : gw_op g g' → rtc gw_prim g g'.
Proof.
  destruct 1.
  - eauto using connect_prim with ops.
  - apply consume_frame_prim.
  - eauto using put_prim with ops.
  - eauto using put_none_prim with ops.
  - apply rtc_once, p_session; [by intros ?|]. left. apply length_tail_le.
  - unfold disconnect_unregister. destruct (gw_session_objs g !! sid); [|apply rtc_refl].
    case_decide; [|apply rtc_refl]. eapply rtc_once, p_unregister; eauto.
  - apply rtc_once. by eapply open_job_prim.
  - auto with ops.
  - apply rtc_once, p_job; [by intros ?|]. left. apply length_tail_le.
  - unfold events_finally. eapply rtc_l; [apply p_pop_job|auto with ops].
  - unfold cancel. destruct (dict_get (gw_jobs g) j) as [r|]; cbn; [|apply rtc_refl].
    destruct (gw_job_objs g !! r); cbn; [|apply rtc_refl].
    repeat case_match; cbn; auto with ops.
    apply rtc_once, p_job; [by intros ?|]. by left.
Qed.

(** An invariant of the normal forms holds in every reachable state. *)
Lemma prim_invariant (I : AgentGateway → Prop) tokens mc mi :
  (∀ g, gateway_init tokens mc mi = Ok g → I g) →
  (∀ g g', I g → gw_prim g g' → I g') →
  ∀ s, reachable sys_step (sys_start tokens mc mi) s → I (sys_gw s).
Proof.
  intros Hinit Hp. apply gw_invariant; [done|].
  intros g g' HI Hop%gw_op_prim. induction Hop; eauto.
Qed.

(** * Bounded queues *)

Definition queues_bounded (g : AgentGateway) : Prop :=
  (∀ r j, gw_job_objs g !! r = Some j → length (js_queue j) ≤ MAX_JOB_EVENTS) ∧
  (∀ sid s, gw_session_objs g !! sid = Some s → length (as_outgoing s) ≤ MAX_OUTGOING_FRAMES).

Lemma queues_bounded_prim g g' : queues_bounded g → gw_prim g g' → queues_bounded g'.
Proof.
  intros [Hj Hs] Hp. destruct Hp as [| f r g Hk Hq | f sid g Hk Hq | | | |]; split; cbn.
  - done.
  - intros sid s. rewrite lookup_insert. case_decide; intros; simplify_eq/=; eauto. cbn. lia.
  - intros r' j'. rewrite lookup_alter. case_decide; [|eauto]. subst.
    destruct (gw_job_objs g !! r') as [j|] eqn:E; [|done]. intros [= <-].
    specialize (Hj _ _ E). specialize (Hq _ eq_refl). lia.
  - done.
  - done.
  - intros r' j'. rewrite lookup_alter. case_decide; [|eauto]. subst.
    destruct (gw_session_objs g !! r') as [j|] eqn:E; [|done]. intros [= <-].
    specialize (Hs _ _ E). specialize (Hq _ eq_refl). lia.
  - done.
  - done.
  - intros r' j'. rewrite lookup_insert. case_decide; intros; simplify_eq/=; eauto. lia.
  - done.
  - done.
  - done.
  - unfold remember_completed. by repeat case_match.
  - unfold remember_completed. by repeat case_match.
Qed.

(** * Admission *)

Definition agent_at (g : AgentGateway) (r : ref) : option string :=
  js_agent_id <$> gw_job_objs g !! r.

Record jobs_wf (g : AgentGateway) : Prop := {
  jw_keys : dict_wf (gw_jobs g);
  jw_ids : ∀ j r, (j, r) ∈ gw_jobs g → fullmatch ID_RE j = true;
  jw_objs : ∀ j r, (j, r) ∈ gw_jobs g → is_Some (gw_job_objs g !! r);
  jw_fresh : ∀ r, gw_next_ref g ≤ r → gw_job_objs g !! r = None;
  jw_limit : ∀ a, inflight a g ≤ gw_max_inflight_per_agent g
}.

Lemma agent_at_alter f r g r' :
  keeps_job f → agent_at (upd_job f r g) r' = agent_at g r'.
Proof.
  intros Hk. unfold agent_at. cbn. rewrite lookup_alter. case_decide; [|done]. subst.
  destruct (gw_job_objs g !! r') as [j|]; [|done]. cbn. by rewrite (proj1 (Hk j)).
Qed.

Lemma inflight_ext g g' a :
  gw_jobs g' = gw_jobs g →
  (∀ j r, (j, r) ∈ gw_jobs g → agent_at g' r = agent_at g r) →
  inflight a g' = inflight a g.
Proof.
  intros Hjobs Hag. unfold inflight. rewrite Hjobs. clear Hjobs.
  induction (gw_jobs g) as [|[j r] l IH]; [done|].
  rewrite !filter_cons. cbn. fold (agent_at g' r) (agent_at g r).
  rewrite (Hag j r) by apply list_elem_of_here.
  assert (Hag' : ∀ j0 r0, (j0, r0) ∈ l → agent_at g' r0 = agent_at g r0)
    by (intros; eapply Hag, list_elem_of_further; eassumption).
  case_decide; cbn; by rewrite IH.
Qed.

Lemma inflight_sublist g d a :
  d `sublist_of` gw_jobs g → inflight a (set_jobs d g) ≤ inflight a g.
Proof. intros Hd. unfold inflight. cbn. by apply filter_length_sublist. Qed.

Lemma jobs_wf_prim g g' : jobs_wf g → gw_prim g g' → jobs_wf g'.
Proof.
  intros [Hk Hid Ho Hf Hl] Hp. destruct Hp as [| f r g Hkeep _ | | | a j k sid g Hj Hnone Hs Hlt | j g | j g].
  - split; cbn; eauto. intros r Hr. apply Hf. lia.
  - split; cbn; eauto.
    + intros j r' Hin. rewrite lookup_alter. case_decide; [|eauto]. subst.
      rewrite fmap_is_Some. eauto.
    + intros r' Hr'. rewrite lookup_alter. case_decide; [|auto]. subst. by rewrite Hf.
    + intros a. rewrite <- (Hl a). apply Nat.eq_le_incl.
      apply (inflight_ext g (upd_job f r g)); [done|]. intros. by apply agent_at_alter.
  - by split.
  - by split.
  - rewrite (dict_set_fresh _ _ _ Hnone). split; cbn.
    + pose proof (dict_set_wf _ j (gw_next_ref g) Hk) as Hwf.
      by rewrite (dict_set_fresh _ _ _ Hnone) in Hwf.
    + intros j' r'. rewrite elem_of_app, list_elem_of_singleton.
      intros [Hin|Heq]; [exact (Hid _ _ Hin)|by simplify_eq].
    + intros j' r'. rewrite elem_of_app, list_elem_of_singleton, lookup_insert.
      intros [Hin|Heq]; case_decide; simplify_eq; eauto.
    + intros r' Hr'. rewrite lookup_insert_ne by lia. apply Hf. lia.
    + intros b. unfold inflight. cbn. rewrite filter_app, length_app.
      assert (Hold : length (filter (λ item : string * ref,
          js_agent_id <$> <[gw_next_ref g:=mkJob a k [] 1 false]> (gw_job_objs g) !! item.2
          = Some b) (gw_jobs g)) = inflight b g).
      { apply (inflight_ext g (alloc_job (mkJob a k [] 1 false) g)); [done|].
        intros j' r' Hin. unfold agent_at. cbn. rewrite lookup_insert_ne; [done|].
        intros <-. destruct (Ho _ _ Hin) as [x Hx]. by rewrite Hf in Hx. }
      rewrite Hold, filter_cons. cbn. rewrite lookup_insert_eq. cbn.
      specialize (Hl b). case_decide; simplify_eq; cbn; lia.
  - pose proof (dict_pop_sublist (gw_jobs g) j) as Hsub. split; cbn.
    + by apply dict_pop_wf.
    + intros j' r' Hin%dict_pop_elem. exact (Hid _ _ Hin).
    + intros j' r' Hin%dict_pop_elem. exact (Ho _ _ Hin).
    + done.
    + intros a. rewrite <- (Hl a). by apply inflight_sublist.
  - unfold remember_completed. case_match; [by split|].
    destruct (match gw_completed_order g with [] => _ | _ => _ end) as [done_ order]. by split.
Qed.

(** * The completed-job window

    Specification: the last [n] distinct identifiers, oldest first. *)
Definition window_push (n : nat) (x : string) (l : list string) : list string :=
  if decide (x ∈ l) then l else drop (S (length l) - n) (l ++ [x]).

Record completed_wf (g : AgentGateway) : Prop := {
  cw_nodup : NoDup (gw_completed_order g);
  cw_set : gw_completed_jobs g = list_to_set (gw_completed_order g);
  cw_bound : length (gw_completed_order g) ≤ gw_max_completed_jobs g;
  cw_pos : 1 ≤ gw_max_completed_jobs g
}.

(** [_remember_completed] implements the specification. *)
Lemma remember_window j g :
  completed_wf g →
  gw_completed_order (remember_completed j g) =
    window_push (gw_max_completed_jobs g) j (gw_completed_order g) ∧
  gw_completed_jobs (remember_completed j g) =
    list_to_set (window_push (gw_max_completed_jobs g) j (gw_completed_order g)).
Proof.
  intros [Hnd Hset Hb Hpos]. unfold remember_completed, window_push.
  assert (Hdec : bool_decide (j ∈ gw_completed_jobs g) = bool_decide (j ∈ gw_completed_order g)).
  { apply bool_decide_ext. rewrite Hset. apply elem_of_list_to_set. }
  rewrite Hdec. destruct (decide (j ∈ gw_completed_order g)) as [Hin|Hin].
  { rewrite bool_decide_eq_true_2 by done. by split. }
  rewrite bool_decide_eq_false_2 by done.
  destruct (gw_completed_order g) as [|o rest] eqn:Ho; cbn.
  - replace (1 - _) with 0 by lia. cbn. rewrite Hset. split; [done|set_solver].
  - destruct (gw_max_completed_jobs g) as [|n] eqn:Hn; [lia|]. cbn in Hb. cbn [Nat.leb].
    destruct (n <=? length rest) eqn:E; cbn.
    + apply Nat.leb_le in E. replace (S (length rest) - n) with 1 by lia. cbn.
      apply NoDup_cons in Hnd as [Ho' _].
      split; [done|]. rewrite Hset. set_solver.
    + apply Nat.leb_gt in E. replace (S (length rest) - n) with 0 by lia. cbn.
      split; [done|]. rewrite Hset. set_solver.
Qed.

Lemma window_push_nodup n x l : NoDup l → NoDup (window_push n x l).
Proof.
  intros Hl. unfold window_push. case_decide; [done|].
  eapply sublist_NoDup; [|apply sublist_drop].
  apply NoDup_app. split_and!; [done|set_solver|apply NoDup_singleton].
Qed.

Lemma window_push_length n x l : 1 ≤ n → length l ≤ n → length (window_push n x l) ≤ n.
Proof.
  intros. unfold window_push. case_decide; [done|].
  rewrite length_drop, length_app. cbn. lia.
Qed.

Lemma window_push_in n x l : 1 ≤ n → x ∈ window_push n x l.
Proof.
  intros. unfold window_push. case_decide; [done|].
  rewrite drop_app_le by lia. rewrite elem_of_app, list_elem_of_singleton. by right.
Qed.

Lemma completed_wf_prim g g' : completed_wf g → gw_prim g g' → completed_wf g'.
Proof.
  intros Hwf Hp. destruct Hp; try (destruct Hwf; by split).
  destruct (remember_window j g Hwf) as [Ho Hc]. destruct Hwf as [Hnd Hset Hb Hpos].
  assert (gw_max_completed_jobs (remember_completed j g) = gw_max_completed_jobs g) as Hm.
  { unfold remember_completed. case_match; [done|].
    by destruct (match gw_completed_order g with [] => _ | _ => _ end). }
  split; rewrite ?Ho, ?Hc, ?Hm; auto using window_push_nodup, window_push_length.
Qed.

(** * Sessions *)

Record sessions_wf (tokens : gmap string string) (g : AgentGateway) : Prop := {
  sw_tokens : gw_agent_tokens g = tokens;
  sw_fresh : ∀ sid, gw_next_ref g ≤ sid → gw_session_objs g !! sid = None;
  sw_objs : ∀ a sid, gw_sessions g !! a = Some sid →
    ∃ s, gw_session_objs g !! sid = Some s ∧ as_agent_id s = a ∧
         as_protocol_major s = PROTOCOL_MAJOR ∧
         DIAGNOSTIC_CAPABILITY ∈ as_capabilities s ∧
         fullmatch ID_RE a = true ∧ is_Some (tokens !! a)
}.

Lemma connect_check_facts tokens hello :
  connect_check tokens (Some (FHello hello)) = Ok hello →
  fullmatch ID_RE (hello_agent_id hello) = true ∧
  hello_major hello = PROTOCOL_MAJOR ∧
  DIAGNOSTIC_CAPABILITY ∈ hello_capabilities hello ∧
  tokens !! hello_agent_id hello = Some (hello_auth_token hello).
Proof.
  unfold connect_check, compare_digest. intros H.
  destruct (fullmatch ID_RE _) eqn:Hid; [|discriminate H].
  destruct (hello_major hello =? PROTOCOL_MAJOR)%Z eqn:Hm; [|discriminate H].
  destruct (str_in _ _) eqn:Hc; [|discriminate H].
  destruct (tokens !! _) as [expected|] eqn:Ht; [|discriminate H].
  destruct (is_ascii expected && is_ascii _); [|discriminate H].
  destruct (String.eqb _ _) eqn:Hq; [|discriminate H].
  apply String.eqb_eq in Hq as ->. apply Z.eqb_eq in Hm. apply str_in_spec in Hc. auto.
Qed.

Lemma sessions_wf_prim tokens g g' : sessions_wf tokens g → gw_prim g g' → sessions_wf tokens g'.
Proof.
  intros [Ht Hf Ho] Hp.
  destruct Hp as [now hello g Hc Hnone | | f sid g Hk _ | a sid g Ha | | |j g].
  - apply connect_check_facts in Hc as (Hid & Hm & Hcap & Htok). rewrite Ht in Htok.
    split; cbn; [done| |].
    + intros sid Hsid. rewrite lookup_insert_ne by lia. apply Hf. lia.
    + intros a sid. rewrite lookup_insert. case_decide.
      * intros [= <-]. subst. rewrite lookup_insert_eq. eexists. by split_and!.
      * intros (s & Hs & ?)%Ho. exists s. rewrite lookup_insert_ne; [auto|].
        intros <-. by rewrite Hf in Hs.
  - by split.
  - split; cbn; [done| |].
    + intros sid' Hs. rewrite lookup_alter. case_decide; [|auto]. subst. by rewrite Hf.
    + intros a sid' (s & Hs & <- & Hm & Hcap & ?)%Ho.
      destruct (Hk s) as (Ha' & Hc' & Hm').
      rewrite lookup_alter. case_decide; [|eauto 10]. subst.
      rewrite Hs. eexists. split; [done|]. rewrite Ha', Hc', Hm'. auto.
  - split; cbn; [done..|]. intros b sid'. rewrite lookup_delete_Some. intros [_ ?]. auto.
  - split; cbn; [done| |done]. intros. apply Hf. lia.
  - by split.
  - unfold remember_completed. case_match; [by split|].
    destruct (match gw_completed_order g with [] => _ | _ => _ end). by split.
Qed.

(** ** The initial state *)
Lemma gateway_init_wf tokens mc mi g :
  gateway_init tokens mc mi = Ok g →
  queues_bounded g ∧ jobs_wf g ∧ completed_wf g ∧ sessions_wf tokens g ∧
  gw_max_completed_jobs g = Z.to_nat mc ∧ gw_max_inflight_per_agent g = Z.to_nat mi.
Proof.
  unfold gateway_init, raise_if.
  destruct ((mc <? 1) || (mi <? 1))%Z eqn:E; [done|]. cbn. intros [= <-].
  apply orb_false_iff in E as [E1%Z.ltb_ge E2%Z.ltb_ge].
  split_and!; [split| split | split | split | |]; cbn; try done; try lia.
  - constructor.
  - by intros ?? ?%elem_of_nil.
  - by intros ?? ?%elem_of_nil.
  - constructor.
Qed.

(** All invariants together, in every reachable state. *)
Record gw_inv (tokens : gmap string string) (mc mi : nat) (g : AgentGateway) : Prop := {
  gi_queues : queues_bounded g;
  gi_jobs : jobs_wf g;
  gi_completed : completed_wf g;
  gi_sessions : sessions_wf tokens g;
  gi_max_completed : gw_max_completed_jobs g = mc;
  gi_max_inflight : gw_max_inflight_per_agent g = mi
}.

Lemma gw_prim_limits g g' :
  gw_prim g g' →
  gw_max_completed_jobs g' = gw_max_completed_jobs g ∧
  gw_max_inflight_per_agent g' = gw_max_inflight_per_agent g.
Proof.
  destruct 1; try done. unfold remember_completed. case_match; [done|].
  by destruct (match gw_completed_order g with [] => _ | _ => _ end).
Qed.

Lemma gw_inv_prim tokens mc mi g g' :
  gw_inv tokens mc mi g → gw_prim g g' → gw_inv tokens mc mi g'.
Proof.
  intros [? ? ? ? Hm Hi] Hp. destruct (gw_prim_limits _ _ Hp) as [Hm' Hi'].
  split; [eauto using queues_bounded_prim, jobs_wf_prim, completed_wf_prim, sessions_wf_prim..| |];
    congruence.
Qed.

Lemma gw_inv_op tokens mc mi g g' :
  gw_inv tokens mc mi g → gw_op g g' → gw_inv tokens mc mi g'.
Proof. intros HI Hop%gw_op_prim. induction Hop; eauto using gw_inv_prim. Qed.

Lemma gw_inv_reachable tokens mc mi s :
  reachable sys_step (sys_start tokens mc mi) s →
  gw_inv tokens (Z.to_nat mc) (Z.to_nat mi) (sys_gw s).
Proof.
  apply prim_invariant; [|apply gw_inv_prim].
  intros g (? & ? & ? & ? & ? & ?)%gateway_init_wf. by split.
Qed.
