(* ===== verification/GatewayStreams.v ===== *)
(** What a job stream delivers ([_consume], [_accept_event], [_events] of
    [controlplane/gateway.py]): along every run, the frames one stream yields
    come in the agent's order, and nothing follows a terminal frame. *)

From stdpp Require Import sorting.
From S2P Require Import Prelude Text Regex Dict Gateway GatewaySystem GatewayInv.

Open Scope list_scope.
Open Scope nat_scope.

(** * What a run shows of one stream *)

Definition delivered_obs (r : ref) (o : obs) : list AgentFrame :=
  match o with ODelivered r' f => if decide (r' = r) then [f] else [] | _ => [] end.

(** The frames stream [r] has yielded in a run. *)
Definition delivered (r : ref) (tr : list (action * list obs)) : list AgentFrame :=
  flat_map (λ l, flat_map (delivered_obs r) l.2) tr.

Definition frame_seq (f : AgentFrame) : Z := from_option snd 0%Z (event_of f).

(** The sequence numbers of the progress frames among [l]. *)
Definition progress_seqs (l : list AgentFrame) : list Z :=
  frame_seq <$> filter (λ f, is_terminal f = false) l.

Lemma delivered_app r tr1 tr2 : delivered r (tr1 ++ tr2) = delivered r tr1 ++ delivered r tr2.
Proof. apply flat_map_app. Qed.

Lemma delivered_snoc_nil r tr a o :
  flat_map (delivered_obs r) o = [] → delivered r (tr ++ [(a, o)]) = delivered r tr.
Proof. intros H. rewrite delivered_app. cbn. by rewrite H, !app_nil_r. Qed.

Lemma progress_seqs_app l1 l2 : progress_seqs (l1 ++ l2) = progress_seqs l1 ++ progress_seqs l2.
Proof. unfold progress_seqs. by rewrite filter_app, fmap_app. Qed.

Lemma progress_seqs_terminal f : is_terminal f = true → progress_seqs [f] = [].
Proof. unfold progress_seqs. rewrite filter_cons. intros ->. by case_decide. Qed.

Lemma progress_seqs_progress f : is_terminal f = false → progress_seqs [f] = [frame_seq f].
Proof. unfold progress_seqs. rewrite filter_cons. intros ->. by case_decide. Qed.

Lemma sorted_snoc (l : list Z) n :
  StronglySorted Z.lt l → Forall (λ m, (m < n)%Z) l → StronglySorted Z.lt (l ++ [n]).
Proof.
  induction 1 as [|m l Hl IH Hm]; intros Hn; cbn; [by repeat constructor|].
  inversion Hn; subst. constructor; [auto|]. apply Forall_app. by repeat constructor.
Qed.

(** * Suspended puts *)

(** A put some consumer task still has to make. *)
Definition consumer_put (s : system) (sid : ref) (op : put_op) (rest : list put_op) : Prop :=
  ∃ h, sys_conns s !! sid = Some (mkConn (CPutting op rest) h).

(** A put some other task is suspended in. *)
Definition other_put (s : system) (op : put_op) : Prop :=
  op ∈ sys_cancels s ∨
  (∃ r j, sys_calls s !! r = Some (KDispatch j op)) ∨
  (∃ sid k rest, sys_conns s !! sid = Some (mkConn k (HDisconnecting rest (Some op)))).

Definition live (k : consumer) : bool :=
  match k with CNew | CReading | CPutting _ _ => true | CClosing | CDone => false end.

(** * The invariant *)

(** A connection whose consumer can still accept events is the one registered
    for its agent. *)
Definition conns_wf (s : system) : Prop :=
  ∀ sid c, sys_conns s !! sid = Some c →
    ∃ se, gw_session_objs (sys_gw s) !! sid = Some se ∧
      (live (c_consumer c) = true → gw_sessions (sys_gw s) !! as_agent_id se = Some sid).

Definition pending_ok (d : list AgentFrame) (j : JobState) (f : AgentFrame) : Prop :=
  frame_seq f = (js_next_sequence j - 1)%Z ∧
  Forall (λ n, (n < js_next_sequence j - 1)%Z) (progress_seqs (d ++ js_queue j)).

Definition puts_ok (tr : list (action * list obs)) (s : system) : Prop :=
  ∀ sid op rest, consumer_put s sid op rest → ∀ r f, PutJob r f ∈ op :: rest →
    is_terminal f = false →
    op = PutJob r f ∧ rest = [] ∧
    ∃ j se, gw_job_objs (sys_gw s) !! r = Some j ∧
      gw_session_objs (sys_gw s) !! sid = Some se ∧
      js_agent_id j = as_agent_id se ∧ pending_ok (delivered r tr) j f.

Definition order_ok (tr : list (action * list obs)) (s : system) : Prop :=
  ∀ r j, gw_job_objs (sys_gw s) !! r = Some j →
    StronglySorted Z.lt (progress_seqs (delivered r tr ++ js_queue j)) ∧
    Forall (λ n, (n < js_next_sequence j)%Z) (progress_seqs (delivered r tr ++ js_queue j)).

(** Only the last frame of a stream is terminal; a stream that may still get
    frames has had none. *)
Definition shape_ok (tr : list (action * list obs)) (s : system) : Prop :=
  ∀ r, Forall (λ f, is_terminal f = false) (removelast (delivered r tr)) ∧
    match sys_calls s !! r with
    | Some (KDispatch _ _ | KStream _ | KYielded _ false) =>
        Forall (λ f, is_terminal f = false) (delivered r tr)
    | _ => True
    end.

Record stream_inv (tr : list (action * list obs)) (s : system) : Prop := {
  si_conns : conns_wf s;
  si_other : ∀ op, other_put s op → ∀ r f, op = PutJob r f → is_terminal f = true;
  si_puts : puts_ok tr s;
  si_order : order_ok tr s;
  si_shape : shape_ok tr s;
  si_fresh : ∀ r, gw_job_objs (sys_gw s) !! r = None →
    delivered r tr = [] ∧ sys_calls s !! r = None
}.

Lemma failure_terminal k j n c : is_terminal (failure_frame k j n c) = true.
Proof. unfold failure_frame. by case_match. Qed.

(** * Steps that deliver nothing and put no progress frame *)

Definition may_receive (c : call) : bool :=
  match c with KDispatch _ _ | KStream _ | KYielded _ false => true | _ => false end.

Definition no_progress_op (op : put_op) : Prop :=
  ∀ r f, op = PutJob r f → is_terminal f = true.

(** How a job object may differ after such a step. *)
Definition job_grows (j j' : JobState) : Prop :=
  js_agent_id j' = js_agent_id j ∧ js_next_sequence j' = js_next_sequence j ∧
  (js_queue j' = js_queue j ∨ ∃ f, is_terminal f = true ∧ js_queue j' = js_queue j ++ [f]).

Record benign (s s' : system) : Prop := {
  bn_conns : conns_wf s → conns_wf s';
  bn_other : ∀ op, other_put s' op → other_put s op ∨ no_progress_op op;
  bn_puts : ∀ sid op rest, consumer_put s' sid op rest →
    consumer_put s sid op rest ∨ (∃ op0, consumer_put s sid op0 (op :: rest)) ∨
    Forall no_progress_op (op :: rest);
  bn_jobs : ∀ r j', gw_job_objs (sys_gw s') !! r = Some j' →
    (∃ j, gw_job_objs (sys_gw s) !! r = Some j ∧ job_grows j j') ∨
    (gw_job_objs (sys_gw s) !! r = None ∧ js_queue j' = []);
  bn_persist : ∀ r, is_Some (gw_job_objs (sys_gw s) !! r) → is_Some (gw_job_objs (sys_gw s') !! r);
  bn_sessions : ∀ sid se, gw_session_objs (sys_gw s) !! sid = Some se →
    ∃ se', gw_session_objs (sys_gw s') !! sid = Some se' ∧ as_agent_id se' = as_agent_id se;
  bn_calls : ∀ r c, sys_calls s' !! r = Some c →
    (may_receive c = true →
       (∃ c0, sys_calls s !! r = Some c0 ∧ may_receive c0 = true) ∨
       gw_job_objs (sys_gw s) !! r = None) ∧
    is_Some (gw_job_objs (sys_gw s') !! r) 
}.

Lemma progress_seqs_grow d j j' :
  job_grows j j' → progress_seqs (d ++ js_queue j') = progress_seqs (d ++ js_queue j).
Proof.
  intros (_ & _ & [->|(f & Hf & ->)]); [done|].
  by rewrite app_assoc, progress_seqs_app, (progress_seqs_terminal f Hf), app_nil_r.
Qed.

Lemma benign_inv tr tr' s s' :
  stream_inv tr s → (∀ r, delivered r tr' = delivered r tr) → benign s s' → stream_inv tr' s'.
Proof.
  intros [Hc Ho Hp Hord Hsh Hfr] Htr [Bc Bo Bp Bj Bper Bs Bcl].
  split.
  - auto.
  - intros op Hop r f ->. destruct (Bo _ Hop) as [H|H]; eauto.
  - intros sid op rest Hcp r f Hin Hf.
    assert (Hold : op = PutJob r f ∧ rest = [] ∧ consumer_put s sid op rest).
    { destruct (Bp _ _ _ Hcp) as [H|[[op0 H]|H]].
      - destruct (Hp _ _ _ H _ _ Hin Hf) as (? & ? & _). auto.
      - destruct (Hp _ _ _ H r f) as (_ & ? & _); [by right|done|done].
      - rewrite Forall_forall in H. by rewrite (H _ Hin r f eq_refl) in Hf. }
    destruct Hold as (-> & -> & Hcp0). split; [done|]. split; [done|].
    destruct (Hp _ _ _ Hcp0 r f) as (_ & _ & j & se & Hj & Hse & Hag & Hok); [by left|done|].
    destruct (Bs _ _ Hse) as (se' & Hse' & Hag').
    destruct (Bper r) as [j' Hj']; [eauto|]. exists j', se'. split; [done|]. split; [done|].
    destruct (Bj _ _ Hj') as [(j0 & Hj0 & Hg)|[Hn _]]; [|congruence]. simplify_eq.
    pose proof Hg as (Ha & Hn & _). rewrite Htr. unfold pending_ok.
    rewrite (progress_seqs_grow _ _ _ Hg), Hn. split; [congruence|done].
  - intros r j' Hj'. rewrite Htr. destruct (Bj _ _ Hj') as [(j & Hj & Hg)|[Hn Hq]].
    + rewrite (progress_seqs_grow _ _ _ Hg). destruct Hg as (_ & -> & _). auto.
    + destruct (Hfr _ Hn) as [-> _]. rewrite Hq. cbn. split; constructor.
  - intros r. rewrite Htr. destruct (Hsh r) as [Hlast Hcall]. split; [done|].
    destruct (sys_calls s' !! r) as [c|] eqn:E; [|done].
    destruct (may_receive c) eqn:Hm; [|by destruct c as [| | |? []|]].
    assert (Hall : Forall (λ f, is_terminal f = false) (delivered r tr)).
    { destruct (Bcl _ _ E) as [[(c0 & Hc0 & Hm0)|Hn] _]; [done| |].
      - rewrite Hc0 in Hcall. by destruct c0 as [| | |? []|].
      - destruct (Hfr _ Hn) as [-> _]. constructor. }
    by destruct c as [| | |? []|].
  - intros r Hn. rewrite Htr. 
    assert (gw_job_objs (sys_gw s) !! r = None) as Hn0.
    { apply eq_None_not_Some. intros H%Bper. by rewrite Hn in H; destruct H. }
    destruct (Hfr _ Hn0) as [Hd _]. split; [done|].
    destruct (sys_calls s' !! r) as [c|] eqn:E; [|done].
    destruct (Bcl _ _ E) as [_ [? Hs]]. congruence.
Qed.

(** ** Object updates *)

Record objs_benign (g g' : AgentGateway) : Prop := {
  ob_jobs : ∀ r j', gw_job_objs g' !! r = Some j' →
    (∃ j, gw_job_objs g !! r = Some j ∧ job_grows j j') ∨
    (gw_job_objs g !! r = None ∧ js_queue j' = []);
  ob_persist : ∀ r, is_Some (gw_job_objs g !! r) → is_Some (gw_job_objs g' !! r);
  ob_sessions : ∀ sid se, gw_session_objs g !! sid = Some se →
    ∃ se', gw_session_objs g' !! sid = Some se' ∧ as_agent_id se' = as_agent_id se
}.

Lemma job_grows_refl j : job_grows j j.
Proof. split_and!; auto. Qed.

Lemma objs_same g g' :
  gw_job_objs g' = gw_job_objs g → gw_session_objs g' = gw_session_objs g → objs_benign g g'.
Proof. intros Hj Hs. split; rewrite ?Hj, ?Hs; eauto using job_grows_refl. Qed.

Lemma objs_upd_session f sid g : keeps_session f → objs_benign g (upd_session f sid g).
Proof.
  intros Hk. split; cbn; [eauto using job_grows_refl|done|].
  intros sid' se Hse. rewrite lookup_alter. case_decide; [subst|eauto].
  rewrite Hse. eexists. split; [done|]. apply Hk.
Qed.

Lemma objs_upd_job f r g :
  (∀ j, gw_job_objs g !! r = Some j → job_grows j (f j)) → objs_benign g (upd_job f r g).
Proof.
  intros Hf. split; cbn; [| |eauto].
  - intros r' j'. rewrite lookup_alter. case_decide; [subst|eauto using job_grows_refl].
    destruct (gw_job_objs g !! r') as [j|] eqn:E; [|done]. intros [= <-]. eauto.
  - intros r'. rewrite lookup_alter. case_decide; [subst|done]. by rewrite fmap_is_Some.
Qed.

Lemma objs_perform_put op g g' :
  perform_put op g = Some g' → no_progress_op op → objs_benign g g'.
Proof.
  destruct op as [r f|sid c]; cbn; intros H Hop.
  - destruct (gw_job_objs g !! r) as [j|] eqn:E; [|done]. cbn in H.
    destruct (has_room _ _); [|done]. injection H as <-. apply objs_upd_job.
    intros j' Hj'. split_and!; [done..|]. right. exists f. eauto.
  - destruct (gw_session_objs g !! sid) as [j|] eqn:E; [|done]. cbn in H.
    destruct (has_room _ _); [|done]. injection H as <-. by apply objs_upd_session.
Qed.

Lemma objs_put_none sid g g' : perform_put_none sid g = Some g' → objs_benign g g'.
Proof.
  unfold perform_put_none. intros H.
  destruct (gw_session_objs g !! sid) as [j|] eqn:E; [|done]. cbn in H.
  destruct (has_room _ _); [|done]. injection H as <-. by apply objs_upd_session.
Qed.

Lemma perform_put_sessions op g g' :
  perform_put op g = Some g' → gw_sessions g' = gw_sessions g.
Proof.
  destruct op as [r f|sid c]; cbn; intros H.
  - destruct (gw_job_objs g !! r); [|done]. cbn in H. destruct (has_room _ _); by simplify_eq.
  - destruct (gw_session_objs g !! sid); [|done]. cbn in H. destruct (has_room _ _); by simplify_eq.
Qed.

Lemma perform_put_none_sessions sid g g' :
  perform_put_none sid g = Some g' → gw_sessions g' = gw_sessions g.
Proof.
  unfold perform_put_none. intros H.
  destruct (gw_session_objs g !! sid); [|done]. cbn in H. destruct (has_room _ _); by simplify_eq.
Qed.

(** ** Steps of a connection *)

Lemma benign_conn s s' sid k h k' h' :
  sys_conns s !! sid = Some (mkConn k h) →
  sys_conns s' = <[sid := mkConn k' h']> (sys_conns s) →
  sys_calls s' = sys_calls s → sys_cancels s' = sys_cancels s →
  (∀ r c, sys_calls s !! r = Some c → is_Some (gw_job_objs (sys_gw s) !! r)) →
  objs_benign (sys_gw s) (sys_gw s') →
  (live k' = true → live k = true) →
  (conns_wf s → ∀ a sid', gw_sessions (sys_gw s) !! a = Some sid' →
     gw_sessions (sys_gw s') !! a = Some sid' ∨ (sid' = sid ∧ live k' = false)) →
  (∀ op rest, k' = CPutting op rest →
     k = CPutting op rest ∨ (∃ op0, k = CPutting op0 (op :: rest)) ∨
     Forall no_progress_op (op :: rest)) →
  (∀ op rest, h' = HDisconnecting rest (Some op) →
     h = HDisconnecting rest (Some op) ∨ no_progress_op op) →
  benign s s'.
Proof.
  intros Hc Hconns Hcalls Hcancels Hobj [Oj Op Os] Hlive Hsess Hput Hdisc. split; [..|done|done|].
  - intros Hwf sid' c'. rewrite Hconns, lookup_insert. case_decide as Heq; [subst|].
    + intros [= <-]. cbn. destruct (Hwf _ _ Hc) as (se & Hse & Hl).
      destruct (Os _ _ Hse) as (se' & Hse' & Ha). exists se'. split; [done|].
      intros Hk. rewrite Ha. specialize (Hl (Hlive Hk)).
      destruct (Hsess Hwf _ _ Hl) as [|[_ Hd]]; [done|congruence].
    + intros Hc'. destruct (Hwf _ _ Hc') as (se & Hse & Hl).
      destruct (Os _ _ Hse) as (se' & Hse' & Ha). exists se'. split; [done|].
      intros Hk. rewrite Ha. specialize (Hl Hk).
      destruct (Hsess Hwf _ _ Hl) as [|[-> _]]; [done|done].
  - intros op [H|[(r & j & H)|(sid' & k0 & rest & H)]].
    + left. left. by rewrite <- Hcancels.
    + left. right. left. rewrite Hcalls in H. eauto.
    + rewrite Hconns, lookup_insert in H. case_decide as Heq; [subst|].
      * injection H as Hk0 Hh'. destruct (Hdisc _ _ Hh') as [->|]; [|by right].
        left. right. right. eauto.
      * left. right. right. eauto.
  - intros sid' op rest [h0 H]. rewrite Hconns, lookup_insert in H. case_decide as Heq; [subst|].
    + injection H as Hk' _. destruct (Hput _ _ Hk') as [->|[[op0 ->]|]].
      * left. by exists h.
      * right. left. exists op0. by exists h.
      * by do 2 right.
    + left. by exists h0.
  - done.
  - intros r c. rewrite Hcalls. intros H. split; [eauto|]. apply Op. eauto.
Qed.

(** ** Accepting an event *)

(** What [_accept_event] does before its first [put]. *)
Lemma accept_event_cases sid job_id n f g g' ops :
  accept_event sid job_id n f g = (g', ops) →
  (g' = g ∧ Forall no_progress_op ops) ∨
  (∃ r j se, gw_job_objs g !! r = Some j ∧ gw_session_objs g !! sid = Some se ∧
     js_agent_id j = as_agent_id se ∧ n = js_next_sequence j ∧
     g' = upd_job bump_sequence r g ∧ ops = [PutJob r f]).
Proof.
  unfold accept_event. intros H.
  destruct (dict_get (gw_jobs g) job_id) as [r|]; [|simplify_eq; auto].
  destruct (gw_session_objs g !! sid) as [se|] eqn:Hse; [|simplify_eq; auto].
  destruct (gw_job_objs g !! r) as [j|] eqn:Hj; [|simplify_eq; auto].
  destruct (String.eqb _ _) eqn:Ha; [|simplify_eq/=; auto].
  destruct (n =? _)%Z eqn:Hn; cbn in H; simplify_eq.
  - right. exists r, j, se. apply String.eqb_eq in Ha. apply Z.eqb_eq in Hn. by split_and!.
  - left. split; [done|]. repeat constructor.
    + intros r' f' [= <- <-]. apply failure_terminal.
    + by intros ???.
Qed.

Lemma consume_frame_cases now sid f g g' ops :
  consume_frame now sid f g = (g', ops) →
  (objs_benign g g' ∧ gw_sessions g' = gw_sessions g ∧ Forall no_progress_op ops) ∨
  (∃ r j se, gw_job_objs g !! r = Some j ∧ gw_session_objs g !! sid = Some se ∧
     js_agent_id j = as_agent_id se ∧ frame_seq f = js_next_sequence j ∧
     g' = upd_job bump_sequence r g ∧ ops = [PutJob r f]).
Proof.
  assert (Hev : ∀ j n, event_of f = Some (j, n) → accept_event sid j n f g = (g', ops) →
    (objs_benign g g' ∧ gw_sessions g' = gw_sessions g ∧ Forall no_progress_op ops) ∨
    (∃ r j se, gw_job_objs g !! r = Some j ∧ gw_session_objs g !! sid = Some se ∧
     js_agent_id j = as_agent_id se ∧ frame_seq f = js_next_sequence j ∧
     g' = upd_job bump_sequence r g ∧ ops = [PutJob r f])).
  { intros j n Hf [[-> Hops]|(r & j' & se & ? & ? & ? & -> & ? & ?)]%accept_event_cases.
    - left. split; [by apply objs_same|done].
    - right. exists r, j', se. unfold frame_seq. rewrite Hf. by split_and!. }
  destruct f; cbn [consume_frame]; intros H; simplify_eq;
    try (eapply Hev; [reflexivity|exact H]);
    left; (split_and!; [|done|constructor]);
    first [by apply objs_same | by apply objs_upd_session].
Qed.

Lemma puts_unique tr s sid1 op1 rest1 sid2 op2 rest2 r f1 :
  stream_inv tr s → consumer_put s sid1 op1 rest1 →
  PutJob r f1 ∈ op1 :: rest1 → is_terminal f1 = false →
  (∃ c2 j se, sys_conns s !! sid2 = Some c2 ∧ live (c_consumer c2) = true ∧
     gw_job_objs (sys_gw s) !! r = Some j ∧ gw_session_objs (sys_gw s) !! sid2 = Some se ∧
     js_agent_id j = as_agent_id se) ∨
  (∃ f2, consumer_put s sid2 op2 rest2 ∧ PutJob r f2 ∈ op2 :: rest2 ∧ is_terminal f2 = false) →
  sid1 = sid2.
Proof.
  intros Hinv H1 Hin1 Hf1 H2.
  destruct (si_puts _ _ Hinv _ _ _ H1 _ _ Hin1 Hf1) as (_ & _ & j1 & se1 & Hj1 & Hse1 & Ha1 & _).
  destruct H1 as [h1 Hc1]. destruct (si_conns _ _ Hinv _ _ Hc1) as (se & Hse & Hl). simplify_eq.
  specialize (Hl eq_refl). rewrite <- Ha1 in Hl.
  assert (∃ c2 se2, sys_conns s !! sid2 = Some c2 ∧ live (c_consumer c2) = true ∧
     gw_session_objs (sys_gw s) !! sid2 = Some se2 ∧ js_agent_id j1 = as_agent_id se2)
    as (c2 & se2 & Hc2 & Hl2 & Hse2 & Ha2).
  { destruct H2 as [(c2 & j & se2 & ? & ? & ? & ? & ?)|(f2 & Hcp & Hin & Hf)].
    - simplify_eq. exists c2, se2. by split_and!.
    - destruct (si_puts _ _ Hinv _ _ _ Hcp _ _ Hin Hf) as (_ & _ & j & se2 & ? & ? & ? & _).
      destruct Hcp as [h2 Hc2]. simplify_eq.
      exists (mkConn (CPutting op2 rest2) h2), se2. by split_and!. }
  destruct (si_conns _ _ Hinv _ _ Hc2) as (se3 & Hse3 & Hl3). simplify_eq.
  specialize (Hl3 Hl2). congruence.
Qed.

(** ** The three steps that move a progress frame *)

Lemma stream_inv_accept tr a s sid h r j se f :
  stream_inv tr s →
  sys_conns s !! sid = Some (mkConn CReading h) →
  gw_job_objs (sys_gw s) !! r = Some j → gw_session_objs (sys_gw s) !! sid = Some se →
  js_agent_id j = as_agent_id se → frame_seq f = js_next_sequence j →
  stream_inv (tr ++ [(a, [])])
    (set_conn sid (mkConn (CPutting (PutJob r f) []) h)
       (set_gw (upd_job bump_sequence r (sys_gw s)) s)).
Proof.
  intros Hinv Hc Hj Hse Hag Hseq. pose proof Hinv as [Hcw Ho Hp Hord Hsh Hfr].
  assert (Hd : ∀ r', delivered r' (tr ++ [(a, [])]) = delivered r' tr)
    by (intros; by apply delivered_snoc_nil).
  split; cbn.
  - intros sid' c'. cbn. rewrite lookup_insert. case_decide; [subst|apply Hcw].
    intros [= <-]. destruct (Hcw _ _ Hc) as (se0 & Hse0 & Hl). exists se0. auto.
  - intros op [H|[H|(sid' & k & rest & H)]]; [eapply Ho; by left|eapply Ho; right; by left|].
    cbn in H. rewrite lookup_insert in H. case_decide; [subst|].
    + injection H as _ ->. eapply Ho. do 2 right. eauto.
    + eapply Ho. do 2 right. eauto.
  - intros sid' op rest [h' H] r' f' Hin Hf. cbn in H. rewrite lookup_insert in H.
    case_decide as Heq; [subst|].
    + injection H as <- <- <-. apply list_elem_of_singleton in Hin as [= -> ->].
      split; [done|]. split; [done|]. cbn. rewrite lookup_alter_eq, Hj.
      eexists _, se. split_and!; [done..|]. rewrite Hd. unfold pending_ok. cbn.
      destruct (Hord _ _ Hj) as [_ Hlt]. replace (_ + 1 - 1)%Z with (js_next_sequence j) by lia. auto.
    + assert (Hcp : consumer_put s sid' op rest) by (by exists h').
      destruct (Hp _ _ _ Hcp _ _ Hin Hf) as (-> & -> & j' & se' & Hj' & Hse' & Hag' & Hok).
      split; [done|]. split; [done|]. exists j', se'. rewrite Hd. cbn.
      rewrite lookup_alter_ne; [auto|]. intros <-. destruct Heq. symmetry.
      apply (puts_unique tr s sid' (PutJob r f') [] sid (PutJob r f) [] r f'); try done.
      left. eexists _, j, se. by split_and!.
  - intros r' j'. rewrite Hd. cbn. rewrite lookup_alter. case_decide; [subst|apply Hord].
    rewrite Hj. intros [= <-]. destruct (Hord _ _ Hj) as [Hs Hlt]. split; [done|]. cbn.
    eapply Forall_impl; [exact Hlt|]. cbn. lia.
  - intros r'. rewrite Hd. apply Hsh.
  - intros r'. rewrite Hd, lookup_alter. case_decide; [subst|apply Hfr]. by rewrite Hj.
Qed.

Lemma stream_inv_enqueue tr a s sid h r j f rest :
  stream_inv tr s →
  sys_conns s !! sid = Some (mkConn (CPutting (PutJob r f) rest) h) →
  gw_job_objs (sys_gw s) !! r = Some j → is_terminal f = false →
  stream_inv (tr ++ [(a, [])])
    (set_conn sid (mkConn (after_puts rest) h)
       (set_gw (upd_job (enqueue_event f) r (sys_gw s)) s)).
Proof.
  intros Hinv Hc Hj Hf. pose proof Hinv as [Hcw Ho Hp Hord Hsh Hfr].
  assert (Hcp : consumer_put s sid (PutJob r f) rest) by (by exists h).
  destruct (Hp _ _ _ Hcp r f) as (_ & -> & j0 & se & Hj0 & Hse & Hag & Hpend);
    [apply list_elem_of_here|done|]. simplify_eq.
  assert (Hd : ∀ r', delivered r' (tr ++ [(a, [])]) = delivered r' tr)
    by (intros; by apply delivered_snoc_nil).
  split; cbn.
  - intros sid' c'. cbn. rewrite lookup_insert. case_decide; [subst|apply Hcw].
    intros [= <-]. destruct (Hcw _ _ Hc) as (se0 & Hse0 & Hl). exists se0. auto.
  - intros op [H|[H|(sid' & k & rest & H)]]; [eapply Ho; by left|eapply Ho; right; by left|].
    cbn in H. rewrite lookup_insert in H. case_decide; [subst|].
    + injection H as _ ->. eapply Ho. do 2 right. eauto.
    + eapply Ho. do 2 right. eauto.
  - intros sid' op rest [h' H] r' f' Hin Hf'. cbn in H. rewrite lookup_insert in H.
    case_decide as Heq; [discriminate H|].
    assert (Hcp' : consumer_put s sid' op rest) by (by exists h').
    destruct (Hp _ _ _ Hcp' _ _ Hin Hf') as (-> & -> & j' & se' & Hj' & Hse' & Hag' & Hok).
    split; [done|]. split; [done|]. exists j', se'. rewrite Hd. cbn.
    rewrite lookup_alter_ne; [auto|]. intros <-. destruct Heq.
    apply (puts_unique tr s sid (PutJob r f) [] sid' (PutJob r f') [] r f); try done;
      [apply list_elem_of_here|].
    right. exists f'. by split_and!.
  - intros r' j'. rewrite Hd. cbn. rewrite lookup_alter. case_decide; [subst|apply Hord].
    rewrite Hj. intros [= <-]. destruct (Hord _ _ Hj) as [Hs Hlt], Hpend as [Hn Hlt'].
    cbn. rewrite app_assoc, progress_seqs_app, (progress_seqs_progress f Hf), Hn. split.
    + by apply sorted_snoc.
    + apply Forall_app. split; [done|]. constructor; [lia|constructor].
  - intros r'. rewrite Hd. apply Hsh.
  - intros r'. rewrite Hd, lookup_alter. case_decide; [subst|apply Hfr]. by rewrite Hj.
Qed.

Lemma stream_inv_deliver tr a s r j f q job_id :
  stream_inv tr s →
  gw_job_objs (sys_gw s) !! r = Some j → js_queue j = f :: q →
  sys_calls s !! r = Some (KStream job_id) →
  stream_inv (tr ++ [(a, [ODelivered r f])])
    (set_call r (KYielded job_id (is_terminal f))
       (set_gw (upd_job dequeue_event r (sys_gw s)) s)).
Proof.
  intros [Hcw Ho Hp Hord Hsh Hfr] Hj Hq Hcall.
  assert (Hd : ∀ r', delivered r' (tr ++ [(a, [ODelivered r f])]) =
      delivered r' tr ++ if decide (r = r') then [f] else []).
  { intros r'. rewrite delivered_app. cbn. by rewrite !app_nil_r. }
  assert (Hall : ∀ r' j', gw_job_objs (upd_job dequeue_event r (sys_gw s)) !! r' = Some j' →
      ∃ j0, gw_job_objs (sys_gw s) !! r' = Some j0 ∧
        js_agent_id j' = js_agent_id j0 ∧ js_next_sequence j' = js_next_sequence j0 ∧
        delivered r' (tr ++ [(a, [ODelivered r f])]) ++ js_queue j' =
        delivered r' tr ++ js_queue j0).
  { intros r' j'. cbn. rewrite lookup_alter, Hd. case_decide; [subst|].
    - rewrite Hj. intros [= <-]. exists j. cbn. rewrite Hq, <- app_assoc. by split_and!.
    - intros Hj'. exists j'. rewrite app_nil_r. by split_and!. }
  split.
  - exact Hcw.
  - intros op [H|[(r' & i & H)|H]]; [eapply Ho; by left| |eapply Ho; right; by right].
    cbn in H. rewrite lookup_insert in H. case_decide; [done|]. eapply Ho. right. left. eauto.
  - intros sid op rest Hcp r' f' Hin Hf'. destruct (Hp _ _ _ Hcp _ _ Hin Hf')
      as (-> & -> & j0 & se & Hj0 & Hse & Hag & Hpend).
    split; [done|]. split; [done|].
    destruct (gw_job_objs (upd_job dequeue_event r (sys_gw s)) !! r') as [j'|] eqn:E.
    + destruct (Hall _ _ E) as (j1 & Hj1 & Ha' & Hn' & Hdq). simplify_eq.
      exists j', se. unfold pending_ok in *. rewrite Hn', Hdq. split_and!; [done..|congruence| |]; apply Hpend.
    + exfalso. cbn in E. rewrite lookup_alter in E. case_decide; simplify_eq.
      by rewrite Hj in E.
  - intros r' j' Hj'. destruct (Hall _ _ Hj') as (j0 & Hj0 & _ & -> & ->). auto.
  - intros r'. rewrite Hd. cbn. destruct (Hsh r') as [Hl Hr]. rewrite lookup_insert.
    case_decide; [subst|by rewrite app_nil_r].
    rewrite Hcall in Hr. split; [by rewrite removelast_last|].
    destruct (is_terminal f) eqn:Ef; [done|]. apply Forall_app. auto.
  - intros r'. cbn. rewrite Hd, lookup_alter, lookup_insert.
    case_decide; [subst; by rewrite Hj|]. rewrite app_nil_r. apply Hfr.
Qed.

(** ** Steps of a stream, and requests *)

Lemma stream_inv_calls tr s r c :
  stream_inv tr s → sys_calls s !! r = Some c → is_Some (gw_job_objs (sys_gw s) !! r).
Proof.
  intros Hinv Hc. destruct (gw_job_objs (sys_gw s) !! r) eqn:E; [eauto|].
  destruct (si_fresh _ _ Hinv _ E). congruence.
Qed.

(** A step that leaves the connections' tasks alone. *)
Lemma benign_request s s' :
  sys_conns s' = sys_conns s →
  objs_benign (sys_gw s) (sys_gw s') → gw_sessions (sys_gw s') = gw_sessions (sys_gw s) →
  (∀ op, op ∈ sys_cancels s' → op ∈ sys_cancels s ∨ no_progress_op op) →
  (∀ r c, sys_calls s' !! r = Some c →
     (∀ j op, c = KDispatch j op → sys_calls s !! r = Some c ∨ no_progress_op op) ∧
     (may_receive c = true →
       (∃ c0, sys_calls s !! r = Some c0 ∧ may_receive c0 = true) ∨
       gw_job_objs (sys_gw s) !! r = None) ∧
     is_Some (gw_job_objs (sys_gw s') !! r)) →
  benign s s'.
Proof.
  intros Hconns [Oj Op Os] Hsess Hcan Hcalls. split; [| | |done..|].
  - intros Hwf sid c. rewrite Hconns, Hsess. intros Hc.
    destruct (Hwf _ _ Hc) as (se & Hse & Hl). destruct (Os _ _ Hse) as (se' & ? & Ha).
    exists se'. by rewrite Ha.
  - intros op [H|[(r & j & H)|(sid & k & rest & H)]].
    + destruct (Hcan _ H); [left; by left|by right].
    + destruct (Hcalls _ _ H) as (Hd & _). destruct (Hd _ _ eq_refl); [|by right].
      left. right. left. eauto.
    + rewrite Hconns in H. left. right. right. eauto.
  - intros sid op rest [h H]. rewrite Hconns in H. left. by exists h.
  - intros r c Hc. destruct (Hcalls _ _ Hc) as (_ & ? & ?). auto.
Qed.

(** The premise on calls, for a step that sets one of them. *)
Lemma calls_update tr s s' r c' :
  stream_inv tr s → objs_benign (sys_gw s) (sys_gw s') →
  sys_calls s' = <[r := c']> (sys_calls s) →
  (∀ j op, c' = KDispatch j op → no_progress_op op) →
  (may_receive c' = true →
     (∃ c0, sys_calls s !! r = Some c0 ∧ may_receive c0 = true) ∨
     gw_job_objs (sys_gw s) !! r = None) →
  is_Some (gw_job_objs (sys_gw s') !! r) →
  ∀ r' c, sys_calls s' !! r' = Some c →
     (∀ j op, c = KDispatch j op → sys_calls s !! r' = Some c ∨ no_progress_op op) ∧
     (may_receive c = true →
       (∃ c0, sys_calls s !! r' = Some c0 ∧ may_receive c0 = true) ∨
       gw_job_objs (sys_gw s) !! r' = None) ∧
     is_Some (gw_job_objs (sys_gw s') !! r').
Proof.
  intros Hinv Hobj Hc Hd Hm Hs r' c. rewrite Hc, lookup_insert. case_decide; [subst|].
  - intros [= <-]. split_and!; [|done|done]. intros j op ->. right. eauto.
  - intros Hc0. split_and!; [auto|eauto|].
    apply (ob_persist _ _ Hobj). eauto using stream_inv_calls.
Qed.

Lemma calls_same tr s s' :
  stream_inv tr s → objs_benign (sys_gw s) (sys_gw s') → sys_calls s' = sys_calls s →
  ∀ r' c, sys_calls s' !! r' = Some c →
     (∀ j op, c = KDispatch j op → sys_calls s !! r' = Some c ∨ no_progress_op op) ∧
     (may_receive c = true →
       (∃ c0, sys_calls s !! r' = Some c0 ∧ may_receive c0 = true) ∨
       gw_job_objs (sys_gw s) !! r' = None) ∧
     is_Some (gw_job_objs (sys_gw s') !! r').
Proof.
  intros Hinv Hobj Hc r' c. rewrite Hc. intros Hc0. split_and!; [auto|eauto|].
  apply (ob_persist _ _ Hobj). eauto using stream_inv_calls.
Qed.

Lemma other_put_no_progress tr s op : stream_inv tr s → other_put s op → no_progress_op op.
Proof. intros Hinv Hop r f ->. eapply si_other; eauto. Qed.

Lemma remember_objs j g :
  gw_job_objs (remember_completed j g) = gw_job_objs g ∧
  gw_session_objs (remember_completed j g) = gw_session_objs g ∧
  gw_sessions (remember_completed j g) = gw_sessions g.
Proof.
  unfold remember_completed. case_match; [done|].
  by destruct (match gw_completed_order g with [] => _ | _ => _ end).
Qed.

Lemma call_step_inv tr a r c s s' o :
  stream_inv tr s → sys_calls s !! r = Some c → call_step a r c s = Some (s', o) →
  stream_inv (tr ++ [(a, o)]) s'.
Proof.
  intros Hinv Hc H. pose proof (stream_inv_calls _ _ _ _ Hinv Hc) as Hjob.
  (* setting the call's own state *)
  assert (Hset : ∀ c' g' o, (∀ r, flat_map (delivered_obs r) o = []) → objs_benign (sys_gw s) g' →
    gw_sessions g' = gw_sessions (sys_gw s) →
    (∀ j op, c' ≠ KDispatch j op) → (may_receive c' = true → may_receive c = true) →
    stream_inv (tr ++ [(a, o)]) (set_call r c' (set_gw g' s))).
  { intros c' g' o' Ho Hobj Hs Hnd Hm.
    eapply benign_inv; [exact Hinv|intros; by apply delivered_snoc_nil|].
    apply benign_request; [reflexivity|exact Hobj|exact Hs|intros; by left|].
    eapply calls_update; [exact Hinv|exact Hobj|reflexivity|by intros ?? ?%Hnd|eauto|].
    by apply (ob_persist _ _ Hobj). }
  assert (Hfin : ∀ j,
    stream_inv (tr ++ [(a, [])]) (set_call r KDone (set_gw (events_finally j (sys_gw s)) s))).
  { intros j.
    destruct (remember_objs j (set_jobs (dict_pop (gw_jobs (sys_gw s)) j) (sys_gw s))) as (E1 & E2 & E3).
    apply Hset; [done|by apply objs_same|done|done|done]. }
  assert (Hend : ∀ c', may_receive c' = false ∨ may_receive c = true → (∀ j op, c' ≠ KDispatch j op) →
    stream_inv (tr ++ [(a, [])]) (set_call r c' s)).
  { intros c' Hm Hnd. destruct s as [g0 cs ks xs].
    apply (Hset _ g0); [done|by apply objs_same|done|done|]. destruct Hm; congruence. }
  destruct a; try discriminate H; destruct c as [j|j op|j|j []|]; try discriminate H; cbn in H;
    try (injection H as <- <-; first [apply Hfin|by apply Hend; auto]).
  - destruct (perform_put op (sys_gw s)) as [g'|] eqn:E; [|discriminate H].
    injection H as <- <-. apply Hset; [done| |eauto using perform_put_sessions|done|done].
    eapply objs_perform_put; [done|]. eapply other_put_no_progress; [done|]. right. left. eauto.
  - injection H as <- <-. by apply Hset; [|apply objs_same|..].
  - destruct (gw_job_objs (sys_gw s) !! r) as [st|] eqn:Hst; [|discriminate H]. cbn in H.
    destruct (js_queue st) as [|f q] eqn:Hq; [discriminate H|]. injection H as <- <-.
    eapply stream_inv_deliver; eauto.
Qed.

(** ** Opening jobs and sessions *)

Lemma open_job_objs a j k allow g g' sid r :
  jobs_wf g → open_job a j k allow g = Ok (g', sid, r) →
  objs_benign g g' ∧ gw_sessions g' = gw_sessions g ∧
  gw_job_objs g !! r = None ∧ is_Some (gw_job_objs g' !! r).
Proof.
  intros Hwf (_ & _ & _ & Hs & _ & -> & ->)%open_job_inv. cbn.
  assert (Hn : gw_job_objs g !! gw_next_ref g = None) by (by apply (jw_fresh _ Hwf)).
  split_and!; [split|done|done|rewrite lookup_insert_eq; eauto]; cbn.
  - intros r j'. rewrite lookup_insert. case_decide; [subst|eauto using job_grows_refl].
    intros [= <-]. by right.
  - intros r. rewrite lookup_insert. case_decide; eauto.
  - eauto.
Qed.

Lemma set_jobs_objs g g' d :
  objs_benign g g' → objs_benign g (set_jobs d g').
Proof. intros [? ? ?]. by split. Qed.

Lemma stream_inv_request tr a s s' o :
  (∀ r, flat_map (delivered_obs r) o = []) →
  stream_inv tr s → benign s s' → stream_inv (tr ++ [(a, o)]) s'.
Proof.
  intros Ho Hinv Hb. eapply benign_inv; [exact Hinv|intros; by apply delivered_snoc_nil|done].
Qed.

(** Opening a job and leaving its generator at the first [put]. *)
Lemma benign_open tr s a j k allow g' sid r c :
  stream_inv tr s → jobs_wf (sys_gw s) →
  open_job a j k allow (sys_gw s) = Ok (g', sid, r) → (∀ j op, c = KDispatch j op → no_progress_op op) →
  benign s (set_call r c (set_gw g' s)).
Proof.
  intros Hinv Hwf Hopen Hop.
  destruct (open_job_objs _ _ _ _ _ _ _ _ Hwf Hopen) as (Hobj & Hs & Hn & Hsome).
  apply benign_request; [reflexivity|exact Hobj|exact Hs|intros; by left|].
  eapply calls_update; [exact Hinv|exact Hobj|reflexivity|exact Hop|auto|exact Hsome].
Qed.

(** A request that leaves the generators alone. *)
Lemma benign_plain tr s g' cs :
  stream_inv tr s → objs_benign (sys_gw s) g' → gw_sessions g' = gw_sessions (sys_gw s) →
  (∀ op, op ∈ cs → op ∈ sys_cancels s ∨ no_progress_op op) →
  benign s (set_cancels cs (set_gw g' s)).
Proof.
  intros Hinv Hobj Hs Hcs.
  apply benign_request; [reflexivity|exact Hobj|exact Hs|exact Hcs|].
  eapply calls_same; [exact Hinv|exact Hobj|reflexivity].
Qed.

Lemma set_gw_id s : set_cancels (sys_cancels s) (set_gw (sys_gw s) s) = s.
Proof. by destruct s. Qed.

Lemma cancel_objs j g :
  objs_benign g (cancel j g).1.1 ∧ gw_sessions (cancel j g).1.1 = gw_sessions g ∧
  (∀ op, op ∈ option_list (cancel j g).2 → no_progress_op op).
Proof.
  assert (Hnil : ∀ op : put_op, op ∈ option_list None → no_progress_op op)
    by (by intros ? ?%elem_of_nil).
  unfold cancel. destruct (dict_get (gw_jobs g) j) as [r|]; cbn; [|by split_and!; try apply objs_same].
  destruct (gw_job_objs g !! r) as [st|] eqn:E; cbn; [|by split_and!; try apply objs_same].
  destruct (js_cancel_sent st); cbn; [by split_and!; try apply objs_same|].
  destruct (gw_sessions g !! js_agent_id st) as [sid|]; cbn; [|by split_and!; try apply objs_same].
  split_and!; [|done|by intros op ->%list_elem_of_singleton].
  apply objs_upd_job. intros j' Hj'. split_and!; auto.
Qed.

Lemma connect_inv now first g g' sid :
  connect now first g = Ok (g', sid) →
  ∃ hello, first = Some (FHello hello) ∧
    connect_check (gw_agent_tokens g) first = Ok hello ∧
    gw_sessions g !! hello_agent_id hello = None ∧ sid = gw_next_ref g ∧
    g' = set_sessions (<[hello_agent_id hello := sid]> (gw_sessions g))
      (alloc_session (mkSession (hello_agent_id hello) (hello_capabilities hello)
         (hello_major hello) (hello_minor hello) [] now) g).
Proof.
  unfold connect. destruct (connect_check _ first) as [hello|] eqn:E; [|done]. cbn.
  destruct (gw_sessions g !! hello_agent_id hello) eqn:Hs; [done|].
  intros [= <- <-]. pose proof (connect_check_hello _ _ _ E). exists hello. by split_and!.
Qed.

Lemma benign_connect tr tokens now first s g' sid :
  stream_inv tr s → sessions_wf tokens (sys_gw s) →
  connect now first (sys_gw s) = Ok (g', sid) →
  benign s (set_conn sid (mkConn CNew HServing) (set_gw g' s)).
Proof.
  intros Hinv Hwf (hello & _ & _ & Hnone & -> & ->)%connect_inv.
  assert (Hfr : gw_session_objs (sys_gw s) !! gw_next_ref (sys_gw s) = None)
    by (by apply (sw_fresh _ _ Hwf)).
  split; cbn.
  - intros Hcw sid c. cbn. rewrite lookup_insert. case_decide; [subst|].
    + intros [= <-]. rewrite lookup_insert_eq. eexists. split; [done|]. intros _. cbn.
      by rewrite lookup_insert_eq.
    + intros Hc. destruct (Hcw _ _ Hc) as (se & Hse & Hl). exists se.
      rewrite lookup_insert_ne by done. split; [done|]. intros Hk. specialize (Hl Hk).
      rewrite lookup_insert_ne; [done|]. intros Heq. by rewrite <- Heq, Hnone in Hl.
  - intros op [H|[(r & j & H)|(sid & k & rest & H)]]; left; [by left|right; left; eauto|].
    cbn in H. rewrite lookup_insert in H. case_decide; [done|]. right. right. eauto.
  - intros sid op rest [h H]. cbn in H. rewrite lookup_insert in H. case_decide; [done|].
    left. by exists h.
  - eauto using job_grows_refl.
  - done.
  - intros sid se Hse. exists se. rewrite lookup_insert_ne; [done|]. congruence.
  - intros r c Hc. split; [eauto|]. eauto using stream_inv_calls.
Qed.

Lemma request_step_inv tr tokens a s s' o :
  stream_inv tr s → jobs_wf (sys_gw s) → sessions_wf tokens (sys_gw s) →
  request_step a s = Some (s', o) → stream_inv (tr ++ [(a, o)]) s'.
Proof.
  intros Hinv Hjw Hsw H. pose proof (set_gw_id s) as Hid.
  assert (Hsame : benign s s).
  { rewrite <- Hid at 2. eapply benign_plain; [exact Hinv|by apply objs_same|done|by left]. }
  destruct a; try discriminate H; cbn in H.
  - destruct (connect now first (sys_gw s)) as [[g' sid]|] eqn:E; injection H as <- <-;
      apply (stream_inv_request _ _ s); eauto using benign_connect.
  - destruct (diagnostics agent_id job_id release_root (sys_gw s)) as [[[g' r] op]|] eqn:E;
      injection H as <- <-; apply (stream_inv_request _ _ s); auto.
    apply diagnostics_open in E as (sid & E & ->). eapply benign_open; eauto.
    by intros ?? [= <- <-] ???.
  - destruct (kubernetes_release agent_id request (sys_gw s)) as [[[g' r] op]|] eqn:E;
      injection H as <- <-; apply (stream_inv_request _ _ s); auto.
    apply kubernetes_release_open in E as (sid & E & Hop). eapply benign_open; eauto.
    destruct Hop as [-> | ->]; [done|]. by intros ?? [= <- <-] ???.
  - pose proof (cancel_objs job_id (sys_gw s)) as (Hobj & Hs & Hops).
    destruct (cancel job_id (sys_gw s)) as [[g' b] op]; cbn in *. injection H as <- <-.
    apply (stream_inv_request _ _ s); [done|done|]. eapply benign_plain; eauto.
    intros op'. rewrite elem_of_app. naive_solver.
  - destruct (sys_cancels s !! i) as [op|] eqn:Hi; [|discriminate H]. cbn in H.
    destruct (perform_put op (sys_gw s)) as [g'|] eqn:E; [|discriminate H]. cbn in H.
    injection H as <- <-. apply (stream_inv_request _ _ s); [done|done|].
    eapply benign_plain; eauto using perform_put_sessions.
    + eapply objs_perform_put; [done|]. eapply other_put_no_progress; [done|]. left.
      by eapply list_elem_of_lookup_2.
    + intros op' Hop. left. eapply elem_of_sublist; [done|apply sublist_delete].
  - destruct (sys_cancels s !! i) as [op|] eqn:Hi; [|discriminate H]. cbn in H.
    injection H as <- <-. apply (stream_inv_request _ _ s); [done|done|].
    destruct s as [g cs ks xs]. apply (benign_plain tr (mkSys g cs ks xs) g); auto using objs_same.
    intros op' Hop. left. eapply elem_of_sublist; [done|apply sublist_delete].
Qed.

Lemma after_puts_inv ops op rest : after_puts ops = CPutting op rest → ops = op :: rest.
Proof. destruct ops; cbn; [done|]. by intros [= -> ->]. Qed.

Lemma live_cancel k : live (cancel_consumer k) = true → live k = true.
Proof. by destruct k. Qed.

Lemma cancel_not_putting k op rest : cancel_consumer k ≠ CPutting op rest.
Proof. by destruct k. Qed.

Lemma disconnect_item_no_progress sid item g op :
  disconnect_item sid item g = Some op → no_progress_op op.
Proof.
  destruct item as [j r]. cbn. intros H.
  destruct (gw_session_objs g !! sid); [|discriminate H]. cbn in H.
  destruct (gw_job_objs g !! r); [|discriminate H]. cbn in H.
  destruct (String.eqb _ _); [|discriminate H]. injection H as <-.
  intros r' f' [= <- <-]. apply failure_terminal.
Qed.

Lemma unregister_objs sid g :
  objs_benign g (disconnect_unregister sid g) ∧
  ∀ a sid', gw_sessions g !! a = Some sid' →
    gw_sessions (disconnect_unregister sid g) !! a = Some sid' ∨ sid' = sid.
Proof.
  unfold disconnect_unregister.
  destruct (gw_session_objs g !! sid) as [se|]; [|split; [by apply objs_same|auto]].
  case_decide as Hd; split; [by apply objs_same| |by apply objs_same|auto]. cbn.
  intros a sid' Ha. destruct (decide (as_agent_id se = a)) as [<-|].
  - right. congruence.
  - left. by rewrite lookup_delete_ne.
Qed.

(** A connection step that updates one connection and delivers nothing. *)
Lemma conn_update tr a s sid k h k' h' g' o :
  stream_inv tr s → sys_conns s !! sid = Some (mkConn k h) →
  (∀ r, flat_map (delivered_obs r) o = []) →
  objs_benign (sys_gw s) g' → (live k' = true → live k = true) →
  (conns_wf s → ∀ a sid', gw_sessions (sys_gw s) !! a = Some sid' →
     gw_sessions g' !! a = Some sid' ∨ (sid' = sid ∧ live k' = false)) →
  (∀ op rest, k' = CPutting op rest →
     k = CPutting op rest ∨ (∃ op0, k = CPutting op0 (op :: rest)) ∨
     Forall no_progress_op (op :: rest)) →
  (∀ op rest, h' = HDisconnecting rest (Some op) →
     h = HDisconnecting rest (Some op) ∨ no_progress_op op) →
  stream_inv (tr ++ [(a, o)]) (set_conn sid (mkConn k' h') (set_gw g' s)).
Proof.
  intros Hinv Hc Ho Hobj Hlive Hsess Hput Hdisc.
  apply (stream_inv_request _ _ s); [done|done|].
  eapply benign_conn; eauto using stream_inv_calls.
Qed.

Lemma set_conn_gw_id sid c s : set_conn sid c (set_gw (sys_gw s) s) = set_conn sid c s.
Proof. by destruct s. Qed.

(** The side conditions of [conn_update] that need no thought. *)
Ltac conn_side :=
  try done; try (by intros; left); try (by intros ? ? [= <- <-]; left);
  try (by apply live_cancel); try (by intros ? ? ?%cancel_not_putting);
  try (by intros ? ? ?; discriminate); eauto.

Lemma conn_step_inv tr a sid c s s' o :
  stream_inv tr s → sys_conns s !! sid = Some c → conn_step a sid c s = Some (s', o) →
  stream_inv (tr ++ [(a, o)]) s'.
Proof.
  intros Hinv Hc H. destruct c as [k h]. unfold conn_step in H. cbn in H.
  assert (Hsame : objs_benign (sys_gw s) (sys_gw s)) by by apply objs_same.
  destruct a; try discriminate H.
  - (* AStart *) destruct k; try discriminate H. injection H as <- <-.
    rewrite <- set_conn_gw_id. eapply conn_update; conn_side.
  - (* ARecv *) destruct k; try discriminate H.
    destruct (consume_frame now sid frame (sys_gw s)) as [g' ops] eqn:E. injection H as <- <-.
    apply consume_frame_cases in E as [(Hobj & Hs & Hops)|(r & j & se & Hj & Hse & Ha & Hn & -> & ->)].
    + eapply conn_update; conn_side.
      * intros _ a sid' Ha. left. by rewrite Hs.
      * intros op rest ->%after_puts_inv. auto.
    + eapply stream_inv_accept; eauto.
  - (* APut *) destruct k as [| |op rest| |]; try discriminate H.
    destruct (perform_put op (sys_gw s)) as [g'|] eqn:E; [|discriminate H]. injection H as <- <-.
    assert (no_progress_op op ∨ ∃ r f, op = PutJob r f ∧ is_terminal f = false) as [Hop|(r & f & -> & Hf)].
    { destruct op as [r f|]; [|left; by intros ???].
      destruct (is_terminal f) eqn:Ef; [|eauto]. left. intros r' f' [= <- <-]. done. }
    + eapply conn_update; eauto using objs_perform_put; conn_side.
      * intros _ a sid' Ha. left. by rewrite (perform_put_sessions _ _ _ E).
      * intros op' rest' ->%after_puts_inv. eauto.
    + cbn in E. destruct (gw_job_objs (sys_gw s) !! r) as [j|] eqn:Hj; [|discriminate E]. cbn in E.
      destruct (has_room _ _); [|discriminate E]. injection E as <-.
      eapply stream_inv_enqueue; eauto.
  - (* AEnd *) destruct k; try discriminate H. injection H as <- <-.
    rewrite <- set_conn_gw_id. eapply conn_update; conn_side.
  - (* APutNone *) destruct k; try discriminate H.
    destruct (perform_put_none sid (sys_gw s)) as [g'|] eqn:E; [|discriminate H].
    injection H as <- <-. eapply conn_update; eauto using objs_put_none; conn_side.
    intros _ a sid' Ha. left. by rewrite (perform_put_none_sessions _ _ _ E).
  - (* ASend *) destruct h; try discriminate H.
    destruct (gw_session_objs (sys_gw s) !! sid) as [se|] eqn:Hse; [|discriminate H]. cbn in H.
    assert (Hpop : objs_benign (sys_gw s) (upd_session pop_outgoing sid (sys_gw s)))
      by by apply objs_upd_session.
    destruct (as_outgoing se) as [|[c|] q]; [discriminate H| |]; injection H as <- <-.
    + apply (stream_inv_request _ _ s); [done|done|]. destruct s as [g cs ks xs].
      apply (benign_plain tr (mkSys g cs ks xs) (upd_session pop_outgoing sid g) xs); auto.
    + eapply conn_update; conn_side.
  - (* AAbort *) destruct h; try discriminate H; injection H as <- <-;
      rewrite <- set_conn_gw_id; eapply conn_update; conn_side.
  - (* ADisconnect *) destruct k; try discriminate H. destruct h; try discriminate H.
    injection H as <- <-. destruct (unregister_objs sid (sys_gw s)) as [Hobj Hs].
    eapply conn_update; conn_side. intros _ a sid' Ha. destruct (Hs _ _ Ha); auto.
  - (* ADiscVisit *) destruct h as [| |[|item rest] []|]; try discriminate H.
    injection H as <- <-. rewrite <- set_conn_gw_id. eapply conn_update; conn_side.
    intros op rest' [= -> Hop]. right. by eapply disconnect_item_no_progress.
  - (* ADiscPut *) destruct h as [| |rest [op|]|]; try discriminate H;
      destruct rest as [|item rest]; try discriminate H;
      (destruct (perform_put op (sys_gw s)) as [g'|] eqn:E; [|discriminate H]);
      (assert (Hop : no_progress_op op)
        by (eapply other_put_no_progress; [done|]; do 2 right; eauto));
      injection H as <- <-; (eapply conn_update; eauto using objs_perform_put; conn_side);
      intros _ a sid' Ha; left; by rewrite (perform_put_sessions _ _ _ E).
  - (* ADiscDone *) destruct h as [| |[|item rest] []|]; try discriminate H.
    injection H as <- <-. rewrite <- set_conn_gw_id. eapply conn_update; conn_side.
Qed.


(** ** Every run *)

Lemma stream_inv_init tokens mc mi g :
  gateway_init tokens mc mi = Ok g → stream_inv [] (sys_init g).
Proof.
  unfold gateway_init, raise_if. destruct (_ || _); [done|]. cbn. intros [= <-].
  split; cbn; try done.
  - intros op [H|[(r & j & H)|(sid & k & rest & H)]]; [by apply elem_of_nil in H|done..].
  - by intros sid op rest [h H].
Qed.

Lemma stream_inv_step tokens tr a o s s' :
  stream_inv tr s → jobs_wf (sys_gw s) → sessions_wf tokens (sys_gw s) →
  sys_step s (a, o) s' → stream_inv (tr ++ [(a, o)]) s'.
Proof.
  intros Hinv Hjw Hsw. unfold sys_step, sys_run. cbn. intros H.
  destruct (action_conn a) as [sid|].
  - destruct (sys_conns s !! sid) as [c|] eqn:E; [|discriminate H]. cbn in H.
    eapply conn_step_inv; eauto.
  - destruct (action_call a) as [r|]; [|eapply request_step_inv; eauto].
    destruct (sys_calls s !! r) as [c|] eqn:E; [|discriminate H]. cbn in H.
    eapply call_step_inv; eauto.
Qed.

Lemma stream_inv_run tokens mc mi s0 tr s :
  sys_start tokens mc mi s0 → exec sys_step s0 tr s → stream_inv tr s.
Proof.
  intros Hs0. assert (reachable sys_step (sys_start tokens mc mi) s0) as Hr0.
  { exists s0, []. split; [done|constructor]. }
  destruct Hs0 as (g & Hg & ->). revert tr s.
  apply exec_ind_r; [by eapply stream_inv_init|].
  intros tr s1 [a o] s2 Hex Hinv Hstep.
  assert (reachable sys_step (sys_start tokens mc mi) s1) as Hr.
  { exists (sys_init g), tr. split; [by exists g|done]. }
  destruct (gw_inv_reachable _ _ _ _ Hr) as [_ Hjw _ Hsw _ _].
  eapply stream_inv_step; eauto.
Qed.
