(* ===== verification/GatewayJobs.v ===== *)
(** Who owns an entry of [AgentGateway._jobs] and a place in
    [AgentGateway._sessions] ([controlplane/gateway.py]), and the ways a
    run can keep one forever. *)

From S2P Require Import Prelude Text Regex Dict Gateway GatewaySystem GatewayInv GatewayStreams.

Open Scope list_scope.
Open Scope nat_scope.

(** * Job entries *)

(** The identifier a generator that has not finished works for. *)
Definition call_job (c : call) : option string :=
  match c with KWithdraw j | KDispatch j _ | KStream j | KYielded j _ => Some j | KDone => None end.

Definition streams_own (s : system) : Prop :=
  ∀ r c j, sys_calls s !! r = Some c → call_job c = Some j →
    dict_get (gw_jobs (sys_gw s)) j = Some r.

(** The caller of generator [r] is cancelled where its [finally] is not reached or
    does not get the lock: while the request waits for room in the outgoing queue,
    or while the generator waits for the lock. *)
Definition cancels (a : action) (r : ref) : Prop := a = ADispatchCancelled r ∨ a = ALockCancelled r.

(** Every entry belongs to a generator that has not finished, or to one whose
    caller was cancelled at such a point. *)
Definition jobs_owned (tr : list (action * list obs)) (s : system) : Prop :=
  ∀ j r, dict_get (gw_jobs (sys_gw s)) j = Some r →
    (∃ c, sys_calls s !! r = Some c ∧ call_job c = Some j) ∨ ∃ a o, (a, o) ∈ tr ∧ cancels a r.

Lemma jobs_owned_mono tr l s : jobs_owned tr s → jobs_owned (tr ++ [l]) s.
Proof.
  intros H j r Hj. destruct (H _ _ Hj) as [?|(a & o & Hin & Hc)]; [by left|right].
  exists a, o. split; [|done]. apply elem_of_app. by left.
Qed.

Lemma consume_frame_jobs now sid f g : gw_jobs (consume_frame now sid f g).1 = gw_jobs g.
Proof.
  assert (∀ j n, gw_jobs (accept_event sid j n f g).1 = gw_jobs g).
  { intros. unfold accept_event. by repeat case_match. }
  destruct f; cbn [consume_frame]; auto.
Qed.

Lemma perform_put_jobs op g g' : perform_put op g = Some g' → gw_jobs g' = gw_jobs g.
Proof.
  destruct op as [r f|sid c]; cbn; intros H.
  - destruct (gw_job_objs g !! r); [|discriminate H]. cbn in H. destruct (has_room _ _); by simplify_eq.
  - destruct (gw_session_objs g !! sid); [|discriminate H]. cbn in H. destruct (has_room _ _); by simplify_eq.
Qed.

Lemma perform_put_none_jobs sid g g' : perform_put_none sid g = Some g' → gw_jobs g' = gw_jobs g.
Proof.
  unfold perform_put_none. intros H.
  destruct (gw_session_objs g !! sid); [|discriminate H]. cbn in H. destruct (has_room _ _); by simplify_eq.
Qed.

Lemma disconnect_unregister_jobs sid g : gw_jobs (disconnect_unregister sid g) = gw_jobs g.
Proof. unfold disconnect_unregister. by repeat case_match. Qed.

Lemma remember_jobs j g : gw_jobs (remember_completed j g) = gw_jobs g.
Proof.
  unfold remember_completed. case_match; [done|].
  by destruct (match gw_completed_order g with [] => _ | _ => _ end).
Qed.

Lemma events_finally_jobs j g : gw_jobs (events_finally j g) = dict_pop (gw_jobs g) j.
Proof. unfold events_finally. by rewrite remember_jobs. Qed.

Lemma cancel_jobs j g : gw_jobs (cancel j g).1.1 = gw_jobs g.
Proof.
  unfold cancel. destruct (dict_get (gw_jobs g) j); cbn; [|done].
  destruct (gw_job_objs g !! r); cbn; [|done]. by repeat case_match.
Qed.

(** The tasks of a connection change neither the entries nor the generators. *)
Lemma conn_step_jobs a sid c s s' o :
  conn_step a sid c s = Some (s', o) →
  gw_jobs (sys_gw s') = gw_jobs (sys_gw s) ∧ sys_calls s' = sys_calls s.
Proof.
  unfold conn_step. intros H.
  destruct a; try discriminate H; destruct (c_consumer c), (c_handler c) as [| |[|] []|];
    try discriminate H; cbn in H;
    repeat (match type of H with
    | context [consume_frame ?n ?x ?f ?g] =>
        pose proof (consume_frame_jobs n x f g); destruct (consume_frame n x f g) eqn:?
    | context [perform_put ?op ?g] => destruct (perform_put op g) eqn:?
    | context [perform_put_none ?x ?g] => destruct (perform_put_none x g) eqn:?
    | context [gw_session_objs ?g !! ?x] => destruct (gw_session_objs g !! x) eqn:?
    | context [as_outgoing ?x] => destruct (as_outgoing x) as [|[]] eqn:?
    end; cbn in H); simplify_eq/=;
    eauto using perform_put_jobs, perform_put_none_jobs, disconnect_unregister_jobs.
Qed.

(** How a generator's step moves it: the entry stays until the generator's
    [finally] removes it. *)
Lemma call_step_jobs a r c s s' o :
  action_call a = Some r → call_step a r c s = Some (s', o) →
  ∃ c', sys_calls s' = <[r := c']> (sys_calls s) ∧
    ((call_job c' = call_job c ∧ gw_jobs (sys_gw s') = gw_jobs (sys_gw s)) ∨
     (∃ j, call_job c = Some j ∧ c' = KDone ∧
        gw_jobs (sys_gw s') = dict_pop (gw_jobs (sys_gw s)) j) ∨
     (cancels a r ∧ c' = KDone ∧ gw_jobs (sys_gw s') = gw_jobs (sys_gw s))).
Proof.
  unfold call_step, cancels. intros Ha H.
  destruct a, c as [j|j op|j|j []|]; try discriminate H; cbn in H;
    repeat (match type of H with
    | context [perform_put ?op ?g] => destruct (perform_put op g) eqn:?
    | context [gw_job_objs ?g !! ?x] => destruct (gw_job_objs g !! x) eqn:?
    | context [js_queue ?x] => destruct (js_queue x) eqn:?
    end; try discriminate H; cbn in H); simplify_eq/=;
    (eexists; split; [reflexivity|]); cbn;
    rewrite ?events_finally_jobs; eauto 8 using perform_put_jobs.
Qed.

(** ** The invariants *)

(** A request that opens a job. *)
Lemma request_step_jobs a s s' o :
  request_step a s = Some (s', o) →
  (sys_calls s' = sys_calls s ∧ gw_jobs (sys_gw s') = gw_jobs (sys_gw s)) ∨
  (∃ ag j k b g sid r c, open_job ag j k b (sys_gw s) = Ok (g, sid, r) ∧
     sys_gw s' = g ∧ call_job c = Some j ∧ sys_calls s' = <[r := c]> (sys_calls s)).
Proof.
  unfold request_step. intros H. destruct a; try discriminate H.
  - destruct (connect now first (sys_gw s)) as [[g sid]|] eqn:E; simplify_eq/=; [|eauto].
    left. split; [done|].
    apply connect_inv in E as (hello & _ & _ & _ & -> & ->). done.
  - destruct (diagnostics agent_id job_id release_root (sys_gw s)) as [[[g r] op]|] eqn:E;
      simplify_eq/=; [|eauto].
    apply diagnostics_open in E as (sid & E & _). right. by repeat eexists.
  - destruct (kubernetes_release agent_id request (sys_gw s)) as [[[g r] op]|] eqn:E;
      simplify_eq/=; [|eauto].
    apply kubernetes_release_open in E as (sid & E & _). right. do 8 eexists.
    split_and!; [exact E|done| |done]. by destruct op.
  - pose proof (cancel_jobs job_id (sys_gw s)) as Hj.
    destruct (cancel job_id (sys_gw s)) as [[g b] op]. simplify_eq/=. eauto.
  - destruct (sys_cancels s !! i) as [op|]; [|discriminate H]. cbn in H.
    destruct (perform_put op (sys_gw s)) eqn:E; [|discriminate H]. simplify_eq/=.
    eauto using perform_put_jobs.
  - destruct (sys_cancels s !! i) as [op|]; [|discriminate H]. simplify_eq/=. eauto.
Qed.

Lemma open_job_jobs ag j k b g g' sid r :
  open_job ag j k b g = Ok (g', sid, r) →
  dict_get (gw_jobs g) j = None ∧ r = gw_next_ref g ∧ gw_jobs g' = gw_jobs g ++ [(j, r)].
Proof.
  intros (_ & Hn & _ & _ & _ & -> & ->)%open_job_inv. cbn. by rewrite dict_set_fresh.
Qed.

Section step.
Variables (s s' : system).
Hypothesis Hwf : jobs_wf (sys_gw s).
Hypothesis Hfresh : sys_calls s !! gw_next_ref (sys_gw s) = None.
Hypothesis Hown : streams_own s.

Lemma request_streams_own tr a o :
  request_step a s = Some (s', o) →
  streams_own s' ∧ (jobs_owned tr s → jobs_owned tr s').
Proof using Hwf Hfresh Hown.
  intros [[Hc Hj]|(ag & j & k & b & g & sid & r & c0 & Ho & Hg & Hc0 & Hc)]%request_step_jobs.
  - unfold streams_own, jobs_owned. by rewrite Hc, Hj.
  - apply open_job_jobs in Ho as (Hn & -> & Ho). rewrite <- Hg in Ho.
    unfold streams_own, jobs_owned. rewrite Hc, Ho. split.
    + intros r c j'. rewrite lookup_insert_Some, dict_get_snoc.
      intros [[<- <-]|[Hne Hr]] Hcj.
      * rewrite Hc0 in Hcj. injection Hcj as ->. by rewrite Hn, decide_True.
      * by rewrite (Hown _ _ _ Hr Hcj).
    + intros Hall j' r. rewrite dict_get_snoc.
      destruct (dict_get (gw_jobs (sys_gw s)) j') as [r'|] eqn:E.
      * intros [= ->]. destruct (Hall _ _ E) as [(c & Hr & Hcj)|?]; [left|by right]. exists c.
        split; [|done]. rewrite lookup_insert_ne; [done|]. intros <-. by rewrite Hfresh in Hr.
      * case_decide; [|done]. intros [= <-]. subst. left. eexists.
        by rewrite lookup_insert_eq.
Qed.

Lemma call_streams_own tr a r c o :
  sys_calls s !! r = Some c → action_call a = Some r → call_step a r c s = Some (s', o) →
  streams_own s' ∧ (jobs_owned tr s → jobs_owned (tr ++ [(a, o)]) s').
Proof using Hwf Hown.
  intros Hr Ha H. apply call_step_jobs in H as (c' & Hc & H); [|done].
  assert (Hold : jobs_owned tr s → jobs_owned (tr ++ [(a, o)]) s) by apply jobs_owned_mono.
  unfold streams_own. unfold jobs_owned at 2. rewrite Hc.
  destruct H as [[Hcj ->]|[(j & Hcj & -> & ->)|(Hcan & -> & ->)]].
  - split.
    + intros r' c1 j'. rewrite lookup_insert_Some. intros [[<- <-]|[Hne Hr']] Hj'; eauto.
      apply (Hown _ c); congruence.
    + intros Hall j' r' Hj'. destruct (Hold Hall _ _ Hj') as [(c1 & Hr' & Hc1)|?]; [left|by right].
      destruct (decide (r = r')) as [<-|].
      * exists c'. rewrite lookup_insert_eq. split; congruence.
      * exists c1. by rewrite lookup_insert_ne.
  - assert (Hj := Hown _ _ _ Hr Hcj). split.
    + intros r' c1 j'. rewrite lookup_insert_Some. intros [[<- <-]|[Hne Hr']] Hj'; [done|].
      assert (H1 := Hown _ _ _ Hr' Hj'). rewrite dict_get_pop_ne; [done|]. congruence.
    + intros Hall j' r' Hj'.
      destruct (decide (j = j')) as [<-|].
      { rewrite dict_get_pop_eq in Hj'; [done|by apply jw_keys]. }
      rewrite dict_get_pop_ne in Hj' by done.
      destruct (Hold Hall _ _ Hj') as [(c1 & Hr' & Hc1)|?]; [left|by right]. exists c1.
      rewrite lookup_insert_ne; [done|]. congruence.
  - split.
    + intros r' c1 j'. rewrite lookup_insert_Some. intros [[<- <-]|[Hne Hr']] Hj'; [done|eauto].
    + intros Hall j' r' Hj'. destruct (decide (r = r')) as [<-|].
      { right. exists a, o. split; [|done]. apply elem_of_app. right. apply list_elem_of_here. }
      destruct (Hold Hall _ _ Hj') as [(c1 & Hr' & Hc1)|?]; [left|by right]. exists c1.
      by rewrite lookup_insert_ne.
Qed.

Lemma step_streams_own tr a o :
  sys_step s (a, o) s' →
  streams_own s' ∧ (jobs_owned tr s → jobs_owned (tr ++ [(a, o)]) s').
Proof using Hwf Hfresh Hown.
  unfold sys_step, sys_run. cbn. intros H. destruct (action_conn a) as [sid|].
  - destruct (sys_conns s !! sid) as [c|]; [|discriminate H]. cbn in H.
    apply conn_step_jobs in H as [Hj Hc]. split; [unfold streams_own; by rewrite Hj, Hc|].
    intros Hall. apply jobs_owned_mono. unfold jobs_owned. by rewrite Hj, Hc.
  - destruct (action_call a) as [r|] eqn:Ha.
    + destruct (sys_calls s !! r) as [c|] eqn:Hr; [|discriminate H]. cbn in H.
      by eapply call_streams_own.
    + destruct (request_streams_own tr _ _ H). auto using jobs_owned_mono.
Qed.
End step.

Lemma calls_fresh tokens mc mi s0 tr s :
  sys_start tokens mc mi s0 → exec sys_step s0 tr s →
  jobs_wf (sys_gw s) ∧ sys_calls s !! gw_next_ref (sys_gw s) = None.
Proof.
  intros Hs0 Hex.
  assert (Hr : reachable sys_step (sys_start tokens mc mi) s) by (by exists s0, tr).
  destruct (gw_inv_reachable _ _ _ _ Hr) as [_ Hj _ _ _ _]. split; [done|].
  destruct (sys_calls s !! _) as [c|] eqn:E; [|done].
  eapply stream_inv_calls in E; [|by eapply stream_inv_run].
  rewrite (jw_fresh _ Hj) in E by done. by destruct E.
Qed.

Lemma jobs_run tokens mc mi s0 tr s :
  sys_start tokens mc mi s0 → exec sys_step s0 tr s → streams_own s ∧ jobs_owned tr s.
Proof.
  intros Hs0. revert tr s. assert (Hs := Hs0). destruct Hs as (g & Hg & Heq).
  apply exec_ind_r.
  - subst s0. split; [by intros r c j|]. intros j r.
    unfold gateway_init, raise_if in Hg. destruct (_ || _) in Hg; [done|].
    injection Hg as <-. done.
  - intros tr s1 [a o] s2 Hex [Hown Hall] Hstep.
    destruct (calls_fresh _ _ _ _ _ _ Hs0 Hex) as [Hw Hf].
    destruct (step_streams_own _ _ Hw Hf Hown tr _ _ Hstep) as [H1 H2]. auto.
Qed.

(** ** An entry nobody owns *)

(** The generator that opened job [j] finished, its entry is still there. *)
Definition leaked (j : string) (r : ref) (s : system) : Prop :=
  dict_get (gw_jobs (sys_gw s)) j = Some r ∧ sys_calls s !! r = Some KDone.

Lemma leaked_step tokens mc mi s0 tr j r s l s' :
  sys_start tokens mc mi s0 → exec sys_step s0 tr s →
  leaked j r s → sys_step s l s' → leaked j r s'.
Proof.
  intros Hs0 Hex [Hj Hr] H. destruct l as [a o].
  destruct (jobs_run _ _ _ _ _ _ Hs0 Hex) as [Hown _].
  destruct (calls_fresh _ _ _ _ _ _ Hs0 Hex) as [Hwf Hf].
  unfold sys_step, sys_run in H. cbn in H. unfold leaked. destruct (action_conn a) as [sid|].
  - destruct (sys_conns s !! sid) as [c|]; [|discriminate H]. cbn in H.
    apply conn_step_jobs in H as [-> ->]. done.
  - destruct (action_call a) as [r'|] eqn:Ha.
    + destruct (sys_calls s !! r') as [c|] eqn:Hr'; [|discriminate H]. cbn in H.
      assert (r' ≠ r) as Hne.
      { intros ->. assert (c = KDone) as -> by congruence. by destruct a. }
      apply call_step_jobs in H as (c' & -> & H); [|done].
      rewrite lookup_insert_ne by done. split; [|done].
      destruct H as [[_ ->]|[(j' & Hcj & -> & ->)|(_ & -> & ->)]]; [done| |done].
      rewrite dict_get_pop_ne; [done|]. intros ->.
      assert (H := Hown _ _ _ Hr' Hcj). congruence.
    + apply request_step_jobs in H as
        [[-> ->]|(ag & k & k' & b & g & sid & r' & c & Ho & -> & _ & ->)].
      * done.
      * apply open_job_jobs in Ho as (Hn & -> & ->). rewrite dict_get_snoc, Hj.
        rewrite lookup_insert_ne; [done|]. intros <-. by rewrite Hf in Hr.
Qed.

(** * Places in [_sessions] *)

(** The session of agent [a] is connection [sid]; with [full], there is no room in
    its outgoing queue. *)
Definition stuck_gw (full : bool) (sid : ref) (a : string) (g : AgentGateway) : Prop :=
  gw_sessions g !! a = Some sid ∧
  ∃ se, gw_session_objs g !! sid = Some se ∧ as_agent_id se = a ∧
        (full = true → has_room MAX_OUTGOING_FRAMES (as_outgoing se) = false).

(** The handler of the connection waits for a consumer that waits for room in the
    outgoing queue only that handler empties, or has been cancelled there and is
    finished, without [_disconnect]. *)
Definition stuck (sid : ref) (a : string) (s : system) : Prop :=
  ∃ full : bool, sys_conns s !! sid = Some (if full then mkConn CClosing HStopping else mkConn CDone HDone) ∧
    stuck_gw full sid a (sys_gw s).

Section stuck_gateway.
Context (full : bool).

Lemma stuck_gw_session sid a g sid' f :
  (sid' = sid → full = true → ∀ se, as_outgoing (f se) = as_outgoing se) → keeps_session f →
  stuck_gw full sid a g → stuck_gw full sid a (upd_session f sid' g).
Proof.
  intros Hf Hk (Hs & se & Hse & Ha & Hroom). split; [done|]. cbn.
  destruct (decide (sid' = sid)) as [->|].
  - rewrite lookup_alter_eq, Hse. exists (f se). split_and!; [done| |].
    + by destruct (Hk se) as [-> _].
    + intros Ht. rewrite Hf by done. auto.
  - rewrite lookup_alter_ne by done. by exists se.
Qed.

Lemma stuck_gw_ext sid a g g' :
  gw_sessions g' = gw_sessions g → gw_session_objs g' = gw_session_objs g →
  stuck_gw full sid a g → stuck_gw full sid a g'.
Proof. unfold stuck_gw. by intros -> ->. Qed.

Lemma stuck_gw_put sid a op g g' :
  perform_put op g = Some g' → stuck_gw full sid a g → stuck_gw full sid a g'.
Proof.
  destruct op as [r f|sid' c]; cbn; intros H Hst.
  - destruct (gw_job_objs g !! r); [|discriminate H]. cbn in H.
    destruct (has_room _ _); simplify_eq. by eapply stuck_gw_ext; [..|done].
  - destruct (gw_session_objs g !! sid') as [se|] eqn:E; [|discriminate H]. cbn in H.
    destruct (has_room _ _) eqn:Hr; simplify_eq.
    apply stuck_gw_session; [|done|done]. intros -> Ht.
    destruct Hst as (_ & se' & Hse & _ & Hroom). specialize (Hroom Ht). congruence.
Qed.

Lemma stuck_gw_put_none sid a sid' g g' :
  perform_put_none sid' g = Some g' → stuck_gw full sid a g →
  (full = true → sid' ≠ sid) ∧ stuck_gw full sid a g'.
Proof.
  unfold perform_put_none. intros H Hst.
  destruct (gw_session_objs g !! sid') as [se|] eqn:E; [|discriminate H]. cbn in H.
  destruct (has_room _ _) eqn:Hr; simplify_eq.
  assert (full = true → sid' ≠ sid).
  { intros Ht ->. destruct Hst as (_ & se' & Hse & _ & Hroom). specialize (Hroom Ht). congruence. }
  split; [done|]. apply stuck_gw_session; [|done|done]. naive_solver.
Qed.

Lemma stuck_gw_consume sid a now sid' f g :
  stuck_gw full sid a g → stuck_gw full sid a (consume_frame now sid' f g).1.
Proof.
  intros Hst. assert (∀ j n, stuck_gw full sid a (accept_event sid' j n f g).1).
  { intros. unfold accept_event. by repeat case_match. }
  destruct f; cbn [consume_frame]; auto. by apply stuck_gw_session.
Qed.

Lemma stuck_gw_unregister sid a sid' g :
  sid' ≠ sid → stuck_gw full sid a g → stuck_gw full sid a (disconnect_unregister sid' g).
Proof.
  intros Hne Hst. unfold disconnect_unregister.
  destruct (gw_session_objs g !! sid') as [se|]; [|done]. case_decide as Hd; [|done].
  destruct Hst as (Hs & Hst). split; [|done]. cbn. rewrite lookup_delete_ne; [done|].
  intros <-. congruence.
Qed.

Lemma stuck_gw_connect tokens sid a now first g g' sid' :
  sessions_wf tokens g → connect now first g = Ok (g', sid') →
  stuck_gw full sid a g → sid' ≠ sid ∧ stuck_gw full sid a g'.
Proof.
  intros Hsw (hello & -> & _ & Hn & -> & ->)%connect_inv (Hs & se & Hse & Ha & Hroom).
  assert (gw_next_ref g ≠ sid).
  { intros <-. rewrite (sw_fresh _ _ Hsw) in Hse; done. }
  split; [done|]. split; cbn.
  - rewrite lookup_insert_ne; [done|]. intros <-. congruence.
  - rewrite lookup_insert_ne by done. by exists se.
Qed.

Lemma stuck_gw_open sid a ag j k b g g' sid' r d :
  open_job ag j k b g = Ok (g', sid', r) → stuck_gw full sid a g → stuck_gw full sid a (set_jobs d g').
Proof. intros (_ & _ & _ & _ & _ & _ & ->)%open_job_inv Hst. done. Qed.
End stuck_gateway.

(** The connection's own steps: only a second cancellation. *)
Lemma stuck_own_step sid a act full s s' o :
  action_conn act = Some sid → stuck_gw full sid a (sys_gw s) →
  conn_step act sid (if full then mkConn CClosing HStopping else mkConn CDone HDone) s = Some (s', o) →
  stuck sid a s'.
Proof.
  intros Hact Hgw H. destruct full, act; simplify_eq/=; try discriminate H.
  - destruct (perform_put_none sid (sys_gw s)) as [g'|] eqn:E; [|discriminate H].
    destruct (stuck_gw_put_none _ _ _ _ _ _ E Hgw) as [Hne _]. by destruct Hne.
  - exists false. cbn. rewrite lookup_insert_eq. split; [done|].
    destruct Hgw as (? & se & ? & ? & _). split; [done|]. by exists se.
Qed.

Lemma stuck_conn_step sid a act sid' c s s' o :
  action_conn act = Some sid' → sys_conns s !! sid' = Some c →
  conn_step act sid' c s = Some (s', o) → stuck sid a s → stuck sid a s'.
Proof.
  intros Hact Hc H (full & Hst & Hgw).
  destruct (decide (sid' = sid)) as [->|Hne].
  - rewrite Hc in Hst. injection Hst as ->. by eapply stuck_own_step.
  - exists full. unfold conn_step in H.
    destruct act; try discriminate H; destruct (c_consumer c), (c_handler c) as [| |[|] []|];
      try discriminate H; cbn in H;
      repeat (match type of H with
      | context [consume_frame ?n ?x ?f ?g] =>
          pose proof (stuck_gw_consume full sid a n x f g Hgw); destruct (consume_frame n x f g) eqn:?
      | context [perform_put ?op ?g] => destruct (perform_put op g) eqn:?
      | context [perform_put_none ?x ?g] => destruct (perform_put_none x g) eqn:?
      | context [gw_session_objs ?g !! ?x] => destruct (gw_session_objs g !! x) eqn:?
      | context [as_outgoing ?x] => destruct (as_outgoing x) as [|[]] eqn:?
      end; cbn in H); simplify_eq/=;
      (split; cbn; [by rewrite ?lookup_insert_ne|]);
      try (by eapply stuck_gw_put); try (by eapply stuck_gw_put_none);
      try (by apply stuck_gw_unregister); try (by apply stuck_gw_session); done.
Qed.

Lemma set_jobs_same g : set_jobs (gw_jobs g) g = g.
Proof. by destruct g. Qed.

Lemma stuck_request_step tokens sid a act s s' o :
  sessions_wf tokens (sys_gw s) →
  request_step act s = Some (s', o) → stuck sid a s → stuck sid a s'.
Proof.
  intros Hsw H (full & Hst & Hgw). exists full.
  unfold request_step in H. destruct act; try discriminate H.
  - destruct (connect now first (sys_gw s)) as [[g sid']|] eqn:E; simplify_eq/=; [|done].
    destruct (stuck_gw_connect _ _ _ _ _ _ _ _ _ Hsw E Hgw) as [Hne ?].
    split; cbn; [by rewrite lookup_insert_ne|done].
  - destruct (diagnostics agent_id job_id release_root (sys_gw s)) as [[[g r] op]|] eqn:E;
      simplify_eq/=; [|done].
    apply diagnostics_open in E as (sid' & E & _). split; [done|].
    cbn. rewrite <- (set_jobs_same g). by eapply stuck_gw_open.
  - destruct (kubernetes_release agent_id request (sys_gw s)) as [[[g r] op]|] eqn:E;
      simplify_eq/=; [|done].
    apply kubernetes_release_open in E as (sid' & E & _). split; [done|].
    cbn. rewrite <- (set_jobs_same g). by eapply stuck_gw_open.
  - assert (Hs : stuck_gw full sid a (cancel job_id (sys_gw s)).1.1).
    { eapply stuck_gw_ext; [..|exact Hgw]; unfold cancel;
        destruct (dict_get (gw_jobs (sys_gw s)) job_id); cbn; try done;
        destruct (gw_job_objs (sys_gw s) !! r); cbn; try done; by repeat case_match. }
    destruct (cancel job_id (sys_gw s)) as [[g b] op]. by simplify_eq/=.
  - destruct (sys_cancels s !! i) as [op|]; [|discriminate H]. cbn in H.
    destruct (perform_put op (sys_gw s)) eqn:E; [|discriminate H]. simplify_eq/=.
    split; [done|]. by eapply stuck_gw_put.
  - destruct (sys_cancels s !! i) as [op|]; [|discriminate H]. by simplify_eq/=.
Qed.

Lemma stuck_call_step sid a act r c s s' o :
  call_step act r c s = Some (s', o) → stuck sid a s → stuck sid a s'.
Proof.
  intros H (full & Hst & Hgw). exists full.
  assert (Hfin : ∀ j, stuck_gw full sid a (events_finally j (sys_gw s))).
  { intros j. unfold events_finally.
    destruct (remember_objs j (set_jobs (dict_pop (gw_jobs (sys_gw s)) j) (sys_gw s))) as (_ & H1 & H2).
    by eapply stuck_gw_ext. }
  unfold call_step in H. destruct act, c as [j|j op|j|j []|]; try discriminate H; cbn in H;
    repeat (match type of H with
    | context [perform_put ?op ?g] => destruct (perform_put op g) eqn:?
    | context [gw_job_objs ?g !! ?x] => destruct (gw_job_objs g !! x) eqn:?
    | context [js_queue ?x] => destruct (js_queue x) eqn:?
    end; try discriminate H; cbn in H); simplify_eq/=; (split; [done|]); cbn;
    try done; by eapply stuck_gw_put.
Qed.

Lemma stuck_step tokens mc mi s0 tr sid a s l s' :
  sys_start tokens mc mi s0 → exec sys_step s0 tr s →
  stuck sid a s → sys_step s l s' → stuck sid a s'.
Proof.
  intros Hs0 Hex Hst H. destruct l as [act o]. unfold sys_step, sys_run in H. cbn in H.
  assert (Hr : reachable sys_step (sys_start tokens mc mi) s) by (by exists s0, tr).
  destruct (gw_inv_reachable _ _ _ _ Hr) as [_ _ _ Hsw _ _].
  destruct (action_conn act) as [sid'|] eqn:Ha.
  - destruct (sys_conns s !! sid') as [c|] eqn:Hc; [|discriminate H].
    eauto using stuck_conn_step.
  - destruct (action_call act) as [r|]; [|by eapply stuck_request_step].
    destruct (sys_calls s !! r) as [c|]; [|discriminate H]. eauto using stuck_call_step.
Qed.

(** * Where sessions come from *)

Lemma consume_frame_sessions now sid f g : gw_sessions (consume_frame now sid f g).1 = gw_sessions g.
Proof.
  assert (∀ j n, gw_sessions (accept_event sid j n f g).1 = gw_sessions g).
  { intros. unfold accept_event. by repeat case_match. }
  destruct f; cbn [consume_frame]; auto.
Qed.

Definition sessions_shrink (g g' : AgentGateway) : Prop :=
  ∀ a sid, gw_sessions g' !! a = Some sid → gw_sessions g !! a = Some sid.

Lemma shrink_eq g g' : gw_sessions g' = gw_sessions g → sessions_shrink g g'.
Proof. unfold sessions_shrink. by intros ->. Qed.

Lemma unregister_shrink sid g : sessions_shrink g (disconnect_unregister sid g).
Proof.
  unfold disconnect_unregister. destruct (gw_session_objs g !! sid) as [se|]; [|by apply shrink_eq].
  case_decide; [|by apply shrink_eq]. intros a sid'. cbn.
  rewrite lookup_delete. by case_decide.
Qed.

Lemma conn_step_sessions a sid c s s' o :
  conn_step a sid c s = Some (s', o) → sessions_shrink (sys_gw s) (sys_gw s').
Proof.
  unfold conn_step. intros H.
  destruct a; try discriminate H; destruct (c_consumer c), (c_handler c) as [| |[|] []|];
    try discriminate H; cbn in H;
    repeat (match type of H with
    | context [consume_frame ?n ?x ?f ?g] =>
        pose proof (consume_frame_sessions n x f g); destruct (consume_frame n x f g) eqn:?
    | context [perform_put ?op ?g] => destruct (perform_put op g) eqn:?
    | context [perform_put_none ?x ?g] => destruct (perform_put_none x g) eqn:?
    | context [gw_session_objs ?g !! ?x] => destruct (gw_session_objs g !! x) eqn:?
    | context [as_outgoing ?x] => destruct (as_outgoing x) as [|[]] eqn:?
    end; cbn in H); simplify_eq/=;
    try (by apply unregister_shrink); apply shrink_eq; cbn;
    eauto using perform_put_sessions, perform_put_none_sessions.
Qed.

Lemma call_step_sessions a r c s s' o :
  call_step a r c s = Some (s', o) → sessions_shrink (sys_gw s) (sys_gw s').
Proof.
  intros H. assert (Hfin : ∀ j, gw_sessions (events_finally j (sys_gw s)) = gw_sessions (sys_gw s)).
  { intros j. apply (remember_objs j (set_jobs (dict_pop (gw_jobs (sys_gw s)) j) (sys_gw s))). }
  apply shrink_eq. unfold call_step in H.
  destruct a, c as [j|j op|j|j []|]; try discriminate H; cbn in H;
    repeat (match type of H with
    | context [perform_put ?op ?g] => destruct (perform_put op g) eqn:?
    | context [gw_job_objs ?g !! ?x] => destruct (gw_job_objs g !! x) eqn:?
    | context [js_queue ?x] => destruct (js_queue x) eqn:?
    end; try discriminate H; cbn in H); simplify_eq/=;
    eauto using perform_put_sessions.
Qed.

Lemma open_job_sessions a j k b g g' sid r :
  open_job a j k b g = Ok (g', sid, r) → gw_sessions g' = gw_sessions g.
Proof. by intros (_ & _ & _ & _ & _ & _ & ->)%open_job_inv. Qed.

(** A session is registered by an accepted hello only. *)
Lemma step_sessions s a o s' x sid :
  sys_step s (a, o) s' → gw_sessions (sys_gw s') !! x = Some sid →
  gw_sessions (sys_gw s) !! x = Some sid ∨
  ∃ now h, a = AConnect now (Some (FHello h)) ∧ o = [OConnected sid] ∧ hello_agent_id h = x ∧
    connect_check (gw_agent_tokens (sys_gw s)) (Some (FHello h)) = Ok h.
Proof.
  unfold sys_step, sys_run. cbn. intros H Hx. destruct (action_conn a) as [sid'|].
  { destruct (sys_conns s !! sid'); [|discriminate H]. left. by eapply conn_step_sessions. }
  destruct (action_call a) as [r|].
  { destruct (sys_calls s !! r); [|discriminate H]. left. by eapply call_step_sessions. }
  destruct a; try discriminate H; cbn in H.
  - destruct (connect now first (sys_gw s)) as [[g sid']|] eqn:E; simplify_eq/=; [|auto].
    apply connect_inv in E as (h & -> & Hc & Hn & -> & ->). cbn in Hx.
    rewrite lookup_insert in Hx. case_decide; [|auto]. simplify_eq. right. by repeat eexists.
  - destruct (diagnostics agent_id job_id release_root (sys_gw s)) as [[[g r] op]|] eqn:E;
      simplify_eq/=; [|auto].
    apply diagnostics_open in E as (sid' & E & _). by rewrite (open_job_sessions _ _ _ _ _ _ _ _ E) in Hx; auto.
  - destruct (kubernetes_release agent_id request (sys_gw s)) as [[[g r] op]|] eqn:E;
      simplify_eq/=; [|auto].
    apply kubernetes_release_open in E as (sid' & E & _). by rewrite (open_job_sessions _ _ _ _ _ _ _ _ E) in Hx; auto.
  - destruct (cancel_objs job_id (sys_gw s)) as (_ & Hs & _).
    destruct (cancel job_id (sys_gw s)) as [[g b] op]. simplify_eq/=. rewrite <- Hs. auto.
  - destruct (sys_cancels s !! i) as [op|]; [|discriminate H]. cbn in H.
    destruct (perform_put op (sys_gw s)) eqn:E; [|discriminate H]. simplify_eq/=.
    rewrite (perform_put_sessions _ _ _ E) in Hx. auto.
  - destruct (sys_cancels s !! i) as [op|]; [|discriminate H]. simplify_eq/=. auto.
Qed.
