(* ===== verification/GatewayOrigin.v ===== *)
(** Where the frames of a job stream come from ([_accept_event], [_disconnect] of
    [controlplane/gateway.py]): along every run, a stream yields only failure
    frames of the gateway itself and frames received from the job's own agent. *)

From S2P Require Import Prelude Text Regex Dict Gateway GatewaySystem GatewayInv GatewayStreams GatewayJobs.

Open Scope list_scope.
Open Scope nat_scope.

(** * Frames on their way *)

Definition queued (g : AgentGateway) (r : ref) (f : AgentFrame) : Prop :=
  ∃ j, gw_job_objs g !! r = Some j ∧ f ∈ js_queue j.

Definition conn_puts (c : conn) (r : ref) (f : AgentFrame) : Prop :=
  (∃ op rest, c_consumer c = CPutting op rest ∧ PutJob r f ∈ op :: rest) ∨
  (∃ rest, c_handler c = HDisconnecting rest (Some (PutJob r f))).

(** Frame [f] is in the queue of job [r], or some task is about to put it there. *)
Definition carried (s : system) (r : ref) (f : AgentFrame) : Prop :=
  queued (sys_gw s) r f ∨
  (∃ sid c, sys_conns s !! sid = Some c ∧ conn_puts c r f) ∨
  (∃ r' j, sys_calls s !! r' = Some (KDispatch j (PutJob r f))) ∨
  PutJob r f ∈ sys_cancels s.

Definition from_gateway (f : AgentFrame) : Prop := ∃ k j n c, f = failure_frame k j n c.

(** Action [a] hands frame [f] of the job's own agent to job [r]. *)
Definition accepts (s : system) (a : action) (r : ref) (f : AgentFrame) : Prop :=
  ∃ now sid se j, a = ARecv now sid f ∧ gw_session_objs (sys_gw s) !! sid = Some se ∧
    gw_job_objs (sys_gw s) !! r = Some j ∧ js_agent_id j = as_agent_id se.

(** ** The queues *)

Lemma queued_ext g g' r f : gw_job_objs g' = gw_job_objs g → queued g' r f → queued g r f.
Proof. unfold queued. by intros ->. Qed.

Lemma queued_upd_job (u : JobState → JobState) r0 g r f :
  (∀ j, js_queue (u j) = js_queue j ∨ js_queue (u j) = tail (js_queue j)) →
  queued (upd_job u r0 g) r f → queued g r f.
Proof.
  intros Hu (j & Hj & Hf). cbn in Hj. rewrite lookup_alter in Hj. case_decide as Hd; [subst|by exists j].
  destruct (gw_job_objs g !! r) as [j0|] eqn:E; [|discriminate Hj]. injection Hj as <-.
  exists j0. split; [done|]. destruct (Hu j0) as [Hq|Hq]; rewrite Hq in Hf; [done|].
  destruct (js_queue j0); [done|]. by apply list_elem_of_further.
Qed.

Lemma queued_put op g g' r f :
  perform_put op g = Some g' → queued g' r f → queued g r f ∨ op = PutJob r f.
Proof.
  destruct op as [r0 f0|sid c]; cbn; intros (j0 & Hj0 & Hp)%bind_Some.
  - destruct (has_room _ _); [|done]. injection Hp as <-. intros (j & Hj & Hf).
    cbn in Hj. rewrite lookup_alter in Hj. case_decide as Hd; [subst r0|left; by exists j].
    rewrite Hj0 in Hj. injection Hj as <-. cbn in Hf.
    apply elem_of_app in Hf as [Hf| ->%list_elem_of_singleton]; [left; by exists j0|by right].
  - destruct (has_room _ _); [|done]. injection Hp as <-. by left.
Qed.

Lemma queued_put_none sid g g' r f : perform_put_none sid g = Some g' → queued g' r f → queued g r f.
Proof.
  unfold perform_put_none. intros (se & _ & Hp)%bind_Some. destruct (has_room _ _); [|done].
  by injection Hp as <-.
Qed.

Lemma queued_open ag j k b g g' sid r0 r f :
  open_job ag j k b g = Ok (g', sid, r0) → queued g' r f → queued g r f.
Proof.
  intros (_ & _ & _ & _ & _ & _ & ->)%open_job_inv (j' & Hj' & Hf). cbn in Hj'.
  rewrite lookup_insert in Hj'. case_decide; [|by exists j']. injection Hj' as <-.
  by apply elem_of_nil in Hf.
Qed.

Lemma events_finally_objs j g : gw_job_objs (events_finally j g) = gw_job_objs g.
Proof. unfold events_finally, remember_completed. by repeat case_match. Qed.

Lemma unregister_job_objs sid g : gw_job_objs (disconnect_unregister sid g) = gw_job_objs g.
Proof. unfold disconnect_unregister. by repeat case_match. Qed.

Lemma queued_cancel j g r f : queued (cancel j g).1.1 r f → queued g r f.
Proof.
  unfold cancel. destruct (dict_get (gw_jobs g) j) as [r0|]; cbn; [|done].
  destruct (gw_job_objs g !! r0) as [st|]; cbn; [|done].
  repeat case_match; cbn; try done. apply queued_upd_job. by left.
Qed.

Lemma cancel_put_out j g op r f : (cancel j g).2 = Some op → op ≠ PutJob r f.
Proof.
  unfold cancel. destruct (dict_get (gw_jobs g) j) as [r0|]; cbn; [|done].
  destruct (gw_job_objs g !! r0) as [st|]; cbn; [|done].
  repeat case_match; cbn; try done. by intros [= <-].
Qed.

(** What a received frame leads to. *)
Lemma consume_frame_carries now sid f0 g g' ops r f :
  consume_frame now sid f0 g = (g', ops) →
  (queued g' r f → queued g r f) ∧
  (PutJob r f ∈ ops → from_gateway f ∨
     (f = f0 ∧ ∃ se j, gw_session_objs g !! sid = Some se ∧ gw_job_objs g !! r = Some j ∧
        js_agent_id j = as_agent_id se)).
Proof.
  assert (Hacc : ∀ j n, accept_event sid j n f0 g = (g', ops) →
    (queued g' r f → queued g r f) ∧
    (PutJob r f ∈ ops → from_gateway f ∨
       (f = f0 ∧ ∃ se j, gw_session_objs g !! sid = Some se ∧ gw_job_objs g !! r = Some j ∧
          js_agent_id j = as_agent_id se))).
  { intros j n. unfold accept_event.
    destruct (dict_get (gw_jobs g) j) as [r0|]; [|intros [= <- <-]; split; [done|by intros ?%elem_of_nil]].
    destruct (gw_session_objs g !! sid) as [se|] eqn:Hse; [|intros [= <- <-]; split; [done|by intros ?%elem_of_nil]].
    destruct (gw_job_objs g !! r0) as [st|] eqn:Hst; [|intros [= <- <-]; split; [done|by intros ?%elem_of_nil]].
    destruct (String.eqb_spec (js_agent_id st) (as_agent_id se)) as [Ha|]; cbn;
      [|intros [= <- <-]; split; [done|by intros ?%elem_of_nil]].
    destruct (_ =? _)%Z; cbn; intros [= <- <-]; split; try done.
    - apply queued_upd_job. by left.
    - intros [= <- <-]%list_elem_of_singleton. right. split; [done|]. by exists se, st.
    - rewrite !elem_of_cons, elem_of_nil. intros [Heq|[?|[]]]; [|done]. injection Heq as -> ->.
      left. by do 4 eexists. }
  destruct f0; cbn [consume_frame]; try apply Hacc;
    intros [= <- <-]; (split; [done|by intros ?%elem_of_nil]).
Qed.

(** ** The steps *)

Lemma carried_conn s sid k h k' h' g' r f (X : Prop) :
  sys_conns s !! sid = Some (mkConn k h) →
  (queued g' r f → queued (sys_gw s) r f ∨ conn_puts (mkConn k h) r f) →
  (∀ op rest, k' = CPutting op rest → PutJob r f ∈ op :: rest → conn_puts (mkConn k h) r f ∨ X) →
  (∀ rest, h' = HDisconnecting rest (Some (PutJob r f)) → conn_puts (mkConn k h) r f ∨ X) →
  carried (set_conn sid (mkConn k' h') (set_gw g' s)) r f → carried s r f ∨ X.
Proof.
  intros Hc Hq Hk Hh.
  assert (Hold : conn_puts (mkConn k h) r f → carried s r f) by (right; left; eauto).
  intros [Hq'|[(sid' & c1 & Hc1 & Hp)|Hrest]]; cbn in *.
  - left. destruct (Hq Hq'); [by left|auto].
  - rewrite lookup_insert in Hc1. case_decide as Hd; [subst|left; right; left; eauto].
    injection Hc1 as <-. destruct Hp as [(op & rest & E & Hin)|(rest & E)].
    + destruct (Hk _ _ E Hin); auto.
    + destruct (Hh _ E); auto.
  - left. right. right. exact Hrest.
Qed.

(** A step that keeps the connection's own puts: the goals left are those where
    it changes them. *)
Ltac conn_quiet Hc Hcar :=
  match type of Hcar with
  | carried (set_conn _ _ (set_gw _ _)) _ _ => idtac
  | carried (set_conn ?sid ?c ?s) _ _ => rewrite <- (set_conn_gw_id sid c s) in Hcar
  end; revert Hcar; eapply carried_conn; [exact Hc|..];
  [ try (let Hnew := fresh in intros Hnew; left; first [exact Hnew|by auto])
  | try (intros ? ? Hx; discriminate Hx); try (intros ? ? Hcan; exfalso; exact (cancel_not_putting _ _ _ Hcan));
    try (intros ? ? Hx Hin; left; left; do 2 eexists; split; [exact Hx|exact Hin])
  | try (intros ? Hx; discriminate Hx); try (intros ? Hx; left; right; eexists; exact Hx) ].

Lemma conn_step_carries a sid c s s' o r f :
  sys_conns s !! sid = Some c → action_conn a = Some sid → conn_step a sid c s = Some (s', o) →
  carried s' r f → carried s r f ∨ (from_gateway f ∨ accepts s a r f).
Proof.
  intros Hc Ha H Hcar. unfold conn_step in H. destruct c as [k h]. cbn in H.
  destruct a; try discriminate H; injection Ha as ->.
  - destruct k; try discriminate H. injection H as <- <-. conn_quiet Hc Hcar.
  - destruct k; try discriminate H.
    destruct (consume_frame now sid frame (sys_gw s)) as [g' ops] eqn:E. injection H as <- <-.
    destruct (consume_frame_carries _ _ _ _ _ _ r f E) as [Hq Hops]. conn_quiet Hc Hcar.
    intros op rest ->%after_puts_inv Hin. right.
    destruct (Hops Hin) as [?|(-> & se & j & ?)]; [by left|]. right. by exists now, sid, se, j.
  - destruct k as [| |op rest| |]; try discriminate H.
    apply bind_Some in H as (g' & E & [= <- <-]). conn_quiet Hc Hcar.
    + intros Hq. destruct (queued_put _ _ _ _ _ E Hq) as [?| ->]; [by left|]. right. left.
      do 2 eexists. split; [reflexivity|]. apply list_elem_of_here.
    + intros op' rest' ->%after_puts_inv Hin. left. left. do 2 eexists. split; [reflexivity|].
      by apply list_elem_of_further.
  - destruct k; try discriminate H. injection H as <- <-. conn_quiet Hc Hcar.
  - destruct k; try discriminate H. apply bind_Some in H as (g' & E & [= <- <-]). conn_quiet Hc Hcar.
    intros Hq. left. by eapply queued_put_none.
  - destruct h; try discriminate H. apply bind_Some in H as (se & Hse & H).
    destruct (as_outgoing se) as [|[fr|] q]; [discriminate H|..]; injection H as <- <-.
    + by left.
    + conn_quiet Hc Hcar. 
  - destruct h; try discriminate H; injection H as <- <-; conn_quiet Hc Hcar.
  - destruct k; try discriminate H. destruct h; try discriminate H. injection H as <- <-. conn_quiet Hc Hcar.
    intros Hq. left. eapply queued_ext; [|exact Hq]. apply unregister_job_objs.
  - destruct h as [| |[|item rest] []|]; try discriminate H. injection H as <- <-. conn_quiet Hc Hcar.
    intros rest' [= -> Hop]. right. left. destruct item as [j r0]. unfold disconnect_item in Hop.
    apply bind_Some in Hop as (se & _ & Hop). apply bind_Some in Hop as (st & _ & Hop).
    destruct (String.eqb _ _); [|discriminate Hop]. injection Hop as _ <-. by do 4 eexists.
  - destruct h as [| |rest [op|]|]; try discriminate H.
    assert (H' : (g' ← perform_put op (sys_gw s);
      Some (set_conn sid (mkConn k (HDisconnecting rest None)) (set_gw g' s), [])) = Some (s', o))
      by by destruct rest.
    apply bind_Some in H' as (g' & E & [= <- <-]). conn_quiet Hc Hcar.
    intros Hq. destruct (queued_put _ _ _ _ _ E Hq) as [?| ->]; [by left|]. right. right. eauto.
  - destruct h as [| |[|item rest] []|]; try discriminate H. injection H as <- <-. conn_quiet Hc Hcar.
Qed.

Lemma call_step_carries a r0 c s s' o r f :
  sys_calls s !! r0 = Some c → call_step a r0 c s = Some (s', o) →
  (carried s' r f → carried s r f) ∧ (f ∈ flat_map (delivered_obs r) o → carried s r f).
Proof.
  intros Hc H.
  assert (Hmove : ∀ g' c', (queued g' r f → carried s r f) → (∀ j op, c' ≠ KDispatch j op) →
    carried (set_call r0 c' (set_gw g' s)) r f → carried s r f).
  { intros g' c' Hq Hd [Hq'|[Hp|[(r' & j & Hr)|Hin]]]; [by apply Hq| |..].
    - by right; left.
    - cbn in Hr. rewrite lookup_insert in Hr. case_decide as E; [injection Hr as ->; by edestruct Hd|].
      right. right. left. by exists r', j.
    - by do 3 right. }
  assert (Hsame : ∀ c', (∀ j op, c' ≠ KDispatch j op) → carried (set_call r0 c' s) r f → carried s r f).
  { intros c' Hd Hcar. apply (Hmove (sys_gw s) c'); [by left|done|]. by destruct s. }
  unfold call_step in H.
  assert (Hfin : ∀ j, carried (set_call r0 KDone (set_gw (events_finally j (sys_gw s)) s)) r f →
    carried s r f).
  { intros j. apply Hmove; [|done]. intros Hq. left. eapply queued_ext; [|exact Hq]. apply events_finally_objs. }
  destruct a; try discriminate H; destruct c as [| | |? []|]; try discriminate H;
    try (injection H as <- <-; split; [first [apply Hfin|by apply Hsame]|by intros ?%elem_of_nil]).
  - apply bind_Some in H as (g' & E & [= <- <-]). split; [|by intros ?%elem_of_nil].
    apply Hmove; [|done]. intros Hq.
    destruct (queued_put _ _ _ _ _ E Hq) as [?| ->]; [by left|]. right. right. left. eauto.
  - apply bind_Some in H as (st & Hst & H). destruct (js_queue st) as [|f0 q] eqn:Eq; [done|].
    injection H as <- <-. split.
    + apply Hmove; [|done]. intros Hq. left. eapply queued_upd_job; [|exact Hq]. by right.
    + cbn. rewrite app_nil_r. case_decide as Hd; [|by intros ?%elem_of_nil].
      intros ->%list_elem_of_singleton. subst. left. exists st. rewrite Eq. split; [done|].
      apply list_elem_of_here.
Qed.

(** A new generator waits for a put to its session, or for the lock. *)
Lemma carried_open s g' r0 k r f :
  (queued g' r f → queued (sys_gw s) r f) → (∀ j, k ≠ KDispatch j (PutJob r f)) →
  carried (set_call r0 k (set_gw g' s)) r f → carried s r f.
Proof.
  intros Hq Hk [Hq'|[Hp|[(r' & j' & Hr)|Hin]]].
  - left. auto.
  - by right; left.
  - cbn in Hr. rewrite lookup_insert in Hr. case_decide; [injection Hr as ->; by edestruct Hk|].
    right. right. left. by exists r', j'.
  - by do 3 right.
Qed.

Lemma carried_cancels s g' l r f :
  (queued g' r f → carried s r f) → (PutJob r f ∈ l → PutJob r f ∈ sys_cancels s) →
  carried (set_cancels l (set_gw g' s)) r f → carried s r f.
Proof.
  intros Hq Hl [Hq'|[Hp|[Hr|Hin]]]; [by apply Hq|by right; left|by right; right; left|].
  do 3 right. auto.
Qed.

Lemma request_step_carries a s s' o r f :
  request_step a s = Some (s', o) → carried s' r f → carried s r f.
Proof.
  intros H. destruct a; try discriminate H; cbn in H.
  - destruct (connect now first (sys_gw s)) as [[g' sid]|] eqn:E; injection H as <- <-; [|done].
    unfold connect in E. destruct (connect_check _ _) as [hello|]; [|discriminate E]. cbn in E.
    destruct (gw_sessions _ !! _); [discriminate E|]. injection E as <- <-.
    intros [Hq|[(sid' & c & Hc & Hp)|Hrest]]; [by left| |by right; right].
    cbn in Hc. rewrite lookup_insert in Hc. case_decide; [|right; left; eauto].
    injection Hc as <-. by destruct Hp as [(? & ? & ? & _)|(? & ?)].
  - destruct (diagnostics _ _ _ _) as [[[g' r0] op]|] eqn:E; injection H as <- <-; [|done].
    apply diagnostics_open in E as (sid & E & ->). apply carried_open; [by eapply queued_open|done].
  - destruct (kubernetes_release _ _ _) as [[[g' r0] op]|] eqn:E; injection H as <- <-; [|done].
    apply kubernetes_release_open in E as (sid & E & Hop). apply carried_open; [by eapply queued_open|].
    by destruct Hop as [-> | ->].
  - destruct (cancel job_id (sys_gw s)) as [[g' b] op] eqn:E. injection H as <- <-.
    apply carried_cancels.
    + intros Hq. left. apply (queued_cancel job_id). by rewrite E.
    + rewrite elem_of_app. intros [?|Hin]; [done|]. exfalso. destruct op as [op|]; [|by apply elem_of_nil in Hin].
      apply list_elem_of_singleton in Hin. eapply (cancel_put_out job_id (sys_gw s) op r f); [by rewrite E|done].
  - apply bind_Some in H as (op & Hi & H). apply bind_Some in H as (g' & E & [= <- <-]).
    apply carried_cancels.
    + intros Hq. destruct (queued_put _ _ _ _ _ E Hq) as [?| ->]; [by left|]. do 3 right.
      by eapply list_elem_of_lookup_2.
    + intros Hin. eapply elem_of_sublist; [exact Hin|apply sublist_delete].
  - apply bind_Some in H as (op & Hi & [= <- <-]). intros Hcar.
    apply (carried_cancels s (sys_gw s) (delete i (sys_cancels s))); [by left| |by destruct s].
    intros Hin. eapply elem_of_sublist; [exact Hin|apply sublist_delete].
Qed.

(** * Every run *)

(** Some received frame [f] of a session of agent [a]. *)
Definition sent (tr : list (action * list obs)) (s : system) (a : string) (f : AgentFrame) : Prop :=
  ∃ now sid o se, (ARecv now sid f, o) ∈ tr ∧
    gw_session_objs (sys_gw s) !! sid = Some se ∧ as_agent_id se = a.

Definition origin (tr : list (action * list obs)) (s : system) (r : ref) (f : AgentFrame) : Prop :=
  from_gateway f ∨
  ∃ j, gw_job_objs (sys_gw s) !! r = Some j ∧ sent tr s (js_agent_id j) f.

(** Objects stay, with their agents. *)
Definition objs_stay (g g' : AgentGateway) : Prop :=
  (∀ r j, gw_job_objs g !! r = Some j →
     ∃ j', gw_job_objs g' !! r = Some j' ∧ js_agent_id j' = js_agent_id j) ∧
  (∀ sid se, gw_session_objs g !! sid = Some se →
     ∃ se', gw_session_objs g' !! sid = Some se' ∧ as_agent_id se' = as_agent_id se).

#[export] Instance objs_stay_preorder : PreOrder objs_stay.
Proof.
  split; [by split; eauto|]. intros g1 g2 g3 [J1 S1] [J2 S2]. split.
  - intros r j (j2 & H2 & E2)%J1. destruct (J2 _ _ H2) as (j3 & H3 & E3). exists j3. by rewrite E3.
  - intros r j (j2 & H2 & E2)%S1. destruct (S2 _ _ H2) as (j3 & H3 & E3). exists j3. by rewrite E3.
Qed.

Lemma objs_stay_prim tokens mc mi g g' : gw_inv tokens mc mi g → gw_prim g g' → objs_stay g g'.
Proof.
  intros [_ Hj _ Hs _ _] Hp.
  destruct Hp as [now hello g Hc Hn|u r g Hk _|u sid g Hk _|a sid g Ha|a j k sid g Hf Hn Hs' Hl|j g|j g];
    split; cbn; eauto.
  - intros sid se Hse. rewrite lookup_insert_ne; [eauto|]. intros <-.
    by rewrite (sw_fresh _ _ Hs) in Hse.
  - intros r' j Hr'. rewrite lookup_alter. case_decide; [subst|eauto]. rewrite Hr'. eexists.
    split; [done|]. apply Hk.
  - intros sid' se Hse. rewrite lookup_alter. case_decide; [subst|eauto]. rewrite Hse. eexists.
    split; [done|]. apply Hk.
  - intros r' st Hr'. rewrite lookup_insert_ne; [eauto|]. intros <-.
    by rewrite (jw_fresh _ Hj) in Hr'.
  - unfold remember_completed. repeat case_match; eauto.
  - unfold remember_completed. repeat case_match; eauto.
Qed.

Lemma objs_stay_step tokens mc mi s l s' :
  reachable sys_step (sys_start tokens mc mi) s → sys_step s l s' → objs_stay (sys_gw s) (sys_gw s').
Proof.
  intros Hr Hstep. pose proof (gw_inv_reachable _ _ _ _ Hr) as Hinv.
  assert (Hp : rtc gw_prim (sys_gw s) (sys_gw s')).
  { induction (sys_step_gw_op _ _ _ Hstep) as [g|g1 g2 g3 H _ IH]; [apply rtc_refl|].
    etrans; [by apply gw_op_prim|]. apply IH. by eapply gw_inv_op. }
  clear Hstep. revert Hinv. induction Hp as [g|g1 g2 g3 H _ IH]; intros Hinv; [done|].
  etrans; [by eapply objs_stay_prim|]. apply IH. by eapply gw_inv_prim.
Qed.

Lemma origin_mono tr l s s' r f :
  objs_stay (sys_gw s) (sys_gw s') → origin tr s r f → origin (tr ++ [l]) s' r f.
Proof.
  intros [HJ HS] [Hg|(j & Hj & now & sid & o & se & Hin & Hse & Ha)]; [by left|]. right.
  destruct (HJ _ _ Hj) as (j' & Hj' & Ej). destruct (HS _ _ Hse) as (se' & Hse' & Es).
  exists j'. split; [done|]. exists now, sid, o, se'. split_and!; [|done|congruence].
  apply elem_of_app. by left.
Qed.

Lemma sys_run_carries a s s' o r f :
  sys_run a s = Some (s', o) →
  (carried s' r f → carried s r f ∨ (from_gateway f ∨ accepts s a r f)) ∧
  (f ∈ flat_map (delivered_obs r) o → carried s r f).
Proof.
  intros H. unfold sys_run in H. destruct (action_conn a) as [sid|] eqn:Ha.
  - apply bind_Some in H as (c & Hc & H). split; [by eapply conn_step_carries|].
    destruct c as [k h]. unfold conn_step in H. cbn in H.
    destruct a; try discriminate H; inv_res H; try discriminate H;
      repeat (apply bind_Some in H as (? & _ & H); cbn in H; inv_res H; try discriminate H);
      injection H as _ <-; cbn; by intros ?%elem_of_nil.
  - destruct (action_call a) as [r0|].
    + apply bind_Some in H as (c & Hc & H). destruct (call_step_carries _ _ _ _ _ _ r f Hc H). auto.
    + split; [left; by eapply request_step_carries|]. unfold request_step in H.
      destruct a; try discriminate H; inv_res H; try discriminate H;
        repeat (apply bind_Some in H as (? & _ & H); cbn in H; inv_res H; try discriminate H);
        injection H as _ <-; cbn; by intros ?%elem_of_nil.
Qed.

(** Along every run, whatever a stream has in its queue, is about to get, or has
    delivered comes from the gateway or from the job's agent. *)
Lemma origin_run tokens mc mi s0 tr s :
  sys_start tokens mc mi s0 → exec sys_step s0 tr s →
  ∀ r f, carried s r f ∨ f ∈ delivered r tr → origin tr s r f.
Proof.
  intros Hs0. assert (Hreach : ∀ tr s, exec sys_step s0 tr s → reachable sys_step (sys_start tokens mc mi) s)
    by (intros; eexists _, _; eauto).
  revert tr s. refine (exec_ind_r _ s0
    (λ tr s, ∀ r f, carried s r f ∨ f ∈ delivered r tr → origin tr s r f) _ _).
  - destruct Hs0 as (g & Hg & ->). intros r f [[(j & Hj & _)|[(? & ? & ? & _)|[(? & ? & ?)|Hin]]]|Hin];
      try done; try by apply elem_of_nil in Hin.
    unfold gateway_init, raise_if in Hg. destruct (_ || _) in Hg; [done|]. injection Hg as <-. done.
  - intros tr s1 [a o] s2 Hex IH Hstep r f Hf.
    pose proof (objs_stay_step _ _ _ _ _ _ (Hreach _ _ Hex) Hstep) as Hstay.
    destruct (sys_run_carries _ _ _ _ r f Hstep) as [Hc Hd]. cbn in Hc, Hd.
    assert (carried s1 r f ∨ f ∈ delivered r tr ∨ (from_gateway f ∨ accepts s1 a r f))
      as [Hold|[Hold|[Hg|Hacc]]].
    { destruct Hf as [Hf|Hf]; [destruct (Hc Hf); auto|].
      rewrite delivered_app in Hf. apply elem_of_app in Hf as [Hf|Hf]; [auto|].
      cbn in Hf. rewrite app_nil_r in Hf. auto. }
    + apply (origin_mono _ _ s1); auto.
    + apply (origin_mono _ _ s1); auto.
    + by left.
    + destruct Hacc as (now & sid & se & j & -> & Hse & Hj & Ha). right.
      destruct Hstay as [HJ HS]. destruct (HJ _ _ Hj) as (j' & Hj' & Ej).
      destruct (HS _ _ Hse) as (se' & Hse' & Es). exists j'. split; [done|].
      exists now, sid, o, se'. split_and!; [|done|congruence].
      apply elem_of_app. right. apply list_elem_of_here.
Qed.
