(* ===== verification/GatewayRuns.v ===== *)
(** The gateway as its users see it: what a step of any run leaves alone, how one
    generator goes from opening to its end, and that nothing else moves it.  Shared
    by the compositions ([Pipeline], [Releases]). *)

From S2P Require Import Prelude Text Regex Dict Gateway GatewaySystem GatewayInv GatewayStreams.
From S2P Require Import GatewayJobs GatewayOrigin.

Open Scope list_scope.
Open Scope nat_scope.

(** * What one gateway step leaves alone *)

(** A step shows a frame of stream [r], changes its call or opens it only when it
    is about [r]. *)
Definition about (r : ref) (l : action * list obs) : Prop :=
  action_call l.1 = Some r ∨ l.2 = [OOpened r].

(** The cases of a hypothesis [H : m = Some x], through binds and matches. *)
Ltac opt_cases H :=
  repeat (inv_res H; try discriminate H;
    try (apply bind_Some in H; destruct H as (? & ? & H); cbn beta in H)).

Lemma conn_step_silent a sid c s s' o r :
  conn_step a sid c s = Some (s', o) → flat_map (delivered_obs r) o = [].
Proof.
  intros H. destruct c as [k h]. unfold conn_step in H. cbn in H.
  destruct a; try discriminate H; opt_cases H; by injection H as _ <-.
Qed.

Lemma sys_run_about a s s' o r :
  sys_run a s = Some (s', o) → ¬ about r (a, o) →
  sys_calls s' !! r = sys_calls s !! r ∧ flat_map (delivered_obs r) o = [].
Proof.
  unfold sys_run, about. cbn. intros H Hn.
  destruct (action_conn a) as [sid|].
  { destruct (sys_conns s !! sid) as [c|]; [|discriminate H]. cbn in H.
    split; [|by eapply conn_step_silent]. by apply conn_step_jobs in H as [_ ->]. }
  destruct (action_call a) as [r'|] eqn:Ha.
  { destruct (sys_calls s !! r') as [c|]; [|discriminate H]. cbn in H.
    assert (r' ≠ r) by naive_solver.
    unfold call_step in H.
    destruct a; try discriminate H; destruct c as [| | |? []|]; try discriminate H; opt_cases H;
      injection H as <- <-; cbn; rewrite ?lookup_insert_ne by done;
      rewrite ?decide_False by done; done. }
  unfold request_step in H.
  destruct a; try discriminate H; opt_cases H; injection H as <- <-; cbn;
    rewrite ?lookup_insert_ne by (intros ->; naive_solver); done.
Qed.

Lemma exec_about s ls s' r :
  exec sys_step s ls s' → Forall (λ l, ¬ about r l) ls →
  sys_calls s' !! r = sys_calls s !! r ∧ delivered r ls = [].
Proof.
  induction 1 as [|s [a o] s1 ls s2 Hstep _ IH]; intros Hf; [done|].
  inversion Hf; subst. destruct (sys_run_about _ _ _ _ r Hstep) as [Hc Hd]; [done|].
  destruct IH as [Hc' Hd']; [done|]. split; [congruence|].
  cbn. unfold delivered in Hd'. cbn in Hd. rewrite Hd. done.
Qed.

(** Where a generator is when action [a] has opened it. *)
Definition opens (a : action) (c : call) : Prop :=
  match a with
  | ADiagnostics _ j _ => ∃ po, c = KDispatch j po
  | AKubernetes _ q => (∃ po, c = KDispatch (kq_job_id q) po) ∨ c = KWithdraw (kq_job_id q)
  | _ => False
  end.

(** A generator is opened by [diagnostics] or [kubernetes_release] under a fresh
    reference. *)
Lemma sys_run_opened a s s' r :
  sys_run a s = Some (s', [OOpened r]) →
  r = gw_next_ref (sys_gw s) ∧ ∃ c, sys_calls s' !! r = Some c ∧ opens a c.
Proof.
  intros H. unfold sys_run in H. destruct (action_conn a) as [sid|].
  { destruct (sys_conns s !! sid) as [c|]; [|done]. cbn in H. exfalso.
    unfold conn_step in H. destruct c as [ck h]. cbn in H.
    destruct a; try discriminate H; opt_cases H; discriminate H. }
  destruct (action_call a) as [r'|].
  { destruct (sys_calls s !! r') as [c|]; [|done]. cbn in H. exfalso. unfold call_step in H.
    destruct a; try discriminate H; destruct c as [| | |? []|]; try discriminate H; opt_cases H; discriminate H. }
  unfold request_step in H. destruct a; try discriminate H.
  - destruct (connect _ _ _) as [[]|]; discriminate H.
  - destruct (diagnostics _ _ _ _) as [[[g r'] op]|] eqn:E; [|discriminate H].
    apply diagnostics_open in E as (sid & (_ & -> & _)%open_job_jobs & _).
    injection H as <- <-. split; [done|]. cbn. rewrite lookup_insert_eq. cbn. eauto.
  - destruct (kubernetes_release _ _ _) as [[[g r'] op]|] eqn:E; [|discriminate H].
    apply kubernetes_release_open in E as (sid & (_ & -> & _)%open_job_jobs & _).
    injection H as <- <-. split; [done|]. cbn. rewrite lookup_insert_eq. eexists. split; [done|].
    destruct op; cbn; eauto.
  - destruct (cancel _ _) as [[]]; discriminate H.
  - opt_cases H; discriminate H.
  - opt_cases H; discriminate H.
Qed.

(** ** One generator *)

Lemma dispatch_step s s' r j op o :
  sys_calls s !! r = Some (KDispatch j op) → sys_run (ADispatch r) s = Some (s', o) →
  o = [] ∧ sys_calls s' !! r = Some (KStream j).
Proof.
  intros Hr. unfold sys_run. cbn. rewrite Hr. cbn. intros (g & _ & [= <- <-])%bind_Some.
  cbn. by rewrite lookup_insert_eq.
Qed.

Lemma get_step s s' r j r' f :
  sys_calls s !! r = Some (KStream j) → sys_run (AGet r) s = Some (s', [ODelivered r' f]) →
  r' = r ∧ sys_calls s' !! r = Some (KYielded j (is_terminal f)).
Proof.
  intros Hr. unfold sys_run. cbn. rewrite Hr. cbn. intros (st & _ & H)%bind_Some.
  destruct (js_queue st) as [|f' q]; [done|]. injection H as <- <- <-.
  cbn. by rewrite lookup_insert_eq.
Qed.

Lemma resume_step s s' r j last o :
  sys_calls s !! r = Some (KYielded j last) → sys_run (AResume r) s = Some (s', o) →
  o = [] ∧ sys_calls s' !! r = Some (if last then KDone else KStream j).
Proof.
  intros Hr. unfold sys_run. cbn. rewrite Hr. cbn. destruct last; intros [= <- <-];
    cbn; by rewrite lookup_insert_eq.
Qed.

Lemma withdraw_step s s' r j o :
  sys_calls s !! r = Some (KWithdraw j) → sys_run (AWithdraw r) s = Some (s', o) →
  o = [ORaised (withdraw_job j (sys_gw s)).2] ∧ sys_calls s' !! r = Some KDone.
Proof.
  intros Hr. unfold sys_run. cbn. rewrite Hr. cbn. intros [= <- <-]. cbn. by rewrite lookup_insert_eq.
Qed.

Definition goes_on (f : AgentFrame) : Prop := is_terminal f = false.

(** A generator that waits: for its put, or for a frame. *)
Definition awaited (c : call) : bool :=
  match c with KDispatch _ _ | KStream _ => true | _ => false end.

(** A generator works for one job until it is finished. *)
Definition same_work (c c' : call) : Prop := call_job c' = call_job c ∨ c' = KDone.

Lemma same_work_trans c1 c2 c3 : same_work c1 c2 → same_work c2 c3 → same_work c1 c3.
Proof. unfold same_work. intros [H1| ->] [H2| ->]; [left; congruence|by right| |by right]. right. by destruct c3. Qed.

(** ** Streams along runs of the gateway *)

Section runs.
Context (tokens : gmap string string) (mc mi : Z).
Implicit Types (s : system) (ls : list (action * list obs)).

Definition live_system (s : system) : Prop := reachable sys_step (sys_start tokens mc mi) s.

Lemma live_fresh s :
  live_system s → sys_calls s !! gw_next_ref (sys_gw s) = None ∧
  gw_job_objs (sys_gw s) !! gw_next_ref (sys_gw s) = None.
Proof.
  intros (s0 & tr & Hs0 & Hex). destruct (calls_fresh _ _ _ _ _ _ Hs0 Hex) as [Hw Hc].
  split; [done|]. by apply (jw_fresh _ Hw).
Qed.

Lemma exec_same_work s ls s' r c :
  live_system s → exec sys_step s ls s' → sys_calls s !! r = Some c →
  ∃ c', sys_calls s' !! r = Some c' ∧ same_work c c'.
Proof.
  intros Hlive Hex. revert c. induction Hex as [|s [a o] s1 ls s2 Hstep _ IH]; intros c Hr; [exists c; by split; [|left]|].
  assert (∃ c1, sys_calls s1 !! r = Some c1 ∧ same_work c c1) as (c1 & Hr1 & Hc1).
  { pose proof Hstep as H. unfold sys_step, sys_run in H. cbn in H. destruct (action_conn a) as [sid|].
    { apply bind_Some in H as (cn & _ & [_ Hc]%conn_step_jobs). exists c. rewrite Hc. by split; [|left]. }
    destruct (action_call a) as [r'|] eqn:Ha.
    - apply bind_Some in H as (c0 & Hr' & H). apply call_step_jobs in H as (c1 & Hc & H); [|done].
      rewrite Hc. destruct (decide (r' = r)) as [->|Hne].
      + exists c1. rewrite lookup_insert_eq. split; [done|]. rewrite Hr in Hr'. injection Hr' as <-.
        unfold same_work. naive_solver.
      + exists c. rewrite lookup_insert_ne by done. by split; [|left].
    - apply request_step_jobs in H as [[Hc _]|(ag & j & k & b & g & sid & r' & c0 & Ho & _ & _ & Hc)];
        exists c; rewrite Hc; [by split; [|left]|]. apply open_job_jobs in Ho as (_ & -> & _).
      rewrite lookup_insert_ne; [by split; [|left]|]. intros <-. destruct (live_fresh _ Hlive). congruence. }
  destruct (IH (reachable_step _ _ _ _ _ Hlive Hstep) _ Hr1) as (c2 & Hr2 & Hc2).
  exists c2. split; [done|]. by eapply same_work_trans.
Qed.

(** Steps that do not drive generator [r], or find it finished, show nothing of
    it and leave it as it is. *)
Lemma exec_untouched s ls s' r :
  live_system s → exec sys_step s ls s' → is_Some (sys_calls s !! r) →
  Forall (λ l, action_call l.1 ≠ Some r) ls ∨ sys_calls s !! r = Some KDone →
  delivered r ls = [] ∧ sys_calls s' !! r = sys_calls s !! r.
Proof.
  intros Hlive Hex. induction Hex as [|s [a o] s1 ls s2 Hstep _ IH]; intros Hr Hl; [done|].
  assert (Hn : ¬ about r (a, o)).
  { intros [Ha|Ho]; cbn in *.
    - destruct Hl as [Hl|Hd]; [by inversion Hl|].
      unfold sys_step, sys_run in Hstep. cbn in Hstep.
      destruct (action_conn a) eqn:E; [by destruct a|]. rewrite Ha, Hd in Hstep. cbn in Hstep.
      unfold call_step in Hstep. by destruct a.
    - subst o. destruct (sys_run_opened _ _ _ _ Hstep) as [-> _].
      destruct (live_fresh _ Hlive) as [Hc _]. rewrite Hc in Hr. by destruct Hr. }
  destruct (sys_run_about _ _ _ _ r Hstep Hn) as [Hc Hd]. cbn in Hd.
  destruct IH as [Hd' Hc'].
  - by eapply reachable_step.
  - by rewrite Hc.
  - rewrite Hc. destruct Hl as [Hl|Hl]; [left; by inversion Hl|by right].
  - split; [|congruence]. cbn. rewrite Hd. exact Hd'.
Qed.
End runs.

Lemma exec_stay tokens mc mi s ls s' :
  live_system tokens mc mi s → exec sys_step s ls s' → objs_stay (sys_gw s) (sys_gw s').
Proof.
  intros Hl Hex. revert Hl. induction Hex as [s|s l s1 ls s2 Hstep _ IH]; intros Hl; [done|].
  etrans; [by eapply objs_stay_step|]. apply IH. by eapply reachable_step.
Qed.
