(* ===== verification/GatewayCancels.v ===== *)
(** Accepted cancellations ([cancel] of [controlplane/gateway.py]): along every run
    in which no caller of [cancel] gives up on its put, an agent whose job's
    cancellation was answered [True] has been sent the cancel frame, or has it in
    its queue, or a caller waits to put it there. *)

From S2P Require Import Prelude Text Regex Dict Gateway GatewaySystem GatewayInv GatewayStreams.
From S2P Require Import GatewayJobs GatewayOrigin GatewayRuns.

Open Scope list_scope.
Open Scope nat_scope.

(** The cancel frame of job [j] is on its way to, or at, a session of [agent]. *)
Definition told (tr : list (action * list obs)) (s : system) (agent j : string) : Prop :=
  ∃ sid se, gw_session_objs (sys_gw s) !! sid = Some se ∧ as_agent_id se = agent ∧
    (PutOut sid (CCancel j) ∈ sys_cancels s ∨ Some (CCancel j) ∈ as_outgoing se ∨
     ∃ a, (a, [OSent sid (CCancel j)]) ∈ tr).

Definition is_drop (a : action) : bool := match a with ACancelDrop _ => true | _ => false end.

Definition no_drop (l : action * list obs) : Prop := is_drop l.1 = false.

(** * What most steps leave alone *)

(** No cancellation is marked, and no frame leaves an outgoing queue. *)
Record calm (g g' : AgentGateway) : Prop := {
  cm_jobs : ∀ r st', gw_job_objs g' !! r = Some st' → js_cancel_sent st' = true →
    ∃ st, gw_job_objs g !! r = Some st ∧ js_cancel_sent st = true ∧ js_agent_id st' = js_agent_id st;
  cm_out : ∀ sid se, gw_session_objs g !! sid = Some se →
    ∃ se', gw_session_objs g' !! sid = Some se' ∧ as_agent_id se' = as_agent_id se ∧
      ∀ c, c ∈ as_outgoing se → c ∈ as_outgoing se'
}.

#[export] Instance calm_refl : Reflexive calm.
Proof. split; eauto. Qed.

Lemma calm_objs g g' :
  gw_job_objs g' = gw_job_objs g → gw_session_objs g' = gw_session_objs g → calm g g'.
Proof. intros Hj Hs. split; rewrite ?Hj, ?Hs; eauto. Qed.

Lemma calm_job f r g :
  (∀ j, js_cancel_sent (f j) = js_cancel_sent j ∧ js_agent_id (f j) = js_agent_id j) → calm g (upd_job f r g).
Proof.
  intros Hf. split; [|by eauto]. intros r' st'. cbn. rewrite lookup_alter. case_decide; [subst|by eauto].
  destruct (gw_job_objs g !! r') as [st|] eqn:E; [|done]. cbn. intros [= <-] Hc.
  destruct (Hf st) as [H1 H2]. exists st. by rewrite <- H1.
Qed.

Lemma calm_session f sid g :
  (∀ se, as_agent_id (f se) = as_agent_id se ∧ ∀ c, c ∈ as_outgoing se → c ∈ as_outgoing (f se)) →
  calm g (upd_session f sid g).
Proof.
  intros Hf. split; [by eauto|]. intros sid' se Hse. cbn. rewrite lookup_alter. case_decide; [subst|by eauto].
  rewrite Hse. eexists. split; [done|]. apply Hf.
Qed.

Lemma calm_put op g g' : perform_put op g = Some g' → calm g g'.
Proof.
  destruct op as [r f|sid c]; cbn; intros (x & _ & Hp)%bind_Some; destruct (has_room _ _); try done; injection Hp as <-.
  - apply calm_job. done.
  - apply calm_session. intros se. split; [done|]. intros c' Hc'. apply elem_of_app. by left.
Qed.

Lemma calm_put_none sid g g' : perform_put_none sid g = Some g' → calm g g'.
Proof.
  unfold perform_put_none. intros (x & _ & Hp)%bind_Some. destruct (has_room _ _); [|done]. injection Hp as <-.
  apply calm_session. intros se. split; [done|]. intros c' Hc'. apply elem_of_app. by left.
Qed.

Lemma calm_consume now sid f g : calm g (consume_frame now sid f g).1.
Proof.
  assert (Hacc : ∀ j n, calm g (accept_event sid j n f g).1).
  { intros j n. unfold accept_event. repeat (case_match; cbn; try done). by apply calm_job. }
  destruct f; cbn [consume_frame]; try apply Hacc; cbn; try done. apply calm_session. done.
Qed.

(** * One step *)

Definition is_send (a : action) : bool := match a with ASend _ => true | _ => false end.

Lemma conn_step_calm a sid c s s' o :
  is_send a = false → conn_step a sid c s = Some (s', o) →
  calm (sys_gw s) (sys_gw s') ∧ sys_cancels s' = sys_cancels s.
Proof.
  intros Ha H. destruct c as [k h]. unfold conn_step in H. cbn in H.
  destruct a; try discriminate H; try discriminate Ha; opt_cases H; simplify_eq/=; split; try done;
    eauto using calm_put, calm_put_none.
  - match goal with E : consume_frame ?n ?x ?f ?g = _ |- _ => pose proof (calm_consume n x f g) as Hc; by rewrite E in Hc end.
  - apply calm_objs; [apply unregister_job_objs|]. unfold disconnect_unregister. by repeat case_match.
Qed.

Lemma call_step_calm a r c s s' o :
  call_step a r c s = Some (s', o) → calm (sys_gw s) (sys_gw s') ∧ sys_cancels s' = sys_cancels s.
Proof.
  intros H. unfold call_step in H.
  assert (Hfin : ∀ j, calm (sys_gw s) (events_finally j (sys_gw s))).
  { intros j. apply calm_objs; [apply events_finally_objs|].
    unfold events_finally, remember_completed. by repeat case_match. }
  destruct a; try discriminate H; destruct c as [| | |? []|]; try discriminate H; opt_cases H; simplify_eq/=;
    split; try done; eauto using calm_put; [by apply calm_objs|by apply calm_job].
Qed.

Lemma calm_open ag j k b g g' sid r d :
  jobs_wf g → open_job ag j k b g = Ok (g', sid, r) → calm g (set_jobs d g').
Proof.
  intros Hwf (_ & _ & _ & _ & _ & _ & ->)%open_job_inv. split; cbn; [|by eauto].
  intros r' st'. rewrite lookup_insert. case_decide; [by intros [= <-]|by eauto].
Qed.

Lemma calm_connect tokens now first g g' sid :
  sessions_wf tokens g → connect now first g = Ok (g', sid) → calm g g'.
Proof.
  intros Hwf (h & _ & _ & _ & -> & ->)%connect_inv. split; cbn; [by eauto|].
  intros sid' se Hse. exists se. split; [|done]. rewrite lookup_insert_ne; [done|].
  intros <-. by rewrite (sw_fresh _ _ Hwf) in Hse.
Qed.

(** A frame that leaves a queue is sent. *)
Lemma send_step sid s s' o :
  sys_run (ASend sid) s = Some (s', o) →
  gw_job_objs (sys_gw s') = gw_job_objs (sys_gw s) ∧ sys_cancels s' = sys_cancels s ∧
  ∀ sid' se, gw_session_objs (sys_gw s) !! sid' = Some se →
    ∃ se', gw_session_objs (sys_gw s') !! sid' = Some se' ∧ as_agent_id se' = as_agent_id se ∧
      ∀ c, Some c ∈ as_outgoing se → Some c ∈ as_outgoing se' ∨ o = [OSent sid' c].
Proof.
  unfold sys_run. cbn. intros (cn & _ & H)%bind_Some. destruct cn as [k h]. unfold conn_step in H. cbn in H.
  destruct h; try discriminate H. apply bind_Some in H as (se & Hse & H).
  destruct (as_outgoing se) as [|[fr|] q] eqn:Eq; [discriminate H|..]; injection H as <- <-; cbn;
    (split_and!; [done..|]); intros sid' se' Hse'; rewrite lookup_alter;
    (case_decide as Hd; [subst|by eauto]); rewrite Hse in Hse'; injection Hse' as <-; rewrite Hse; cbn;
    (eexists; split; [done|]; split; [done|]); intros c; cbn; rewrite Eq.
  - intros [[= ->]|Hin]%elem_of_cons; [by right|by left].
  - intros [[=]|Hin]%elem_of_cons. by left.
Qed.

(** The entries of jobs are old, or the next reference. *)
Lemma step_entries s a o s' j r :
  jobs_wf (sys_gw s) → sys_step s (a, o) s' → dict_get (gw_jobs (sys_gw s')) j = Some r →
  dict_get (gw_jobs (sys_gw s)) j = Some r ∨
  (r = gw_next_ref (sys_gw s) ∧ gw_jobs (sys_gw s') = gw_jobs (sys_gw s) ++ [(j, r)]).
Proof.
  intros Hwf H Hj. unfold sys_step, sys_run in H. cbn in H.
  assert (Hpop : ∀ d j0, dict_wf d → dict_get (dict_pop d j0) j = Some r → dict_get d j = Some r).
  { intros d j0 Hd. destruct (decide (j0 = j)) as [->|]; [by rewrite dict_get_pop_eq|by rewrite dict_get_pop_ne]. }
  destruct (action_conn a) as [sid|].
  { apply bind_Some in H as (c & _ & H). apply conn_step_jobs in H as [H _]. left. by rewrite <- H. }
  destruct (action_call a) as [r0|] eqn:Ha.
  { apply bind_Some in H as (c & _ & H). destruct (call_step_jobs _ _ _ _ _ _ Ha H) as (c' & _ & [[_ Hg]|[(j0 & _ & _ & Hg)|(_ & _ & Hg)]]);
      rewrite Hg in Hj; [by left|left|by left]. eapply Hpop; [apply Hwf|exact Hj]. }
  apply request_step_jobs in H as [[_ Hg]|(ag & j0 & k & b & g & sid & r0 & c & Ho & Hg & _)].
  - rewrite Hg in Hj. by left.
  - apply open_job_jobs in Ho as (Hn & Er & Ho). pose proof Hj as Hj'. rewrite Hg, Ho, dict_get_snoc in Hj. destruct (dict_get (gw_jobs (sys_gw s)) j) as [r1|] eqn:E; [by left|].
    case_decide; [|done]. right. split; [congruence|]. rewrite Hg, Ho. by simplify_eq.
Qed.

(** ** Every step *)

Definition is_cancel (a : action) : bool := match a with ACancel _ => true | _ => false end.

Lemma request_step_calm tokens a s s' o :
  jobs_wf (sys_gw s) → sessions_wf tokens (sys_gw s) → is_cancel a = false →
  request_step a s = Some (s', o) → calm (sys_gw s) (sys_gw s').
Proof.
  intros Hj Hs Ha H. destruct a; try discriminate H; try discriminate Ha; cbn in H.
  - destruct (connect _ _ _) as [[g sid]|] eqn:E; injection H as <- _; [|done]. by eapply calm_connect.
  - destruct (diagnostics _ _ _ _) as [[[g r] op]|] eqn:E; injection H as <- _; [|done]. cbn.
    apply diagnostics_open in E as (sid & E & _). rewrite <- (set_jobs_same g). by eapply calm_open.
  - destruct (kubernetes_release _ _ _) as [[[g r] op]|] eqn:E; injection H as <- _; [|done]. cbn.
    apply kubernetes_release_open in E as (sid & E & _). rewrite <- (set_jobs_same g). by eapply calm_open.
  - apply bind_Some in H as (op & _ & H). apply bind_Some in H as (g & E & [= <- _]). by eapply calm_put.
  - by apply bind_Some in H as (op & _ & [= <- _]).
Qed.

Lemma step_calm tokens mc mi s a o s' :
  gw_inv tokens mc mi (sys_gw s) → is_send a = false → is_cancel a = false → sys_step s (a, o) s' →
  calm (sys_gw s) (sys_gw s').
Proof.
  intros Hinv Hsend Hcan H. unfold sys_step, sys_run in H. cbn in H.
  destruct (action_conn a) as [sid|].
  { apply bind_Some in H as (c & _ & H). by eapply conn_step_calm. }
  destruct (action_call a) as [r|].
  { apply bind_Some in H as (c & _ & H). by eapply call_step_calm. }
  destruct Hinv as [_ Hj _ Hs _ _]. by eapply request_step_calm.
Qed.

Lemma step_cancels s a o s' op :
  no_drop (a, o) → sys_step s (a, o) s' → op ∈ sys_cancels s →
  op ∈ sys_cancels s' ∨ perform_put op (sys_gw s) = Some (sys_gw s').
Proof.
  intros Hd H Hin. unfold sys_step, sys_run in H. cbn in H.
  destruct (action_conn a) as [sid|] eqn:Ec.
  { apply bind_Some in H as (c & _ & H). left. destruct (is_send a) eqn:Es.
    - destruct a; try discriminate Es. injection Ec as ->.
      destruct c as [k h]. unfold conn_step in H. cbn in H. destruct h; try discriminate H.
      apply bind_Some in H as (se & _ & H). destruct (as_outgoing se) as [|[]]; simplify_eq/=; done.
    - by destruct (conn_step_calm _ _ _ _ _ _ Es H) as [_ ->]. }
  destruct (action_call a) as [r|].
  { apply bind_Some in H as (c & _ & H). left. by destruct (call_step_calm _ _ _ _ _ _ H) as [_ ->]. }
  destruct a; try discriminate H; cbn in H.
  - left. destruct (connect _ _ _) as [[]|]; by injection H as <- _.
  - left. destruct (diagnostics _ _ _ _) as [[[]]|]; by injection H as <- _.
  - left. destruct (kubernetes_release _ _ _) as [[[]]|]; by injection H as <- _.
  - left. destruct (cancel _ _) as [[g b] op']. injection H as <- _. cbn. apply elem_of_app. by left.
  - apply bind_Some in H as (op' & Hi & H). apply bind_Some in H as (g & E & [= <- _]). cbn.
    apply list_elem_of_lookup in Hin as [n Hn].
    destruct (decide (n = i)) as [->|Hne]; [right; congruence|left].
    rewrite delete_take_drop. apply elem_of_app. destruct (decide (n < i)).
    + left. eapply (list_elem_of_lookup_2 _ n). by rewrite lookup_take_lt.
    + right. eapply (list_elem_of_lookup_2 _ (n - S i)). rewrite lookup_drop.
      by replace (S i + (n - S i)) with n by lia.
  - discriminate Hd.
Qed.

(** ** What was told stays told *)

Lemma told_later tr tr' s agent j : told tr s agent j → told (tr ++ tr') s agent j.
Proof.
  intros (sid & se & Hse & Ha & Hw). exists sid, se. split; [done|]. split; [done|].
  destruct Hw as [?|[?|[a Hin]]]; auto. right. right. exists a. apply elem_of_app. by left.
Qed.

Lemma cancel_session_objs j g : gw_session_objs (cancel j g).1.1 = gw_session_objs g.
Proof.
  unfold cancel. destruct (dict_get (gw_jobs g) j) as [r|]; cbn; [|done].
  destruct (gw_job_objs g !! r) as [st|]; cbn; [|done]. by repeat case_match.
Qed.

(** Outgoing queues lose what is sent only. *)
Lemma step_out tokens mc mi s a o s' sid se :
  gw_inv tokens mc mi (sys_gw s) → sys_step s (a, o) s' → gw_session_objs (sys_gw s) !! sid = Some se →
  ∃ se', gw_session_objs (sys_gw s') !! sid = Some se' ∧ as_agent_id se' = as_agent_id se ∧
    ∀ c, Some c ∈ as_outgoing se → Some c ∈ as_outgoing se' ∨ o = [OSent sid c].
Proof.
  intros Hinv Hstep Hse. destruct (is_send a) eqn:Es.
  { destruct a; try discriminate Es. destruct (send_step _ _ _ _ Hstep) as (_ & _ & H). by apply H. }
  destruct (is_cancel a) eqn:Ec.
  { destruct a; try discriminate Ec. unfold sys_step, sys_run in Hstep. cbn in Hstep.
    pose proof (cancel_session_objs job_id (sys_gw s)) as Hs.
    destruct (cancel job_id (sys_gw s)) as [[g b] op]. injection Hstep as <- <-. cbn in *.
    exists se. rewrite Hs. split_and!; auto. }
  destruct (cm_out _ _ (step_calm _ _ _ _ _ _ _ Hinv Es Ec Hstep) _ _ Hse) as (se' & ? & ? & ?).
  exists se'. split_and!; auto.
Qed.

Lemma told_step tokens mc mi tr s a o s' agent j :
  gw_inv tokens mc mi (sys_gw s) → no_drop (a, o) → sys_step s (a, o) s' →
  told tr s agent j → told (tr ++ [(a, o)]) s' agent j.
Proof.
  intros Hinv Hd Hstep (sid & se & Hse & Ha & Hw).
  destruct (step_out _ _ _ _ _ _ _ _ _ Hinv Hstep Hse) as (se' & Hse' & Ha' & Hout).
  exists sid, se'. split; [done|]. split; [congruence|].
  destruct Hw as [Hw|[Hw|[a' Hw]]].
  - destruct (step_cancels _ _ _ _ _ Hd Hstep Hw) as [?|Hput]; [by left|right; left].
    cbn in Hput. rewrite Hse in Hput. cbn in Hput. destruct (has_room _ _); [|done].
    injection Hput as Hg. rewrite <- Hg in Hse'. cbn in Hse'. rewrite lookup_alter_eq, Hse in Hse'.
    injection Hse' as <-. cbn. apply elem_of_app. right. apply list_elem_of_here.
  - destruct (Hout _ Hw) as [?| ->]; [by right; left|]. right. right. exists a.
    apply elem_of_app. right. apply list_elem_of_here.
  - right. right. exists a'. apply elem_of_app. by left.
Qed.

(** * Every marked job was told *)

(** A call of [cancel] that answers [True]: the job was marked, or it is now, with
    the put to the session of its agent. *)
Lemma cancel_true j g g' op :
  cancel j g = (g', true, op) →
  ∃ r st, dict_get (gw_jobs g) j = Some r ∧ gw_job_objs g !! r = Some st ∧
    ((js_cancel_sent st = true ∧ g' = g) ∨
     ∃ sid, gw_sessions g !! js_agent_id st = Some sid ∧ op = Some (PutOut sid (CCancel j)) ∧
       g' = upd_job mark_cancel_sent r g).
Proof.
  unfold cancel. destruct (dict_get (gw_jobs g) j) as [r|]; cbn; [|done].
  destruct (gw_job_objs g !! r) as [st|] eqn:E; cbn; [|done].
  destruct (js_cancel_sent st) eqn:Ec; [intros [= <- <-]; exists r, st; auto|].
  destruct (gw_sessions g !! js_agent_id st) as [sid|] eqn:Es; [|done].
  intros [= <- <-]. exists r, st. split_and!; [done..|]. right. by exists sid.
Qed.

(** No two ids share a job object. *)
Definition refs_unique (g : AgentGateway) : Prop :=
  ∀ j j' r, dict_get (gw_jobs g) j = Some r → dict_get (gw_jobs g) j' = Some r → j = j'.

Lemma entry_not_next g j r : jobs_wf g → dict_get (gw_jobs g) j = Some r → r ≠ gw_next_ref g.
Proof.
  intros Hwf Hj ->. destruct (jw_objs _ Hwf j (gw_next_ref g)) as [st Hst]; [by apply dict_get_Some_elem|].
  by rewrite (jw_fresh _ Hwf) in Hst.
Qed.

Lemma refs_unique_step s a o s' :
  jobs_wf (sys_gw s) → sys_step s (a, o) s' → refs_unique (sys_gw s) → refs_unique (sys_gw s').
Proof.
  intros Hwf Hstep Hu j j' r Hj Hj'.
  destruct (step_entries _ _ _ _ _ _ Hwf Hstep Hj) as [H1|[E1 G1]],
    (step_entries _ _ _ _ _ _ Hwf Hstep Hj') as [H2|[E2 G2]].
  - by eapply Hu.
  - by apply entry_not_next in H1.
  - by apply entry_not_next in H2.
  - rewrite G1 in G2. by simplify_list_eq.
Qed.

Definition marked_told (tr : list (action * list obs)) (s : system) : Prop :=
  ∀ j r st, dict_get (gw_jobs (sys_gw s)) j = Some r → gw_job_objs (sys_gw s) !! r = Some st →
    js_cancel_sent st = true → told tr s (js_agent_id st) j.

(** The put of a cancellation, just after the call. *)
Lemma told_now tokens mc mi tr s j g op sid st :
  gw_inv tokens mc mi (sys_gw s) → cancel j (sys_gw s) = (g, true, op) →
  gw_sessions (sys_gw s) !! js_agent_id st = Some sid → op = Some (PutOut sid (CCancel j)) →
  told tr (set_cancels (sys_cancels s ++ option_list op) (set_gw g s)) (js_agent_id st) j.
Proof.
  intros [_ _ _ Hs _ _] Hc Hsid ->. destruct (sw_objs _ _ Hs _ _ Hsid) as (se & Hse & Ha & _).
  pose proof (cancel_session_objs j (sys_gw s)) as Hobjs. rewrite Hc in Hobjs. cbn in Hobjs.
  exists sid, se. cbn. rewrite Hobjs. split_and!; [done..|]. left. apply elem_of_app. right. apply list_elem_of_here.
Qed.

Lemma marked_cancel tokens mc mi tr s j o s' :
  gw_inv tokens mc mi (sys_gw s) → refs_unique (sys_gw s) → marked_told tr s → sys_step s (ACancel j, o) s' →
  marked_told (tr ++ [(ACancel j, o)]) s'.
Proof.
  intros Hinv Hu Hm Hstep j' r st' Hj Hst Hflag.
  assert (Hold : ∀ st, dict_get (gw_jobs (sys_gw s)) j' = Some r → gw_job_objs (sys_gw s) !! r = Some st →
    js_cancel_sent st = true → js_agent_id st = js_agent_id st' → told (tr ++ [(ACancel j, o)]) s' (js_agent_id st') j').
  { intros st H1 H2 H3 <-. eapply told_step; [exact Hinv|done|exact Hstep|]. by eapply Hm. }
  pose proof Hstep as H. unfold sys_step, sys_run in H. cbn in H.
  pose proof (cancel_jobs j (sys_gw s)) as Hjobs.
  destruct (cancel j (sys_gw s)) as [[g b] op] eqn:E. injection H as <- _. cbn in *. rewrite Hjobs in Hj.
  destruct b.
  - destruct (cancel_true _ _ _ _ E) as (r0 & st & Hr0 & Hst0 & [[Hf ->]|(sid & Hsid & Hop & ->)]);
      [by eapply Hold|]. cbn in Hst. rewrite lookup_alter in Hst. case_decide as Hd; [subst r0|by eapply Hold].
    rewrite Hst0 in Hst. injection Hst as <-. cbn.
    assert (j' = j) as -> by by eapply Hu. by eapply told_now.
  - assert (g = sys_gw s) as ->; [|by eapply Hold].
    unfold cancel in E. destruct (dict_get (gw_jobs (sys_gw s)) j) as [r0|]; cbn in E; [|by simplify_eq].
    destruct (gw_job_objs (sys_gw s) !! r0) as [st|]; cbn in E; [|by simplify_eq].
    by repeat case_match; simplify_eq.
Qed.

Lemma marked_step tokens mc mi tr s a o s' :
  gw_inv tokens mc mi (sys_gw s) → refs_unique (sys_gw s) → no_drop (a, o) → sys_step s (a, o) s' →
  marked_told tr s → marked_told (tr ++ [(a, o)]) s'.
Proof.
  intros Hinv Hu Hd Hstep Hm. destruct (is_cancel a) eqn:Ec.
  { destruct a; try discriminate Ec. by eapply marked_cancel. }
  intros j r st' Hj Hst Hflag.
  assert (∃ st, gw_job_objs (sys_gw s) !! r = Some st ∧ js_cancel_sent st = true ∧
    js_agent_id st' = js_agent_id st) as (st & Hst0 & Hf & ->).
  { destruct (is_send a) eqn:Es.
    - destruct a; try discriminate Es. destruct (send_step _ _ _ _ Hstep) as (H & _ & _).
      cbn in H. rewrite H in Hst. eauto.
    - by apply (cm_jobs _ _ (step_calm _ _ _ _ _ _ _ Hinv Es Ec Hstep)). }
  pose proof Hinv as [_ Hwf _ _ _ _].
  destruct (step_entries _ _ _ _ _ _ Hwf Hstep Hj) as [Hj0|[-> _]]; [|by rewrite (jw_fresh _ Hwf) in Hst0].
  eapply told_step; eauto.
Qed.

(** ** Every run *)

Lemma marked_run tokens mc mi s0 tr s :
  sys_start tokens mc mi s0 → exec sys_step s0 tr s → Forall no_drop tr →
  refs_unique (sys_gw s) ∧ marked_told tr s.
Proof.
  intros Hs0. revert tr s. refine (exec_ind_r _ s0
    (λ tr s, Forall no_drop tr → refs_unique (sys_gw s) ∧ marked_told tr s) _ _).
  - intros _. destruct Hs0 as (g & Hg & ->). unfold gateway_init, raise_if in Hg.
    destruct (_ || _) in Hg; [done|]. injection Hg as <-. split; [by intros ???|by intros ???].
  - intros tr s1 [a o] s2 Hex IH Hstep [Htr Ha]%Forall_app.
    rewrite Forall_singleton in Ha. destruct (IH Htr) as [Hu Hm].
    assert (Hinv : gw_inv tokens (Z.to_nat mc) (Z.to_nat mi) (sys_gw s1))
      by (apply gw_inv_reachable; by exists s0, tr).
    split; [|by eapply marked_step]. eapply refs_unique_step; [apply Hinv|exact Hstep|done].
Qed.

(** Just after a call that answers [True]. *)
Lemma told_at_call tokens mc mi tr s j s' :
  gw_inv tokens mc mi (sys_gw s) → marked_told tr s → sys_step s (ACancel j, [OAnswer true]) s' →
  ∃ r st, dict_get (gw_jobs (sys_gw s)) j = Some r ∧ gw_job_objs (sys_gw s) !! r = Some st ∧
    told (tr ++ [(ACancel j, [OAnswer true])]) s' (js_agent_id st) j.
Proof.
  intros Hinv Hm Hstep. pose proof Hstep as H. unfold sys_step, sys_run in H. cbn in H.
  destruct (cancel j (sys_gw s)) as [[g b] op] eqn:E. injection H as <- ->.
  destruct (cancel_true _ _ _ _ E) as (r & st & Hr & Hst & Hc). exists r, st. split_and!; [done..|].
  destruct Hc as [[Hf _]|(sid & Hsid & Hop & _)].
  - eapply told_step; [exact Hinv|done|exact Hstep|by eapply Hm].
  - by eapply told_now.
Qed.

Lemma told_run tokens mc mi tr s ls s' agent j :
  live_system tokens mc mi s → exec sys_step s ls s' → Forall no_drop ls →
  told tr s agent j → told (tr ++ ls) s' agent j.
Proof.
  intros Hlive Hex. revert tr Hlive.
  induction Hex as [s|s [a o] s1 ls s2 Hstep _ IH]; intros tr Hlive Hd Ht; [by rewrite app_nil_r|].
  inversion Hd; subst. replace (tr ++ (a, o) :: ls) with ((tr ++ [(a, o)]) ++ ls) by by rewrite <- app_assoc.
  apply IH; [by eapply reachable_step|done|].
  eapply told_step; [by eapply gw_inv_reachable|done|exact Hstep|done].
Qed.
