(* ===== verification/GatewayProps.v ===== *)
(** The properties of the gateway ([controlplane/gateway.py]), over every run of
    [GatewaySystem.sys_step], with concrete runs that meet their hypotheses. *)

From Stdlib Require Import Sorted.
From S2P Require Import Prelude Text Regex Dict Gateway GatewaySystem GatewayInv GatewayStreams GatewayJobs.
From S2P Require Import GatewayRuns GatewayCancels.

Open Scope list_scope.
Open Scope nat_scope.

(** * A concrete gateway *)

Definition demo_tokens : gmap string string := {["edge" := "secret"]}.

Definition demo_system (tokens : gmap string string) (mc mi : Z) : system :=
  match gateway_init tokens mc mi with
  | Ok g => sys_init g
  | Err _ => sys_init (mkGateway tokens ∅ [] ∅ [] 0 0 ∅ ∅ 0)
  end.

Definition demo_start : system := demo_system demo_tokens 2 1.

Definition demo_hello : AgentFrame :=
  FHello (Hello "edge" 1 0 [DIAGNOSTIC_CAPABILITY] "secret").

Definition demo_result (n : Z) : AgentFrame := FResult (DResult "job-1" n "succeeded" []).

(** One job, from the hello to the end of its stream. *)
Definition demo_job : list action :=
  [AConnect 0 (Some demo_hello); AStart 0; ADiagnostics "edge" "job-1" "current";
   ADispatch 1; ASend 0;
   ARecv 1 0 (FProgress "job-1" 1 "checks" "one"); APut 0;
   ARecv 2 0 (FProgress "job-1" 2 "checks" "two"); APut 0; AGet 1; AResume 1;
   ARecv 3 0 (demo_result 3); APut 0; AGet 1; AResume 1; AGet 1; AResume 1].

Lemma demo_started : sys_start demo_tokens 2 1 demo_start.
Proof. eexists. by vm_compute. Defined.

Lemma demo_run acts :
  bool_decide (is_Some (sys_exec acts demo_start)) = true →
  exec sys_step demo_start (run_trace acts demo_start) (run_state acts demo_start).
Proof. intros H. apply run_exec. by apply bool_decide_eq_true in H. Qed.

Example demo_job_runs :
  delivered 1 (run_trace demo_job demo_start) =
    [FProgress "job-1" 1 "checks" "one"; FProgress "job-1" 2 "checks" "two"; demo_result 3].
Proof. by vm_compute. Qed.

(** * Streams *)

(** C1: whatever frames agents send and however the tasks interleave, the progress
    frames a job stream yields carry strictly increasing sequence numbers, and
    nothing follows a terminal frame.  (A terminal frame that the gateway makes
    itself may repeat the number of the last progress frame.) *)
Theorem job_stream_in_order tokens mc mi s0 tr s r :
  sys_start tokens mc mi s0 → exec sys_step s0 tr s →
  StronglySorted Z.lt (progress_seqs (delivered r tr)) ∧
  Forall (λ f, is_terminal f = false) (removelast (delivered r tr)).
Proof.
  intros Hs0 Hex. destruct (stream_inv_run _ _ _ _ _ _ Hs0 Hex) as [_ _ _ Ho Hsh Hfr].
  split; [|apply Hsh].
  destruct (gw_job_objs (sys_gw s) !! r) as [j|] eqn:E.
  - destruct (Ho _ _ E) as [H _]. rewrite progress_seqs_app in H.
    revert H. generalize (progress_seqs (delivered r tr)). intros l.
    induction l as [|x l IH]; cbn; intros H; [constructor|].
    inversion H as [|? ? H1 H2]; subst. apply Forall_app in H2 as [H2 _].
    constructor; auto.
  - destruct (Hfr _ E) as [-> _]. constructor.
Qed.

Lemma job_stream_in_order_witness :
  progress_seqs (delivered 1 (run_trace demo_job demo_start)) = [1%Z; 2%Z] ∧
  StronglySorted Z.lt (progress_seqs (delivered 1 (run_trace demo_job demo_start))) ∧
  Forall (λ f, is_terminal f = false) (removelast (delivered 1 (run_trace demo_job demo_start))).
Proof.
  split; [by vm_compute|].
  apply (job_stream_in_order demo_tokens 2 1 demo_start _ (run_state demo_job demo_start));
    [exact demo_started | apply demo_run; by vm_compute].
Defined.

(** While [_disconnect] waits to put its failure frame, the agent is back and its
    first progress frame overtakes it. *)
Definition demo_repeated : list action :=
  [AConnect 0 (Some demo_hello); AStart 0; ADiagnostics "edge" "job-1" "current"; ADispatch 1;
   AAbort 0; APutNone 0; ADisconnect 0; ADiscVisit 0;
   AConnect 1 (Some demo_hello); AStart 2; ARecv 2 2 (FProgress "job-1" 1 "checks" "one"); APut 2;
   ADiscPut 0; AGet 1; AResume 1; AGet 1].

Example failure_frame_repeats_number :
  delivered 1 (run_trace demo_repeated demo_start) =
    [FProgress "job-1" 1 "checks" "one"; failure_frame "diagnostic" "job-1" 1 "AGENT_DISCONNECTED"].
Proof. by vm_compute. Qed.

(** * Resource bounds *)

(** C34: in every reachable state each job's event queue holds at most
    [MAX_JOB_EVENTS] frames and each session's outgoing queue at most
    [MAX_OUTGOING_FRAMES], whatever the agents and the callers do. *)
Theorem queues_stay_bounded tokens mc mi s :
  reachable sys_step (sys_start tokens mc mi) s → queues_bounded (sys_gw s).
Proof. apply gw_inv_reachable. Qed.

Lemma demo_reachable acts :
  bool_decide (is_Some (sys_exec acts demo_start)) = true →
  reachable sys_step (sys_start demo_tokens 2 1) (run_state acts demo_start).
Proof. intros H%demo_run. eexists _, _. split; [apply demo_started|exact H]. Qed.

Lemma queues_stay_bounded_witness :
  gw_job_objs (sys_gw (run_state demo_job demo_start)) !! 1 ≠ None ∧
  queues_bounded (sys_gw (run_state demo_job demo_start)).
Proof.
  split; [by vm_compute|].
  apply (queues_stay_bounded demo_tokens 2 1). apply demo_reachable. by vm_compute.
Defined.

(** C26: admission control holds in every reachable state: no agent has more
    active jobs than [max_inflight_per_agent], no job id is active twice, and
    every active id matches [ID_RE]. *)
Theorem admission_control tokens mc mi s :
  reachable sys_step (sys_start tokens mc mi) s →
  (∀ a, inflight a (sys_gw s) ≤ Z.to_nat mi) ∧
  dict_wf (gw_jobs (sys_gw s)) ∧
  (∀ j r, (j, r) ∈ gw_jobs (sys_gw s) → fullmatch ID_RE j = true).
Proof.
  intros [_ Hj _ _ _ <-]%gw_inv_reachable. split_and!; apply Hj.
Qed.

Definition demo_open : list action :=
  [AConnect 0 (Some demo_hello); AStart 0; ADiagnostics "edge" "job-1" "current"].

Lemma admission_control_witness :
  inflight "edge" (sys_gw (run_state demo_open demo_start)) = 1 ∧
  open_job "edge" "job-2" "diagnostic" false (sys_gw (run_state demo_open demo_start)) =
    Err (RuntimeError "agent operation capacity reached") ∧
  (∀ a, inflight a (sys_gw (run_state demo_open demo_start)) ≤ Z.to_nat 1) ∧
  dict_wf (gw_jobs (sys_gw (run_state demo_open demo_start))) ∧
  (∀ j r, (j, r) ∈ gw_jobs (sys_gw (run_state demo_open demo_start)) → fullmatch ID_RE j = true).
Proof.
  split; [by vm_compute|]. split; [by vm_compute|].
  apply (admission_control demo_tokens 2 1). apply demo_reachable. by vm_compute.
Defined.

(** C20: ending a job implements the specification [window_push]: the completed
    ids are the last [max_completed_jobs] distinct ones in order of completion,
    the set and the deque always agree, and the job that just ended is in. *)
Theorem completed_window tokens mc mi s j :
  reachable sys_step (sys_start tokens mc mi) s →
  let g := events_finally j (sys_gw s) in
  let window := window_push (Z.to_nat mc) j (gw_completed_order (sys_gw s)) in
  gw_completed_order g = window ∧ gw_completed_jobs g = list_to_set window ∧
  NoDup window ∧ length window ≤ Z.to_nat mc ∧ j ∈ window.
Proof.
  intros [_ _ Hc _ Hm _]%gw_inv_reachable. cbn.
  assert (Hc' : completed_wf (set_jobs (dict_pop (gw_jobs (sys_gw s)) j) (sys_gw s)))
    by (destruct Hc; by split).
  destruct (remember_window j _ Hc') as [H1 H2]. cbn in H1, H2. rewrite Hm in H1, H2.
  destruct Hc as [Hn _ Hb Hp]. rewrite Hm in Hb, Hp.
  split_and!; [exact H1|exact H2| | |]; auto using window_push_nodup, window_push_length, window_push_in.
Qed.

Lemma completed_window_witness :
  gw_completed_order (sys_gw (run_state demo_job demo_start)) = ["job-1"%string] ∧
  let g := events_finally "b" (sys_gw (run_state demo_job demo_start)) in
  let window := window_push (Z.to_nat 2) "b"
    (gw_completed_order (sys_gw (run_state demo_job demo_start))) in
  gw_completed_order g = window ∧ gw_completed_jobs g = list_to_set window ∧
  NoDup window ∧ length window ≤ Z.to_nat 2 ∧ "b"%string ∈ window.
Proof.
  split; [by vm_compute|].
  apply (completed_window demo_tokens 2 1). apply demo_reachable. by vm_compute.
Defined.

(** * Job ownership *)

(** C13: who holds the agents' capacity: in every reachable state each active job
    belongs to a generator that is still running, or to one whose caller was
    cancelled while its request waited for room in the agent's outgoing queue or
    while the generator waited for the lock; so when all generators are finished and
    no caller was cancelled there, no job is active. *)
Theorem no_job_left_behind tokens mc mi s0 tr s :
  sys_start tokens mc mi s0 → exec sys_step s0 tr s →
  (∀ j r, dict_get (gw_jobs (sys_gw s)) j = Some r →
     (∃ c, sys_calls s !! r = Some c ∧ call_job c = Some j) ∨
     ∃ a o, (a, o) ∈ tr ∧ (a = ADispatchCancelled r ∨ a = ALockCancelled r)) ∧
  ((∀ r c, sys_calls s !! r = Some c → c = KDone) →
   (∀ a o r, (a, o) ∈ tr → a ≠ ADispatchCancelled r ∧ a ≠ ALockCancelled r) →
   gw_jobs (sys_gw s) = []).
Proof.
  intros Hs0 Hex. destruct (jobs_run _ _ _ _ _ _ Hs0 Hex) as [_ Hall].
  split; [exact Hall|]. intros Hdone Htr.
  destruct (gw_jobs (sys_gw s)) as [|[j r] d] eqn:E; [done|].
  destruct (Hall j r) as [(c & Hc & Hcj)|(a & o & Hin & Hcan)].
  { rewrite E. cbn. by rewrite decide_True. }
  - apply Hdone in Hc. by subst.
  - destruct (Htr _ _ r Hin), Hcan; congruence.
Qed.

(** After one job that ended well. *)
Lemma no_job_left_behind_witness :
  let s := run_state demo_job demo_start in
  sys_calls s !! 1 = Some KDone ∧
  (∀ j r, dict_get (gw_jobs (sys_gw s)) j = Some r →
     (∃ c, sys_calls s !! r = Some c ∧ call_job c = Some j) ∨
     ∃ a o, (a, o) ∈ run_trace demo_job demo_start ∧ (a = ADispatchCancelled r ∨ a = ALockCancelled r)) ∧
  ((∀ r c, sys_calls s !! r = Some c → c = KDone) →
   (∀ a o r, (a, o) ∈ run_trace demo_job demo_start → a ≠ ADispatchCancelled r ∧ a ≠ ALockCancelled r) →
   gw_jobs (sys_gw s) = []).
Proof.
  intros s. split; [by vm_compute|].
  apply (no_job_left_behind demo_tokens 2 1 demo_start (run_trace demo_job demo_start));
    [exact demo_started|apply demo_run; by vm_compute].
Defined.

(** A caller cancelled there leaves its job behind: the entry stays in [_jobs] in
    every later state, so its id is refused for ever, for diagnostics and releases
    alike. *)
Theorem cancelled_dispatch_leaks tokens mc mi s0 tr1 s1 s2 a r c j tr2 s3 :
  sys_start tokens mc mi s0 → exec sys_step s0 tr1 s1 →
  sys_calls s1 !! r = Some c → call_job c = Some j → cancels a r →
  sys_step s1 (a, []) s2 → exec sys_step s2 tr2 s3 →
  (j, r) ∈ gw_jobs (sys_gw s3) ∧
  ∀ agent kind reuse, is_ok (open_job agent j kind reuse (sys_gw s3)) = false.
Proof.
  intros Hs0 Hex1 Hc Hcj Ha Hstep Hex2.
  destruct (jobs_run _ _ _ _ _ _ Hs0 Hex1) as [Hown _].
  assert (Hl : leaked j r s2).
  { unfold sys_step, sys_run in Hstep. destruct Ha as [-> | ->]; cbn in Hstep; rewrite Hc in Hstep;
      destruct c; try discriminate Hstep; injection Hstep as <-;
      (split; cbn; [by eapply Hown|by rewrite lookup_insert_eq]). }
  assert (Hex : exec sys_step s0 (tr1 ++ [(a, [])]) s2)
    by (eapply exec_app; [done|by apply exec_one]).
  destruct (exec_stable sys_step s0 (leaked j r)
    (λ tr s l s' He, leaked_step _ _ _ _ _ _ _ _ _ _ Hs0 He) _ _ _ _ Hex Hl Hex2) as [Hj _].
  split; [by apply dict_get_Some_elem|]. intros agent kind reuse.
  destruct (open_job agent j kind reuse (sys_gw s3)) as [[[g sid] r']|] eqn:E; [|done].
  apply open_job_inv in E as (_ & Hn & _). congruence.
Qed.

(** The caller is cancelled while the [finally] of its stream waits for the lock. *)
Lemma cancelled_dispatch_leaks_witness :
  let s1 := run_state (demo_open ++ [ADispatch 1]) demo_start in
  let s2 := run_state [ALockCancelled 1] s1 in
  ("job-1"%string, 1) ∈ gw_jobs (sys_gw s2) ∧
  (∀ a kind reuse, is_ok (open_job a "job-1" kind reuse (sys_gw s2)) = false).
Proof.
  intros s1 s2.
  apply (cancelled_dispatch_leaks demo_tokens 2 1 demo_start (run_trace (demo_open ++ [ADispatch 1]) demo_start)
    s1 s2 (ALockCancelled 1) 1 (KStream "job-1") "job-1" [] s2).
  - exact demo_started.
  - apply demo_run; by vm_compute.
  - by vm_compute.
  - done.
  - by right.
  - by vm_compute.
  - constructor.
Defined.

(** * Agent identities *)

(** C38: a client that aborts while its consumer still reads or puts, and its
    outgoing queue is full, locks its agent out.  The consumer's [finally] waits to
    enqueue [None], the handler waits for the consumer, and nobody reads the queue;
    cancelling the handler again ends it without [_disconnect].  In every later
    state the agent still counts as connected and every new hello with its identity
    is refused, valid token or not. *)
Theorem aborted_full_queue_locks_out tokens mc mi s0 tr1 s1 sid a se k s2 tr2 s3 :
  sys_start tokens mc mi s0 → exec sys_step s0 tr1 s1 →
  gw_sessions (sys_gw s1) !! a = Some sid →
  sys_conns s1 !! sid = Some (mkConn k HServing) →
  k = CReading ∨ (∃ op rest, k = CPutting op rest) →
  gw_session_objs (sys_gw s1) !! sid = Some se →
  has_room MAX_OUTGOING_FRAMES (as_outgoing se) = false →
  sys_step s1 (AAbort sid, []) s2 → exec sys_step s2 tr2 s3 →
  is_connected a (sys_gw s3) = true ∧
  ∀ now h, hello_agent_id h = a →
    is_ok (connect now (Some (FHello h)) (sys_gw s3)) = false.
Proof.
  intros Hs0 Hex Ha Hc Hk Hse Hfull Hstep Hex2.
  assert (Hr1 : reachable sys_step (sys_start tokens mc mi) s1) by (by exists s0, tr1).
  destruct (gw_inv_reachable _ _ _ _ Hr1) as [_ _ _ [_ _ Hobjs] _ _].
  destruct (Hobjs _ _ Ha) as (se' & Hse' & Hag & _). rewrite Hse in Hse'. injection Hse' as <-.
  assert (Hst : stuck sid a s2).
  { exists true. unfold sys_step, sys_run in Hstep. cbn in Hstep. rewrite Hc in Hstep. cbn in Hstep.
    injection Hstep as <-. split; [|split; [done|by exists se]]. cbn. rewrite lookup_insert_eq.
    by destruct Hk as [->|(op & rest & ->)]. }
  assert (Hex' : exec sys_step s0 (tr1 ++ [(AAbort sid, [])]) s2)
    by (eapply exec_app; [done|by apply exec_one]).
  destruct (exec_stable sys_step s0 (stuck sid a)
    (λ tr s l s' He, stuck_step _ _ _ _ _ _ _ _ _ _ Hs0 He) _ _ _ _ Hex' Hst Hex2)
    as (full & _ & Hs & _).
  split; [unfold is_connected; by rewrite Hs|]. intros now h <-.
  destruct (connect now (Some (FHello h)) (sys_gw s3)) as [[g sid']|] eqn:E; [|done].
  apply connect_inv in E as (h' & [= <-] & _ & Hn & _). congruence.
Qed.

(** An agent that reports 31 events out of order before its connection drops. *)
Definition demo_flood : list action :=
  demo_open ++ [ADispatch 1] ++
  concat (replicate 31 [ARecv 1 0 (FProgress "job-1" 9 "checks" "late"); APut 0; APut 0]).

Lemma aborted_full_queue_locks_out_witness :
  let s1 := run_state demo_flood demo_start in
  let s3 := run_state [AAbort 0; AAbort 0] s1 in
  sys_conns s3 !! 0 = Some (mkConn CDone HDone) ∧
  is_connected "edge" (sys_gw s3) = true ∧
  (∀ now h, hello_agent_id h = "edge"%string →
    is_ok (connect now (Some (FHello h)) (sys_gw s3)) = false).
Proof.
  intros s1 s3. split; [by vm_compute|].
  destruct (gw_session_objs (sys_gw s1) !! 0) as [se|] eqn:Hse; [|by vm_compute in Hse].
  apply (aborted_full_queue_locks_out demo_tokens 2 1 demo_start (run_trace demo_flood demo_start) s1 0 "edge"
    se CReading (run_state [AAbort 0] s1) [(AAbort 0, [])] s3).
  - exact demo_started.
  - apply demo_run; by vm_compute.
  - by vm_compute.
  - by vm_compute.
  - by left.
  - exact Hse.
  - vm_compute in Hse. injection Hse as <-. by vm_compute.
  - by vm_compute.
  - apply exec_one. by vm_compute.
Defined.

(** [Connect] accepts exactly the hellos it should: a well-formed identity,
    the supported protocol major, the diagnostics capability, the configured
    token, and no session under that identity. *)
Theorem connect_accepts now first g :
  is_ok (connect now first g) = true ↔
  ∃ h token, first = Some (FHello h) ∧
    fullmatch ID_RE (hello_agent_id h) = true ∧
    hello_major h = PROTOCOL_MAJOR ∧
    DIAGNOSTIC_CAPABILITY ∈ hello_capabilities h ∧
    gw_agent_tokens g !! hello_agent_id h = Some token ∧ hello_auth_token h = token ∧
    is_ascii token = true ∧
    gw_sessions g !! hello_agent_id h = None.
Proof.
  split.
  - destruct (connect now first g) as [[g' sid]|] eqn:E; [intros _|done].
    apply connect_inv in E as (h & -> & Hc & Hn & _ & _).
    destruct (connect_check_facts _ _ Hc) as (H1 & H2 & H3 & H4).
    exists h, (hello_auth_token h). split_and!; try done.
    unfold connect_check in Hc. rewrite H4 in Hc. unfold compare_digest in Hc.
    destruct (is_ascii (hello_auth_token h)); [done|].
    repeat case_match; done.
  - intros (h & token & -> & H1 & H2 & H3 & H4 & H5 & H6 & Hn).
    unfold connect, connect_check. rewrite H1, H2, H4. subst token.
    assert (str_in DIAGNOSTIC_CAPABILITY (hello_capabilities h) = true) as ->.
    { unfold str_in. by apply bool_decide_eq_true. }
    unfold compare_digest. rewrite H6, String.eqb_refl. cbn. by rewrite Hn.
Qed.

(** C21: whoever is registered as an agent presented, on the connection that holds
    its session, the token configured for that identity. *)
Theorem sessions_are_authenticated tokens mc mi s0 tr s a sid :
  sys_start tokens mc mi s0 → exec sys_step s0 tr s →
  gw_sessions (sys_gw s) !! a = Some sid →
  ∃ now h, (AConnect now (Some (FHello h)), [OConnected sid]) ∈ tr ∧
    hello_agent_id h = a ∧ tokens !! a = Some (hello_auth_token h) ∧
    fullmatch ID_RE a = true ∧ hello_major h = PROTOCOL_MAJOR ∧
    DIAGNOSTIC_CAPABILITY ∈ hello_capabilities h.
Proof.
  intros Hs0. revert tr s.
  apply (exec_ind_r sys_step s0 (λ tr s, gw_sessions (sys_gw s) !! a = Some sid → _)).
  - destruct Hs0 as (g & Hg & ->). unfold gateway_init, raise_if in Hg.
    destruct (_ || _) in Hg; [done|]. injection Hg as <-. done.
  - intros tr s1 [act o] s2 Hex IH Hstep Hx.
    destruct (step_sessions _ _ _ _ _ _ Hstep Hx) as [H|(now & h & -> & -> & Ha & Hc)].
    + destruct (IH H) as (now & h & Hin & ?). exists now, h. split; [|done].
      apply elem_of_app. by left.
    + assert (Hr : reachable sys_step (sys_start tokens mc mi) s1) by (by exists s0, tr).
      destruct (gw_inv_reachable _ _ _ _ Hr) as [_ _ _ [Ht _ _] _ _]. rewrite Ht in Hc.
      destruct (connect_check_facts _ _ Hc) as (H1 & H2 & H3 & H4). subst a.
      exists now, h. split_and!; try done. apply elem_of_app. right. apply list_elem_of_here.
Qed.

Lemma sessions_are_authenticated_witness :
  let s := run_state demo_open demo_start in
  ∃ now h, (AConnect now (Some (FHello h)), [OConnected 0]) ∈ run_trace demo_open demo_start ∧
    hello_agent_id h = "edge"%string ∧ demo_tokens !! "edge"%string = Some (hello_auth_token h) ∧
    fullmatch ID_RE "edge" = true ∧ hello_major h = PROTOCOL_MAJOR ∧
    DIAGNOSTIC_CAPABILITY ∈ hello_capabilities h.
Proof.
  intros s.
  apply (sessions_are_authenticated demo_tokens 2 1 demo_start _ s).
  - exact demo_started.
  - apply demo_run; by vm_compute.
  - by vm_compute.
Defined.

(** * Single operations *)

(** A connection cannot touch the jobs of another agent: its frames neither
    change such a job nor cause a put on its queue. *)
Theorem events_stay_with_their_agent now sid f g r j se :
  gw_session_objs g !! sid = Some se → gw_job_objs g !! r = Some j →
  js_agent_id j ≠ as_agent_id se →
  let '(g', ops) := consume_frame now sid f g in
  gw_job_objs g' !! r = Some j ∧ gw_jobs g' = gw_jobs g ∧
  ∀ f', PutJob r f' ∉ ops.
Proof.
  intros Hse Hj Hne.
  assert (Hacc : ∀ id n, let '(g', ops) := accept_event sid id n f g in
    gw_job_objs g' !! r = Some j ∧ gw_jobs g' = gw_jobs g ∧ ∀ f', PutJob r f' ∉ ops).
  { intros id n. unfold accept_event. rewrite Hse.
    destruct (dict_get (gw_jobs g) id) as [r'|]; [|by split_and!; intros; try apply not_elem_of_nil].
    destruct (gw_job_objs g !! r') as [j'|] eqn:E; [|by split_and!; intros; try apply not_elem_of_nil].
    destruct (String.eqb_spec (js_agent_id j') (as_agent_id se)) as [Ha|]; cbn;
      [|by split_and!; intros; try apply not_elem_of_nil].
    assert (r' ≠ r) by congruence.
    destruct (_ =? _)%Z; cbn; (split_and!; [rewrite ?lookup_alter_ne; done|done|]);
      intros f' Hin; repeat (apply elem_of_cons in Hin as [Hin|Hin]; [by simplify_eq|]);
      by apply elem_of_nil in Hin. }
  destruct f; cbn [consume_frame]; try apply Hacc;
    by split_and!; intros; try apply not_elem_of_nil.
Qed.

(** [cancel] sends at most one cancel frame per job: after a call that
    schedules one, further calls answer [True] and send nothing; a call that
    answers [False] has changed nothing. *)
Theorem cancel_sends_once j g g' answer op :
  cancel j g = (g', answer, op) →
  (∀ p, op = Some p → answer = true ∧ cancel j g' = (g', true, None)) ∧
  (op = None → g' = g) ∧
  (answer = false → g' = g ∧ op = None ∧
     (dict_get (gw_jobs g) j = None ∨
      ∃ r, dict_get (gw_jobs g) j = Some r ∧
        match gw_job_objs g !! r with
        | Some st => gw_sessions g !! js_agent_id st = None
        | None => True
        end)).
Proof.
  unfold cancel. destruct (dict_get (gw_jobs g) j) as [r|] eqn:Hj; cbn;
    [|by intros [= <- <- <-]; split_and!; auto].
  destruct (gw_job_objs g !! r) as [st|] eqn:Hst; cbn.
  2: { intros [= <- <- <-]. split_and!; try done. intros _. split_and!; try done.
       right. exists r. by rewrite Hst. }
  destruct (js_cancel_sent st) eqn:Hc; [by intros [= <- <- <-]|].
  destruct (gw_sessions g !! js_agent_id st) as [sid|] eqn:Hs; intros [= <- <- <-].
  - split_and!; try done. intros _ _. split; [done|]. cbn.
    rewrite Hj. cbn. by rewrite lookup_alter_eq, Hst.
  - split_and!; try done. intros _. split_and!; try done. right. exists r. by rewrite Hst.
Qed.

Definition demo_gw : AgentGateway := sys_gw (run_state demo_open demo_start).

Definition two_agents : AgentGateway :=
  upd_session (λ s, mkSession "other" [] 1 0 [] 0) 0 demo_gw.

Lemma events_stay_with_their_agent_witness :
  let '(g', ops) := consume_frame 5 0 (FProgress "job-1" 1 "checks" "x") two_agents in
  gw_job_objs g' !! 1 = Some (mkJob "edge" "diagnostic" [] 1 false) ∧
  gw_jobs g' = gw_jobs two_agents ∧ ∀ f', PutJob 1 f' ∉ ops.
Proof.
  apply (events_stay_with_their_agent 5 0 (FProgress "job-1" 1 "checks" "x") two_agents 1 _
    (mkSession "other" [] 1 0 [] 0)); [by vm_compute|by vm_compute|done].
Defined.

Lemma cancel_sends_once_witness :
  let g' := upd_job mark_cancel_sent 1 demo_gw in
  (∀ p, Some (PutOut 0 (CCancel "job-1")) = Some p → true = true ∧ cancel "job-1" g' = (g', true, None)) ∧
  (Some (PutOut 0 (CCancel "job-1")) = None → g' = demo_gw) ∧
  (true = false → g' = demo_gw ∧ Some (PutOut 0 (CCancel "job-1")) = None ∧
     (dict_get (gw_jobs demo_gw) "job-1" = None ∨
      ∃ r, dict_get (gw_jobs demo_gw) "job-1" = Some r ∧
        match gw_job_objs demo_gw !! r with
        | Some st => gw_sessions demo_gw !! js_agent_id st = None
        | None => True
        end)).
Proof. intros g'. apply (cancel_sends_once "job-1" demo_gw g'). by vm_compute. Defined.

(** [diagnostics] forwards only safe release roots: a root it accepts is
    relative, at most 256 characters, without backslashes, and none of its
    [/]-separated segments is [..]; the frame it queues carries that root, for
    the session of the agent asked for. *)
Theorem diagnostics_root_is_confined a j root g g' r op :
  diagnostics a j root g = Ok (g', r, op) →
  startswith "/" root = false ∧ String.length root ≤ 256 ∧ root ≠ ""%string ∧
  contains "\" root = false ∧ (".."%string ∉ split_on "/" root) ∧
  ∃ sid, gw_sessions g !! a = Some sid ∧ op = PutOut sid (CDiagnostics j root) ∧
    gw_jobs g' = gw_jobs g ++ [(j, r)] ∧
    gw_job_objs g' !! r = Some (mkJob a "diagnostic" [] 1 false).
Proof.
  intros H. assert (Hopen := diagnostics_open _ _ _ _ _ _ _ H).
  unfold diagnostics in H. destruct (validate_release_root root) as [[]|] eqn:E; [|discriminate H].
  clear H. unfold validate_release_root, raise_if in E.
  destruct (_ || _ || _) eqn:E1 in E; [discriminate E|]. cbn [mbind result_bind] in E.
  destruct (_ || _) eqn:E2 in E; [discriminate E|].
  apply orb_false_iff in E1 as [[Hne%String.eqb_neq Hlen%Nat.ltb_ge]%orb_false_iff Hb].
  apply orb_false_iff in E2 as [Hs Hdd]. unfold path_is_absolute in Hs.
  split_and!; try done.
  - intros Hin. assert (str_in ".." (path_parts root) = true); [|congruence].
    apply str_in_spec. unfold path_parts, path_is_absolute. rewrite Hs. cbn.
    unfold path_segments. by apply list_elem_of_filter.
  - destruct Hopen as (sid & Ho & ->). exists sid.
    apply open_job_inv in Ho as (_ & Hn & _ & Hsid & _ & -> & ->). cbn.
    rewrite dict_set_fresh by done. by rewrite lookup_insert_eq.
Qed.

Definition demo_ready : AgentGateway :=
  sys_gw (run_state [AConnect 0 (Some demo_hello); AStart 0] demo_start).

Lemma diagnostics_root_is_confined_witness :
  startswith "/" "releases/current" = false ∧ String.length "releases/current" ≤ 256 ∧
  "releases/current"%string ≠ ""%string ∧
  contains "\" "releases/current" = false ∧ (".."%string ∉ split_on "/" "releases/current") ∧
  ∃ sid, gw_sessions demo_ready !! "edge"%string = Some sid ∧
    PutOut 0 (CDiagnostics "job-1" "releases/current") =
      PutOut sid (CDiagnostics "job-1" "releases/current") ∧
    gw_jobs (set_jobs [("job-1"%string, 1)] (alloc_job (mkJob "edge" "diagnostic" [] 1 false) demo_ready)) =
      gw_jobs demo_ready ++ [("job-1"%string, 1)] ∧
    gw_job_objs (set_jobs [("job-1"%string, 1)] (alloc_job (mkJob "edge" "diagnostic" [] 1 false) demo_ready)) !! 1 =
      Some (mkJob "edge" "diagnostic" [] 1 false).
Proof.
  apply (diagnostics_root_is_confined "edge" "job-1" "releases/current" demo_ready).
  by vm_compute.
Defined.

(** Job ids are not replayed: once a stream has ended, a diagnostics request
    with its id is refused as long as the id is among the last completed ones,
    while a Kubernetes release may reuse it whenever the session has the
    capability and room. *)
Theorem completed_ids_are_refused j g :
  j ∈ gw_completed_jobs g →
  (∀ a root, is_ok (diagnostics a j root g) = false) ∧
  (∀ a q sid se, kq_job_id q = j → fullmatch ID_RE j = true →
     dict_get (gw_jobs g) j = None → gw_sessions g !! a = Some sid →
     gw_session_objs g !! sid = Some se → KUBERNETES_CAPABILITY ∈ as_capabilities se →
     inflight a g < gw_max_inflight_per_agent g →
     ∃ g' r, kubernetes_release a q g = Ok (g', r, Some (PutOut sid (CKubernetesRelease q)))).
Proof.
  intros Hin. split.
  - intros a root. destruct (diagnostics a j root g) as [[[g' r] op]|] eqn:E; [|done].
    apply diagnostics_open in E as (sid & E & _).
    apply open_job_inv in E as (_ & _ & Hre & _). by specialize (Hre Hin).
  - intros a q sid se <- Hid Hn Hs Hse Hcap Hroom. unfold kubernetes_release, open_job.
    unfold validate_job_id, require. rewrite Hid. cbn.
    assert (dict_has (gw_jobs g) (kq_job_id q) = false) as ->.
    { unfold dict_has. apply bool_decide_eq_false. by apply dict_get_None. }
    cbn. rewrite andb_false_r, Hs. cbn.
    assert ((gw_max_inflight_per_agent g <=? inflight a g) = false) as ->
      by (apply Nat.leb_gt; lia).
    cbn. rewrite Hse. cbn. apply str_in_spec in Hcap. rewrite Hcap. eauto.
Qed.

Lemma completed_ids_are_refused_witness :
  let g := sys_gw (run_state demo_job demo_start) in
  (∀ a root, is_ok (diagnostics a "job-1" root g) = false) ∧
  (∀ a q sid se, kq_job_id q = "job-1"%string → fullmatch ID_RE "job-1" = true →
     dict_get (gw_jobs g) "job-1" = None → gw_sessions g !! a = Some sid →
     gw_session_objs g !! sid = Some se → KUBERNETES_CAPABILITY ∈ as_capabilities se →
     inflight a g < gw_max_inflight_per_agent g →
     ∃ g' r, kubernetes_release a q g = Ok (g', r, Some (PutOut sid (CKubernetesRelease q)))).
Proof.
  intros g. apply (completed_ids_are_refused "job-1" g).
  refine (proj1 (bool_decide_eq_true (_ ∈ _)) _). by vm_compute.
Defined.

(** A release of an agent without the capability leaves no trace once its job is
    removed again: the job table, the sessions, the completed ids and the agents'
    capacity are what they were. *)
Theorem refused_release_rolls_back a q g g1 r :
  jobs_wf g → kubernetes_release a q g = Ok (g1, r, None) →
  let g' := (withdraw_job (kq_job_id q) g1).1 in
  gw_jobs g' = gw_jobs g ∧ gw_sessions g' = gw_sessions g ∧
  gw_completed_order g' = gw_completed_order g ∧ gw_session_objs g' = gw_session_objs g ∧
  ∀ x, inflight x g' = inflight x g.
Proof.
  intros Hwf (sid & E & _)%kubernetes_release_open g'. subst g'.
  apply open_job_inv in E as (_ & Hn & _ & _ & _ & -> & ->). unfold withdraw_job. cbn [fst].
  set (g1 := set_jobs _ _).
  assert (Hj : gw_jobs g1 = gw_jobs g).
  { subst g1. cbn. by rewrite dict_set_fresh, dict_pop_snoc. }
  split_and!; try done. intros x. apply inflight_ext; [exact Hj|]. subst g1.
  intros j r Hin. unfold agent_at. cbn. rewrite lookup_insert_ne; [done|].
  intros <-. destruct (jw_objs _ Hwf _ _ Hin) as [? Hs].
  rewrite (jw_fresh _ Hwf) in Hs; done.
Qed.

Definition demo_release : KubernetesReleaseRequest :=
  KRequest "r1" "ns" "app" "chart" "img" "{}" "" 300 300 "automatic" "release" 0.

Definition demo_withdrawn : AgentGateway * ref :=
  match kubernetes_release "edge" demo_release demo_ready with
  | Ok (g, r, _) => (g, r)
  | Err _ => (demo_ready, 0)
  end.

Lemma refused_release_rolls_back_witness :
  let g' := (withdraw_job "r1" demo_withdrawn.1).1 in
  gw_jobs g' = gw_jobs demo_ready ∧ gw_sessions g' = gw_sessions demo_ready ∧
  gw_completed_order g' = gw_completed_order demo_ready ∧
  gw_session_objs g' = gw_session_objs demo_ready ∧
  ∀ x, inflight x g' = inflight x demo_ready.
Proof.
  apply (refused_release_rolls_back "edge" demo_release demo_ready demo_withdrawn.1 demo_withdrawn.2).
  - apply (gi_jobs demo_tokens (Z.to_nat 2) (Z.to_nat 1)), gw_inv_reachable, demo_reachable.
    by vm_compute.
  - by vm_compute.
Defined.

(** * Cancellations *)

(** C14: an accepted cancellation is not forgotten: once [cancel] has answered
    [True] for a job, in every later state the cancel frame has been sent on a
    session of the job's agent, or is in such a session's outgoing queue, or the
    caller still waits to put it there, provided no caller of [cancel] gives up
    while it waits. *)
Theorem accepted_cancellations_are_told tokens mc mi s0 tr1 s1 j s2 tr2 s3 :
  sys_start tokens mc mi s0 → exec sys_step s0 tr1 s1 → sys_step s1 (ACancel j, [OAnswer true]) s2 →
  exec sys_step s2 tr2 s3 → Forall no_drop tr1 → Forall no_drop tr2 →
  ∃ r st sid se,
    dict_get (gw_jobs (sys_gw s1)) j = Some r ∧ gw_job_objs (sys_gw s1) !! r = Some st ∧
    gw_session_objs (sys_gw s3) !! sid = Some se ∧ as_agent_id se = js_agent_id st ∧
    (PutOut sid (CCancel j) ∈ sys_cancels s3 ∨ Some (CCancel j) ∈ as_outgoing se ∨
     ∃ a, (a, [OSent sid (CCancel j)]) ∈ tr1 ++ tr2).
Proof.
  intros Hs0 Hex1 Hstep Hex2 Hd1 Hd2. destruct (marked_run _ _ _ _ _ _ Hs0 Hex1 Hd1) as [_ Hm].
  assert (Hlive1 : live_system tokens mc mi s1) by (by exists s0, tr1).
  assert (Hlive2 : live_system tokens mc mi s2) by (by eapply reachable_step).
  destruct (told_at_call _ _ _ _ _ _ _ (gw_inv_reachable _ _ _ _ Hlive1) Hm Hstep) as (r & st & Hr & Hst & Ht).
  destruct (told_run _ _ _ _ _ _ _ _ _ Hlive2 Hex2 Hd2 Ht) as (sid & se & Hse & Ha & Hw).
  exists r, st, sid, se. split_and!; [done..|].
  destruct Hw as [?|[?|[a Hin]]]; auto. right. right. exists a.
  rewrite <- app_assoc, elem_of_app in Hin. apply elem_of_app.
  destruct Hin as [?|Hin]; [by left|right]. cbn in Hin. by apply elem_of_cons in Hin as [[=]|?].
Qed.

Lemma accepted_cancellations_are_told_witness :
  let s1 := run_state demo_open demo_start in
  let s2 := run_state (demo_open ++ [ACancel "job-1"]) demo_start in
  let s3 := run_state (demo_open ++ [ACancel "job-1"; ACancelPut 0; ASend 0]) demo_start in
  ∃ r st sid se,
    dict_get (gw_jobs (sys_gw s1)) "job-1" = Some r ∧ gw_job_objs (sys_gw s1) !! r = Some st ∧
    gw_session_objs (sys_gw s3) !! sid = Some se ∧ as_agent_id se = js_agent_id st ∧
    (PutOut sid (CCancel "job-1") ∈ sys_cancels s3 ∨ Some (CCancel "job-1") ∈ as_outgoing se ∨
     ∃ a, (a, [OSent sid (CCancel "job-1")]) ∈
       run_trace demo_open demo_start ++ run_trace [ACancelPut 0; ASend 0] s2).
Proof.
  intros s1 s2 s3.
  apply (accepted_cancellations_are_told demo_tokens 2 1 demo_start _ s1 "job-1" s2 _ s3).
  - apply demo_started.
  - apply demo_run. by vm_compute.
  - by vm_compute.
  - assert (E : s3 = run_state [ACancelPut 0; ASend 0] s2) by by vm_compute.
    rewrite E. apply run_exec. apply (bool_decide_eq_true_1 _). by vm_compute.
  - apply (bool_decide_eq_true_1 (Forall (λ l, is_drop l.1 = false) _)). by vm_compute.
  - apply (bool_decide_eq_true_1 (Forall (λ l, is_drop l.1 = false) _)). by vm_compute.
Defined.
