(* ===== verification/Store.v ===== *)
(** Database tables behind the Django ORM, and the threads that use them.

    The ORM is third-party code: [Table] states what the sources rely on (a
    query set's [create], [get], [filter(...).update(...)], [delete] and ordered
    iteration act on one table atomically), and the services are defined and
    proved against it.  [gtable] is one implementation that satisfies it, which
    the concrete runs use.

    A request or background task is a [thread]: between two of its database
    statements any other thread may run.  [pool_step] interleaves a pool of
    threads over one table; [guarded] is what a thread must satisfy for a
    property of the table to survive every interleaving. *)

From stdpp Require Import sorting.
From S2P Require Import Prelude.

Open Scope list_scope.
Open Scope nat_scope.

Definition pk := nat.

(** * Tables *)

(** [tb_select p key t]: [objects.filter(p).order_by("-key")], primary keys only;
    rows with equal keys may come in any order. *)
Class Table (Row T : Type) := {
  tb_get : T → pk → option Row;
  tb_create : Row → T → T * pk;
  tb_update : (pk → Row → bool) → (Row → Row) → T → T;
  tb_delete : list pk → T → T;
  tb_select : (pk → Row → bool) → (Row → Z) → T → list pk
}.
#[export] Hint Mode Table - ! : typeclass_instances.

Definition key_of {Row T} `{Table Row T} (key : Row → Z) (t : T) (k : pk) : Z :=
  from_option key 0%Z (tb_get t k).

Class TableLaws (Row T : Type) `{Table Row T} := {
  tb_create_fresh (r : Row) (t : T) : tb_get t (tb_create r t).2 = None;
  tb_get_create (r : Row) (t : T) k :
    tb_get (tb_create r t).1 k = if decide (k = (tb_create r t).2) then Some r else tb_get t k;
  tb_get_update (p : pk → Row → bool) f (t : T) k :
    tb_get (tb_update p f t) k = (λ r, if p k r then f r else r) <$> tb_get t k;
  tb_get_delete ks (t : T) k :
    tb_get (tb_delete ks t) k = if decide (k ∈ ks) then None else tb_get t k;
  tb_select_elem (p : pk → Row → bool) key (t : T) k :
    k ∈ tb_select p key t ↔ ∃ r, tb_get t k = Some r ∧ p k r = true;
  tb_select_nodup (p : pk → Row → bool) key (t : T) : NoDup (tb_select p key t);
  tb_select_sorted (p : pk → Row → bool) key (t : T) :
    StronglySorted (λ k k', key_of key t k' ≤ key_of key t k)%Z (tb_select p key t)
}.

(** ** A finite-map implementation *)

Record gtable (Row : Type) := GTable { gt_next : pk; gt_rows : gmap pk Row }.
Arguments GTable {Row} _ _.
Arguments gt_next {Row} _.
Arguments gt_rows {Row} _.

Definition gt_order {Row} (key : Row → Z) (x y : pk * Row) : Prop := (key y.2 ≤ key x.2)%Z.

#[export] Instance gt_order_dec {Row} key (x y : pk * Row) : Decision (gt_order key x y).
Proof. unfold gt_order. apply _. Defined.

(** A primary key larger than every one in use. *)
Definition gt_top {Row} (t : gtable Row) : pk :=
  S (foldr Nat.max 0 (map_to_list (gt_rows t)).*1).

#[export] Instance gtable_table {Row} : Table Row (gtable Row) := {
  tb_get t k := gt_rows t !! k;
  tb_create r t :=
    let k := gt_next t `max` gt_top t in
    (GTable (S k) (<[k := r]> (gt_rows t)), k);
  tb_update p f t := GTable (gt_next t) (map_imap (λ k r, Some (if p k r then f r else r)) (gt_rows t));
  tb_delete ks t := GTable (gt_next t) (filter (λ kr, kr.1 ∉ ks) (gt_rows t));
  tb_select p key t :=
    (merge_sort (gt_order key) (filter (λ kr, p kr.1 kr.2 = true) (map_to_list (gt_rows t)))).*1
}.

Lemma gt_top_fresh {Row} (t : gtable Row) k : gt_top t ≤ k → gt_rows t !! k = None.
Proof.
  intros Hk. destruct (gt_rows t !! k) as [r|] eqn:E; [|done]. exfalso.
  apply elem_of_map_to_list in E.
  assert (Hin : k ∈ (map_to_list (gt_rows t)).*1) by (apply list_elem_of_fmap; by exists (k, r)).
  assert (k ≤ foldr Nat.max 0 (map_to_list (gt_rows t)).*1); [|unfold gt_top in Hk; lia].
  clear Hk E. induction Hin; cbn; lia.
Qed.

Lemma sorted_fmap_fst {Row} (t : gtable Row) (key : Row → Z) l :
  (∀ k r, (k, r) ∈ l → gt_rows t !! k = Some r) →
  StronglySorted (gt_order key) l →
  StronglySorted (λ k k', key_of key t k' ≤ key_of key t k)%Z l.*1.
Proof.
  intros Hl Hs. induction Hs as [|[k r] l Hs IH Hall]; [constructor|]. rewrite fmap_cons.
  constructor.
  - apply IH. intros. apply Hl. by apply list_elem_of_further.
  - apply Forall_forall. intros k' ([k1 r'] & -> & Hin)%list_elem_of_fmap. cbn.
    rewrite Forall_forall in Hall. specialize (Hall _ Hin). unfold gt_order in Hall. cbn in Hall.
    unfold key_of. cbn. rewrite (Hl k r) by apply list_elem_of_here.
    rewrite (Hl k1 r') by (by apply list_elem_of_further). done.
Qed.

#[export] Instance gtable_laws {Row} : TableLaws Row (gtable Row).
Proof.
  split.
  - intros r t. cbn. apply gt_top_fresh. lia.
  - intros r t k. cbn. rewrite lookup_insert. repeat case_decide; congruence.
  - intros p f t k. cbn. rewrite map_lookup_imap. by destruct (gt_rows t !! k).
  - intros ks t k. cbn. rewrite map_lookup_filter.
    destruct (gt_rows t !! k) as [r|]; cbn; [|by case_decide].
    case_guard; case_decide; try done. 
  - intros p key t k. cbn. rewrite list_elem_of_fmap. split.
    + intros ([k' r] & -> & Hin). rewrite merge_sort_Permutation in Hin.
      apply list_elem_of_filter in Hin as [Hp Hin]. exists r.
      split; [by apply elem_of_map_to_list|done].
    + intros (r & Hr & Hp). exists (k, r). split; [done|].
      rewrite merge_sort_Permutation. apply list_elem_of_filter.
      split; [done|by apply elem_of_map_to_list].
  - intros p key t. cbn. rewrite merge_sort_Permutation.
    eapply sublist_NoDup; [apply (NoDup_fst_map_to_list (gt_rows t))|].
    apply fmap_sublist, sublist_filter.
  - intros p key t. cbn. apply (sorted_fmap_fst t).
    + intros k r Hin. rewrite merge_sort_Permutation in Hin.
      apply list_elem_of_filter in Hin as [_ Hin]. by apply elem_of_map_to_list.
    + apply StronglySorted_merge_sort.
      * intros ???. unfold gt_order. lia.
      * intros ??. unfold gt_order. lia.
Qed.

(** * Threads *)

(** A thread over a table of type [T]: finished with a value, or about to run
    the statement [w], after which it continues with [k], which may depend on the
    table the statement saw. *)
Inductive thread (T A : Type) :=
| Return (a : A)
| Stmt (w : T → T) (k : T → thread T A).
Arguments Return {T A} _.
Arguments Stmt {T A} _ _.

(** The thread alone: no other thread runs in between. *)
Fixpoint run_thread {T A} (th : thread T A) (t : T) : T * A :=
  match th with
  | Return a => (t, a)
  | Stmt w k => run_thread (k t) (w t)
  end.

(** The same thread, its value passed through [f]. *)
Fixpoint thread_map {T A B} (f : A → B) (th : thread T A) : thread T B :=
  match th with
  | Return a => Return (f a)
  | Stmt w k => Stmt w (λ t, thread_map f (k t))
  end.

(** One thread after the other. *)
Fixpoint thread_bind {T A B} (th : thread T A) (f : A → thread T B) : thread T B :=
  match th with
  | Return a => f a
  | Stmt w k => Stmt w (λ t, thread_bind (k t) f)
  end.

(** A thread of a pool where only the effects matter. *)
Definition forget {T A} : thread T A → thread T () := thread_map (λ _, ()).

(** A statement that only reads. *)
Definition read_then {T A} (k : T → thread T A) : thread T A := Stmt (λ t, t) k.

Section pool.
Context {T A : Type}.
Implicit Types (th : thread T A) (ths : list (thread T A)) (t : T).

(** One statement of thread [i]. *)
Definition pool_run (i : nat) (s : T * list (thread T A)) : option (T * list (thread T A)) :=
  match s.2 !! i with
  | Some (Stmt w k) => Some (w s.1, <[i := k s.1]> s.2)
  | _ => None
  end.

Definition pool_step (s : T * list (thread T A)) (i : nat) (s' : T * list (thread T A)) : Prop :=
  pool_run i s = Some s'.

(** A schedule, for concrete interleavings. *)
Fixpoint pool_exec (sched : list nat) (s : T * list (thread T A)) : option (T * list (thread T A)) :=
  match sched with
  | [] => Some s
  | i :: sched => s1 ← pool_run i s; pool_exec sched s1
  end.

Lemma pool_exec_exec sched s s' : pool_exec sched s = Some s' → exec pool_step s sched s'.
Proof.
  revert s. induction sched as [|i sched IH]; intros s; cbn.
  - intros [= <-]. constructor.
  - intros (s1 & Hs & Hr)%bind_Some. econstructor; [exact Hs|auto].
Qed.

Lemma pool_exec_some sched s :
  match pool_exec sched s with Some _ => true | None => false end = true →
  ∃ t ths, pool_exec sched s = Some (t, ths) ∧ exec pool_step s sched (t, ths).
Proof.
  destruct (pool_exec sched s) as [[t ths]|] eqn:E; [|done]. intros _. exists t, ths.
  split; [done|]. by apply pool_exec_exec.
Qed.

(** [guarded R th]: every statement of [th], run in any table, relates the table
    before and after by [R]. *)
Inductive guarded (R : T → T → Prop) : thread T A → Prop :=
| guarded_return a : guarded R (Return a)
| guarded_stmt w k : (∀ t, R t (w t)) → (∀ t, guarded R (k t)) → guarded R (Stmt w k).

Lemma guarded_read R k : (∀ t, R t t) → (∀ t, guarded R (k t)) → guarded R (read_then k).
Proof. intros. by constructor. Qed.

Lemma pool_step_guarded R s i s' :
  pool_step s i s' → Forall (guarded R) s.2 → R s.1 s'.1 ∧ Forall (guarded R) s'.2.
Proof.
  unfold pool_step, pool_run. intros H Hg.
  destruct (s.2 !! i) as [[a|w k]|] eqn:E; try discriminate H. injection H as <-. cbn.
  assert (Hi : guarded R (Stmt w k)) by (by eapply Forall_lookup_1).
  inversion Hi; subst. split; [done|]. by apply Forall_insert.
Qed.

(** A property of tables lasts until a step ends it. *)
Lemma pool_run_until (R : T → T → Prop) (P Q : T → Prop) s tr s' :
  (∀ t t', R t t' → P t → P t' ∨ Q t') →
  exec pool_step s tr s' → Forall (guarded R) s.2 → P s.1 →
  P s'.1 ∨ ∃ tr1 s1 tr2, exec pool_step s tr1 s1 ∧ exec pool_step s1 tr2 s' ∧ Q s1.1.
Proof.
  intros HR. induction 1 as [|s i s1 tr s2 Hstep Hex IH]; intros Hg HP; [by left|].
  destruct (pool_step_guarded _ _ _ _ Hstep Hg) as [Hr Hg1].
  destruct (HR _ _ Hr HP) as [HP1|HQ].
  - destruct (IH Hg1 HP1) as [|(tr1 & s3 & tr2 & Hex1 & Hex2 & HQ)]; [by left|].
    right. exists (i :: tr1), s3, tr2. split_and!; [by econstructor|done|done].
  - right. exists [i], s1, tr. split_and!; [by apply exec_one|done|done].
Qed.

(** Whatever the schedule, the tables of a run are related step by step. *)
Lemma pool_run_guarded R s tr s' :
  exec pool_step s tr s' → Forall (guarded R) s.2 → rtc R s.1 s'.1.
Proof.
  induction 1 as [|s i s1 tr s2 Hstep _ IH]; intros Hg; [apply rtc_refl|].
  destruct (pool_step_guarded _ _ _ _ Hstep Hg). eapply rtc_l; eauto.
Qed.

(** A property of tables that every statement preserves survives the run. *)
Lemma pool_run_preserves (P : T → Prop) s tr s' :
  exec pool_step s tr s' → Forall (guarded (λ t t', P t → P t')) s.2 → P s.1 → P s'.1.
Proof.
  intros Hex Hg. induction (pool_run_guarded _ _ _ _ Hex Hg); auto.
Qed.

(** [maintains P th]: the statements of [th] preserve [P], what they read coming
    from tables that satisfy it. *)
Inductive maintains (P : T → Prop) : thread T A → Prop :=
| maintains_return a : maintains P (Return a)
| maintains_stmt w k :
    (∀ t, P t → P (w t)) → (∀ t, P t → maintains P (k t)) → maintains P (Stmt w k).

Lemma guarded_maintains (P : T → Prop) th : guarded (λ t t', P t → P t') th → maintains P th.
Proof. induction 1; constructor; auto. Qed.

Lemma maintains_read (P : T → Prop) k : (∀ t, P t → maintains P (k t)) → maintains P (read_then k).
Proof. intros. by constructor. Qed.

Lemma pool_run_maintains (P : T → Prop) s tr s' :
  exec pool_step s tr s' → Forall (maintains P) s.2 → P s.1 → P s'.1.
Proof.
  induction 1 as [|s i s1 tr s2 Hstep _ IH]; intros Hm Hp; [done|].
  unfold pool_step, pool_run in Hstep.
  destruct (s.2 !! i) as [[a|w k]|] eqn:E; try discriminate Hstep. injection Hstep as <-.
  assert (Hi : maintains P (Stmt w k)) by (by eapply Forall_lookup_1).
  inversion Hi; subst. apply IH; cbn; [|auto]. apply Forall_insert; auto.
Qed.

Lemma run_thread_guarded R th t : guarded R th → rtc R t (run_thread th t).1.
Proof.
  revert t. induction th as [a|w k IH]; intros t Hg; cbn; [apply rtc_refl|].
  inversion Hg; subst. eapply rtc_l; eauto.
Qed.

(** A thread run alone is one schedule of the pool that holds it. *)
Lemma run_thread_pool th t :
  ∃ tr a, exec pool_step (t, [th]) tr ((run_thread th t).1, [Return a]) ∧
    (run_thread th t).2 = a.
Proof.
  revert t. induction th as [a|w k IH]; intros t; cbn.
  - exists [], a. split; [constructor|done].
  - destruct (IH t (w t)) as (tr & a & Hex & Ha). exists (0 :: tr), a.
    split; [|done]. econstructor; [|exact Hex]. done.
Qed.
End pool.

Lemma guarded_map {T A B} R (f : A → B) (th : thread T A) :
  guarded R th → guarded R (thread_map f th).
Proof. induction 1; constructor; auto. Qed.

Lemma maintains_map {T A B} (P : T → Prop) (f : A → B) (th : thread T A) :
  maintains P th → maintains P (thread_map f th).
Proof. induction 1; constructor; auto. Qed.

(** The value of a thread, passed through a function. *)
Lemma run_thread_map {T A B} (f : A → B) (th : thread T A) t :
  run_thread (thread_map f th) t = ((run_thread th t).1, f (run_thread th t).2).
Proof. revert t. induction th as [a|w k IH]; intros t; cbn; [done|]. apply IH. Qed.

Lemma run_thread_bind {T A B} (th : thread T A) (f : A → thread T B) t :
  run_thread (thread_bind th f) t = run_thread (f (run_thread th t).2) (run_thread th t).1.
Proof. revert t. induction th as [a|w k IH]; intros t; cbn; [done|]. apply IH. Qed.

Lemma maintains_run {T A} (P : T → Prop) (th : thread T A) t :
  maintains P th → P t → P (run_thread th t).1.
Proof. intros Hm. revert t. induction Hm as [a|w k Hw _ IH]; intros t Ht; cbn; auto. Qed.

Lemma guarded_mono {T A} (R R' : T → T → Prop) (th : thread T A) :
  (∀ t t', R t t' → R' t t') → guarded R th → guarded R' th.
Proof. intros HR. induction 1; constructor; auto. Qed.

(** A relation that preserves a property of tables preserves it along chains. *)
Lemma rtc_preserves {T} (R : T → T → Prop) (P : T → Prop) t t' :
  (∀ t t', R t t' → P t → P t') → rtc R t t' → P t → P t'.
Proof. intros HR. induction 1; eauto. Qed.
