(* ===== verification/Redaction.v ===== *)
(** Redaction by substitution: when a pattern is a head followed by one or more
    characters of a class, replacing its matches by a mark leaves no match.

    The redactors of [controlplane/services.py] and [controlplane/telemetry.py]
    both have this shape: a key word, [=] or [:], and a value. *)

From S2P Require Import Prelude Text Regex.

Open Scope list_scope.
Open Scope nat_scope.

Section redaction.
Variables (head : re) (value : ascii → bool) (m0 : ascii) (mark : text).
Abbreviation pattern := (Seq head (Plus (Cls value))).

(** [s] begins with a match. *)
Definition starts (s : text) : Prop :=
  ∃ h n q, s = h ++ n :: q ∧ lang head h ∧ value n = true.

Hypothesis head_no_mark : ∀ h, lang head h → m0 ∉ h.
Hypothesis head_first : ∀ h, lang head h → ∃ a h', h = a :: h' ∧ value a = true.
Hypothesis mark_inert : ∀ x suf, suf ≠ [] → (∃ p, m0 :: mark = p ++ suf) → ¬ starts (suf ++ x).

Lemma pattern_results_starts s : results pattern s ≠ [] ↔ starts s.
Proof using.
  split.
  - intros Hne. destruct (results pattern s) as [|rest l] eqn:E; [done|].
    assert (Hin : rest ∈ results pattern s) by (rewrite E; apply list_elem_of_here).
    apply results_spec in Hin as (p & -> & h & v & -> & Hh & (ss & -> & Hall & Hlen & _)).
    destruct Hall as [|w ss (n & -> & Hn) _]; [cbn in Hlen; lia|].
    exists h, n, (concat ss ++ rest). cbn. by rewrite <- !app_assoc.
  - intros (h & n & q & -> & Hh & Hn) E.
    assert (Hin : q ∈ results pattern (h ++ n :: q)); [|by rewrite E in Hin; apply elem_of_nil in Hin].
    apply results_spec. exists (h ++ [n]). split; [by rewrite <- app_assoc|].
    exists h, [n]. split_and!; [done|done|]. exists [[n]]. split_and!; [done| |done|done].
    constructor; [by exists n|constructor].
Qed.

(** A match begins with a character of the value class and consumes it. *)
Lemma pattern_result_shorter s rest :
  rest ∈ results pattern s →
  length rest < length s ∧ ∃ a s', s = a :: s' ∧ value a = true.
Proof using head_first.
  intros (p & -> & h & v & -> & Hh & _)%results_spec.
  destruct (head_first _ Hh) as (a & h' & -> & Ha). cbn. rewrite !length_app. split; [lia|].
  by exists a, ((h' ++ v) ++ rest).
Qed.

(** What the output starts with: the text up to the first match, then either the
    end or the mark, where the text has a value character. *)
Definition agree (s out : text) : Prop :=
  out = s ∨ ∃ u x a q, out = u ++ m0 :: x ∧ s = u ++ a :: q ∧ value a = true.

Lemma agree_cons c s out : agree s out → agree (c :: s) (c :: out).
Proof using.
  intros [->|(u & x & a & q & -> & -> & Ha)]; [by left|]. right.
  by exists (c :: u), x, a, q.
Qed.

Lemma starts_agree s out : agree s out → starts out → starts s.
Proof using head_no_mark.
  clear mark_inert head_first.
  intros [->|(u & x & a & q & -> & -> & Ha)]; [done|].
  intros (h & n & z & Heq & Hh & Hn). pose proof (head_no_mark _ Hh) as Hm.
  assert (Hsplit : (∃ z', u = h ++ n :: z') ∨ u = h).
  { clear Hh. revert u Heq. induction h as [|b h IH]; intros u Heq; destruct u as [|b' u]; cbn in Heq.
    - by right.
    - simplify_eq. left. by exists u.
    - simplify_eq. exfalso. apply Hm, list_elem_of_here.
    - injection Heq as -> Heq. apply not_elem_of_cons in Hm as [_ Hm]. destruct (IH Hm u Heq) as [[z' ->]| ->].
      + left. by exists z'.
      + by right. }
  destruct Hsplit as [[z' ->]| ->].
  - exists h, n, (z' ++ a :: q). by rewrite <- app_assoc.
  - by exists h, a, q.
Qed.

Definition clean (s : text) : Prop := ∀ p s', s = p ++ s' → ¬ starts s'.

Lemma not_starts_nil : ¬ starts [].
Proof using. intros (h & n & q & H & _). by destruct h. Qed.

Lemma clean_cons c s : ¬ starts (c :: s) → clean s → clean (c :: s).
Proof using. intros Hc Hs [|b p] s' Heq; cbn in Heq; simplify_eq; [done|by eapply Hs]. Qed.

Lemma clean_mark s : clean s → clean ((m0 :: mark) ++ s).
Proof using mark_inert.
  intros Hs.
  assert (Hsuf : ∀ suf : text, (∃ p : text, m0 :: mark = p ++ suf) → clean (suf ++ s)).
  { induction suf as [|b suf IH]; intros [p Hp]; [done|]. cbn. apply clean_cons.
    - apply (mark_inert s (b :: suf)); [done|by exists p].
    - apply IH. exists (p ++ [b]). by rewrite <- app_assoc. }
  apply Hsuf. by exists [].
Qed.

Lemma sub_clean fuel s :
  length s < fuel →
  agree s (sub_text fuel pattern (m0 :: mark) s) ∧ clean (sub_text fuel pattern (m0 :: mark) s).
Proof using head_no_mark head_first mark_inert.
  revert s. induction fuel as [|fuel IH]; intros s Hlen; [lia|]. cbn [sub_text].
  destruct s as [|c s].
  { split; [by left|]. intros p s' Heq. destruct p, s'; try done. apply not_starts_nil. }
  cbn in Hlen. destruct (results pattern (c :: s)) as [|rest l] eqn:E.
  - destruct (IH s) as [Ha Hc]; [lia|]. split; [by apply agree_cons|].
    apply clean_cons; [|done]. intros Hst%(starts_agree (c :: s)); [|by apply agree_cons].
    by apply pattern_results_starts in Hst.
  - destruct (pattern_result_shorter (c :: s) rest) as (Hlt & a & s' & Heq & Ha).
    { rewrite E. apply list_elem_of_here. }
    rewrite (proj2 (Nat.ltb_lt _ _) Hlt). destruct (IH rest) as [_ Hc]; [cbn in Hlt; lia|].
    split; [|by apply clean_mark]. right. simplify_eq. by eexists [], _, _, _.
Qed.

Lemma clean_take n s : clean s → clean (take n s).
Proof using.
  intros Hs p s' Heq (h & m & q & -> & Hh & Hm).
  apply (Hs p (h ++ m :: q ++ drop n s)).
  - rewrite <- (take_drop n s) at 1. rewrite Heq. by rewrite <- !app_assoc.
  - by exists h, m, (q ++ drop n s).
Qed.

Lemma clean_search s : clean s → search_text pattern s = false.
Proof using.
  induction s as [|c s IH]; intros Hs; cbn [search_text].
  - destruct (results pattern []) eqn:E; [done|]. exfalso. apply not_starts_nil.
    apply pattern_results_starts. by rewrite E.
  - destruct (results pattern (c :: s)) eqn:E.
    + apply IH. intros p s' ->. by apply (Hs (c :: p)).
    + exfalso. eapply (Hs []); [done|]. apply pattern_results_starts. by rewrite E.
Qed.
End redaction.

Lemma str_take_list n s :
  String.list_ascii_of_string (str_take n s) = take n (String.list_ascii_of_string s).
Proof.
  revert s. induction n as [|n IH]; intros [|c s]; [done..|].
  change (c :: String.list_ascii_of_string (str_take n s) = c :: take n (String.list_ascii_of_string s)).
  by rewrite IH.
Qed.

(** [P.sub(mark, s)[:n]] contains no match of [P]. *)
Lemma sub_take_clean head value m0 mark n s :
  (∀ h, lang head h → m0 ∉ h) →
  (∀ h, lang head h → ∃ a h', h = a :: h' ∧ value a = true) →
  (∀ x suf, suf ≠ [] →
     (∃ p, m0 :: String.list_ascii_of_string mark = p ++ suf) → ¬ starts head value (suf ++ x)) →
  search (Seq head (Plus (Cls value)))
    (str_take n (sub (Seq head (Plus (Cls value))) (String m0 mark) s)) = false.
Proof.
  intros H1 H2 H3. unfold search, sub. rewrite str_take_list, String.list_ascii_of_string_of_list_ascii.
  apply clean_search, clean_take.
  eapply (sub_clean head value m0 _ H1 H2 H3). lia.
Qed.

(** * Checking the side conditions of a pattern *)

(** Whether [c] may occur in a word of the language. *)
Fixpoint may_contain (r : re) (c : ascii) : bool :=
  match r with
  | Eps => false
  | Cls p => p c
  | Seq r1 r2 | Alt r1 r2 => may_contain r1 c || may_contain r2 c
  | Rep r _ _ => may_contain r c
  end.

Lemma may_contain_lang r s c : lang r s → c ∈ s → may_contain r c = true.
Proof.
  revert s. induction r as [|p|r1 IH1 r2 IH2|r1 IH1 r2 IH2|r IH lo hi]; cbn; intros s.
  - by intros -> ?%elem_of_nil.
  - by intros (d & -> & Hd) ->%list_elem_of_singleton.
  - intros (s1 & s2 & -> & H1 & H2) [H|H]%elem_of_app; apply orb_true_iff; eauto.
  - intros [H|H] Hc; apply orb_true_iff; eauto.
  - intros (ss & -> & Hall & _) Hc. rewrite Forall_forall in Hall.
    induction ss as [|w ss IHs]; [by apply elem_of_nil in Hc|]. cbn in Hc.
    apply elem_of_app in Hc as [Hc|Hc].
    + eapply IH; [apply Hall, list_elem_of_here|done].
    + apply IHs; [|done]. intros. by apply Hall, list_elem_of_further.
Qed.

Lemma lang_ilit w h :
  lang (ILit w) h → lower_char <$> h = lower_char <$> String.list_ascii_of_string w.
Proof.
  revert h. induction w as [|c w IH]; cbn; intros h; [by intros ->|].
  intros (s1 & s2 & -> & (d & -> & Hd) & H2). apply Ascii.eqb_eq in Hd.
  cbn. by rewrite Hd, (IH _ H2).
Qed.

Lemma lang_lit w h : lang (Lit w) h → h = String.list_ascii_of_string w.
Proof.
  revert h. induction w as [|c w IH]; cbn [Lit lang]; intros h; [done|].
  intros (s1 & s2 & -> & (d & -> & ->%Ascii.eqb_eq) & H2). cbn. by rewrite (IH _ H2).
Qed.

(** The first [n] characters, in lower case. *)
Definition lead (n : nat) (h : text) : text := take n (lower_char <$> h).

(** Two texts of which one may be the beginning of the other. *)
Fixpoint compatible (l1 l2 : text) : bool :=
  match l1, l2 with
  | a :: l1, b :: l2 => Ascii.eqb a b && compatible l1 l2
  | _, _ => true
  end.

Lemma compatible_common l1 x l2 y : l1 ++ x = l2 ++ y → compatible l1 l2 = true.
Proof.
  revert l2. induction l1 as [|a l1 IH]; intros [|b l2]; cbn; try done.
  intros [= -> H]. by rewrite Ascii.eqb_refl, (IH _ H).
Qed.

(** The words a pattern's head may begin with ([lead 3]), and the checks that a
    mark is inert for them. *)
Section check.
Variables (head : re) (value : ascii → bool) (leads : list text) (mark : string).
Hypothesis head_leads : ∀ h, lang head h → 3 ≤ length h ∧ lead 3 h ∈ leads.

Definition all_chars : list ascii := ascii_of_nat <$> seq 0 256.

Lemma all_chars_elem c : c ∈ all_chars.
Proof using.
  apply list_elem_of_fmap. exists (nat_of_ascii c). split; [by rewrite ascii_nat_embedding|].
  apply elem_of_seq. split; [lia|]. pose proof (nat_ascii_bounded c). lia.
Qed.

Definition leads_are_values : bool :=
  forallb (λ c, negb (existsb (λ l, bool_decide (take 1 l = [lower_char c])) leads) || value c) all_chars.

Fixpoint mark_is_inert (m : text) : bool :=
  match m with
  | [] => true
  | _ :: rest => forallb (λ l, negb (compatible (lower_char <$> m) l)) leads && mark_is_inert rest
  end.

Lemma leads_value h :
  leads_are_values = true → lang head h → ∃ a h', h = a :: h' ∧ value a = true.
Proof using head_leads.
  intros Hv Hh. destruct (head_leads _ Hh) as [Hlen Hin]. destruct h as [|a h]; [cbn in Hlen; lia|].
  exists a, h. split; [done|]. unfold leads_are_values in Hv. rewrite forallb_forall in Hv.
  specialize (Hv a). rewrite <- list_elem_of_In in Hv. specialize (Hv (all_chars_elem a)).
  apply orb_true_iff in Hv as [Hv|]; [|done]. exfalso. apply negb_true_iff in Hv.
  assert (existsb (λ l, bool_decide (take 1 l = [lower_char a])) leads = true); [|congruence].
  apply existsb_exists. exists (lead 3 (a :: h)). split; [by apply list_elem_of_In|].
  by apply bool_decide_eq_true.
Qed.

Lemma mark_inert_ok m x suf :
  mark_is_inert m = true → suf ≠ [] → (∃ p, m = p ++ suf) → ¬ starts head value (suf ++ x).
Proof using head_leads.
  intros Hm Hne [p ->] (h & n & q & Heq & Hh & _).
  assert (Hs : mark_is_inert suf = true).
  { clear -Hm. induction p as [|c p IH]; [done|]. cbn in Hm. apply andb_true_iff in Hm as [_ Hm].
    auto. }
  destruct suf as [|c suf]; [done|]. cbn [mark_is_inert] in Hs.
  apply andb_true_iff in Hs as [Hs _]. rewrite forallb_forall in Hs.
  destruct (head_leads _ Hh) as [Hlen Hin]. specialize (Hs (lead 3 h)).
  rewrite <- list_elem_of_In in Hs. specialize (Hs Hin). apply negb_true_iff in Hs.
  assert (compatible (lower_char <$> c :: suf) (lead 3 h) = true); [|congruence].
  apply (f_equal (fmap lower_char)) in Heq. rewrite !fmap_app in Heq.
  unfold lead. eapply compatible_common.
  rewrite Heq. rewrite <- (take_drop 3 (lower_char <$> h)) at 1. by rewrite <- app_assoc.
Qed.
End check.

(** A pattern [(word|...)rest value+], redacted with the mark [[REDACTED]]. *)
Lemma redacted_clean head value leads n s :
  (∀ h, lang head h → 3 ≤ length h ∧ lead 3 h ∈ leads) →
  may_contain head "["%char = false →
  leads_are_values value leads = true →
  mark_is_inert leads (String.list_ascii_of_string "[REDACTED]") = true →
  search (Seq head (Plus (Cls value))) (str_take n (sub (Seq head (Plus (Cls value))) "[REDACTED]" s)) = false.
Proof.
  intros Hl Hc Hv Hm. apply (sub_take_clean head value "["%char "REDACTED]").
  - intros h Hh Hin. by rewrite (may_contain_lang _ _ _ Hh Hin) in Hc.
  - intros h Hh. by eapply leads_value.
  - intros x suf Hne Hp. by eapply mark_inert_ok.
Qed.

(** The leads of a head given word by word. *)
Lemma lead_ilit w r h l :
  lang (Seq (ILit w) r) h → 3 ≤ String.length w →
  lead 3 (String.list_ascii_of_string w) = l → 3 ≤ length h ∧ lead 3 h = l.
Proof.
  intros (s1 & s2 & -> & H1%lang_ilit & _) Hw <-.
  assert (Hlen : length s1 = String.length w).
  { rewrite <- length_list_ascii, <- (length_fmap lower_char s1), H1, length_fmap. done. }
  split; [rewrite length_app; lia|]. unfold lead. rewrite fmap_app, <- H1, take_app_le; [done|].
  rewrite length_fmap. lia.
Qed.
