(* ===== verification/Json.v ===== *)
(** JSON values, and [json.dumps(v, sort_keys=True, separators=(",", ":"))] with
    the [json.loads] that reads it back.

    Numbers are integers: the values the sources encode come from GraphQL inputs
    of type [Int], [String] and [Boolean].  A [dict] is a list of items in
    insertion order. *)

From Stdlib Require Import Sorted.
From S2P Require Import Prelude Text Regex Dict.

Open Scope string_scope.
Open Scope list_scope.
Open Scope nat_scope.

#[local] Set Warnings "-register-all".

Inductive json :=
| JNull
| JBool (b : bool)
| JInt (z : Z)
| JStr (s : string)
| JArr (l : list json)
| JObj (items : list (string * json)).

(** Induction with the components of arrays and objects. *)
Section json_ind.
Variable P : json → Prop.
Hypothesis Hnull : P JNull.
Hypothesis Hbool : ∀ b, P (JBool b).
Hypothesis Hint : ∀ z, P (JInt z).
Hypothesis Hstr : ∀ s, P (JStr s).
Hypothesis Harr : ∀ l, Forall P l → P (JArr l).
Hypothesis Hobj : ∀ items, Forall (λ kv, P kv.2) items → P (JObj items).

Fixpoint json_ind' (v : json) : P v :=
  match v with
  | JNull => Hnull
  | JBool b => Hbool b
  | JInt z => Hint z
  | JStr s => Hstr s
  | JArr l =>
      Harr l ((fix go (l : list json) : Forall P l :=
                 match l with
                 | [] => Forall_nil_2 _
                 | v :: l => Forall_cons_2 _ _ _ (json_ind' v) (go l)
                 end) l)
  | JObj items =>
      Hobj items ((fix go (l : list (string * json)) : Forall (λ kv, P kv.2) l :=
                 match l with
                 | [] => Forall_nil_2 _
                 | kv :: l => Forall_cons_2 _ _ _ (json_ind' kv.2) (go l)
                 end) items)
  end.
End json_ind.

(** * Sorting by key *)

(** [<=] on [str]: by code point. *)
Fixpoint str_leb (a b : string) : bool :=
  match a, b with
  | EmptyString, _ => true
  | String _ _, EmptyString => false
  | String x a, String y b =>
      if code x =? code y then str_leb a b else code x <? code y
  end.

(** [sorted(items)] by key, by insertion: keys are distinct in a [dict]. *)
Fixpoint insert_item {V} (kv : string * V) (items : list (string * V)) : list (string * V) :=
  match items with
  | [] => [kv]
  | kv' :: rest => if str_leb kv.1 kv'.1 then kv :: items else kv' :: insert_item kv rest
  end.

Definition sort_items {V} (items : list (string * V)) : list (string * V) :=
  foldr insert_item [] items.

(** The value with the items of every object in key order. *)
Fixpoint json_sort (v : json) : json :=
  match v with
  | JArr l => JArr (map json_sort l)
  | JObj items => JObj (sort_items (map (λ kv, (kv.1, json_sort kv.2)) items))
  | v => v
  end.

(** Objects have each key once. *)
Fixpoint json_wf (v : json) : bool :=
  match v with
  | JArr l => forallb json_wf l
  | JObj items => bool_decide (NoDup items.*1) && forallb (λ kv, json_wf kv.2) items
  | _ => true
  end.

(** * [json.dumps] *)

Definition hex_digit (n : nat) : ascii := if n <? 10 then char (48 + n) else char (87 + n).

(** [ensure_ascii=True]: everything but printable ASCII is escaped. *)
Definition escape_char (c : ascii) : list ascii :=
  let n := code c in
  if n =? 34 then ["\"%char; char 34]
  else if n =? 92 then ["\"%char; "\"%char]
  else if n =? 10 then ["\"; "n"]%char
  else if n =? 13 then ["\"; "r"]%char
  else if n =? 9 then ["\"; "t"]%char
  else if n =? 12 then ["\"; "f"]%char
  else if n =? 8 then ["\"; "b"]%char
  else if (32 <=? n) && (n <=? 126) then [c]
  else ["\"; "u"; "0"; "0"]%char ++ [hex_digit (n / 16); hex_digit (n mod 16)].

Abbreviation chars := String.list_ascii_of_string.

Definition quote (s : string) : list ascii := char 34 :: flat_map escape_char (chars s) ++ [char 34].

(** [",".join]. *)
Fixpoint commas (parts : list (list ascii)) : list ascii :=
  match parts with
  | [] => []
  | [p] => p
  | p :: rest => p ++ ","%char :: commas rest
  end.

Fixpoint encode (v : json) : list ascii :=
  match v with
  | JNull => chars "null"
  | JBool true => chars "true"
  | JBool false => chars "false"
  | JInt z => chars (str_of_Z z)
  | JStr s => quote s
  | JArr l => "["%char :: commas (map encode l) ++ ["]"%char]
  | JObj items =>
      "{"%char ::
      commas (map (λ kv : string * list ascii, quote kv.1 ++ ":"%char :: kv.2)
                (sort_items (map (λ kv, (kv.1, encode kv.2)) items)))
      ++ ["}"%char]
  end.

Definition dumps (v : json) : string := String.string_of_list_ascii (encode v).

(** * [json.loads]

    On text without insignificant white space, which is what [dumps] produces;
    [None] is a decoding error (or a value outside the model: a float, a code
    point above 255). *)

Definition digit_val (c : ascii) : option Z :=
  if is_digit c then Some (Z.of_nat (code c) - 48)%Z else None.

Fixpoint digits_val (acc : Z) (s : list ascii) : Z * list ascii :=
  match s with
  | c :: rest =>
      match digit_val c with
      | Some d => digits_val (acc * 10 + d) rest
      | None => (acc, s)
      end
  | [] => (acc, [])
  end.

(** [0|[1-9]\d*]. *)
Definition parse_nat (s : list ascii) : option (Z * list ascii) :=
  match s with
  | c :: rest =>
      if code c =? 48 then Some (0%Z, rest)
      else match digit_val c with Some _ => Some (digits_val 0 s) | None => None end
  | [] => None
  end.

Definition ends_number (s : list ascii) : bool :=
  match s with c :: _ => negb (is_digit c || char_in c ".eE") | [] => true end.

Definition parse_int (s : list ascii) : option (json * list ascii) :=
  '(z, rest) ← match s with
    | "-"%char :: s => '(z, rest) ← parse_nat s; Some ((- z)%Z, rest)
    | _ => parse_nat s
    end;
  if ends_number rest then Some (JInt z, rest) else None.

Definition hex_val (c : ascii) : option nat :=
  if is_digit c then Some (code c - 48)
  else if in_range 97 102 c then Some (code c - 87)
  else if in_range 65 70 c then Some (code c - 55) else None.

Definition unescape (c : ascii) : option ascii :=
  let n := code c in
  if (n =? 34) || (n =? 92) || (n =? 47) then Some c
  else if n =? 110 then Some (char 10) else if n =? 114 then Some (char 13)
  else if n =? 116 then Some (char 9) else if n =? 102 then Some (char 12)
  else if n =? 98 then Some (char 8) else None.

(** The rest of a string literal, after its opening quote. *)
Fixpoint parse_string (s : list ascii) : option (string * list ascii) :=
  match s with
  | [] => None
  | c :: rest =>
      if code c =? 34 then Some (EmptyString, rest)
      else if code c =? 92 then
        match rest with
        | "u"%char :: h1 :: h2 :: h3 :: h4 :: rest =>
            a ← hex_val h1; b ← hex_val h2; d ← hex_val h3; e ← hex_val h4;
            if (a =? 0) && (b =? 0) then
              '(str, rest) ← parse_string rest; Some (String (char (d * 16 + e)) str, rest)
            else None
        | c :: rest =>
            x ← unescape c; '(str, rest) ← parse_string rest; Some (String x str, rest)
        | [] => None
        end
      else if code c <? 32 then None
      else '(str, rest) ← parse_string rest; Some (String c str, rest)
  end.

Fixpoint strip_prefix (p s : list ascii) : option (list ascii) :=
  match p, s with
  | [], s => Some s
  | a :: p, b :: s => if Ascii.eqb a b then strip_prefix p s else None
  | _ :: _, [] => None
  end.

(** [dict(pairs)]: a repeated key keeps its last value. *)
Definition dict_of {V} (pairs : list (string * V)) : list (string * V) :=
  fold_left (λ d kv, dict_set d kv.1 kv.2) pairs [].

Fixpoint parse_value (fuel : nat) (s : list ascii) : option (json * list ascii) :=
  match fuel, s with
  | S fuel, c :: rest =>
      if code c =? 34 then '(str, rest) ← parse_string rest; Some (JStr str, rest)
      else if Ascii.eqb c "[" then
        match rest with
        | "]"%char :: rest => Some (JArr [], rest)
        | _ => '(l, rest) ← parse_elements fuel rest; Some (JArr l, rest)
        end
      else if Ascii.eqb c "{" then
        match rest with
        | "}"%char :: rest => Some (JObj [], rest)
        | _ => '(l, rest) ← parse_members fuel rest; Some (JObj (dict_of l), rest)
        end
      else if Ascii.eqb c "n" then rest ← strip_prefix (chars "null") s; Some (JNull, rest)
      else if Ascii.eqb c "t" then rest ← strip_prefix (chars "true") s; Some (JBool true, rest)
      else if Ascii.eqb c "f" then rest ← strip_prefix (chars "false") s; Some (JBool false, rest)
      else parse_int s
  | _, _ => None
  end
with parse_elements (fuel : nat) (s : list ascii) : option (list json * list ascii) :=
  match fuel with
  | 0 => None
  | S fuel =>
      '(v, rest) ← parse_value fuel s;
      match rest with
      | ","%char :: rest => '(l, rest) ← parse_elements fuel rest; Some (v :: l, rest)
      | "]"%char :: rest => Some ([v], rest)
      | _ => None
      end
  end
with parse_members (fuel : nat) (s : list ascii) : option (list (string * json) * list ascii) :=
  match fuel, s with
  | S fuel, q :: rest =>
      if code q =? 34 then
        '(k, rest) ← parse_string rest;
        match rest with
        | ":"%char :: rest =>
            '(v, rest) ← parse_value fuel rest;
            match rest with
            | ","%char :: rest => '(l, rest) ← parse_members fuel rest; Some ((k, v) :: l, rest)
            | "}"%char :: rest => Some ([(k, v)], rest)
            | _ => None
            end
        | _ => None
        end
      else None
  | _, _ => None
  end.

Definition loads (s : string) : option json :=
  match parse_value (S (String.length s)) (chars s) with
  | Some (v, []) => Some v
  | _ => None
  end.

(** * Reading back what was written *)

Lemma sort_items_map {V W} (f : V → W) (items : list (string * V)) :
  sort_items (map (λ kv, (kv.1, f kv.2)) items) = map (λ kv, (kv.1, f kv.2)) (sort_items items).
Proof.
  assert (Hins : ∀ kv l, insert_item (kv.1, f kv.2) (map (λ kv, (kv.1, f kv.2)) l) =
    map (λ kv, (kv.1, f kv.2)) (insert_item kv l)).
  { intros kv l. induction l as [|kv' l IH]; cbn; [done|].
    destruct (str_leb kv.1 kv'.1); cbn; [done|]. by rewrite IH. }
  unfold sort_items. induction items as [|kv items IH]; cbn; [done|]. by rewrite IH, <- Hins.
Qed.

Lemma insert_item_perm {V} (kv : string * V) items : insert_item kv items ≡ₚ kv :: items.
Proof.
  induction items as [|kv' items IH]; cbn; [done|]. destruct (str_leb _ _); [done|].
  rewrite IH. apply Permutation_swap.
Qed.

Lemma sort_items_perm {V} (items : list (string * V)) : sort_items items ≡ₚ items.
Proof.
  unfold sort_items. induction items as [|kv items IH]; cbn; [done|].
  by rewrite insert_item_perm, IH.
Qed.

Lemma dict_of_nodup {V} (pairs : list (string * V)) : NoDup pairs.*1 → dict_of pairs = pairs.
Proof.
  unfold dict_of. intros Hn. change pairs with ([] ++ pairs) at 2.
  assert (Hd : ∀ d, NoDup (d ++ pairs).*1 →
    fold_left (λ d kv, dict_set d kv.1 kv.2) pairs d = d ++ pairs); [|by apply Hd].
  clear Hn. induction pairs as [|[k v] pairs IH]; intros d Hn; cbn; [by rewrite app_nil_r|].
  assert (Hk : dict_get d k = None).
  { apply dict_get_None. intros Hin. rewrite fmap_app in Hn. apply NoDup_app in Hn as (_ & Hn & _).
    apply (Hn k Hin). apply list_elem_of_here. }
  rewrite dict_set_fresh, IH, <- app_assoc; [done| |done]. by rewrite <- app_assoc.
Qed.

Lemma parse_string_char c s :
  parse_string (escape_char c ++ s) =
    ('(str, rest) ← parse_string s; Some (String c str, rest)).
Proof. by destruct c as [[] [] [] [] [] [] [] []]. Qed.

Lemma parse_string_quoted s rest :
  parse_string (flat_map escape_char (chars s) ++ char 34 :: rest) = Some (s, rest).
Proof.
  induction s as [|c s IH]; [done|]. cbn [chars flat_map].
  by rewrite <- app_assoc, parse_string_char, IH.
Qed.

(** ** Integers *)

Lemma digit_val_pretty x :
  (x < 10)%N → digit_val (pretty_N_char x) = Some (Z.of_N x) ∧ is_digit (pretty_N_char x) = true ∧
    (code (pretty_N_char x) =? 48) = (x =? 0)%N.
Proof.
  intros Hx. assert (x = 0 ∨ x = 1 ∨ x = 2 ∨ x = 3 ∨ x = 4 ∨ x = 5 ∨ x = 6 ∨ x = 7 ∨ x = 8 ∨ x = 9)%N
    as Hc by lia.
  by repeat (destruct Hc as [->|Hc]; [by vm_compute|]); subst.
Qed.

Lemma digits_val_go x s r :
  digits_val 0 (chars (pretty_N_go x s) ++ r) = digits_val (Z.of_N x) (chars s ++ r).
Proof.
  revert s. induction (N.lt_wf_0 x) as [x _ IH]; intros s.
  assert (x = 0 ∨ 0 < x)%N as [->|Hx] by lia; [by rewrite pretty_N_go_0|].
  rewrite pretty_N_go_step, IH by (try apply N.div_lt; lia). cbn [chars app digits_val].
  destruct (digit_val_pretty (x mod 10)) as (-> & _); [by apply N.mod_lt|].
  f_equal. pose proof (N.div_mod x 10 ltac:(done)). lia.
Qed.

Lemma pretty_go_head x s :
  (0 < x)%N → ∃ c t, chars (pretty_N_go x s) = c :: t ∧ is_digit c = true ∧ (code c =? 48) = false.
Proof.
  revert s. induction (N.lt_wf_0 x) as [x _ IH]; intros s Hx. rewrite pretty_N_go_step by done.
  destruct (N.eq_0_gt_0_cases (x `div` 10)) as [H0|Hd].
  - rewrite H0, pretty_N_go_0. eexists _, _. split; [reflexivity|].
    assert (Hlt : (x < 10)%N) by (apply N.div_small_iff; done).
    rewrite N.mod_small by done. destruct (digit_val_pretty x Hlt) as (_ & ? & ->).
    split; [done|]. apply N.eqb_neq. lia.
  - apply IH; [by apply N.div_lt|done].
Qed.

Lemma ends_number_digits z rest : ends_number rest = true → digits_val z rest = (z, rest).
Proof.
  destruct rest as [|c rest]; cbn; [done|]. intros [Hd _]%negb_true_iff%orb_false_iff.
  unfold digit_val. by rewrite Hd.
Qed.

Lemma pretty_pos x : (0 < x)%N → pretty x = pretty_N_go x "".
Proof. intros Hx. unfold pretty, pretty_N. rewrite decide_False; [done|lia]. Qed.

Lemma parse_nat_pretty x rest :
  (0 < x)%N → ends_number rest = true →
  parse_nat (chars (pretty x) ++ rest) = Some (Z.of_N x, rest).
Proof.
  intros Hx Hr. rewrite pretty_pos by done.
  destruct (pretty_go_head x "" Hx) as (c & t & E & Hd & H0).
  pose proof (digits_val_go x "" rest) as Hv. rewrite E in Hv |- *. cbn [app] in Hv |- *.
  cbn [parse_nat]. rewrite H0. unfold digit_val at 1. rewrite Hd, Hv. cbn [chars app].
  by rewrite ends_number_digits.
Qed.

Definition int_head (c : ascii) : bool := is_digit c || Ascii.eqb c "-".

Lemma str_of_Z_head z : ∃ c t, chars (str_of_Z z) = c :: t ∧ int_head c = true.
Proof.
  destruct z as [|p|p]; [by eexists _, _| |by eexists _, _].
  destruct (pretty_go_head (Npos p) "" eq_refl) as (c & t & E & Hd & _).
  exists c, t. split; [|unfold int_head; by rewrite Hd].
  change (str_of_Z (Zpos p)) with (pretty (Npos p)). by rewrite pretty_pos.
Qed.

Lemma parse_int_str z rest :
  ends_number rest = true → parse_int (chars (str_of_Z z) ++ rest) = Some (JInt z, rest).
Proof.
  intros Hr. destruct z as [|p|p].
  - change (parse_int (chars (str_of_Z 0) ++ rest))
      with (if ends_number rest then Some (JInt 0, rest) else None). by rewrite Hr.
  - change (str_of_Z (Zpos p)) with (pretty (Npos p)).
    pose proof (parse_nat_pretty (Npos p) rest eq_refl Hr) as Hp.
    destruct (str_of_Z_head (Zpos p)) as (c & t & E & Hc).
    change (str_of_Z (Zpos p)) with (pretty (Npos p)) in E. unfold parse_int.
    assert (Hm : c ≠ "-"%char).
    { intros ->. rewrite E in Hp. discriminate Hp. }
    rewrite E in Hp |- *. cbn [app] in Hp |- *.
    assert (match c with "-"%char => '(z, rest) ← parse_nat (t ++ rest); Some ((- z)%Z, rest)
            | _ => parse_nat (c :: t ++ rest) end = Some (Z.pos p, rest)) as Hgoal.
    { rewrite Hp. by destruct c as [[] [] [] [] [] [] [] []]. }
    rewrite Hgoal. cbn [mbind option_bind]. by rewrite Hr.
  - change (chars (str_of_Z (Z.neg p))) with ("-"%char :: chars (pretty (Npos p))).
    cbn [app]. unfold parse_int. rewrite parse_nat_pretty by done. cbn [mbind option_bind]. by rewrite Hr.
Qed.

(** ** Values *)

Lemma parse_value_int fuel c s :
  int_head c = true → parse_value (S fuel) (c :: s) = parse_int (c :: s).
Proof. destruct c as [[] [] [] [] [] [] [] []]; cbn; intros H; first [discriminate H|reflexivity]. Qed.

Definition parses (v : json) : Prop :=
  ∀ fuel rest, ends_number rest = true → length (encode v) ≤ fuel →
    parse_value fuel (encode v ++ rest) = Some (json_sort v, rest).

Lemma encode_nonempty v : 1 ≤ length (encode v).
Proof.
  destruct v as [|[]|z|s|l|items]; cbn; try lia.
  destruct (str_of_Z_head z) as (c & t & -> & _). cbn. lia.
Qed.

Lemma commas_cons p ps :
  ps ≠ [] → commas (p :: ps) = p ++ ","%char :: commas ps.
Proof. by destruct ps. Qed.

Lemma parse_elements_commas l fuel rest :
  Forall parses l → l ≠ [] → S (length (commas (map encode l))) ≤ fuel →
  parse_elements fuel (commas (map encode l) ++ "]"%char :: rest) = Some (map json_sort l, rest).
Proof.
  intros Hl. revert fuel. induction Hl as [|v l Hv Hl IH]; intros fuel Hne Hlen; [done|].
  destruct fuel as [|fuel]; [lia|]. destruct l as [|v' l].
  - cbn [map commas] in *. cbn [parse_elements]. rewrite Hv; [done|done|lia].
  - set (l' := v' :: l) in *. assert (Hl' : map encode l' ≠ []) by done.
    change (map encode (v :: l')) with (encode v :: map encode l') in Hlen |- *.
    rewrite commas_cons in Hlen |- * by done. rewrite length_app in Hlen. cbn [length] in Hlen.
    rewrite <- app_assoc. cbn [app parse_elements]. rewrite Hv; [|done|lia].
    cbn [mbind option_bind]. rewrite IH; [done|done|lia].
Qed.

Definition member (kv : string * json) : list ascii := quote kv.1 ++ ":"%char :: encode kv.2.

Lemma parse_members_commas items fuel rest :
  Forall (λ kv, parses kv.2) items → items ≠ [] →
  S (length (commas (map member items))) ≤ fuel →
  parse_members fuel (commas (map member items) ++ "}"%char :: rest) =
    Some (map (λ kv, (kv.1, json_sort kv.2)) items, rest).
Proof.
  intros Hl. revert fuel. induction Hl as [|[k v] items Hv Hl IH]; intros fuel Hne Hlen; [done|].
  cbn [snd] in Hv. destruct fuel as [|fuel]; [lia|].
  assert (Hone : ∀ tail, ends_number tail = true → length (member (k, v)) ≤ fuel →
    parse_members (S fuel) (member (k, v) ++ tail) =
      match tail with
      | ","%char :: rest => '(l, rest) ← parse_members fuel rest; Some ((k, json_sort v) :: l, rest)
      | "}"%char :: rest => Some ([(k, json_sort v)], rest)
      | _ => None
      end).
  { intros tail Ht Hm. unfold member in *. cbn [fst snd] in *. unfold quote in *.
    rewrite !length_app in Hm. cbn [length] in Hm. cbn [app parse_members].
    change (code (char 34) =? 34) with true. cbn iota.
    rewrite <- !app_assoc. cbn [app]. rewrite parse_string_quoted. cbn [mbind option_bind].
    rewrite Hv; [done|done|lia]. }
  destruct items as [|kv' items].
  - cbn [map commas] in *. rewrite Hone; [done|done|lia].
  - set (l' := kv' :: items) in *. assert (Hl' : map member l' ≠ []) by done.
    change (map member ((k, v) :: l')) with (member (k, v) :: map member l') in Hlen |- *.
    rewrite commas_cons in Hlen |- * by done. rewrite length_app in Hlen. cbn [length] in Hlen.
    rewrite <- app_assoc. cbn [app]. rewrite Hone; [|done|lia].
    rewrite IH; [done|done|lia].
Qed.

Lemma encode_obj items :
  encode (JObj items) = "{"%char :: commas (map member (sort_items items)) ++ ["}"%char].
Proof. cbn [encode]. by rewrite sort_items_map, map_map. Qed.

(** An array that is not empty is read by its elements. *)
Lemma encode_head v : ∃ c x, encode v = c :: x ∧ c ≠ "]"%char.
Proof.
  destruct v as [|[]|z|s|l|items]; try (by eexists _, _).
  destruct (str_of_Z_head z) as (c & x & E & Hc). exists c, x. split; [exact E|]. by intros ->.
Qed.

Lemma commas_head v l t : ∃ c x, commas (map encode (v :: l)) ++ t = c :: x ∧ c ≠ "]"%char.
Proof.
  destruct (encode_head v) as (c & x & E & Hc).
  destruct l as [|v' l]; cbn [map commas]; rewrite E; cbn; by eexists _, _.
Qed.

Lemma parse_array fuel c t :
  c ≠ "]"%char →
  parse_value (S fuel) ("["%char :: c :: t) = '(l, rest) ← parse_elements fuel (c :: t); Some (JArr l, rest).
Proof. intros Hc. destruct c as [[] [] [] [] [] [] [] []]; done. Qed.

Lemma parse_encode v : json_wf v = true → parses v.
Proof.
  induction v as [|b|z|s|l IH|items IH] using json_ind'; intros Hwf fuel rest Hr Hlen;
    destruct fuel as [|fuel]; try (exfalso; revert Hlen; apply Nat.lt_nge, encode_nonempty).
  - done.
  - by destruct b.
  - cbn [encode] in *. destruct (str_of_Z_head z) as (c & t & E & Hc).
    pose proof (parse_int_str z rest Hr) as Hp. rewrite E in Hp |- *. cbn [app] in Hp |- *.
    by rewrite parse_value_int.
  - cbn [encode]. unfold quote. cbn [app parse_value]. change (code (char 34) =? 34) with true.
    cbn iota. rewrite <- app_assoc. cbn [app]. by rewrite parse_string_quoted.
  - cbn [encode json_sort] in *. destruct l as [|v l]; [done|]. cbn [length] in Hlen.
    rewrite length_app in Hlen. cbn [length] in Hlen.
    assert (Hall : Forall parses (v :: l)).
    { cbn [json_wf] in Hwf. rewrite forallb_forall in Hwf. rewrite Forall_forall in IH |- *.
      intros x Hx. apply IH; [done|]. by apply Hwf, list_elem_of_In. }
    pose proof (parse_elements_commas (v :: l) fuel rest Hall ltac:(done) ltac:(lia)) as Hp.
    cbn [app]. rewrite <- app_assoc. cbn [app].
    destruct (commas_head v l ("]"%char :: rest)) as (c & t & E & Hc). rewrite E in Hp |- *.
    by rewrite parse_array, Hp.
  - rewrite encode_obj in Hlen |- *. cbn [length] in Hlen. rewrite length_app in Hlen.
    cbn [length] in Hlen. cbn [json_sort]. rewrite sort_items_map.
    cbn [json_wf] in Hwf. apply andb_true_iff in Hwf as [Hn%bool_decide_eq_true Hw].
    assert (Hall : Forall (λ kv, parses kv.2) (sort_items items)).
    { rewrite forallb_forall in Hw. rewrite Forall_forall in IH |- *. intros kv Hkv.
      rewrite sort_items_perm in Hkv. apply IH; [done|]. by apply Hw, list_elem_of_In. }
    assert (Hn' : NoDup (sort_items items).*1) by (by rewrite sort_items_perm).
    clear IH Hw Hn. destruct (sort_items items) as [|[k v] its]; [done|].
    pose proof (parse_members_commas ((k, v) :: its) fuel rest Hall ltac:(done) ltac:(lia)) as Hp.
    cbn [app]. rewrite <- app_assoc. cbn [app].
    assert (Hq : ∃ t, commas (map member ((k, v) :: its)) ++ "}"%char :: rest = char 34 :: t).
    { destruct its; cbn [map commas]; unfold member at 1, quote; cbn; by eexists. }
    destruct Hq as [t Hq]. rewrite Hq in Hp |- *.
    change (parse_value (S fuel) ("{"%char :: char 34 :: t)) with
      ('(l, rest) ← parse_members fuel (char 34 :: t); Some (JObj (dict_of l), rest)).
    rewrite Hp. cbn [mbind option_bind]. do 3 f_equal. rewrite dict_of_nodup; [done|].
    rewrite <- list_fmap_compose. exact Hn'.
Qed.

Lemma loads_dumps v : json_wf v = true → loads (dumps v) = Some (json_sort v).
Proof.
  intros Hwf. unfold loads, dumps. rewrite String.list_ascii_of_string_of_list_ascii.
  rewrite <- (app_nil_r (encode v)) at 2.
  rewrite (parse_encode v Hwf); [done|done|].
  rewrite <- length_list_ascii, String.list_ascii_of_string_of_list_ascii. lia.
Qed.

(** ** The characters of a decimal rendering *)

Lemma pretty_go_chars x s :
  Forall (λ c, int_head c = true) (chars s) → Forall (λ c, int_head c = true) (chars (pretty_N_go x s)).
Proof.
  revert s. induction (N.lt_wf_0 x) as [x _ IH]; intros s Hs.
  assert (x = 0 ∨ 0 < x)%N as [->|Hx] by lia; [by rewrite pretty_N_go_0|].
  rewrite pretty_N_go_step by done. apply IH; [apply N.div_lt; lia|]. cbn. constructor; [|done].
  destruct (digit_val_pretty (x mod 10)) as (_ & Hd & _); [by apply N.mod_lt|].
  unfold int_head. by rewrite Hd.
Qed.

Lemma str_of_Z_chars z : Forall (λ c, int_head c = true) (chars (str_of_Z z)).
Proof.
  destruct z as [|p|p].
  - by repeat constructor.
  - change (str_of_Z (Zpos p)) with (pretty (Npos p)). rewrite pretty_pos by done.
    by apply pretty_go_chars.
  - change (chars (str_of_Z (Z.neg p))) with ("-"%char :: chars (pretty (Npos p))).
    rewrite pretty_pos by done. constructor; [done|]. by apply pretty_go_chars.
Qed.

Lemma char_in_chars c s : char_in c s = true ↔ c ∈ chars s.
Proof.
  induction s as [|d s IH]; cbn; [split; [done|by intros ?%elem_of_nil]|].
  rewrite orb_true_iff, IH, elem_of_cons, Ascii.eqb_eq. done.
Qed.

Lemma char_in_str_of_Z c z : int_head c = false → char_in c (str_of_Z z) = false.
Proof.
  intros Hc. destruct (char_in c (str_of_Z z)) eqn:E; [|done]. apply char_in_chars in E.
  pose proof (str_of_Z_chars z) as Hf. rewrite Forall_forall in Hf. apply Hf in E. congruence.
Qed.

(** ** Canonical form *)

Lemma str_leb_total a b : str_leb a b = false → str_leb b a = true.
Proof.
  revert b. induction a as [|c a IH]; intros [|d b]; cbn; try done.
  rewrite (Nat.eqb_sym (code d)). destruct (Nat.eqb_spec (code c) (code d)); [apply IH|].
  intros H%Nat.ltb_ge. apply Nat.ltb_lt. lia.
Qed.

Lemma str_leb_trans a b d : str_leb a b = true → str_leb b d = true → str_leb a d = true.
Proof.
  revert b d. induction a as [|x a IH]; intros [|y b] [|z d]; cbn; try done.
  destruct (Nat.eqb_spec (code x) (code y)), (Nat.eqb_spec (code y) (code z)), (Nat.eqb_spec (code x) (code z));
    try apply IH; intros H1 H2; try apply Nat.ltb_lt in H1; try apply Nat.ltb_lt in H2;
    first [apply Nat.ltb_lt; lia | exfalso; lia].
Qed.

Lemma str_leb_antisym a b : str_leb a b = true → str_leb b a = true → a = b.
Proof.
  revert b. induction a as [|x a IH]; intros [|y b]; cbn; try done.
  rewrite (Nat.eqb_sym (code y)). destruct (Nat.eqb_spec (code x) (code y)) as [E|].
  - intros Hab Hba. f_equal; [|by apply IH]. unfold code in E.
    by rewrite <- (ascii_nat_embedding x), E, ascii_nat_embedding.
  - intros ?%Nat.ltb_lt ?%Nat.ltb_lt. lia.
Qed.

Definition leb_item {V} (x y : string * V) : Prop := str_leb x.1 y.1 = true.

Lemma insert_item_sorted {V} (kv : string * V) l :
  Sorted leb_item l → Sorted leb_item (insert_item kv l).
Proof.
  induction 1 as [|kv' l Hl IH Hhd]; cbn; [by repeat constructor|].
  destruct (str_leb kv.1 kv'.1) eqn:E; [by repeat constructor|].
  constructor; [done|]. apply str_leb_total in E.
  destruct l as [|kv2 l]; cbn; [by constructor|]. destruct (str_leb kv.1 kv2.1); [by constructor|].
  inversion Hhd; subst. by constructor.
Qed.

Lemma sort_items_sorted {V} (l : list (string * V)) : Sorted leb_item (sort_items l).
Proof. unfold sort_items. induction l as [|kv l IH]; cbn; [constructor|]. by apply insert_item_sorted. Qed.

Lemma sort_items_id {V} (l : list (string * V)) : Sorted leb_item l → sort_items l = l.
Proof.
  unfold sort_items. induction 1 as [|kv l Hl IH Hhd]; cbn; [done|]. rewrite IH.
  destruct Hhd as [|kv' l H]; cbn; [done|]. unfold leb_item in H. by rewrite H.
Qed.

Lemma encode_sort v : encode (json_sort v) = encode v.
Proof.
  induction v as [|b|z|s|l IH|items IH] using json_ind'; try done.
  - cbn [json_sort encode]. do 2 f_equal. f_equal. rewrite map_map.
    induction IH as [|v l Hv _ IH]; cbn; [done|]. by rewrite Hv, IH.
  - cbn [json_sort]. rewrite !encode_obj. rewrite sort_items_map.
    do 2 f_equal. f_equal. rewrite sort_items_map, map_map.
    rewrite (sort_items_id (sort_items items)) by apply sort_items_sorted.
    rewrite <- sort_items_perm in IH. induction IH as [|kv l Hv _ IH]; cbn; [done|].
    f_equal; [|done]. unfold member. cbn. by rewrite Hv.
Qed.

Lemma json_wf_sort v : json_wf v = true → json_wf (json_sort v) = true.
Proof.
  induction v as [|b|z|s|l IH|items IH] using json_ind'; try done; cbn [json_wf json_sort].
  - rewrite !forallb_forall. intros Hl x Hx. apply in_map_iff in Hx as (v & <- & Hv).
    rewrite Forall_forall in IH. apply IH; [by apply list_elem_of_In|by apply Hl].
  - intros [Hn%bool_decide_eq_true Hl]%andb_true_iff. apply andb_true_iff. split.
    + apply bool_decide_eq_true. rewrite sort_items_perm.
      change (map (λ kv, (kv.1, json_sort kv.2)) items) with ((λ kv, (kv.1, json_sort kv.2)) <$> items).
      by rewrite <- list_fmap_compose.
    + rewrite forallb_forall in Hl |- *. intros [k x] Hx. apply list_elem_of_In in Hx.
      rewrite sort_items_perm in Hx. apply list_elem_of_fmap in Hx as (kv & [= -> ->] & Hv).
      rewrite Forall_forall in IH. apply IH; [done|]. by apply Hl, list_elem_of_In.
Qed.

Lemma json_sort_idemp v : json_sort (json_sort v) = json_sort v.
Proof.
  induction v as [|b|z|s|l IH|items IH] using json_ind'; try done; cbn [json_sort].
  - f_equal. rewrite map_map. induction IH as [|v l Hv _ IH]; cbn; [done|]. by rewrite Hv, IH.
  - f_equal. rewrite !sort_items_map, map_map. cbn.
    rewrite (sort_items_id (sort_items items)) by apply sort_items_sorted.
    rewrite <- sort_items_perm in IH. induction IH as [|kv l Hv _ IH]; cbn; [done|].
    by rewrite Hv, IH.
Qed.

Lemma dumps_sort v : dumps (json_sort v) = dumps v.
Proof. unfold dumps. by rewrite encode_sort. Qed.
