(* ===== verification/JsonEq.v ===== *)
(** Equality of JSON values as Python compares them: dictionaries are equal when
    they have equal values at the same keys, in whatever order.  Equal values have
    one text ([json.dumps] with [sort_keys]), and reading a text back gives a value
    equal to the one that was written. *)

From Stdlib Require Import Sorted.
From S2P Require Import Prelude Text Dict Json.

Open Scope list_scope.
Open Scope nat_scope.

Inductive same_json : json → json → Prop :=
| same_null : same_json JNull JNull
| same_bool b : same_json (JBool b) (JBool b)
| same_int z : same_json (JInt z) (JInt z)
| same_str s : same_json (JStr s) (JStr s)
| same_arr l l' : Forall2 same_json l l' → same_json (JArr l) (JArr l')
| same_obj (d d' : list (string * json)) :
    (∀ k, option_Forall2 same_json (dict_get d k) (dict_get d' k)) → same_json (JObj d) (JObj d').

Lemma same_obj_inv d v : same_json (JObj d) v →
  ∃ d', v = JObj d' ∧ ∀ k, option_Forall2 same_json (dict_get d k) (dict_get d' k).
Proof. inversion 1; subst. by eexists. Qed.

(** What an induction hypothesis says of the value at a key. *)
Ltac at_key IH E :=
  let H := fresh in
  rewrite ?Forall_forall in IH; pose proof (dict_get_Some_elem _ _ _ E) as H; specialize (IH _ H); cbn in IH; clear H.

#[export] Instance same_json_refl : Reflexive same_json.
Proof.
  intros v. induction v as [|b|z|s|l IH|d IH] using json_ind'; constructor.
  - by induction IH; constructor.
  - intros k. destruct (dict_get d k) as [v|] eqn:E; constructor. by at_key IH E.
Qed.

#[export] Instance same_json_sym : Symmetric same_json.
Proof.
  intros v. induction v as [|b|z|s|l IH|d IH] using json_ind'; inversion 1 as [| | | |? l' Hl|? d' Hd]; subst; constructor.
  - clear H. revert l' Hl. induction IH; inversion 1; subst; constructor; auto.
  - intros k. specialize (Hd k). destruct (dict_get d k) as [x|] eqn:E; inversion Hd; subst; constructor.
    at_key IH E. auto.
Qed.

#[export] Instance same_json_trans : Transitive same_json.
Proof.
  intros u v. revert u.
  induction v as [|b|z|s|l IH|d IH] using json_ind'; intros u w Hu Hw;
    inversion Hu as [| | | |lu ? Hlu|du ? Hdu]; subst; inversion Hw as [| | | |? lw Hlw|? dw Hdw]; subst; constructor.
  - clear Hu Hw. revert lu lw Hlu Hlw.
    induction IH; intros lu lw Hlu Hlw; inversion Hlu; inversion Hlw; subst; constructor; eauto.
  - intros k. specialize (Hdu k). specialize (Hdw k).
    destruct (dict_get d k) as [x|] eqn:E; inversion Hdu; inversion Hdw; subst; constructor.
    at_key IH E. eauto.
Qed.

(** ** Changing a dictionary *)

Lemma same_dict_set d d' k v v' :
  same_json (JObj d) (JObj d') → same_json v v' → same_json (JObj (dict_set d k v)) (JObj (dict_set d' k v')).
Proof.
  inversion 1 as [| | | | |? ? Hd]; subst. intros Hv. constructor. intros k'.
  destruct (decide (k = k')) as [<-|]; [rewrite !dict_get_set_eq; by constructor|].
  by rewrite !dict_get_set_ne.
Qed.

Lemma same_dict_pop d d' k :
  dict_wf d → dict_wf d' → same_json (JObj d) (JObj d') → same_json (JObj (dict_pop d k)) (JObj (dict_pop d' k)).
Proof.
  intros Hw Hw'. inversion 1 as [| | | | |? ? Hd]; subst. constructor. intros k'.
  destruct (decide (k = k')) as [<-|]; [rewrite !dict_get_pop_eq by done; constructor|].
  by rewrite !dict_get_pop_ne.
Qed.

(** Equal dictionaries have the same keys, and what does not distinguish equal
    values is the same of both. *)
Lemma same_dict_map {V} (f : json → V) (d d' : list (string * json)) :
  dict_wf d → dict_wf d' → (∀ k, option_Forall2 (λ v v', f v = f v') (dict_get d k) (dict_get d' k)) →
  map (λ kv, (kv.1, f kv.2)) d ≡ₚ map (λ kv, (kv.1, f kv.2)) d'.
Proof.
  intros Hw Hw' Hd.
  assert (Hnd : ∀ d : list (string * json), dict_wf d → NoDup (map (λ kv, (kv.1, f kv.2)) d)).
  { intros d0 H0. apply (NoDup_fmap_1 fst). by rewrite <- list_fmap_compose. }
  assert (Hsub : ∀ (d d' : list (string * json)) x, dict_wf d →
    (∀ k, option_Forall2 (λ v v', f v = f v') (dict_get d k) (dict_get d' k)) →
    x ∈ map (λ kv, (kv.1, f kv.2)) d → x ∈ map (λ kv, (kv.1, f kv.2)) d').
  { intros d0 d1 x H0 H01 ([k v] & -> & Hin)%list_elem_of_fmap. apply dict_get_elem in Hin; [|done].
    specialize (H01 k). rewrite Hin in H01. inversion H01 as [? v' Hf E|]; subst. cbn. rewrite Hf.
    apply list_elem_of_fmap. exists (k, v'). split; [done|]. by apply dict_get_Some_elem. }
  apply NoDup_Permutation; [by apply Hnd..|]. intros x. split; [by apply Hsub|]. apply Hsub; [done|].
  intros k. specialize (Hd k). inversion Hd; by constructor.
Qed.

(** * One text *)

Lemma insert_item_swap {V} (a b : string * V) l :
  a.1 ≠ b.1 → insert_item a (insert_item b l) = insert_item b (insert_item a l).
Proof.
  intros Hab. assert (Hne : str_leb a.1 b.1 = true → str_leb b.1 a.1 = false).
  { intros H1. apply not_true_iff_false. intros H2. by destruct (Hab (str_leb_antisym _ _ H1 H2)). }
  induction l as [|y l IH]; cbn.
  - destruct (str_leb a.1 b.1) eqn:E; [by rewrite Hne|]. by rewrite (str_leb_total _ _ E).
  - destruct (str_leb b.1 y.1) eqn:Eb, (str_leb a.1 y.1) eqn:Ea; cbn; rewrite ?Ea, ?Eb; try (by rewrite IH).
    + destruct (str_leb a.1 b.1) eqn:E; [by rewrite Hne|]. by rewrite (str_leb_total _ _ E).
    + destruct (str_leb a.1 b.1) eqn:E; [|done]. by rewrite (str_leb_trans _ _ _ E Eb) in Ea.
    + destruct (str_leb b.1 a.1) eqn:E; [|done]. by rewrite (str_leb_trans _ _ _ E Ea) in Eb.
Qed.

(** Sorting forgets the order the items came in. *)
Lemma sort_items_canonical {V} (l l' : list (string * V)) : NoDup l.*1 → l ≡ₚ l' → sort_items l = sort_items l'.
Proof.
  intros Hn Hl. induction Hl as [|x l l' Hl IH|x y l|l1 l2 l3 H12 IH1 H23 IH2]; [done|..].
  - apply NoDup_cons in Hn as [_ Hn]. cbn. f_equal. auto.
  - cbn in *. apply insert_item_swap. apply NoDup_cons in Hn as [Hy _]. set_solver.
  - rewrite IH1 by done. apply IH2. by rewrite <- H12.
Qed.

Lemma json_wf_obj d : json_wf (JObj d) = true ↔ dict_wf d ∧ Forall (λ kv, json_wf kv.2 = true) d.
Proof.
  cbn [json_wf]. rewrite andb_true_iff, bool_decide_eq_true, forallb_forall, Forall_forall.
  by setoid_rewrite list_elem_of_In.
Qed.

Lemma encode_same v v' : json_wf v = true → json_wf v' = true → same_json v v' → encode v = encode v'.
Proof.
  revert v'. induction v as [|b|z|s|l IH|d IH] using json_ind'; intros v' Hw Hw' Hv;
    inversion Hv as [| | | |? l' Hl|? d' Hd]; subst; try done.
  - cbn [encode]. do 3 f_equal. clear Hv. cbn in Hw, Hw'.
    revert l' Hw' Hl. induction IH as [|x l Hx _ IH]; intros l' Hw' Hl; inversion Hl; subst; [done|].
    cbn in Hw, Hw' |- *. apply andb_true_iff in Hw as [? ?], Hw' as [? ?]. f_equal; auto.
  - apply json_wf_obj in Hw as [Hn Hw], Hw' as [Hn' Hw']. cbn [encode]. do 4 f_equal.
    apply sort_items_canonical.
    + change (NoDup ((λ kv, (kv.1, encode kv.2)) <$> d).*1). by rewrite <- list_fmap_compose.
    + apply same_dict_map; [done..|]. intros k. specialize (Hd k).
      destruct (dict_get d k) as [x|] eqn:E, (dict_get d' k) as [x'|] eqn:E'; inversion Hd; subst; constructor.
      at_key IH E. at_key Hw E. at_key Hw' E'. auto.
Qed.

Lemma dumps_same v v' : json_wf v = true → json_wf v' = true → same_json v v' → dumps v = dumps v'.
Proof. intros. unfold dumps. by rewrite (encode_same v v'). Qed.

(** * Reading back *)

Lemma dict_get_perm (d d' : list (string * json)) k : dict_wf d → d ≡ₚ d' → dict_get d k = dict_get d' k.
Proof.
  intros Hw Hp. assert (Hw' : dict_wf d') by (unfold dict_wf; by rewrite <- Hp).
  apply option_eq. intros v. split; intros H%dict_get_Some_elem; apply dict_get_elem; try done;
    [by rewrite <- Hp|by rewrite Hp].
Qed.

Lemma same_dict_perm (d d' : list (string * json)) : dict_wf d → d ≡ₚ d' → same_json (JObj d) (JObj d').
Proof. intros Hw Hp. constructor. intros k. rewrite <- (dict_get_perm d d' k) by done. destruct (dict_get d k); by constructor. Qed.

Lemma dict_get_map {V W} (f : V → W) (d : list (string * V)) k :
  dict_get (map (λ kv, (kv.1, f kv.2)) d) k = f <$> dict_get d k.
Proof. induction d as [|[k' v] d IH]; cbn; [done|]. by case_decide. Qed.

Lemma dict_get_sorted d k :
  json_wf (JObj d) = true →
  dict_get (sort_items (map (λ kv, (kv.1, json_sort kv.2)) d)) k = json_sort <$> dict_get d k.
Proof.
  intros [Hn _]%json_wf_obj. rewrite <- dict_get_map. apply dict_get_perm; [|apply sort_items_perm].
  unfold dict_wf. rewrite sort_items_perm.
  change (NoDup ((λ kv, (kv.1, json_sort kv.2)) <$> d).*1). by rewrite <- list_fmap_compose.
Qed.

Lemma same_json_sort v : json_wf v = true → same_json (json_sort v) v.
Proof.
  induction v as [|b|z|s|l IH|d IH] using json_ind'; intros Hw; cbn [json_sort]; constructor.
  - cbn in Hw. induction IH as [|x l Hx _ IH]; cbn in Hw |- *; [constructor|].
    apply andb_true_iff in Hw as [? ?]. constructor; auto.
  - intros k. rewrite dict_get_sorted by done. apply json_wf_obj in Hw as [_ Hw].
    destruct (dict_get d k) as [x|] eqn:E; constructor.
    at_key IH E. at_key Hw E. auto.
Qed.

(** What is written is read back as an equal value. *)
Lemma loads_dumps_same v : json_wf v = true → ∃ v', loads (dumps v) = Some v' ∧ same_json v' v ∧ json_wf v' = true.
Proof.
  intros Hw. exists (json_sort v). split_and!; [by apply loads_dumps|by apply same_json_sort|by apply json_wf_sort].
Qed.
