(* ===== verification/Builtins.v ===== *)
(** Python's [repr] of a string and [int] of a text, on Latin-1 strings. *)

From S2P Require Import Prelude Text Json.

Open Scope string_scope.
Open Scope list_scope.
Open Scope nat_scope.

(** * [int] *)

(** The characters [int] strips. *)
Definition int_space (c : ascii) : bool :=
  in_range 9 13 c || (code c =? 32) || (code c =? 133) || (code c =? 160).

(** Digits, with single underscores between them. *)
Fixpoint int_digits (acc : Z) (after_digit : bool) (s : string) : option Z :=
  match s with
  | EmptyString => if after_digit then Some acc else None
  | String c rest =>
      if is_digit c then int_digits (10 * acc + Z.of_nat (code c - 48)) true rest
      else if Ascii.eqb c "_" && after_digit then int_digits acc false rest
      else None
  end.

Definition int_unsigned (s : string) : option Z := int_digits 0 false s.

(** [repr] of a Latin-1 string. *)
Definition repr_char (q c : ascii) : string :=
  if Ascii.eqb c q || Ascii.eqb c "\" then String "\" (String c EmptyString)
  else if code c =? 9 then "\t" else if code c =? 10 then "\n" else if code c =? 13 then "\r"
  else if (code c <? 32) || in_range 127 160 c || (code c =? 173)
  then String "\" (String "x" (String (hex_digit (code c / 16)) (String (hex_digit (code c mod 16)) EmptyString)))
  else String c EmptyString.

Fixpoint repr_chars (q : ascii) (s : string) : string :=
  match s with EmptyString => EmptyString | String c rest => repr_char q c +:+ repr_chars q rest end.

Definition str_repr (s : string) : string :=
  let q := if char_in (char 39) s && negb (char_in (char 34) s) then char 34 else char 39 in
  String q (repr_chars q s +:+ String q EmptyString).

(** The digits of a text, which [int] limits to 4300. *)
Fixpoint count_digits (s : string) : nat :=
  match s with EmptyString => 0 | String c rest => (if is_digit c then 1 else 0) + count_digits rest end.

Definition int_of (s : string) : result exn Z :=
  let text := rstrip_by int_space (lstrip_by int_space s) in
  let value :=
    match text with
    | String "-" rest => Z.opp <$> int_unsigned rest
    | String "+" rest => int_unsigned rest
    | _ => int_unsigned text
    end in
  match value with
  | None => Err (ValueError ("invalid literal for int() with base 10: " +:+ str_take 200 (str_repr s)))
  | Some z =>
      _ ← raise_if (4300 <? count_digits s)
            (ValueError ("Exceeds the limit (4300 digits) for integer string conversion: value has "
               +:+ str_of_Z (Z.of_nat (count_digits s))
               +:+ " digits; use sys.set_int_max_str_digits() to increase the limit"));
      Ok z
  end.

(** * [float]

    The value of a literal, before rounding: [PDec negative m e] is [m * 10^e]. *)

Inductive pyfloat :=
| PNan
| PInf (negative : bool)
| PDec (negative : bool) (mantissa exponent : Z).

(** Digits with single underscores between them: the number read so far, how many
    digits, and the rest. *)
Fixpoint digit_part (acc : Z) (count : nat) (s : string) : Z * nat * string :=
  match s with
  | String c rest =>
      if is_digit c then digit_part (10 * acc + Z.of_nat (code c - 48)) (S count) rest
      else
        match rest with
        | String c' _ =>
            if Ascii.eqb c "_" && (0 <? count) && is_digit c' then digit_part acc count rest
            else (acc, count, s)
        | EmptyString => (acc, count, s)
        end
  | EmptyString => (acc, count, s)
  end.

(** The sign of a number, and the rest. *)
Definition sign_part (s : string) : bool * string :=
  match s with
  | String "-" rest => (true, rest)
  | String "+" rest => (false, rest)
  | _ => (false, s)
  end.

Definition exponent_part (s : string) : option Z :=
  match s with
  | EmptyString => Some 0%Z
  | String c rest =>
      if Ascii.eqb c "e" || Ascii.eqb c "E" then
        let '(negative, rest) := sign_part rest in
        match digit_part 0 0 rest with
        | (e, S _, EmptyString) => Some (if negative then - e else e)%Z
        | _ => None
        end
      else None
  end.

Definition float_unsigned (negative : bool) (s : string) : option pyfloat :=
  if str_in (lower s) ["inf"; "infinity"] then Some (PInf negative)
  else if String.eqb (lower s) "nan" then Some PNan
  else
    let '(i, n, rest) := digit_part 0 0 s in
    let '(m, n', rest) :=
      match rest with String "." rest => digit_part i 0 rest | _ => (i, 0, rest) end in
    if n + n' =? 0 then None
    else e ← exponent_part rest; Some (PDec negative m (e - Z.of_nat n')).

Definition float_of (s : string) : result exn pyfloat :=
  let '(negative, text) := sign_part (rstrip_by int_space (lstrip_by int_space s)) in
  match float_unsigned negative text with
  | Some v => Ok v
  | None => Err (ValueError ("could not convert string to float: " +:+ str_repr s))
  end.

Example float_of_examples :
  (float_of <$> ["60"; " -1.5e3 "; "1_0.2_5"; ".5"; "5."; "Infinity"; "-nan"; "1e-2"]) =
    [Ok (PDec false 60 0); Ok (PDec true 15 2); Ok (PDec false 1025 (-2)); Ok (PDec false 5 (-1));
     Ok (PDec false 5 0); Ok (PInf false); Ok PNan; Ok (PDec false 1 (-2))] ∧
  forallb (λ s, negb (is_ok (float_of s))) [""; "."; "1__0"; "_1"; "1_"; "1._5"; "1e"; "0x10"; "- 1"; "1 2"] = true.
Proof. split; vm_compute; reflexivity. Qed.
