(* ===== verification/Url.v ===== *)
(** [urllib.parse.urlsplit] and the properties of its result the sources read.

    Two checks inside it are left to arguments, since they need tables outside
    this model: whether the bracketed host of a network location is an IPv6
    address ([ipaddress]), and whether a non-ASCII network location survives NFKC
    normalisation ([unicodedata]). *)

From S2P Require Import Prelude Text.

Open Scope list_scope.
Open Scope nat_scope.

Record UrlChecks := mkChecks {
  bracketed_ok : string → bool;
  nfkc_ok : string → bool
}.

Record SplitResult := mkSplit {
  scheme : string;
  netloc : string;
  path : string;
  query : string;
  fragment : string
}.

(** [s.partition(sep)] and [s.rpartition(sep)]: the parts before and after the
    separator, [None] when it does not occur. *)
Fixpoint partition (sep : ascii) (s : string) : option (string * string) :=
  match s with
  | EmptyString => None
  | String c rest =>
      if Ascii.eqb c sep then Some (EmptyString, rest)
      else '(a, b) ← partition sep rest; Some (String c a, b)
  end.

Fixpoint rpartition (sep : ascii) (s : string) : option (string * string) :=
  match s with
  | EmptyString => None
  | String c rest =>
      match rpartition sep rest with
      | Some (a, b) => Some (String c a, b)
      | None => if Ascii.eqb c sep then Some (EmptyString, rest) else None
      end
  end.

(** The longest prefix without a character of [stops], and the rest. *)
Fixpoint span_until (stops s : string) : string * string :=
  match s with
  | EmptyString => (EmptyString, EmptyString)
  | String c rest =>
      if char_in c stops then (EmptyString, s)
      else let '(a, b) := span_until stops rest in (String c a, b)
  end.

Definition is_scheme_char (c : ascii) : bool := is_alnum c || char_in c "+-.".

Definition remove_unsafe (s : string) : string :=
  replace_char (char 10) "" (replace_char (char 13) "" (replace_char (char 9) "" s)).

Definition split_scheme (url : string) : string * string :=
  match partition ":" url with
  | Some (String c s as name, rest) =>
      if is_alpha c && str_forallb is_scheme_char name then (lower name, rest) else (EmptyString, url)
  | _ => (EmptyString, url)
  end.

Definition urlsplit (checks : UrlChecks) (url : string) : result exn SplitResult :=
  let url := remove_unsafe (lstrip_by (in_range 0 32) url) in
  let '(sch, url) := split_scheme url in
  let '(loc, url) :=
    if startswith "//" url then span_until "/?#" (str_drop 2 url) else (EmptyString, url) in
  let opens := char_in "[" loc in
  let closes := char_in "]" loc in
  _ ← raise_if (xorb opens closes) (ValueError "Invalid IPv6 URL");
  _ ← raise_if (opens && closes && negb (bracketed_ok checks loc)) (ValueError "Invalid IPv6 URL");
  let '(url, frag) := match partition "#" url with Some p => p | None => (url, EmptyString) end in
  let '(url, q) := match partition "?" url with Some p => p | None => (url, EmptyString) end in
  _ ← raise_if (negb (is_ascii loc || nfkc_ok checks loc))
        (ValueError "netloc contains invalid characters under NFKC normalization");
  Ok (mkSplit sch loc url q frag).

(** [_hostinfo] and the properties on top of it; [None] is [None]. *)
Definition hostinfo (r : SplitResult) : string :=
  match rpartition "@" (netloc r) with Some (_, h) => h | None => netloc r end.

Definition hostname (r : SplitResult) : option string :=
  let h := hostinfo r in
  let name :=
    match partition "[" h with
    | Some (_, bracketed) =>
        match partition "]" bracketed with Some (a, _) => a | None => bracketed end
    | None => match partition ":" h with Some (a, _) => a | None => h end
    end in
  if String.eqb name "" then None
  else Some (match partition "%" name with
             | Some (a, zone) => lower a +:+ "%" +:+ zone
             | None => lower name
             end).

Definition userinfo (r : SplitResult) : option string :=
  match rpartition "@" (netloc r) with Some (u, _) => Some u | None => None end.

Definition username (r : SplitResult) : option string :=
  match userinfo r with
  | Some u => Some (match partition ":" u with Some (a, _) => a | None => u end)
  | None => None
  end.

Definition password (r : SplitResult) : option string :=
  match userinfo r with
  | Some u => match partition ":" u with Some (_, b) => Some b | None => None end
  | None => None
  end.

(** [bool] of an optional string. *)
Definition truthy (s : option string) : bool :=
  match s with Some s => negb (String.eqb s "") | None => false end.

(** * Facts *)

Lemma partition_spec sep s a b :
  partition sep s = Some (a, b) → s = a +:+ String sep b ∧ char_in sep a = false.
Proof.
  revert a b. induction s as [|c s IH]; cbn; intros a b; [done|].
  destruct (Ascii.eqb_spec c sep) as [->|Hne]; [by intros [= <- <-]|].
  destruct (partition sep s) as [[a' b']|]; [|done]. intros [= <- <-].
  destruct (IH a' b' eq_refl) as [-> Ha]. rewrite str_app_cons. split; [done|]. cbn.
  rewrite Ha. destruct (Ascii.eqb_spec sep c); [congruence|done].
Qed.

Lemma rpartition_none sep s : rpartition sep s = None ↔ char_in sep s = false.
Proof.
  induction s as [|c s IH]; cbn; [done|]. rewrite orb_false_iff.
  destruct (rpartition sep s) as [[a b]|].
  - split; [done|]. intros [_ H]. by apply IH in H.
  - destruct (Ascii.eqb_spec c sep) as [->|Hne].
    + rewrite Ascii.eqb_refl. split; [done|]. by intros [? _].
    + destruct (Ascii.eqb_spec sep c); [congruence|]. split; [|done]. intros _. by rewrite <- IH.
Qed.

Lemma rpartition_spec sep s a b : rpartition sep s = Some (a, b) → s = a +:+ String sep b.
Proof.
  revert a b. induction s as [|c s IH]; cbn; intros a b; [done|].
  destruct (rpartition sep s) as [[a' b']|].
  - intros [= <- <-]. rewrite str_app_cons. by rewrite (IH a' b' eq_refl).
  - destruct (Ascii.eqb_spec c sep) as [->|]; [|done]. by intros [= <- <-].
Qed.

(** A URL without a username or password has no [@] in its network location,
    unless both are empty there. *)
Lemma no_userinfo r :
  truthy (username r) = false → truthy (password r) = false →
  char_in "@" (netloc r) = false ∨ ∃ h, netloc r = String "@" h ∨ netloc r = ":@" +:+ h.
Proof.
  unfold username, password, userinfo.
  destruct (rpartition "@" (netloc r)) as [[u h]|] eqn:E; [|intros _ _; left; by apply rpartition_none].
  intros Hu Hp. right. exists h.
  apply rpartition_spec in E as Hs.
  rewrite Hs. destruct (partition ":" u) as [[a b]|] eqn:Ep.
  - apply partition_spec in Ep as [-> _]. cbn in Hu, Hp.
    apply negb_false_iff, String.eqb_eq in Hu as ->. apply negb_false_iff, String.eqb_eq in Hp as ->.
    by right.
  - cbn in Hu. apply negb_false_iff, String.eqb_eq in Hu as ->. by left.
Qed.
