(* ===== verification/Sha256.v ===== *)
(** SHA-256 ([hashlib.sha256(...).hexdigest()]): FIPS 180-4 on 32-bit words kept
    as integers below 2^32. *)

From S2P Require Import Prelude Text.

Open Scope list_scope.
Open Scope Z_scope.

Definition w32 (x : Z) : Z := Z.land x 0xffffffff.
Definition rotr (n x : Z) : Z := w32 (Z.lor (Z.shiftr x n) (Z.shiftl x (32 - n))).
Definition add32 (x y : Z) : Z := w32 (x + y).

Definition Ch (x y z : Z) : Z := Z.lxor (Z.land x y) (Z.land (Z.lxor x 0xffffffff) z).
Definition Maj (x y z : Z) : Z := Z.lxor (Z.lxor (Z.land x y) (Z.land x z)) (Z.land y z).
Definition Sigma0 (x : Z) : Z := Z.lxor (Z.lxor (rotr 2 x) (rotr 13 x)) (rotr 22 x).
Definition Sigma1 (x : Z) : Z := Z.lxor (Z.lxor (rotr 6 x) (rotr 11 x)) (rotr 25 x).
Definition sigma0 (x : Z) : Z := Z.lxor (Z.lxor (rotr 7 x) (rotr 18 x)) (Z.shiftr x 3).
Definition sigma1 (x : Z) : Z := Z.lxor (Z.lxor (rotr 17 x) (rotr 19 x)) (Z.shiftr x 10).

(** The constants are the first 32 bits of the fractional parts of the cube roots
    (rounds) and square roots (initial value) of the first primes. *)
Definition is_prime (n : nat) : bool :=
  (2 <=? n)%nat && forallb (λ d, negb (n mod d =? 0)%nat) (seq 2 (n - 2)).
Definition primes : list Z := Z.of_nat <$> List.filter is_prime (seq 2 310).

(** The largest [r + x] with [x < 2^bits] whose cube is at most [n]. *)
Fixpoint cube_root (bits : nat) (n r : Z) : Z :=
  match bits with
  | O => r
  | S bits =>
      let r' := r + Z.shiftl 1 (Z.of_nat bits) in
      cube_root bits n (if r' * r' * r' <=? n then r' else r)
  end.

Definition round_constants : list Z :=
  Eval vm_compute in (λ p, w32 (cube_root 40 (Z.shiftl p 96) 0)) <$> take 64 primes.

Definition initial_hash : list Z :=
  Eval vm_compute in (λ p, w32 (Z.sqrt (Z.shiftl p 64))) <$> take 8 primes.

(** ** Padding and words *)

Definition be_bytes (n : nat) (x : Z) : list Z :=
  map (λ i, Z.land (Z.shiftr x (8 * Z.of_nat i)) 0xff) (rev (seq 0 n)).

Definition pad (msg : list Z) : list Z :=
  let len := Z.of_nat (length msg) in
  msg ++ [0x80] ++ replicate (Z.to_nat ((55 - len) mod 64)) 0 ++ be_bytes 8 (8 * len).

Fixpoint words (bytes : list Z) : list Z :=
  match bytes with
  | a :: b :: c :: d :: rest =>
      (Z.shiftl a 24 + Z.shiftl b 16 + Z.shiftl c 8 + d) :: words rest
  | _ => []
  end.

Fixpoint chunks (fuel n : nat) (l : list Z) : list (list Z) :=
  match fuel, l with
  | S fuel, _ :: _ => take n l :: chunks fuel n (drop n l)
  | _, _ => []
  end.

(** ** Compression *)

(** The schedule, newest word first. *)
Fixpoint expand (n : nat) (w : list Z) : list Z :=
  match n with
  | O => w
  | S n =>
      let at_ i := nth i w 0 in
      expand n (add32 (add32 (sigma1 (at_ 1%nat)) (at_ 6%nat))
                      (add32 (sigma0 (at_ 14%nat)) (at_ 15%nat)) :: w)
  end.

Definition round (st : list Z) (kw : Z * Z) : list Z :=
  match st with
  | [a; b; c; d; e; f; g; h] =>
      let t1 := add32 (add32 (add32 h (Sigma1 e)) (add32 (Ch e f g) (fst kw))) (snd kw) in
      let t2 := add32 (Sigma0 a) (Maj a b c) in
      [add32 t1 t2; a; b; c; add32 d t1; e; f; g]
  | _ => st
  end.

Definition compress (h block : list Z) : list Z :=
  let w := rev (expand 48 (rev block)) in
  zip_with add32 h (fold_left round (combine round_constants w) h).

Definition sha256_words (msg : list Z) : list Z :=
  let ws := words (pad msg) in
  fold_left compress (chunks (length ws) 16 ws) initial_hash.

(** ** Hexadecimal digest of a text of ASCII characters *)

Definition hex_char (n : Z) : ascii :=
  ascii_of_nat (Z.to_nat (if n <? 10 then 48 + n else 87 + n)).

Definition hex_word (x : Z) : list ascii :=
  flat_map (λ b, [hex_char (Z.shiftr b 4); hex_char (Z.land b 15)]) (be_bytes 4 x).

Definition sha256_hex (s : string) : string :=
  let bytes := map (λ c, Z.of_nat (nat_of_ascii c)) (String.list_ascii_of_string s) in
  String.string_of_list_ascii (flat_map hex_word (sha256_words bytes)).

Example sha256_abc :
  sha256_hex "abc" = "ba7816bf8f01cfea414140de5dae2223b00361a396177a9cb410ff61f20015ad"%string.
Proof. by vm_compute. Qed.

Example sha256_two_blocks :
  sha256_hex "abcdbcdecdefdefgefghfghighijhijkijkljklmklmnlmnomnopnopq" =
    "248d6a61d20638b8e5c026930c3e6039a33ce45964ff2167f6ecedd419db06c1"%string.
Proof. by vm_compute. Qed.

(** A digest is 64 characters long. *)
Lemma hex_word_length x : length (hex_word x) = 8%nat.
Proof. done. Qed.

Lemma round_length st kw : length st = 8%nat → length (round st kw) = 8%nat.
Proof. by destruct st as [|? [|? [|? [|? [|? [|? [|? [|? [|]]]]]]]]]. Qed.

Lemma compress_length h block : length h = 8%nat → length (compress h block) = 8%nat.
Proof.
  intros Hh. unfold compress. rewrite length_zip_with.
  assert (∀ l st, length st = 8%nat → length (fold_left round l st) = 8%nat) as Hf.
  { induction l as [|kw l IH]; cbn; intros st Hst; [done|]. apply IH. by apply round_length. }
  rewrite Hf; lia.
Qed.

Lemma sha256_hex_length s : String.length (sha256_hex s) = 64%nat.
Proof.
  unfold sha256_hex. rewrite <- (String.string_of_list_ascii_of_string (String.string_of_list_ascii _)).
  set (ws := sha256_words _).
  assert (Hws : length ws = 8%nat).
  { subst ws. unfold sha256_words. set (cs := chunks _ _ _). generalize cs. intros l.
    assert (Hg : ∀ l h, length h = 8%nat → length (fold_left compress l h) = 8%nat).
    { clear. induction l as [|b l IH]; intros h Hh; [done|]. apply (IH (compress h b)).
      by apply compress_length. }
    by apply Hg. }
  clearbody ws.
  assert (Hlen : ∀ l, String.length (String.string_of_list_ascii l) = length l).
  { induction l as [|c l IH]; cbn; [done|]. by rewrite IH. }
  rewrite String.list_ascii_of_string_of_list_ascii, Hlen.
  assert (Hf : ∀ l, length (flat_map hex_word l) = (8 * length l)%nat).
  { induction l as [|x l IH]; [done|]. cbn [flat_map]. rewrite length_app, hex_word_length, IH. cbn. lia. }
  rewrite Hf, Hws. done.
Qed.
