(* ===== verification/Telemetry.v ===== *)
(** Bounded telemetry: [controlplane/telemetry.py] and [cli/djangoops/telemetry.py].

    Random identifiers ([secrets.token_hex]) and elapsed times are arguments.  The
    exporting worker is a step of the state machine at the end: it takes the
    oldest payload, and the request it makes succeeds or fails. *)

From stdpp Require Import sorting.
From S2P Require Import Prelude Text Regex Json Url.

Open Scope list_scope.
Open Scope nat_scope.

Definition MAX_CORRELATION : nat := 64.
Definition MAX_VALUE : nat := 256.
Definition ALLOWED_COMPONENTS : list string := ["controlplane"; "agent"; "cli"].
Definition ALLOWED_KINDS : list string :=
  ["diagnostic"; "kubernetes_release"; "deploy"; "health"; "backup"; "restore"; "graphql"].
Definition ALLOWED_OUTCOMES : list string :=
  ["pending"; "running"; "succeeded"; "failed"; "cancelled"; "offline"; "overloaded";
   "disconnected"; "timeout"; "rolled_back"; "rollback_blocked"; "recovery_required"].
Definition MAX_DURATION_MS : Z := 86400000.

Definition safe_char : ascii → bool := or_class is_alnum (one_of "_.:/@+-").
Definition SAFE : re := Cls (not_class safe_char).

(** [(word|...)\s*[:=]\s*\S+], ignoring case. *)
Definition SENSITIVE_HEAD : re :=
  ((ILit "credential" ∥ ILit "password" ∥ ILit "secret" ∥ ILit "token" ∥
    ILit "authorization" ∥ ILit "access" ⋅ Opt (Cls (one_of "_-")) ⋅ ILit "key" ∥
    ILit "database" ⋅ Opt (Cls (one_of "_-")) ⋅ ILit "url" ∥ ILit "kubeconfig")
   ⋅ Star (Cls is_space) ⋅ Cls (one_of ":=") ⋅ Star (Cls is_space))%re.
Definition SENSITIVE : re := Seq SENSITIVE_HEAD (Plus (Cls (not_class is_space))).

(** [correlation_id]; [random] is the token it would generate. *)
Definition correlation_id (random : string) (value : option string) : string :=
  match value with
  | None => random
  | Some v =>
      let cleaned := str_take MAX_CORRELATION
        (sub SAFE "_" (replace_char (char 13) "_" (replace_char (char 10) "_" v))) in
      if String.eqb cleaned "" then random else cleaned
  end.

Definition redact (value : string) : string :=
  str_take MAX_VALUE
    (sub SENSITIVE "[REDACTED]" (replace_char (char 10) " " (replace_char (char 13) " " value))).

Definition validate_otlp_endpoint (checks : UrlChecks) (value : string) : result exn string :=
  let value := strip value in
  if String.eqb value "" then Ok ""%string
  else
    parsed ← urlsplit checks value;
    _ ← raise_if (negb (str_in (scheme parsed) ["http"; "https"]) || negb (truthy (hostname parsed)))
          (ValueError "OTLP endpoint must be an http(s) URL");
    _ ← raise_if (truthy (username parsed) || truthy (password parsed) ||
                  negb (String.eqb (query parsed) "") || negb (String.eqb (fragment parsed) ""))
          (ValueError "OTLP endpoint must be configured without credentials, query, or fragment");
    Ok (rstrip "/" value).

Definition traceparent (trace_random span_random : string) (trace_id span_id : option string) : string :=
  let pick n given random :=
    match given with
    | Some s => if String.length s =? n then s else random
    | None => random
    end in
  "00-" +:+ pick 32 trace_id trace_random +:+ "-" +:+ pick 16 span_id span_random +:+ "-01".

Record TelemetryEvent := mkEvent {
  ev_component : string;
  ev_kind : string;
  ev_outcome : string;
  ev_duration_ms : Z;
  ev_correlation : string;
  ev_project_id : option Z
}.

Definition payload (e : TelemetryEvent) : json :=
  JObj [("component", JStr (ev_component e)); ("kind", JStr (ev_kind e));
        ("outcome", JStr (ev_outcome e)); ("duration_ms", JInt (ev_duration_ms e));
        ("correlation_id", JStr (ev_correlation e));
        ("project_id", match ev_project_id e with Some z => JInt z | None => JNull end)]%string.

Definition otlp_payload (trace span : string) (e : TelemetryEvent) : json :=
  let attribute k v := JObj [("key", JStr k); ("value", JObj [("stringValue", JStr v)])]%string in
  JObj [("resourceSpans", JArr [JObj
    [("resource", JObj [("attributes", JArr [attribute "service.name" "djangoops-controlplane"])]);
     ("scopeSpans", JArr [JObj
       [("scope", JObj [("name", JStr "djangoops")]);
        ("spans", JArr [JObj
          [("traceId", JStr trace); ("spanId", JStr span);
           ("name", JStr ("djangoops." +:+ ev_kind e));
           ("attributes", JArr [attribute "djangoops.outcome" (ev_outcome e);
                                attribute "djangoops.correlation_id" (ev_correlation e)])]])]])]])]%string.

(** * State *)

Abbreviation label := (string * string * string)%type.

Record Telemetry := mkTelemetry {
  t_endpoint : string;
  t_size : nat;
  t_counts : gmap label Z;
  t_durations : gmap label Z;
  t_inflight : gmap (string * string) Z;
  t_events : list TelemetryEvent;
  t_exports : list json;
  t_dropped : Z;
  t_export_errors : Z;
  t_worker_started : bool
}.

Definition buffer_size (max_buffer : Z) : nat := Z.to_nat (Z.max 8 (Z.min max_buffer 1024)).

(** [Telemetry.__init__]; [env] is [DJANGOOPS_OTLP_ENDPOINT], empty when unset. *)
Definition telemetry_init (checks : UrlChecks) (env : string) (max_buffer : Z)
    (endpoint : option string) : result exn Telemetry :=
  url ← validate_otlp_endpoint checks (match endpoint with Some e => e | None => env end);
  Ok (mkTelemetry url (buffer_size max_buffer) ∅ ∅ ∅ [] [] 0 0 false).

Definition labels (component kind outcome : string) : label :=
  (if str_in component ALLOWED_COMPONENTS then component else "controlplane",
   if str_in kind ALLOWED_KINDS then kind else "diagnostic",
   if str_in outcome ALLOWED_OUTCOMES then outcome else "failed")%string.

(** [counter[key] += n] on a [Counter]. *)
Definition counter_add {K} `{Countable K} (key : K) (n : Z) (c : gmap K Z) : gmap K Z :=
  <[key := (default 0 (c !! key) + n)%Z]> c.

(** [deque(maxlen=n).append]. *)
Definition deque_append {A} (n : nat) (x : A) (q : list A) : list A :=
  let q := q ++ [x] in drop (length q - n) q.

Definition start (component kind : string) (t : Telemetry) : Telemetry :=
  let '(c, k, _) := labels component kind "pending" in
  mkTelemetry (t_endpoint t) (t_size t) (t_counts t) (t_durations t)
    (counter_add (c, k) 1 (t_inflight t)) (t_events t) (t_exports t) (t_dropped t)
    (t_export_errors t) (t_worker_started t).

(** The event [observe] builds. *)
Definition event_of_args (random component kind outcome : string) (duration_ms : Z)
    (correlation : option string) (project_id : option Z) : TelemetryEvent :=
  let '(c, k, o) := labels component kind outcome in
  mkEvent c k o (Z.max 0 (Z.min duration_ms MAX_DURATION_MS)) (correlation_id random correlation)
    project_id.

(** Its locked update. *)
Definition record_event (e : TelemetryEvent) (decrement_inflight : bool) (t : Telemetry) : Telemetry :=
  let key := (ev_component e, ev_kind e, ev_outcome e) in
  let ck := (ev_component e, ev_kind e) in
  mkTelemetry (t_endpoint t) (t_size t)
    (counter_add key 1 (t_counts t)) (counter_add key (ev_duration_ms e) (t_durations t))
    (if decrement_inflight
     then <[ck := Z.max 0 (default 0 (t_inflight t !! ck) - 1)%Z]> (t_inflight t)
     else t_inflight t)
    (deque_append (t_size t) e (t_events t)) (t_exports t) (t_dropped t) (t_export_errors t)
    (t_worker_started t).

Definition set_exports (q : list json) (dropped : Z) (started : bool) (t : Telemetry) : Telemetry :=
  mkTelemetry (t_endpoint t) (t_size t) (t_counts t) (t_durations t) (t_inflight t) (t_events t)
    q dropped (t_export_errors t) started.

(** [_enqueue] and [_ensure_worker]. *)
Definition enqueue (payload : json) (t : Telemetry) : Telemetry :=
  if String.eqb (t_endpoint t) "" then t
  else if has_room (t_size t) (t_exports t)
  then set_exports (t_exports t ++ [payload]) (t_dropped t) true t
  else set_exports (t_exports t) (t_dropped t + 1) (t_worker_started t) t.

(** One iteration of [_export_loop]: [None] while the queue is empty. *)
Definition export_one (request_ok : bool) (t : Telemetry) : option Telemetry :=
  match t_exports t with
  | [] => None
  | _ :: rest =>
      Some (mkTelemetry (t_endpoint t) (t_size t) (t_counts t) (t_durations t) (t_inflight t)
              (t_events t) rest (t_dropped t)
              (if request_ok then t_export_errors t else t_export_errors t + 1)%Z
              (t_worker_started t))
  end.

Definition finish_duration (elapsed_ms : Z) : Z := Z.min (Z.max 0 elapsed_ms) MAX_DURATION_MS.

(** [observe]; [random], [trace] and [span] are the tokens it draws. *)
Definition observe (random trace span component kind outcome : string) (duration_ms : Z)
    (correlation : option string) (project_id : option Z) (decrement_inflight : bool)
    (t : Telemetry) : Telemetry :=
  let e := event_of_args random component kind outcome duration_ms correlation project_id in
  enqueue (otlp_payload trace span e) (record_event e decrement_inflight t).

(** [finish], [elapsed_ms] milliseconds after the [started] of [start]. *)
Definition finish (random trace span component kind outcome correlation : string) (elapsed_ms : Z)
    (project_id : option Z) (t : Telemetry) : Telemetry :=
  observe random trace span component kind outcome (finish_duration elapsed_ms) (Some correlation)
    project_id true t.

(** [recent_for_project]. *)
Definition recent_for_project (project : Z) (limit : Z) (t : Telemetry) : list json :=
  let values := payload <$> filter (λ e, ev_project_id e = Some project) (t_events t) in
  drop (length values - Z.to_nat (Z.max 1 (Z.min limit 50))) values.

(** * The Prometheus text *)

(** [sorted(counter.items())]: tuples of strings, by insertion. *)
Fixpoint tuple_leb (a b : list string) : bool :=
  match a, b with
  | [], _ => true
  | _ :: _, [] => false
  | x :: a, y :: b => if String.eqb x y then tuple_leb a b else str_leb x y
  end.

Fixpoint insert_by {A} (leb : A → A → bool) (x : A) (l : list A) : list A :=
  match l with
  | [] => [x]
  | y :: l => if leb x y then x :: y :: l else y :: insert_by leb x l
  end.
Definition sort_by {A} (leb : A → A → bool) (l : list A) : list A := foldr (insert_by leb) [] l.

Definition label_list (l : label) : list string := [l.1.1; l.1.2; l.2].
Definition sorted_counter (c : gmap label Z) : list (label * Z) :=
  sort_by (λ x y, tuple_leb (label_list x.1) (label_list y.1)) (map_to_list c).
Definition sorted_inflight (c : gmap (string * string) Z) : list (string * string * Z) :=
  sort_by (λ x y, tuple_leb [x.1.1; x.1.2] [y.1.1; y.1.2]) (map_to_list c).

Definition quoted (s : string) : string := dquote +:+ s +:+ dquote.

Definition counter_line (name : string) (item : label * Z) : string :=
  let '((c, k, o), v) := item in
  name +:+ "{component=" +:+ quoted c +:+ ",kind=" +:+ quoted k +:+ ",outcome=" +:+ quoted o
    +:+ "} " +:+ str_of_Z v.

Definition inflight_line (item : string * string * Z) : string :=
  let '((c, k), v) := item in
  "djangoops_operations_inflight{component=" +:+ quoted c +:+ ",kind=" +:+ quoted k
    +:+ "} " +:+ str_of_Z v.

Definition EXTRA_NAME : re :=
  (Lit "djangoops_" ⋅ Plus (Cls (or_class is_lower (or_class is_digit (one_of "_")))))%re.

Definition extra_lines (extra : list (string * Z)) : list string :=
  (λ kv, kv.1 +:+ " " +:+ str_of_Z (Z.max 0 kv.2)) <$>
    filter (λ kv, fullmatch EXTRA_NAME kv.1 = true) (sort_items extra).

Definition prometheus_lines (extra : list (string * Z)) (t : Telemetry) : list string :=
  ["# TYPE djangoops_operations_total counter"%string]
  ++ (counter_line "djangoops_operations_total" <$> sorted_counter (t_counts t))
  ++ ["# TYPE djangoops_operation_duration_milliseconds_total counter"%string]
  ++ (counter_line "djangoops_operation_duration_milliseconds_total" <$> sorted_counter (t_durations t))
  ++ ["# TYPE djangoops_operations_inflight gauge"%string]
  ++ (inflight_line <$> sorted_inflight (t_inflight t))
  ++ [("djangoops_telemetry_dropped_total " +:+ str_of_Z (t_dropped t))%string;
      ("djangoops_telemetry_export_errors_total " +:+ str_of_Z (t_export_errors t))%string]
  ++ extra_lines extra.

Definition prometheus (extra : list (string * Z)) (t : Telemetry) : string :=
  join newline (prometheus_lines extra t) +:+ newline.

(** * Concurrent use

    Each method holds the lock once; [observe] enqueues after releasing it, so the
    enqueueing is a step of its own. *)

Inductive tel_step : Telemetry → Telemetry → Prop :=
| ts_start component kind t : tel_step t (start component kind t)
| ts_record random component kind outcome ms correlation project dec t :
    tel_step t (record_event (event_of_args random component kind outcome ms correlation project) dec t)
| ts_enqueue trace span e t : tel_step t (enqueue (otlp_payload trace span e) t)
| ts_export ok t t' : export_one ok t = Some t' → tel_step t t'.

(** * The command line's identifiers ([cli/djangoops/telemetry.py]) *)

Definition operation_id (random kind : string) : string :=
  let cleaned := str_take 16 (sub (Cls (not_class (or_class is_alnum (one_of "._-")))) "_" kind) in
  let prefix := if String.eqb cleaned "" then "operation"%string else cleaned in
  str_take 64 (prefix +:+ "-" +:+ random).
