(* ===== verification/Models.v ===== *)
(** The rows of [controlplane/models.py].

    A foreign key is represented by the row it refers to: the modelled code never
    changes a project or an agent registration.  Times are integers. *)

From S2P Require Import Prelude Text.

Open Scope list_scope.
Open Scope nat_scope.

Record Project := mkProject {
  project_id : nat;
  slug : string;
  project_name : string;
  release_root : string;
  members : list nat
}.

Record AgentRegistration := mkAgent {
  registration_id : nat;
  agent_project : Project;
  agent_id : string;
  agent_capabilities : list string
}.

(** [DiagnosticOperation.Status]: the stored values. *)
Definition operation_statuses : list string :=
  ["pending"; "running"; "succeeded"; "failed"; "cancelled"; "offline"; "overloaded";
   "disconnected"; "timeout"].

Record check_row := mkCheck { ck_name : string; ck_status : string; ck_detail : string }.

(** [result_summary]: the JSON objects the code stores. *)
Inductive operation_summary :=
| NoSummary
| ProgressSummary (phase message : string)
| ChecksSummary (checks : list check_row).

Record DiagnosticOperation := mkOperation {
  op_public_id : string;
  op_project : Project;
  op_agent : AgentRegistration;
  op_requested_by : nat;
  op_diagnostic : string;
  op_status : string;
  op_result_summary : operation_summary;
  op_error_code : string;
  op_created_at : Z;
  op_updated_at : Z
}.

Record KubernetesTarget := mkTarget {
  kt_public_id : string;
  kt_project : Project;
  kt_agent : AgentRegistration;
  kt_name : string;
  kt_api_server : string;
  kt_namespace : string;
  kt_release_name : string;
  kt_credential_ref : string;
  kt_ingress_class : string;
  kt_tls_secret_name : string;
  kt_validated_at : option Z;
  kt_permissions : list string
}.

(** [KubernetesRelease.Status]: the stored values. *)
Definition release_statuses : list string :=
  ["pending"; "validating"; "migrating"; "applying"; "verifying"; "succeeded"; "failed";
   "cancelled"; "rolled_back"; "rollback_blocked"].

Record KubernetesRelease := mkRelease {
  rl_public_id : string;
  rl_target : nat;
  rl_project : nat;
  rl_requested_by : nat;
  rl_status : string;
  rl_operation_id : string;
  rl_image : string;
  rl_chart_version : string;
  rl_values_digest : string;
  rl_values_snapshot : string;
  rl_helm_revision : option Z;
  rl_previous_helm_revision : option Z;
  rl_previous_image : string;
  rl_previous_values_digest : string;
  rl_migration_compatibility : string;
  rl_rollback_status : string;
  rl_error_code : string;
  rl_created_at : Z
}.
