(* ===== verification/Services.v ===== *)
(** Diagnostic operations: [controlplane/services.py].

    Requests ([start], [cancel]) and the background task [_consume] are threads
    over the operations table; the backend and the job stream they wait for are
    arguments, since the gateway answers them at its own pace. *)

From S2P Require Import Prelude Text Regex Gateway Store Models.

Open Scope list_scope.
Open Scope nat_scope.

(** * Constants *)

Definition MAX_HISTORY_PER_PROJECT : nat := 200.
Definition MAX_CHECKS : nat := 32.
Definition MAX_DETAIL : nat := 2048.

(** [(secret|password|token|access[_-]?key)\s*[:=]\s*\S+], ignoring case. *)
Definition SECRET_HEAD : re :=
  ((ILit "secret" ∥ ILit "password" ∥ ILit "token" ∥
    ILit "access" ⋅ Opt (Cls (one_of "_-")) ⋅ ILit "key")
   ⋅ Star (Cls is_space) ⋅ Cls (one_of ":=") ⋅ Star (Cls is_space))%re.
Definition SECRET_RE : re := Seq SECRET_HEAD (Plus (Cls (not_class is_space))).

Definition TERMINAL : list string :=
  ["succeeded"; "failed"; "cancelled"; "offline"; "overloaded"; "disconnected"; "timeout"].
Definition ACTIVE : list string := ["pending"; "running"].

Definition redact (value : string) : string :=
  str_take MAX_DETAIL (sub SECRET_RE "[REDACTED]" value).

(** * The backend *)

Record OperationsBackend := mkBackend {
  be_connected : string → bool;
  be_heartbeat_age : string → option Z;
  be_capabilities : string → list string;
  be_protocol_version : string → Z * Z;
  be_start : DiagnosticOperation → result exn ();
  be_cancel : DiagnosticOperation → result exn bool
}.

(** [gateway_runtime()]: the registered gateway. *)
Definition gateway_runtime (registered : option AgentGateway) : result exn AgentGateway :=
  match registered with
  | Some g => Ok g
  | None => Err (RuntimeError "Phase 1 gateway runtime is unavailable")
  end.

(** [except (RuntimeError, LookupError): return default]. *)
Definition default_on_lookup {A} (default : A) (m : result exn A) : result exn A :=
  match m with
  | Err (RuntimeError _) | Err (LookupError _) => Ok default
  | _ => m
  end.

Definition runtime_connected (registered : option AgentGateway) (agent : string) : bool :=
  match gateway_runtime registered with
  | Ok g => is_connected agent g
  | Err _ => false
  end.

Definition runtime_heartbeat_age (now : Z) (registered : option AgentGateway) (agent : string)
    : result exn (option Z) :=
  default_on_lookup None
    (g ← gateway_runtime registered; age ← heartbeat_age now agent g; Ok (Some age)).

Definition runtime_capabilities (registered : option AgentGateway) (agent : string)
    : result exn (list string) :=
  default_on_lookup [] (g ← gateway_runtime registered; capabilities agent g).

Definition runtime_protocol_version (registered : option AgentGateway) (agent : string)
    : result exn (Z * Z) :=
  default_on_lookup (0, 0)%Z (g ← gateway_runtime registered; protocol_version agent g).

(** [RuntimeGatewayBackend]; [cancelled] is what [future.result(timeout=2)]
    returns or raises for the gateway's [cancel]. *)
Definition RuntimeGatewayBackend (now : Z) (registered : option AgentGateway)
    (cancelled : string → result exn bool) : OperationsBackend :=
  mkBackend (runtime_connected registered)
    (λ a, match runtime_heartbeat_age now registered a with Ok v => v | Err _ => None end)
    (λ a, match runtime_capabilities registered a with Ok v => v | Err _ => [] end)
    (λ a, match runtime_protocol_version registered a with Ok v => v | Err _ => (0, 0)%Z end)
    (λ op, _ ← gateway_runtime registered; Ok ())
    (λ op, _ ← gateway_runtime registered; cancelled (op_public_id op)).

Record AgentState := mkAgentState {
  st_connected : bool;
  st_heartbeat_age : option Z;
  st_capabilities : list string;
  st_protocol_major : option Z;
  st_protocol_minor : option Z
}.

Definition agent_state (be : OperationsBackend) (agent : AgentRegistration) : AgentState :=
  if be_connected be (agent_id agent) then
    let '(major, minor) := be_protocol_version be (agent_id agent) in
    mkAgentState true (be_heartbeat_age be (agent_id agent))
      (be_capabilities be (agent_id agent)) (Some major) (Some minor)
  else mkAgentState false None (agent_capabilities agent) None None.

(** * Statements on the operations table *)

Definition set_status (status code : string) (op : DiagnosticOperation) : DiagnosticOperation :=
  mkOperation (op_public_id op) (op_project op) (op_agent op) (op_requested_by op)
    (op_diagnostic op) status (op_result_summary op) code (op_created_at op) (op_updated_at op).
Definition set_summary (s : operation_summary) (op : DiagnosticOperation) : DiagnosticOperation :=
  mkOperation (op_public_id op) (op_project op) (op_agent op) (op_requested_by op)
    (op_diagnostic op) (op_status op) s (op_error_code op) (op_created_at op) (op_updated_at op).
Definition touch (now : Z) (op : DiagnosticOperation) : DiagnosticOperation :=
  mkOperation (op_public_id op) (op_project op) (op_agent op) (op_requested_by op)
    (op_diagnostic op) (op_status op) (op_result_summary op) (op_error_code op)
    (op_created_at op) now.

Definition terminal (op : DiagnosticOperation) : bool := str_in (op_status op) TERMINAL.
Definition active (op : DiagnosticOperation) : bool := str_in (op_status op) ACTIVE.

(** What a request returns: the operation's key and the status and error code of
    the object in memory. *)
Abbreviation reply := (pk * string * string)%type.

Section statements.
Context {T : Type} `{Table DiagnosticOperation T}.

(** [filter(pk=pk, status__in=_ACTIVE).update(...)]. *)
Definition update_active (k : pk) (f : DiagnosticOperation → DiagnosticOperation) (t : T) : T :=
  tb_update (λ k' op, (k' =? k) && active op) f t.

Definition set_running (k : pk) (t : T) : T :=
  tb_update (λ k' op, (k' =? k) && String.eqb (op_status op) "pending")
    (λ op, set_status "running" (op_error_code op) op) t.

Definition save_progress (k : pk) (phase message : string) : T → T :=
  update_active k (set_summary (ProgressSummary (str_take 64 phase) (redact message))).

Definition mapped_status (status : string) : string :=
  if String.eqb status "succeeded" then "succeeded"
  else if String.eqb status "cancelled" then "cancelled"
  else if String.eqb status "disconnected" then "disconnected"
  else "failed".

Definition save_result (k : pk) (status : string) (checks : list check_row) : T → T :=
  update_active k (λ op,
    set_summary (ChecksSummary checks)
      (set_status (mapped_status status)
        (if String.eqb (mapped_status status) "succeeded" then ""
         else str_take 32 (upper status)) op)).

Definition save_error (k : pk) (status code : string) : T → T :=
  update_active k (set_status status code).

(** [operation.save(update_fields=("status", "error_code", "updated_at"))]: the
    row is written whatever it holds by now. *)
Definition save_status (now : Z) (k : pk) (status code : string) : T → T :=
  tb_update (λ k' _, k' =? k) (λ op, touch now (set_status status code op)).

(** The terminal rows of a project beyond the newest [_MAX_HISTORY_PER_PROJECT]. *)
Definition stale_history (project : nat) (t : T) : list pk :=
  drop MAX_HISTORY_PER_PROJECT
    (tb_select (λ _ op, (project_id (op_project op) =? project) &&
                        negb (str_in (op_status op) ["pending"; "running"]))
       op_created_at t).
#[global] Arguments stale_history : simpl never.

(** [_trim_history]: the query, then the deletion. *)
Definition trim_history {A} (project : nat) (k : T → thread T A) : thread T A :=
  read_then (λ t,
    match stale_history project t with
    | [] => k t
    | ids => Stmt (tb_delete ids) k
    end).

(** * Requests *)

Definition lower_contains (p s : string) : bool := contains p (lower s).

Definition start (be : OperationsBackend) (now : Z) (uuid : string)
    (agent : AgentRegistration) (user : nat) (diagnostic : string) : thread T (result exn reply) :=
  if negb (String.eqb diagnostic "django_health")
  then Return (Err (ValueError "unsupported diagnostic"))
  else
    let op := mkOperation uuid (agent_project agent) agent user diagnostic "pending" NoSummary "" now now in
    Stmt (λ t, (tb_create op t).1) (λ t,
      let k := (tb_create op t).2 in
      let finish status code :=
        trim_history (project_id (agent_project agent)) (λ _, Return (Ok (k, status, code))) in
      let save status code :=
        Stmt (save_status now k status code) (λ t,
          match tb_get t k with
          | Some _ => finish status code
          | None => Return (Err (OtherError "save did not affect any rows"))
          end) in
      if negb (be_connected be (agent_id agent)) then save "offline" "AGENT_OFFLINE"
      else
        match be_start be op with
        | Ok _ => finish "pending" ""
        | Err (RuntimeError msg) =>
            if lower_contains "capacity" msg then save "overloaded" "OVERLOADED"
            else save "failed" "GATEWAY_UNAVAILABLE"
        | Err e => Return (Err e)
        end).

(** [operation.refresh_from_db()]. *)
Definition refresh {A} (k : pk) (cont : DiagnosticOperation → thread T (result exn A))
    : thread T (result exn A) :=
  read_then (λ t,
    match tb_get t k with
    | Some op => cont op
    | None => Return (Err (OtherError "DiagnosticOperation.DoesNotExist"))
    end).

(** The outcome [cancel] records for the backend's answer; exceptions of other
    classes propagate. *)
Definition cancel_outcome (answer : result exn bool) : result exn (string * string) :=
  match answer with
  | Err (TimeoutError _) => Ok ("failed", "CANCEL_TIMEOUT")
  | Err (RuntimeError _) => Ok ("failed", "CANCEL_FAILED")
  | Err e => Err e
  | Ok true => Ok ("cancelled", "")
  | Ok false => Ok ("disconnected", "CANCEL_UNAVAILABLE")
  end%string.

Definition cancel_operation (be : OperationsBackend) (k : pk) : thread T (result exn reply) :=
  refresh k (λ op,
    if terminal op then Return (Ok (k, op_status op, op_error_code op))
    else
      match cancel_outcome (be_cancel be op) with
      | Err e => Return (Err e)
      | Ok (status, code) =>
          Stmt (update_active k (set_status status code)) (λ _,
            refresh k (λ op, Return (Ok (k, op_status op, op_error_code op))))
      end).

(** * The background task *)

(** What the job stream does: the frames it yields, then how it ends. *)
Inductive stream_end :=
| StreamDone
| StreamRaises (e : exn).

Definition check_of (c : DiagnosticCheck) : check_row :=
  mkCheck (str_take 128 (check_name c)) (str_take 32 (check_status c)) (redact (check_detail c)).

(** The statement a frame causes. *)
Definition frame_statement (k : pk) (f : AgentFrame) : option (T → T) :=
  match f with
  | FProgress _ _ phase message => Some (save_progress k phase message)
  | FResult r => Some (save_result k (dr_status r) (check_of <$> take MAX_CHECKS (dr_checks r)))
  | _ => None
  end.

(** The [except] clauses; a timeout also asks the gateway to cancel the job,
    which may itself raise [cancel_raises] after the [finally]. *)
Definition error_of (e : exn) : string * string :=
  match e with
  | TimeoutError _ => ("timeout", "DIAGNOSTIC_TIMEOUT")
  | LookupError _ => ("offline", "AGENT_OFFLINE")
  | RuntimeError _ => ("overloaded", "OVERLOADED")
  | ValueError _ | OtherError _ => ("failed", "DIAGNOSTIC_FAILED")
  end%string.

Definition finish_stream (k : pk) (e : stream_end) (cancel_raises : option exn)
    : thread T (result exn ()) :=
  match e with
  | StreamDone => Return (Ok ())
  | StreamRaises e =>
      let '(status, code) := error_of e in
      Stmt (save_error k status code) (λ _,
        Return (match e, cancel_raises with TimeoutError _, Some e' => Err e' | _, _ => Ok () end))
  end.

Fixpoint consume_frames (k : pk) (frames : list AgentFrame) (e : stream_end)
    (cancel_raises : option exn) : thread T (result exn ()) :=
  match frames with
  | [] => finish_stream k e cancel_raises
  | f :: frames =>
      match frame_statement k f with
      | Some w => Stmt w (λ _, consume_frames k frames e cancel_raises)
      | None => consume_frames k frames e cancel_raises
      end
  end.

(** [_consume]; [stream] is the gateway's answer to [diagnostics] for the agent,
    job id and release root it is called with. *)
Definition consume (stream : string → string → string → list AgentFrame * stream_end)
    (cancel_raises : option exn) (k : pk) : thread T (result exn ()) :=
  refresh k (λ op,
    Stmt (set_running k) (λ _,
      let '(frames, e) :=
        stream (agent_id (op_agent op)) (op_public_id op) (release_root (op_project op)) in
      consume_frames k frames e cancel_raises)).
End statements.
