(* ===== verification/ServicesProps.v ===== *)
(** The properties of the diagnostic operations ([controlplane/services.py]), for
    every table that satisfies [TableLaws] and every interleaving of requests and
    background tasks. *)

From stdpp Require Import sorting.
From S2P Require Import Prelude Text Regex Redaction Gateway Store Models Services.

Open Scope list_scope.
Open Scope nat_scope.

(** * Redaction *)

Lemma secret_leads h :
  lang SECRET_HEAD h →
  3 ≤ length h ∧ lead 3 h ∈ (String.list_ascii_of_string <$> ["sec"; "pas"; "tok"; "acc"]%string).
Proof.
  intros (w & r & -> & Hw & _).
  assert (Hlead : ∃ l, lead 3 w = l ∧ 3 ≤ length w ∧
    l ∈ (String.list_ascii_of_string <$> ["sec"; "pas"; "tok"; "acc"]%string)).
  { assert (Hi : ∀ s l, lang (ILit s) w → 3 ≤ String.length s →
      lead 3 (String.list_ascii_of_string s) = l → 3 ≤ length w ∧ lead 3 w = l).
    { intros s l Hs. apply (lead_ilit s Eps w l). exists w, []. by rewrite app_nil_r. }
    destruct Hw as [Hw|[Hw|[Hw|Hw]]].
    - destruct (Hi _ _ Hw ltac:(cbn; lia) eq_refl) as [? ->]. eexists. split_and!; [done|done|].
      vm_compute. constructor.
    - destruct (Hi _ _ Hw ltac:(cbn; lia) eq_refl) as [? ->]. eexists. split_and!; [done|done|].
      vm_compute. repeat constructor.
    - destruct (Hi _ _ Hw ltac:(cbn; lia) eq_refl) as [? ->]. eexists. split_and!; [done|done|].
      vm_compute. repeat constructor.
    - destruct (lead_ilit _ _ _ _ Hw ltac:(cbn; lia) eq_refl) as [? ->]. eexists. split_and!; [done|done|].
      vm_compute. repeat constructor. }
  destruct Hlead as (l & <- & Hlen & Hin). rewrite length_app. split; [lia|].
  unfold lead in *. rewrite fmap_app, take_app_le; [done|]. rewrite length_fmap. lia.
Qed.

Lemma redact_no_match value : search SECRET_RE (redact value) = false.
Proof.
  unfold redact, SECRET_RE. eapply redacted_clean; [exact secret_leads|..]; by vm_compute.
Qed.

Lemma redact_length value : String.length (redact value) ≤ MAX_DETAIL.
Proof. apply str_take_length. Qed.

Section props.
Context {T : Type} `{HT : Table DiagnosticOperation T} `{!TableLaws DiagnosticOperation T}.
Implicit Types (t : T) (k : pk) (op : DiagnosticOperation).

(** * Terminal rows *)

Lemma terminal_not_active op : terminal op = true → active op = false.
Proof.
  unfold terminal, active. rewrite str_in_spec. intros Ht.
  destruct (str_in (op_status op) ACTIVE) eqn:E; [|done]. apply str_in_spec in E.
  exfalso. revert Ht E. generalize (op_status op). intros s H1 H2.
  unfold TERMINAL, ACTIVE in *. rewrite !elem_of_cons, elem_of_nil in *.
  destruct H2 as [->|[->|[]]]; repeat (destruct H1 as [H1|H1]; [discriminate H1|]); done.
Qed.

(** One statement: a terminal row is kept as it is, or deleted. *)
Definition keeps_terminal (t t' : T) : Prop :=
  ∀ k op, tb_get t k = Some op → terminal op = true →
    tb_get t' k = Some op ∨ tb_get t' k = None.

Lemma keeps_terminal_refl t : keeps_terminal t t.
Proof. by left. Qed.

Lemma keeps_terminal_update (p : pk → DiagnosticOperation → bool) f t :
  (∀ k op, terminal op = true → p k op = false) → keeps_terminal t (tb_update p f t).
Proof. intros Hp k op Hk Ht. left. rewrite tb_get_update, Hk. cbn. by rewrite (Hp _ _ Ht). Qed.

Lemma keeps_terminal_active k f t : keeps_terminal t (update_active k f t).
Proof.
  apply keeps_terminal_update. intros k' op Ht. by rewrite (terminal_not_active _ Ht), andb_false_r.
Qed.

Lemma keeps_terminal_running k t : keeps_terminal t (set_running k t).
Proof.
  apply keeps_terminal_update. intros k' op Ht%terminal_not_active.
  destruct (String.eqb_spec (op_status op) "pending") as [E|]; [|by rewrite andb_false_r].
  unfold active in Ht. by rewrite E in Ht.
Qed.

Lemma keeps_terminal_delete ks t : keeps_terminal t (tb_delete ks t).
Proof. intros k op Hk Ht. rewrite tb_get_delete. case_decide; auto. Qed.

Lemma keeps_terminal_create op t : keeps_terminal t (tb_create op t).1.
Proof.
  intros k op' Hk Ht. left. rewrite tb_get_create. case_decide as Hd; [|done].
  subst k. pose proof (tb_create_fresh op t). congruence.
Qed.

(** ** The threads *)

Lemma guarded_refresh {A} (R : T → T → Prop) k (c : DiagnosticOperation → thread T (result exn A)) :
  (∀ t, R t t) → (∀ op, guarded R (c op)) → guarded R (refresh k c).
Proof.
  intros HR Hc. apply guarded_read; [done|]. intros t.
  destruct (tb_get t k); [done|constructor].
Qed.

Lemma guarded_trim {A} (R : T → T → Prop) project (c : T → thread T A) :
  (∀ t, R t t) → (∀ ids t, R t (tb_delete ids t)) →
  (∀ t, guarded R (c t)) → guarded R (trim_history project c).
Proof.
  intros HR Hd Hc. apply guarded_read; [done|]. intros t.
  destruct (stale_history project t); [done|]. by constructor.
Qed.

Lemma guarded_consume_frames (R : T → T → Prop) k frames e cr :
  (∀ f w t, frame_statement (T := T) k f = Some w → R t (w t)) →
  (∀ ex t, R t (save_error k (error_of ex).1 (error_of ex).2 t)) →
  guarded R (consume_frames k frames e cr).
Proof.
  intros Hf He. induction frames as [|f frames IH]; cbn.
  - destruct e as [|ex]; cbn; [constructor|]. specialize (He ex).
    destruct (error_of ex) as [status code]. constructor; [done|]. constructor.
  - destruct (frame_statement k f) as [w|] eqn:E; [|done]. constructor; eauto.
Qed.

Lemma guarded_consume (R : T → T → Prop) stream cr k :
  (∀ t, R t t) → (∀ t, R t (set_running k t)) →
  (∀ f w t, frame_statement (T := T) k f = Some w → R t (w t)) →
  (∀ ex t, R t (save_error k (error_of ex).1 (error_of ex).2 t)) →
  guarded R (consume stream cr k).
Proof.
  intros HR Hr Hf He. apply guarded_refresh; [done|]. intros op. constructor; [done|].
  intros t. destruct (stream _ _ _) as [frames e]. by apply guarded_consume_frames.
Qed.

Lemma frame_statement_active k f (w : T → T) :
  frame_statement k f = Some w → ∃ u, w = update_active k u.
Proof. destruct f; cbn; intros [= <-]; eexists; reflexivity. Qed.

Lemma consume_keeps_terminal stream cr k : guarded keeps_terminal (consume stream cr k).
Proof.
  apply guarded_consume.
  - apply keeps_terminal_refl.
  - apply keeps_terminal_running.
  - intros f w t [u ->]%frame_statement_active. apply keeps_terminal_active.
  - intros ex t. apply keeps_terminal_active.
Qed.

Lemma cancel_keeps_terminal be k : guarded keeps_terminal (cancel_operation be k).
Proof.
  apply guarded_refresh; [apply keeps_terminal_refl|]. intros op.
  destruct (terminal op); [constructor|].
  destruct (cancel_outcome _) as [[status code]|]; [|constructor].
  constructor; [intros; apply keeps_terminal_active|]. intros t.
  apply guarded_refresh; [apply keeps_terminal_refl|]. constructor.
Qed.

(** A [start] whose backend takes the operation. *)
Lemma start_keeps_terminal be now uuid agent user diagnostic :
  be_connected be (agent_id agent) = true → (∀ op, is_ok (be_start be op) = true) →
  guarded keeps_terminal (start be now uuid agent user diagnostic).
Proof.
  intros Hc Hs. unfold start. destruct (String.eqb _ _); cbn; [|constructor].
  constructor; [intros; apply keeps_terminal_create|]. intros t. rewrite Hc. cbn.
  specialize (Hs (mkOperation uuid (agent_project agent) agent user diagnostic "pending"
                    NoSummary "" now now)).
  destruct (be_start be _); [|done].
  apply guarded_trim; auto using keeps_terminal_refl, keeps_terminal_delete. constructor.
Qed.
(** The threads that write only what the code guards: background tasks,
    cancellations, and starts whose backend takes the operation. *)
Inductive guarded_request : thread T () → Prop :=
| gr_consume stream cr k : guarded_request (forget (consume stream cr k))
| gr_cancel be k : guarded_request (forget (cancel_operation be k))
| gr_start be now uuid agent user diagnostic :
    be_connected be (agent_id agent) = true → (∀ op, is_ok (be_start be op) = true) →
    guarded_request (forget (start be now uuid agent user diagnostic)).

Lemma guarded_request_keeps th : guarded_request th → guarded keeps_terminal th.
Proof.
  destruct 1; apply guarded_map;
    auto using consume_keeps_terminal, cancel_keeps_terminal, start_keeps_terminal.
Qed.

(** C17: once an operation has finished, nothing rewrites it: under every
    interleaving of any number of background tasks, cancellations and accepted
    starts, a terminal row keeps its status, summary and error code until the
    history limit deletes it. *)
Theorem finished_operations_stay t ths sched t' ths' k op :
  Forall guarded_request ths → exec pool_step (t, ths) sched (t', ths') →
  tb_get t k = Some op → terminal op = true →
  tb_get t' k = Some op ∨
  ∃ s1 sched1 sched2, exec pool_step (t, ths) sched1 s1 ∧
    exec pool_step s1 sched2 (t', ths') ∧ tb_get s1.1 k = None.
Proof.
  intros Hths Hex Hk Hop.
  destruct (pool_run_until keeps_terminal (λ t, tb_get t k = Some op) (λ t, tb_get t k = None)
    (t, ths) sched (t', ths')) as [H|(tr1 & s1 & tr2 & H1 & H2 & H3)]; try done.
  - intros t1 t2 HR H. by apply HR.
  - eapply Forall_impl; [exact Hths|]. apply guarded_request_keeps.
  - by left.
  - right. by exists s1, tr1, tr2.
Qed.

(** * The unguarded save of [start] *)

Lemma start_refused be now uuid agent user :
  be_connected be (agent_id agent) = true →
  (∀ op, be_start be op = Err (RuntimeError "capacity")) →
  let op := mkOperation uuid (agent_project agent) agent user "django_health" "pending"
              NoSummary "" now now in
  ∃ c : T → T → thread T (result exn reply), start be now uuid agent user "django_health" =
    Stmt (λ t, (tb_create op t).1)
      (λ t, Stmt (save_status now (tb_create op t).2 "overloaded" "OVERLOADED") (c t)).
Proof. intros Hc Hs op. unfold start. cbn. rewrite Hc, Hs. cbn. by eexists. Qed.

(** The row [start] saves after a refused dispatch is not guarded: if a
    cancellation finishes the operation first, the caller is told so, and then
    the finished row is overwritten. *)
Theorem start_overwrites_finished t be now uuid agent user :
  be_connected be (agent_id agent) = true →
  (∀ op, be_start be op = Err (RuntimeError "capacity")) →
  (∀ op, be_cancel be op = Ok false) →
  let op := mkOperation uuid (agent_project agent) agent user "django_health" "pending"
              NoSummary "" now now in
  let k := (tb_create op t).2 in
  ∃ t1 ths1 t2 ths2,
    pool_exec [0; 1; 1; 1]
      (t, [start be now uuid agent user "django_health"; cancel_operation be k]) = Some (t1, ths1) ∧
    ths1 !! 1 = Some (Return (Ok (k, "disconnected"%string, "CANCEL_UNAVAILABLE"%string))) ∧
    (op_status <$> tb_get t1 k) = Some "disconnected"%string ∧
    pool_exec [0] (t1, ths1) = Some (t2, ths2) ∧
    (op_status <$> tb_get t2 k) = Some "overloaded"%string.
Proof.
  intros Hc Hs Hca op k.
  assert (Hk : tb_get (tb_create op t).1 k = Some op).
  { rewrite tb_get_create. by rewrite decide_True. }
  assert (Hu : ∀ s c, tb_get (update_active k (set_status s c) (tb_create op t).1) k =
                      Some (set_status s c op)).
  { intros s c. unfold update_active. rewrite tb_get_update, Hk. cbn. by rewrite Nat.eqb_refl. }
  destruct (start_refused be now uuid agent user Hc Hs) as [c ->]. fold op.
  assert (Hterm : terminal op = false) by done.
  cbn -[terminal]. fold k. rewrite Hk, Hterm, Hca. cbn. rewrite Hu. cbn.
  eexists _, _, _, _. split; [reflexivity|]. split; [reflexivity|].
  split; [by rewrite Hu|]. split; [reflexivity|].
  unfold save_status. rewrite tb_get_update. cbn [fst]. rewrite Hu. cbn. by rewrite Nat.eqb_refl.
Qed.

(** * History *)

Definition finished_in (project : nat) (op : DiagnosticOperation) : bool :=
  (project_id (op_project op) =? project) && negb (str_in (op_status op) ["pending"; "running"]).

Definition history (project : nat) t : list pk :=
  tb_select (λ _ op, finished_in project op) op_created_at t.

Lemma stale_history_spec project t k :
  k ∈ stale_history project t ↔ k ∈ drop MAX_HISTORY_PER_PROJECT (history project t).
Proof. done. Qed.

Lemma run_trim {A} project (a : A) t :
  run_thread (trim_history project (λ _, Return a)) t =
    (match stale_history project t with [] => t | ids => tb_delete ids t end, a).
Proof. cbn. by destruct (stale_history project t). Qed.

(** What remains after the deletion. *)
Lemma get_trimmed project t k :
  tb_get (match stale_history project t with [] => t | ids => tb_delete ids t end) k =
    if decide (k ∈ stale_history project t) then None else tb_get t k.
Proof.
  destruct (stale_history project t) as [|x l] eqn:E.
  { case_decide as Hd; [by apply elem_of_nil in Hd|done]. }
  by rewrite tb_get_delete.
Qed.

Lemma sorted_split (key : pk → Z) (n : nat) (l : list pk) x y :
  StronglySorted (λ k k', key k' ≤ key k)%Z l → x ∈ take n l → y ∈ drop n l → (key y ≤ key x)%Z.
Proof.
  revert n. induction l as [|z l IH]; intros [|n] Hs Hx Hy; cbn in *;
    try (by apply elem_of_nil in Hx).
  inversion Hs as [|? ? Hs' Hall]; subst. rewrite Forall_forall in Hall.
  apply elem_of_cons in Hx as [->|Hx]; [|eauto].
  apply Hall. eapply elem_of_sublist; [exact Hy|apply sublist_drop].
Qed.

(** Trimming keeps at most [_MAX_HISTORY_PER_PROJECT] finished operations of
    the project, drops the oldest ones, and touches neither operations that are
    still active nor other projects. *)
Theorem trim_keeps_newest project t :
  let t' := (run_thread (trim_history project (λ _, Return ())) t).1 in
  length (history project t') ≤ MAX_HISTORY_PER_PROJECT ∧
  (∀ k op, tb_get t k = Some op → finished_in project op = false → tb_get t' k = Some op) ∧
  (∀ k op, tb_get t' k = Some op → tb_get t k = Some op) ∧
  (∀ k op k' op', tb_get t k = Some op → tb_get t' k = None →
     tb_get t' k' = Some op' → finished_in project op' = true →
     (op_created_at op ≤ op_created_at op')%Z).
Proof.
  rewrite run_trim. cbn.
  assert (Hget : ∀ k op, tb_get (match stale_history project t with [] => t | ids => tb_delete ids t end) k
      = Some op ↔ tb_get t k = Some op ∧ k ∉ stale_history project t).
  { intros k op. rewrite get_trimmed. case_decide; naive_solver. }
  assert (Hhist : ∀ k op, tb_get t k = Some op → finished_in project op = true →
    k ∈ take MAX_HISTORY_PER_PROJECT (history project t) ∨ k ∈ stale_history project t).
  { intros k op Hk Hf. rewrite stale_history_spec, <- elem_of_app, take_drop.
    apply tb_select_elem. eauto. }
  assert (Hold : ∀ k, k ∈ stale_history project t →
    ∃ op, tb_get t k = Some op ∧ finished_in project op = true).
  { intros k Hin. apply (tb_select_elem (λ _ op, finished_in project op) op_created_at).
    eapply elem_of_sublist; [exact Hin|apply sublist_drop]. }
  split_and!.
  - transitivity (length (take MAX_HISTORY_PER_PROJECT (history project t))).
    2: { rewrite length_take. lia. }
    apply submseteq_length, NoDup_submseteq; [apply tb_select_nodup|].
    intros k (op & Hk & Hf)%tb_select_elem. apply Hget in Hk as [Hk Hn].
    destruct (Hhist _ _ Hk Hf); done.
  - intros k op Hk Hf. apply Hget. split; [done|]. intros Hin.
    destruct (Hold _ Hin) as (op' & Hk' & Hf'). congruence.
  - intros k op [Hk _]%Hget. done.
  - intros k op k' op' Hk Hnone [Hk' Hn']%Hget Hf'.
    assert (Hin : k ∈ stale_history project t).
    { rewrite get_trimmed in Hnone. case_decide; [done|congruence]. }
    destruct (Hhist _ _ Hk' Hf') as [Hin'|]; [|done].
    pose proof (sorted_split (key_of op_created_at t) _ _ _ _
      (tb_select_sorted _ op_created_at t) Hin' Hin) as Hle.
    unfold key_of in Hle. rewrite Hk, Hk' in Hle. done.
Qed.

(** * The outcome of a stream *)

Definition is_result (f : AgentFrame) : bool := match f with FResult _ => true | _ => false end.

(** [op] still active, possibly running and with progress. *)
Definition in_progress (op op' : DiagnosticOperation) : Prop :=
  active op' = true ∧ ∃ s st, op' = set_summary s (set_status st (op_error_code op) op).

(** Table [t'] differs from [t] in row [k] only. *)
Definition only_row k t t' : Prop := ∀ k', k' ≠ k → tb_get t' k' = tb_get t k'.

Lemma only_row_update k p f t :
  (∀ k' op, p k' op = true → k' = k) → only_row k t (tb_update p f t).
Proof.
  intros Hp k' Hne. rewrite tb_get_update. destruct (tb_get t k') as [op|]; [|done]. cbn.
  destruct (p k' op) eqn:E; [|done]. by apply Hp in E.
Qed.

Lemma only_row_active k f t : only_row k t (update_active k f t).
Proof. apply only_row_update. by intros k' op [->%Nat.eqb_eq _]%andb_true_iff. Qed.

Lemma only_row_running k t : only_row k t (set_running k t).
Proof. apply only_row_update. by intros k' op [->%Nat.eqb_eq _]%andb_true_iff. Qed.

Lemma only_row_trans k t1 t2 t3 : only_row k t1 t2 → only_row k t2 t3 → only_row k t1 t3.
Proof. intros H1 H2 k' Hne. rewrite H2 by done. auto. Qed.

Lemma get_update_active k f t op :
  tb_get t k = Some op → active op = true → tb_get (update_active k f t) k = Some (f op).
Proof. intros Hk Ha. unfold update_active. rewrite tb_get_update, Hk. cbn. by rewrite Nat.eqb_refl, Ha. Qed.

Lemma set_running_progress k t op :
  tb_get t k = Some op → active op = true →
  ∃ op', tb_get (set_running k t) k = Some op' ∧ in_progress op op'.
Proof.
  intros Hk Ha. unfold set_running. rewrite tb_get_update, Hk. cbn. rewrite Nat.eqb_refl. cbn.
  destruct (String.eqb (op_status op) "pending"); eexists; (split; [reflexivity|]).
  - split; [done|]. by exists (op_result_summary op), "running".
  - split; [done|]. exists (op_result_summary op), (op_status op). by destruct op.
Qed.

Lemma run_frames k op frames rest e cr t op1 :
  Forall (λ f, is_result f = false) frames →
  tb_get t k = Some op1 → in_progress op op1 →
  ∃ t' op2, run_thread (consume_frames k (frames ++ rest) e cr) t =
      run_thread (consume_frames k rest e cr) t' ∧
    tb_get t' k = Some op2 ∧ in_progress op op2 ∧ only_row k t t'.
Proof.
  intros Hf. revert t op1. induction Hf as [|f frames Hf _ IH]; intros t op1 Hk Hp.
  { by exists t, op1. }
  destruct f; try discriminate Hf; cbn; try (by eapply IH).
  destruct Hp as (Ha & s & st & ->).
  set (g := set_summary (ProgressSummary (str_take 64 phase) (redact message))).
  destruct (IH (update_active k g t) (g (set_summary s (set_status st (op_error_code op) op))))
    as (t' & op2 & Hrun & Hk2 & Hp2 & Ho).
  - by apply get_update_active.
  - split; [exact Ha|]. by eexists _, st.
  - exists t', op2. split_and!; try done. eapply only_row_trans; [apply only_row_active|done].
Qed.

(** The run of [consume] up to the last frames of its stream. *)
Lemma run_consume stream cr k t op frames rest e :
  tb_get t k = Some op → active op = true →
  stream (agent_id (op_agent op)) (op_public_id op) (release_root (op_project op)) =
    (frames ++ rest, e) →
  Forall (λ f, is_result f = false) frames →
  ∃ t' op', run_thread (consume stream cr k) t = run_thread (consume_frames k rest e cr) t' ∧
    tb_get t' k = Some op' ∧ in_progress op op' ∧ only_row k t t'.
Proof.
  intros Hk Ha Hs Hf.
  destruct (set_running_progress _ _ _ Hk Ha) as (op1 & Hk1 & Hp1).
  destruct (run_frames k op frames rest e cr _ op1 Hf Hk1 Hp1) as (t' & op2 & Hrun & Hk2 & Hp2 & Ho).
  exists t', op2. cbn. rewrite Hk. cbn. rewrite Hs, Hrun. split_and!; try done.
  eapply only_row_trans; [apply only_row_running|done].
Qed.

(** A stream that ends with a result records it: the status is the mapped
    one, the summary the first [_MAX_CHECKS] checks, redacted, and the error code
    empty exactly on success; only that row changes. *)
Theorem consume_records_result stream cr k t op frames r :
  tb_get t k = Some op → active op = true →
  stream (agent_id (op_agent op)) (op_public_id op) (release_root (op_project op)) =
    (frames ++ [FResult r], StreamDone) →
  Forall (λ f, is_result f = false) frames →
  let '(t', res) := run_thread (consume stream cr k) t in
  res = Ok () ∧
  tb_get t' k = Some (set_summary (ChecksSummary (check_of <$> take MAX_CHECKS (dr_checks r)))
    (set_status (mapped_status (dr_status r))
       (if String.eqb (dr_status r) "succeeded" then "" else str_take 32 (upper (dr_status r))) op)) ∧
  only_row k t t'.
Proof.
  intros Hk Ha Hs Hf.
  destruct (run_consume _ cr _ _ _ _ _ _ Hk Ha Hs Hf) as (t' & op' & -> & Hk' & (Ha' & s & st & ->) & Ho).
  cbn. split; [done|]. split.
  - unfold save_result. erewrite get_update_active; [|done..]. cbn.
    unfold mapped_status. destruct (String.eqb (dr_status r) "succeeded"); [done|].
    by destruct (String.eqb (dr_status r) "cancelled"), (String.eqb (dr_status r) "disconnected").
  - eapply only_row_trans; [done|apply only_row_active].
Qed.

(** A stream that raises leaves the operation finished with the status and
    code of the exception's class, also when cancelling the job afterwards fails;
    only that row changes. *)
Theorem consume_records_error stream cr k t op frames e :
  tb_get t k = Some op → active op = true →
  stream (agent_id (op_agent op)) (op_public_id op) (release_root (op_project op)) =
    (frames, StreamRaises e) →
  Forall (λ f, is_result f = false) frames →
  let t' := (run_thread (consume stream cr k) t).1 in
  (∃ op', tb_get t' k = Some op' ∧ terminal op' = true ∧
    op_status op' = (error_of e).1 ∧ op_error_code op' = (error_of e).2) ∧
  only_row k t t'.
Proof.
  intros Hk Ha Hs Hf. rewrite <- (app_nil_r frames) in Hs.
  destruct (run_consume _ cr _ _ _ _ _ _ Hk Ha Hs Hf) as (t' & op' & -> & Hk' & (Ha' & _) & Ho).
  cbn. destruct (error_of e) as [status code] eqn:E. cbn. split.
  - unfold save_error. eexists. split; [by eapply get_update_active|].
    by destruct e; injection E as <- <-.
  - eapply only_row_trans; [done|apply only_row_active].
Qed.

(** The statuses the agent reports for a finished diagnosis
    ([healthy], [unhealthy], [canceled]) are not the ones [_save_result]
    recognises: the operation ends as failed, the status becoming its error code. *)
Theorem agent_health_is_recorded_as_failure stream cr k t op frames r :
  tb_get t k = Some op → active op = true →
  stream (agent_id (op_agent op)) (op_public_id op) (release_root (op_project op)) =
    (frames ++ [FResult r], StreamDone) →
  Forall (λ f, is_result f = false) frames →
  dr_status r ∈ ["healthy"; "unhealthy"; "canceled"]%string →
  ∃ op', tb_get (run_thread (consume stream cr k) t).1 k = Some op' ∧
    op_status op' = "failed"%string ∧
    op_error_code op' ∈ ["HEALTHY"; "UNHEALTHY"; "CANCELED"]%string.
Proof.
  intros Hk Ha Hs Hf Hr.
  destruct (run_consume _ cr _ _ _ _ _ _ Hk Ha Hs Hf) as (t' & op' & -> & Hk' & (Ha' & s & st & ->) & Ho).
  cbn. unfold save_result. eexists. split; [by eapply get_update_active|]. cbn.
  rewrite !elem_of_cons, elem_of_nil in Hr.
  destruct Hr as [-> | [-> | [-> | []]]]; (split; [done|]);
    repeat (apply list_elem_of_here || apply list_elem_of_further).
Qed.

(** * Well-formed rows *)

Record check_wf (c : check_row) : Prop := {
  cw_name : String.length (ck_name c) ≤ 128;
  cw_status : String.length (ck_status c) ≤ 32;
  cw_detail : String.length (ck_detail c) ≤ MAX_DETAIL ∧ search SECRET_RE (ck_detail c) = false
}.

Definition summary_wf (s : operation_summary) : Prop :=
  match s with
  | NoSummary => True
  | ProgressSummary phase message =>
      String.length phase ≤ 64 ∧ String.length message ≤ MAX_DETAIL ∧
      search SECRET_RE message = false
  | ChecksSummary checks => length checks ≤ MAX_CHECKS ∧ Forall check_wf checks
  end.

(** A row the columns can hold: the one diagnostic there is, a declared status, an
    error code of at most 32 characters, and a summary whose texts are bounded;
    messages and details are redacted, the phase and the names and statuses of
    checks are not. *)
Record operation_wf (op : DiagnosticOperation) : Prop := {
  ow_diagnostic : op_diagnostic op = "django_health"%string;
  ow_status : op_status op ∈ operation_statuses;
  ow_code : String.length (op_error_code op) ≤ 32;
  ow_summary : summary_wf (op_result_summary op)
}.

Definition table_wf t : Prop := ∀ k op, tb_get t k = Some op → operation_wf op.
Definition preserves_wf t t' : Prop := table_wf t → table_wf t'.

Lemma preserves_wf_update p f t :
  (∀ op, operation_wf op → operation_wf (f op)) → preserves_wf t (tb_update p f t).
Proof.
  intros Hf Ht k op. rewrite tb_get_update.
  intros (op' & Hk & ->)%fmap_Some. apply Ht in Hk. destruct (p k op'); auto.
Qed.

Lemma wf_set_status status code op :
  bool_decide (status ∈ operation_statuses) = true → String.length code ≤ 32 →
  operation_wf op → operation_wf (set_status status code op).
Proof. intros Hs%bool_decide_eq_true Hc [Hd _ _ H]. by split. Qed.

Lemma mapped_status_wf status : mapped_status status ∈ operation_statuses.
Proof.
  unfold mapped_status. apply (bool_decide_eq_true_1 _).
  destruct (String.eqb status "succeeded"); [done|].
  destruct (String.eqb status "cancelled"); [done|].
  by destruct (String.eqb status "disconnected").
Qed.

Lemma preserves_wf_result k status checks t :
  length checks ≤ MAX_CHECKS → Forall check_wf checks →
  preserves_wf t (save_result k status checks t).
Proof.
  intros Hlen Hall. apply preserves_wf_update. intros op [Hd _ _ _]. split; cbn; [done| | |done].
  - apply mapped_status_wf.
  - destruct (String.eqb _ _); [cbn; lia|]. apply str_take_length.
Qed.

Lemma check_of_wf c : check_wf (check_of c).
Proof. split; [apply str_take_length..|]. split; [apply redact_length|apply redact_no_match]. Qed.

Lemma preserves_wf_frame k f (w : T → T) t : frame_statement k f = Some w → preserves_wf t (w t).
Proof.
  destruct f; cbn [frame_statement]; intros [= <-].
  - apply preserves_wf_update. intros op [Hd Hs Hc _]. split; [done..|].
    split_and!; [apply str_take_length|apply redact_length|apply redact_no_match].
  - apply preserves_wf_result.
    + rewrite length_fmap, length_take. lia.
    + apply Forall_fmap, Forall_forall. intros c _. apply check_of_wf.
Qed.

Lemma preserves_wf_error k e t : preserves_wf t (save_error k (error_of e).1 (error_of e).2 t).
Proof.
  apply preserves_wf_update. intros op. apply wf_set_status; destruct e; first [by vm_compute|cbn; lia].
Qed.

Lemma consume_wf stream cr k : guarded preserves_wf (consume stream cr k).
Proof.
  apply guarded_consume; [by intros t Ht| | |].
  - intros t. apply preserves_wf_update. intros op [Hd Hs Hc Hr]. split; [done|by apply (bool_decide_eq_true_1 _)|done..].
  - intros f w t. apply preserves_wf_frame.
  - intros ex t. apply preserves_wf_error.
Qed.

Lemma cancel_wf be k : guarded preserves_wf (cancel_operation be k).
Proof.
  apply guarded_refresh; [by intros t Ht|]. intros op. destruct (terminal op); [constructor|].
  destruct (cancel_outcome _) as [[status code]|] eqn:E; [|constructor]. constructor.
  - intros t. apply preserves_wf_update. intros op'.
    apply wf_set_status; destruct (be_cancel be op) as [[]|[]]; simplify_eq/=; first [done|lia].
  - intros t. apply guarded_refresh; [by intros t' Ht|]. constructor.
Qed.

Lemma trim_wf {A} project (c : T → thread T A) :
  (∀ t, guarded preserves_wf (c t)) → guarded preserves_wf (trim_history project c).
Proof.
  intros Hc. apply guarded_trim; [by intros t Ht| |done].
  intros ids t Ht k op. rewrite tb_get_delete. case_decide; [done|apply Ht].
Qed.

Lemma start_wf be now uuid agent user diagnostic :
  guarded preserves_wf (start be now uuid agent user diagnostic).
Proof.
  unfold start. destruct (String.eqb_spec diagnostic "django_health") as [->|]; cbn -[trim_history]; [|constructor]. constructor.
  - intros t Ht k op. rewrite tb_get_create. case_decide; [|apply Ht]. intros [= <-].
    split; cbn; [done|by apply (bool_decide_eq_true_1 _)|lia|done].
  - intros t. assert (Hsave : ∀ status code, bool_decide (status ∈ operation_statuses) = true →
      String.length code ≤ 32 → ∀ k (c : T → thread T (result exn reply)),
      (∀ t, guarded preserves_wf (c t)) → guarded preserves_wf (Stmt (save_status now k status code) c)).
    { intros status code Hs Hc k c Hk. constructor; [|done]. intros t'. apply preserves_wf_update.
      intros op Hw. destruct (wf_set_status status code op Hs Hc Hw). by split. }
    assert (Htrim : ∀ (v : result exn reply),
      guarded preserves_wf (trim_history (project_id (agent_project agent)) (λ _ : T, Return v))).
    { intros v. apply trim_wf. constructor. }
    destruct (be_connected be (agent_id agent)); cbn -[trim_history].
    + destruct (be_start be _) as [|[]]; auto; try constructor.
      destruct (lower_contains _ _); (apply Hsave; [done|cbn; lia|]);
        intros t'; destruct (tb_get t' _); auto; constructor.
    + apply Hsave; [done|cbn; lia|]. intros t'; destruct (tb_get t' _); auto; constructor.
Qed.

Inductive any_request : thread T () → Prop :=
| ar_consume stream cr k : any_request (forget (consume stream cr k))
| ar_cancel be k : any_request (forget (cancel_operation be k))
| ar_start be now uuid agent user diagnostic :
    any_request (forget (start be now uuid agent user diagnostic)).

(** C15: whatever agents, callers and backends do, and however requests and
    background tasks interleave, every stored operation has a declared status, an
    error code that fits its column, and a bounded summary, in which progress
    messages and check details hold no secret-like text; the phase and the names
    and statuses of checks are bounded only. *)
Theorem stored_operations_are_well_formed t ths sched t' ths' :
  Forall any_request ths → exec pool_step (t, ths) sched (t', ths') →
  table_wf t → table_wf t'.
Proof.
  intros Hths Hex. apply (pool_run_preserves table_wf _ _ _ Hex).
  eapply Forall_impl; [exact Hths|].
  intros th []; apply guarded_map; auto using consume_wf, cancel_wf, start_wf.
Qed.
End props.

(** No stored detail or message contains an assignment to a secret-like
    name: after [_redact], [_SECRET_RE] finds nothing, wherever the text was cut. *)
Theorem redact_leaves_no_secret value : 
  search SECRET_RE (redact value) = false ∧ String.length (redact value) ≤ MAX_DETAIL.
Proof. split; [apply redact_no_match|apply redact_length]. Qed.

(** * Concrete runs *)

Definition demo_project : Project := mkProject 7 "shop" "Shop" "current" [1].
Definition demo_agent : AgentRegistration := mkAgent 3 demo_project "edge" [].
Definition demo_operation (status : string) : DiagnosticOperation :=
  mkOperation "op-1" demo_project demo_agent 1 "django_health" status NoSummary "" 10 10.
Definition demo_table (status : string) : gtable DiagnosticOperation :=
  GTable 2 {[1 := demo_operation status]}.

Definition demo_backend : OperationsBackend :=
  mkBackend (λ _, true) (λ _, None) (λ _, []) (λ _, (1, 0)%Z)
    (λ _, Err (RuntimeError "capacity")) (λ _, Ok false).

Definition demo_stream (status : string) (_ _ _ : string) : list AgentFrame * stream_end :=
  ([FProgress "op-1" 1 "checks" "password: hunter2"; FResult (DResult "op-1" 2 status [])], StreamDone).

Definition failing_stream (_ _ _ : string) : list AgentFrame * stream_end :=
  ([FProgress "op-1" 1 "checks" "x"], StreamRaises (TimeoutError "")).

Definition demo_pool : list (thread (gtable DiagnosticOperation) ()) :=
  [forget (consume (demo_stream "succeeded") None 1); forget (cancel_operation demo_backend 1)].

(** The cancellation wins the race against the result. *)
Definition demo_schedule : list nat := [0; 1; 1; 1; 0; 0; 0].

Lemma demo_pool_guarded : Forall guarded_request demo_pool.
Proof. repeat constructor. Defined.

Lemma finished_operations_stay_witness :
  let t := demo_table "cancelled" in
  ∃ sched t' ths', exec pool_step (t, demo_pool) sched (t', ths') ∧ length sched = 5 ∧
  (tb_get t' 1 = Some (demo_operation "cancelled") ∨
   ∃ s1 sched1 sched2, exec pool_step (t, demo_pool) sched1 s1 ∧
    exec pool_step s1 sched2 (t', ths') ∧ tb_get s1.1 1 = None).
Proof.
  intros t. destruct (pool_exec_some [0; 1; 0; 0; 0] (t, demo_pool)) as (t' & ths' & _ & Hex);
    [by vm_compute|].
  exists [0; 1; 0; 0; 0], t', ths'. split; [exact Hex|]. split; [reflexivity|].
  apply (finished_operations_stay t demo_pool _ t' ths' 1 (demo_operation "cancelled")
    demo_pool_guarded Hex); by vm_compute.
Defined.

Lemma start_overwrites_finished_witness :
  let t := demo_table "running" in
  let op := mkOperation "op-2" demo_project demo_agent 1 "django_health" "pending" NoSummary "" 20 20 in
  let k := (tb_create op t).2 in
  ∃ t1 ths1 t2 ths2,
    pool_exec [0; 1; 1; 1]
      (t, [start demo_backend 20 "op-2" demo_agent 1 "django_health";
           cancel_operation demo_backend k]) = Some (t1, ths1) ∧
    ths1 !! 1 = Some (Return (Ok (k, "disconnected"%string, "CANCEL_UNAVAILABLE"%string))) ∧
    (op_status <$> tb_get t1 k) = Some "disconnected"%string ∧
    pool_exec [0] (t1, ths1) = Some (t2, ths2) ∧
    (op_status <$> tb_get t2 k) = Some "overloaded"%string.
Proof.
  intros t op k. apply (start_overwrites_finished t demo_backend 20 "op-2" demo_agent 1); done.
Defined.

Lemma trim_keeps_newest_witness :
  let t := demo_table "failed" in
  let t' := (run_thread (trim_history 7 (λ _, Return ())) t).1 in
  length (history 7 t') ≤ MAX_HISTORY_PER_PROJECT ∧
  (∀ k op, tb_get t k = Some op → finished_in 7 op = false → tb_get t' k = Some op) ∧
  (∀ k op, tb_get t' k = Some op → tb_get t k = Some op) ∧
  (∀ k op k' op', tb_get t k = Some op → tb_get t' k = None →
     tb_get t' k' = Some op' → finished_in 7 op' = true →
     (op_created_at op ≤ op_created_at op')%Z).
Proof. intros t. apply (trim_keeps_newest 7 t). Defined.

Lemma consume_records_result_witness :
  let '(t', res) := run_thread (consume (demo_stream "succeeded") None 1) (demo_table "pending") in
  res = Ok () ∧
  tb_get t' 1 = Some (set_summary (ChecksSummary (check_of <$> take MAX_CHECKS []))
    (set_status (mapped_status "succeeded") "" (demo_operation "pending"))) ∧
  only_row 1 (demo_table "pending") t'.
Proof.
  apply (consume_records_result (demo_stream "succeeded") None 1 (demo_table "pending")
    (demo_operation "pending") [FProgress "op-1" 1 "checks" "password: hunter2"]
    (DResult "op-1" 2 "succeeded" [])); [by vm_compute|by vm_compute|done|by repeat constructor].
Defined.

Lemma consume_records_error_witness :
  let t' := (run_thread (consume failing_stream (Some (RuntimeError "")) 1) (demo_table "pending")).1 in
  (∃ op', tb_get t' 1 = Some op' ∧ terminal op' = true ∧
    op_status op' = (error_of (TimeoutError "")).1 ∧ op_error_code op' = (error_of (TimeoutError "")).2) ∧
  only_row 1 (demo_table "pending") t'.
Proof.
  apply (consume_records_error failing_stream (Some (RuntimeError "")) 1 (demo_table "pending")
    (demo_operation "pending") [FProgress "op-1" 1 "checks" "x"] (TimeoutError ""));
    [by vm_compute|by vm_compute|done|by repeat constructor].
Defined.

Lemma agent_health_is_recorded_as_failure_witness :
  ∃ op', tb_get (run_thread (consume (demo_stream "healthy") None 1) (demo_table "pending")).1 1 = Some op' ∧
    op_status op' = "failed"%string ∧
    op_error_code op' ∈ ["HEALTHY"; "UNHEALTHY"; "CANCELED"]%string.
Proof.
  apply (agent_health_is_recorded_as_failure (demo_stream "healthy") None 1 (demo_table "pending")
    (demo_operation "pending") [FProgress "op-1" 1 "checks" "password: hunter2"]
    (DResult "op-1" 2 "healthy" []));
    [by vm_compute|by vm_compute|done|by repeat constructor|apply list_elem_of_here].
Defined.

(** The phase of a progress frame is stored as it comes. *)
Example phase_is_not_redacted :
  (λ op, op_result_summary op) <$>
    tb_get (default id (frame_statement 1 (FProgress "op-1" 1 "token=abc" "token=abc")) (demo_table "running")) 1 =
  Some (ProgressSummary "token=abc" "[REDACTED]").
Proof. by vm_compute. Qed.

Lemma stored_operations_are_well_formed_witness :
  ∃ sched t' ths', exec pool_step (demo_table "running", demo_pool) sched (t', ths') ∧
    length sched = 7 ∧ table_wf t'.
Proof.
  destruct (pool_exec_some demo_schedule (demo_table "running", demo_pool)) as (t' & ths' & _ & Hex);
    [by vm_compute|].
  exists demo_schedule, t', ths'. split; [exact Hex|]. split; [reflexivity|].
  apply (stored_operations_are_well_formed (demo_table "running") demo_pool demo_schedule t' ths').
  - repeat constructor.
  - exact Hex.
  - intros k op Hk. cbn in Hk. apply lookup_singleton_Some in Hk as [<- <-].
    split; cbn; [done|by apply (bool_decide_eq_true_1 _)|lia|done].
Defined.
