(* ===== verification/Pipeline.v ===== *)
(** The background task of a diagnosis against the gateway it reads from:
    [_consume] of [controlplane/services.py] composed with the job streams of
    [controlplane/gateway.py], the requests of [OperationsService] and the
    operations table, under the event loop.

    [Services.consume] takes the frames of its stream as an argument; here they
    come from the running gateway.  A [task] is one [_consume], suspended at one
    of its awaits; [pl_run] runs one piece of one task, of the gateway, or of one
    request thread. *)

From S2P Require Import Prelude Text Regex Dict Gateway GatewaySystem Store Models Services.

Open Scope list_scope.
Open Scope nat_scope.

#[export] Instance KubernetesReleaseRequest_eq_dec : EqDecision KubernetesReleaseRequest.
Proof. solve_decision. Defined.
#[export] Instance ControlFrame_eq_dec : EqDecision ControlFrame.
Proof. solve_decision. Defined.
#[export] Instance DiagnosticCheck_eq_dec : EqDecision DiagnosticCheck.
Proof. solve_decision. Defined.
#[export] Instance AgentHello_eq_dec : EqDecision AgentHello.
Proof. solve_decision. Defined.
#[export] Instance DiagnosticsResult_eq_dec : EqDecision DiagnosticsResult.
Proof. solve_decision. Defined.
#[export] Instance KubernetesReleaseResult_eq_dec : EqDecision KubernetesReleaseResult.
Proof. solve_decision. Defined.
#[export] Instance AgentFrame_eq_dec : EqDecision AgentFrame.
Proof. solve_decision. Defined.
#[export] Instance put_op_eq_dec : EqDecision put_op.
Proof. solve_decision. Defined.

(** * Tasks *)

(** What a task writes to its row. *)
Inductive write :=
| WRunning
| WFrame (f : AgentFrame)
| WError (e : exn).

(** How a task ended: its row was gone when it started; its stream ended after
    the frame [f]; the stream raised [e]. *)
Inductive ending :=
| EMissing
| EStream (f : AgentFrame)
| ERaised (e : exn).

(** A [_consume]: before the [get] of its row; before [_set_running]; before
    [_open_job] gets the lock; waiting for the next frame of generator [r]; in the
    loop body, before the write of frame [f] and after it; in [except
    TimeoutError], waiting for the put of [gateway.cancel]; before the
    [_save_error] of an [except] clause; finished. *)
Inductive task :=
| TLoad
| TMark (op : DiagnosticOperation)
| TOpen (op : DiagnosticOperation)
| TWait (op : DiagnosticOperation) (r : ref)
| TWrite (op : DiagnosticOperation) (r : ref) (f : AgentFrame)
| TResume (op : DiagnosticOperation) (r : ref) (f : AgentFrame)
| TCancelPut (p : put_op)
| TSave (e : exn)
| TDone (how : ending).

(** The generator a task iterates. *)
Definition held_by (t : task) : option ref :=
  match t with TWait _ r | TWrite _ r _ | TResume _ r _ => Some r | _ => None end.

(** What one piece did: the gateway's step, and the write to the table. *)
Definition event : Type := list (action * list obs) * list (nat * write).

Section pipeline.
Context {T : Type} `{Table DiagnosticOperation T}.

Definition apply_write (k : pk) (w : write) : T → T :=
  match w with
  | WRunning => set_running k
  | WFrame f => from_option id id (frame_statement k f)
  | WError e => save_error k (error_of e).1 (error_of e).2
  end.

(** [pl_late]: writes still running in a worker thread although the task that
    asked for them ([to_thread]) was cancelled by its timeout. *)
Record pipeline := mkPipeline {
  pl_sys : system;
  pl_table : T;
  pl_requests : list (thread T ());
  pl_tasks : list (pk * task);
  pl_late : list (pk * AgentFrame)
}.

Definition set_sys (s : system) (p : pipeline) : pipeline :=
  mkPipeline s (pl_table p) (pl_requests p) (pl_tasks p) (pl_late p).
Definition set_table (t : T) (p : pipeline) : pipeline :=
  mkPipeline (pl_sys p) t (pl_requests p) (pl_tasks p) (pl_late p).
Definition set_task (i : nat) (k : pk) (t : task) (p : pipeline) : pipeline :=
  mkPipeline (pl_sys p) (pl_table p) (pl_requests p) (<[i := (k, t)]> (pl_tasks p)) (pl_late p).

Inductive label :=
| LGateway (a : action)
| LRequest (i : nat)
| LSpawn (k : pk)
| LTask (i : nat)
| LTimeout (i : nat)
| LLockTimeout (i : nat)
| LLate (n : nat).

(** ** The pieces of a task *)

(** A step of the gateway made by a task: the new state and what was seen. *)
Definition gw_step (a : action) (p : pipeline) : option (pipeline * (action * list obs)) :=
  '(s, o) ← sys_run a (pl_sys p); Some (set_sys s p, (a, o)).
#[global] Arguments gw_step : simpl never.

(** The write of [w] to row [k] by task [i]. *)
Definition write_step (i : nat) (k : pk) (w : write) (t : task) (p : pipeline)
    : option (pipeline * event) :=
  Some (set_task i k t (set_table (apply_write k w (pl_table p)) p), ([], [(i, w)])).

(** After a frame: [_save_progress] or [_save_result] in a thread, or straight on
    to the next iteration. *)
Definition body_of (op : DiagnosticOperation) (r : ref) (f : AgentFrame) : task :=
  match frame_statement (T := T) 0 f with Some _ => TWrite op r f | None => TResume op r f end.

Definition task_run (i : nat) (k : pk) (t : task) (p : pipeline) : option (pipeline * event) :=
  let s := pl_sys p in
  match t with
  | TLoad =>
      let t' := match tb_get (pl_table p) k with Some op => TMark op | None => TDone EMissing end in
      Some (set_task i k t' p, ([], []))
  | TMark op => write_step i k WRunning (TOpen op) p
  | TOpen op =>
      '(p, (a, o)) ← gw_step (ADiagnostics (agent_id (op_agent op)) (op_public_id op)
                                (release_root (op_project op))) p;
      t ← match o with
          | [OOpened r] => Some (TWait op r)
          | [ORaised e] => Some (TSave e)
          | _ => None
          end;
      Some (set_task i k t p, ([(a, o)], []))
  | TWait op r =>
      match sys_calls s !! r with
      | Some (KDispatch _ _) =>
          '(p, l) ← gw_step (ADispatch r) p; Some (p, ([l], []))
      | Some (KStream _) =>
          '(p, (a, o)) ← gw_step (AGet r) p;
          t ← match o with [ODelivered _ f] => Some (body_of op r f) | _ => None end;
          Some (set_task i k t p, ([(a, o)], []))
      | _ => None
      end
  | TWrite op r f => write_step i k (WFrame f) (TResume op r f) p
  | TResume op r f =>
      '(p, l) ← gw_step (AResume r) p;
      Some (set_task i k (if is_terminal f then TDone (EStream f) else TWait op r) p, ([l], []))
  | TCancelPut op =>
      '(n, _) ← list_find (op =.) (sys_cancels s);
      '(p, l) ← gw_step (ACancelPut n) p;
      Some (set_task i k (TSave (TimeoutError "")) p, ([l], []))
  | TSave e => write_step i k (WError e) (TDone (ERaised e)) p
  | TDone _ => None
  end.

(** [asyncio.timeout] expires: [CancelledError] arrives at the current await of
    the stream or of the write, and [gateway.cancel] runs up to its put.  When the
    stream has a [finally] to run, the piece is at its critical section. *)
Definition abandon (t : task) (p : pipeline) : option (pipeline * list (action * list obs)) :=
  match t with
  | TWait _ r =>
      a ← match sys_calls (pl_sys p) !! r with
          | Some (KDispatch _ _) => Some (ADispatchCancelled r)
          | Some (KStream _) => Some (AClose r)
          | _ => None
          end;
      '(p, l) ← gw_step a p; Some (p, [l])
  | _ => Some (p, [])
  end.

Definition late_of (k : pk) (t : task) : list (pk * AgentFrame) :=
  match t with TWrite _ _ f => [(k, f)] | _ => [] end.

Definition job_of (t : task) : option string :=
  match t with
  | TOpen op | TWait op _ | TWrite op _ _ | TResume op _ _ => Some (op_public_id op)
  | _ => None
  end.

(** It arrives where the stream waits for the lock after its last frame: the job
    stays, and [gateway.cancel] finds it. *)
Definition abandon_at_lock (t : task) (p : pipeline) : option (pipeline * list (action * list obs)) :=
  match t with
  | TResume _ r f =>
      if is_terminal f then '(p, l) ← gw_step (ALockCancelled r) p; Some (p, [l]) else None
  | _ => None
  end.

Definition timeout_run (locked : bool) (i : nat) (k : pk) (t : task) (p : pipeline)
    : option (pipeline * event) :=
  job ← job_of t;
  '(p1, l1) ← (if locked then abandon_at_lock t p else abandon t p);
  '(p2, l2) ← gw_step (ACancel job) p1;
  let t' := match drop (length (sys_cancels (pl_sys p1))) (sys_cancels (pl_sys p2)) with
            | [] => TSave (TimeoutError "")
            | op :: _ => TCancelPut op
            end in
  Some (set_task i k t'
          (mkPipeline (pl_sys p2) (pl_table p2) (pl_requests p2) (pl_tasks p2)
             (pl_late p2 ++ late_of k t)),
        (l1 ++ [l2], [])).

(** ** The pieces of everything else *)

(** Generators belong to the task that iterates them, and so does the put of the
    cancellation a task waits for; only tasks call [diagnostics]. *)
Definition foreign (a : action) (p : pipeline) : bool :=
  match a with
  | ADiagnostics _ _ _ => false
  | ACancelPut n | ACancelDrop n =>
      match sys_cancels (pl_sys p) !! n with
      | Some op =>
          forallb (λ kt : pk * task,
            match kt.2 with TCancelPut op' => negb (bool_decide (op' = op)) | _ => true end)
            (pl_tasks p)
      | None => true
      end
  | _ =>
      match action_call a with
      | Some r => forallb (λ kt : pk * task, negb (bool_decide (held_by kt.2 = Some r))) (pl_tasks p)
      | None => true
      end
  end.

(** An insert takes a primary key no task's row ever had. *)
Definition keys_not_reused (t t' : T) (p : pipeline) : bool :=
  forallb (λ kt : pk * task,
    match tb_get t kt.1, tb_get t' kt.1 with None, Some _ => false | _, _ => true end) (pl_tasks p).

Definition pl_run (l : label) (p : pipeline) : option (pipeline * event) :=
  match l with
  | LGateway a =>
      if foreign a p then '(p, l) ← gw_step a p; Some (p, ([l], [])) else None
  | LRequest i =>
      '(t, ths) ← pool_run i (pl_table p, pl_requests p);
      if keys_not_reused (pl_table p) t p
      then Some (mkPipeline (pl_sys p) t ths (pl_tasks p) (pl_late p), ([], []))
      else None
  | LSpawn k =>
      Some (mkPipeline (pl_sys p) (pl_table p) (pl_requests p) (pl_tasks p ++ [(k, TLoad)]) (pl_late p),
            ([], []))
  | LTask i => '(k, t) ← pl_tasks p !! i; task_run i k t p
  | LTimeout i => '(k, t) ← pl_tasks p !! i; timeout_run false i k t p
  | LLockTimeout i => '(k, t) ← pl_tasks p !! i; timeout_run true i k t p
  | LLate n =>
      '(k, f) ← pl_late p !! n;
      Some (mkPipeline (pl_sys p) (apply_write k (WFrame f) (pl_table p)) (pl_requests p)
              (pl_tasks p) (delete n (pl_late p)), ([], []))
  end.

Definition pl_step (p : pipeline) (l : label * event) (p' : pipeline) : Prop :=
  pl_run l.1 p = Some (p', l.2).

(** A fresh gateway, any table, any requests, no task yet. *)
Definition pl_start (tokens : gmap string string) (mc mi : Z) (ths : list (thread T ()))
    (p : pipeline) : Prop :=
  sys_start tokens mc mi (pl_sys p) ∧ pl_requests p = ths ∧ pl_tasks p = [] ∧ pl_late p = [].

(** The gateway's part of a run, and the writes of task [i]. *)
Definition gateway_trace (tr : list (label * event)) : list (action * list obs) :=
  flat_map (λ l, l.2.1) tr.
Definition task_writes (i : nat) (tr : list (label * event)) : list write :=
  flat_map (λ l, flat_map (λ w : nat * write, if w.1 =? i then [w.2] else []) l.2.2) tr.

(** Running a list of labels, for concrete executions. *)
Fixpoint pl_exec (ls : list label) (p : pipeline) : option (pipeline * list (label * event)) :=
  match ls with
  | [] => Some (p, [])
  | l :: ls =>
      '(p1, e) ← pl_run l p;
      '(p2, tr) ← pl_exec ls p1;
      Some (p2, (l, e) :: tr)
  end.

Lemma pl_exec_exec ls p p' tr : pl_exec ls p = Some (p', tr) → exec pl_step p tr p'.
Proof.
  revert p p' tr. induction ls as [|l ls IH]; intros p p' tr; cbn.
  - intros [= <- <-]. constructor.
  - intros ([p1 e] & Hrun & ([p2 tr2] & Hex & [= <- <-])%bind_Some)%bind_Some.
    econstructor; [exact Hrun|eauto].
Qed.
End pipeline.
Arguments pipeline T : clear implicits.
