(* ===== verification/PipelineInv.v ===== *)
(** What every run of the composed background task ([Pipeline]) keeps: the run it
    contains of the gateway, the rows finished tasks have settled, and the writes
    each task has made for the frames its stream delivered. *)

From S2P Require Import Prelude Text Regex Dict Gateway GatewaySystem GatewayInv GatewayStreams.
From S2P Require Import GatewayJobs GatewayRuns Store Models Services ServicesProps Pipeline.

Open Scope list_scope.
Open Scope nat_scope.

Section props.
Context {T : Type} `{HT : Table DiagnosticOperation T} `{!TableLaws DiagnosticOperation T}.
Implicit Types (p : pipeline T) (t : T) (k : pk) (op : DiagnosticOperation).

(** * The gateway inside *)

Lemma gw_step_sys a p p' l :
  gw_step a p = Some (p', l) →
  ∃ s o, sys_run a (pl_sys p) = Some (s, o) ∧ p' = set_sys s p ∧ l = (a, o).
Proof. unfold gw_step. intros ([s o] & H & [= <- <-])%bind_Some. eauto. Qed.

Lemma gw_step_exec a p p' l :
  gw_step a p = Some (p', l) → exec sys_step (pl_sys p) [l] (pl_sys p').
Proof. intros (s & o & H & -> & ->)%gw_step_sys. by apply exec_one. Qed.

(** A piece of a task, seen from the gateway: what it did there, and the task's
    next point. *)
Lemma task_run_exec i k x p p' e :
  task_run i k x p = Some (p', e) → exec sys_step (pl_sys p) e.1 (pl_sys p').
Proof.
  destruct x; cbn; unfold write_step; intros H; opt_cases H; simplify_eq/=; try apply exec_nil;
    repeat match goal with x : _ * _ |- _ => destruct x end; simplify_eq/=;
    by eapply gw_step_exec.
Qed.

Lemma abandon_exec x p p' ls :
  abandon x p = Some (p', ls) → exec sys_step (pl_sys p) ls (pl_sys p').
Proof.
  destruct x; cbn; unfold write_step; intros H; opt_cases H; simplify_eq/=; try apply exec_nil;
    repeat match goal with x : _ * _ |- _ => destruct x end; simplify_eq/=;
    by eapply gw_step_exec.
Qed.

Lemma abandon_at_lock_exec x p p' ls :
  abandon_at_lock x p = Some (p', ls) → exec sys_step (pl_sys p) ls (pl_sys p').
Proof.
  destruct x; cbn; intros H; opt_cases H; simplify_eq/=;
    repeat match goal with x : _ * _ |- _ => destruct x end; simplify_eq/=; by eapply gw_step_exec.
Qed.

Lemma timeout_run_exec locked i k x p p' e :
  timeout_run locked i k x p = Some (p', e) → exec sys_step (pl_sys p) e.1 (pl_sys p').
Proof.
  unfold timeout_run. intros H.
  apply bind_Some in H as (job & _ & H). apply bind_Some in H as ([p1 l1] & H1 & H).
  apply bind_Some in H as ([p2 l2] & H2 & H). injection H as <- <-. cbn.
  eapply exec_app; [|by eapply gw_step_exec].
  destruct locked; [by eapply abandon_at_lock_exec|by eapply abandon_exec].
Qed.

Lemma pl_step_exec p l e p' :
  pl_step p (l, e) p' → exec sys_step (pl_sys p) e.1 (pl_sys p').
Proof.
  unfold pl_step. cbn. destruct l as [a|i|k|i|i|i|n]; cbn; intros H.
  - destruct (foreign a p); [|done]. apply bind_Some in H as ([p1 l1] & H & [= <- <-]).
    by eapply gw_step_exec.
  - apply bind_Some in H as ([t ths] & _ & H). destruct (keys_not_reused _ _ _); [|done].
    injection H as <- <-. apply exec_nil.
  - injection H as <- <-. apply exec_nil.
  - apply bind_Some in H as ([k x] & _ & H). by eapply task_run_exec.
  - apply bind_Some in H as ([k x] & _ & H). by eapply timeout_run_exec.
  - apply bind_Some in H as ([k x] & _ & H). by eapply timeout_run_exec.
  - apply bind_Some in H as ([k f] & _ & [= <- <-]). apply exec_nil.
Qed.

(** A run of the composition contains a run of the gateway. *)
Lemma pl_run_gateway p tr p' :
  exec pl_step p tr p' → exec sys_step (pl_sys p) (gateway_trace tr) (pl_sys p').
Proof.
  induction 1 as [|p [l e] p1 tr p2 Hstep _ IH]; [constructor|].
  cbn. eapply exec_app; [by eapply pl_step_exec|done].
Qed.

(** * Settled rows *)

(** Row [k] is not waiting for anything: it is gone, or not active. *)
Definition settled k t : Prop := ∀ op, tb_get t k = Some op → active op = false.

(** One statement: rows that exist are not made active again. *)
Definition keeps_settled (t t' : T) : Prop :=
  ∀ k, is_Some (tb_get t k) → settled k t → settled k t'.

Lemma keeps_settled_refl t : keeps_settled t t.
Proof. by intros k _. Qed.

Lemma settled_update (q : pk → DiagnosticOperation → bool) f t k :
  (∀ op, active op = false → q k op = true → active (f op) = false) →
  settled k t → settled k (tb_update q f t).
Proof.
  intros Hf Hs op. rewrite tb_get_update. destruct (tb_get t k) as [op0|] eqn:E; [|done].
  cbn. intros [= <-]. destruct (q k op0) eqn:Eq; auto.
Qed.

Lemma settled_active k k' f t : settled k t → settled k (update_active k' f t).
Proof. apply settled_update. intros op Ha. by rewrite Ha, andb_false_r. Qed.

Lemma settled_running k k' t : settled k t → settled k (set_running k' t).
Proof.
  apply settled_update. intros op Ha.
  destruct (String.eqb_spec (op_status op) "pending") as [E|]; [|by rewrite andb_false_r].
  unfold active in Ha. by rewrite E in Ha.
Qed.

Lemma settled_write k k' w t : settled k t → settled k (apply_write k' w t).
Proof.
  destruct w as [|f|e]; cbn; [apply settled_running| |apply settled_active].
  destruct (frame_statement k' f) as [u|] eqn:E; [|done].
  apply frame_statement_active in E as [g ->]. apply settled_active.
Qed.

(** A row written to an inactive status under the [_ACTIVE] filter is settled. *)
Lemma update_active_settles k f t :
  (∀ op, active (f op) = false) → settled k (update_active k f t).
Proof.
  intros Hf op. unfold update_active. rewrite tb_get_update, Nat.eqb_refl.
  destruct (tb_get t k) as [op0|]; [|done]. cbn. intros [= <-].
  destruct (active op0) eqn:E; auto.
Qed.

Lemma mapped_status_inactive status code s op :
  active (set_summary s (set_status (mapped_status status) code op)) = false.
Proof. unfold mapped_status. by repeat case_match. Qed.

Lemma result_settles k r t : settled k (apply_write k (WFrame (FResult r)) t).
Proof. apply update_active_settles. intros op. apply mapped_status_inactive. Qed.

Lemma error_settles k e t : settled k (apply_write k (WError e) t).
Proof. apply update_active_settles. intros op. by destruct e. Qed.

(** ** The requests *)

Lemma cancel_keeps_settled be k : guarded keeps_settled (cancel_operation be k).
Proof.
  apply guarded_refresh; [apply keeps_settled_refl|]. intros op.
  destruct (terminal op); [constructor|].
  destruct (cancel_outcome _) as [[status code]|]; [|constructor]. constructor.
  - intros t k' _. apply settled_active.
  - intros t. apply guarded_refresh; [apply keeps_settled_refl|]. constructor.
Qed.

Lemma keeps_settled_save now k status code t :
  str_in status ACTIVE = false → keeps_settled t (save_status now k status code t).
Proof. intros Hs k' _. apply settled_update. intros op _ _. done. Qed.

Lemma keeps_settled_delete ids t : keeps_settled t (tb_delete ids t).
Proof. intros k _ Hs op. rewrite tb_get_delete. case_decide; [done|apply Hs]. Qed.

Lemma keeps_settled_create op t : keeps_settled t (tb_create op t).1.
Proof.
  intros k [op0 Hk] Hs op'. rewrite tb_get_create. case_decide as Hd; [|apply Hs].
  subst k. pose proof (tb_create_fresh op t). congruence.
Qed.

Lemma start_keeps_settled be now uuid agent user diagnostic :
  guarded keeps_settled (start be now uuid agent user diagnostic).
Proof.
  unfold start. destruct (String.eqb _ _); cbn -[trim_history]; [|constructor].
  constructor; [apply keeps_settled_create|]. intros t.
  assert (Htrim : ∀ (v : result exn reply),
    guarded keeps_settled (trim_history (project_id (agent_project agent)) (λ _ : T, Return v))).
  { intros v. apply guarded_trim; [apply keeps_settled_refl|apply keeps_settled_delete|constructor]. }
  assert (Hsave : ∀ k status code, str_in status ACTIVE = false →
    guarded keeps_settled (Stmt (save_status now k status code) (λ t,
      match tb_get t k with
      | Some _ => trim_history (project_id (agent_project agent)) (λ _, Return (Ok (k, status, code)))
      | None => Return (Err (OtherError "save did not affect any rows"))
      end) : thread T (result exn reply))).
  { intros k status code Hs. constructor; [intros t'; by apply keeps_settled_save|].
    intros t'. destruct (tb_get t' k); [done|constructor]. }
  destruct (be_connected be (agent_id agent)); cbn -[trim_history]; [|by apply Hsave].
  destruct (be_start be _) as [|[]]; auto; try constructor.
  destruct (lower_contains _ _); by apply Hsave.
Qed.

(** The requests of [OperationsService] that run beside the tasks. *)
Inductive service_request : thread T () → Prop :=
| sr_cancel be k : service_request (forget (cancel_operation be k))
| sr_start be now uuid agent user diagnostic :
    service_request (forget (start be now uuid agent user diagnostic)).

Lemma service_request_settled th : service_request th → guarded keeps_settled th.
Proof. destruct 1; apply guarded_map; auto using cancel_keeps_settled, start_keeps_settled. Qed.

(** * Moves of a task *)

(** [hop i k p x x' e s]: task [i] of row [k] goes from [x] to [x'] doing [e], which
    leaves the gateway in [s]. *)
Inductive hop (i : nat) (k : pk) (p : pipeline T) : task → task → event → system → Prop :=
| hop_load op :
    tb_get (pl_table p) k = Some op → hop i k p TLoad (TMark op) ([], []) (pl_sys p)
| hop_missing :
    tb_get (pl_table p) k = None → hop i k p TLoad (TDone EMissing) ([], []) (pl_sys p)
| hop_mark op : hop i k p (TMark op) (TOpen op) ([], [(i, WRunning)]) (pl_sys p)
| hop_open op a r s :
    a = ADiagnostics (agent_id (op_agent op)) (op_public_id op) (release_root (op_project op)) →
    sys_run a (pl_sys p) = Some (s, [OOpened r]) →
    hop i k p (TOpen op) (TWait op r) ([(a, [OOpened r])], []) s
| hop_refused op a e s :
    sys_run a (pl_sys p) = Some (s, [ORaised e]) →
    action_call a = None →
    hop i k p (TOpen op) (TSave e) ([(a, [ORaised e])], []) s
| hop_dispatch op r s j po o :
    sys_calls (pl_sys p) !! r = Some (KDispatch j po) →
    sys_run (ADispatch r) (pl_sys p) = Some (s, o) →
    hop i k p (TWait op r) (TWait op r) ([(ADispatch r, o)], []) s
| hop_get op r s j r' f :
    sys_calls (pl_sys p) !! r = Some (KStream j) →
    sys_run (AGet r) (pl_sys p) = Some (s, [ODelivered r' f]) →
    hop i k p (TWait op r) (body_of (T := T) op r f) ([(AGet r, [ODelivered r' f])], []) s
| hop_write op r f :
    hop i k p (TWrite op r f) (TResume op r f) ([], [(i, WFrame f)]) (pl_sys p)
| hop_resume op r f s o :
    sys_run (AResume r) (pl_sys p) = Some (s, o) →
    hop i k p (TResume op r f) (if is_terminal f then TDone (EStream f) else TWait op r)
      ([(AResume r, o)], []) s
| hop_cancelled po n s o :
    sys_run (ACancelPut n) (pl_sys p) = Some (s, o) →
    hop i k p (TCancelPut po) (TSave (TimeoutError "")) ([(ACancelPut n, o)], []) s
| hop_save e : hop i k p (TSave e) (TDone (ERaised e)) ([], [(i, WError e)]) (pl_sys p)
| hop_timeout x x' j ls s :
    job_of x = Some j → exec sys_step (pl_sys p) ls s →
    Forall (λ l, ∀ r, about r l → held_by x = Some r ∧ l.1 ≠ AGet r) ls →
    x' = TSave (TimeoutError "") ∨ (∃ po, x' = TCancelPut po) →
    hop i k p x x' (ls, []) s.

(** The table after the writes [ws] to row [k], in order. *)
Definition replay k (ws : list write) t : T := foldl (λ t w, apply_write k w t) t ws.
Definition written k (ws : list (nat * write)) t : T := replay k ws.*2 t.

Record hop_frame i k (p p' : pipeline T) x' (e : event) : Prop := {
  hf_tasks : pl_tasks p' = <[i := (k, x')]> (pl_tasks p);
  hf_table : pl_table p' = written k e.2 (pl_table p);
  hf_requests : pl_requests p' = pl_requests p
}.

Lemma sys_run_get r s s' o :
  sys_run (AGet r) s = Some (s', o) → ∃ f, o = [ODelivered r f].
Proof.
  unfold sys_run. cbn. destruct (sys_calls s !! r) as [c|]; [|done]. cbn.
  destruct c; try done. destruct (gw_job_objs _ !! r) as [j|]; [|done]. cbn.
  destruct (js_queue j); [done|]. intros [= <- <-]. eauto.
Qed.

Lemma task_run_hop i k x p p' e :
  pl_tasks p !! i = Some (k, x) → task_run i k x p = Some (p', e) →
  ∃ x', hop i k p x x' e (pl_sys p') ∧ hop_frame i k p p' x' e.
Proof.
  intros Hi H.
  assert (Hid : pl_tasks p = <[i := (k, x)]> (pl_tasks p)) by by rewrite list_insert_id.
  destruct x as [|op|op|op r|op r f|op r f|po|ex|how]; cbn in H; unfold write_step in H.
  - injection H as <- <-. destruct (tb_get (pl_table p) k) as [op|] eqn:E.
    + exists (TMark op). split; [cbn; by apply hop_load|by split].
    + exists (TDone EMissing). split; [cbn; by apply hop_missing|by split].
  - injection H as <- <-. eexists; split; [cbn; by constructor|by split].
  - apply bind_Some in H as ([p1 [a o]] & (s & o' & Hr & -> & [= -> ->])%gw_step_sys & H).
    apply bind_Some in H as (x & Ho & [= <- <-]).
    exists x. split; [|by split].
    destruct o' as [|[] []]; try discriminate Ho; injection Ho as <-; by constructor.
  - destruct (sys_calls (pl_sys p) !! r) as [[|j po|j| |]|] eqn:E; try discriminate H.
    + apply bind_Some in H as ([p1 l] & (s & o & Hr & -> & ->)%gw_step_sys & [= <- <-]).
      exists (TWait op r). split; [cbn; by econstructor|by split].
    + apply bind_Some in H as ([p1 [a o]] & (s & o' & Hr & -> & [= -> ->])%gw_step_sys & H).
      apply bind_Some in H as (x & Ho & [= <- <-]).
      destruct (sys_run_get _ _ _ _ Hr) as [f ->]. injection Ho as <-.
      eexists. split; [cbn; by econstructor|by split].
  - injection H as <- <-. eexists; split; [cbn; by constructor|by split].
  - apply bind_Some in H as ([p1 l] & (s & o & Hr & -> & ->)%gw_step_sys & [= <- <-]).
    eexists. split; [cbn; by constructor|by split].
  - apply bind_Some in H as ([n ?] & _ & H).
    apply bind_Some in H as ([p1 l] & (s & o & Hr & -> & ->)%gw_step_sys & [= <- <-]).
    eexists. split; [cbn; by econstructor|by split].
  - injection H as <- <-. eexists; split; [cbn; by constructor|by split].
  - discriminate H.
Qed.

Lemma sys_run_cancel j s s' o :
  sys_run (ACancel j) s = Some (s', o) → ∃ b, o = [OAnswer b].
Proof.
  unfold sys_run. cbn. destruct (cancel j (sys_gw s)) as [[g b] op]. intros [= <- <-]. eauto.
Qed.

Lemma abandon_about x p p' ls :
  abandon x p = Some (p', ls) →
  pl_table p' = pl_table p ∧ pl_requests p' = pl_requests p ∧ pl_tasks p' = pl_tasks p ∧
  Forall (λ l, ∀ r, about r l → held_by x = Some r ∧ l.1 ≠ AGet r) ls.
Proof.
  destruct x; cbn; try (intros [= <- <-]; split_and!; constructor).
  destruct (sys_calls (pl_sys p) !! r) as [[|j po|j| |]|]; cbn; try discriminate;
    intros ([p1 l] & (s & o & Hr & -> & ->)%gw_step_sys & [= <- <-])%bind_Some;
    (split_and!; [done..|]); apply Forall_singleton; intros r' [Ha|Ho]; cbn in *;
    try (by injection Ha as ->);
    unfold sys_run in Hr; cbn in Hr; (destruct (sys_calls (pl_sys p) !! r) as [[]|]; try discriminate Hr);
    injection Hr as _ <-; discriminate Ho.
Qed.

Lemma abandon_at_lock_about x p p' ls :
  abandon_at_lock x p = Some (p', ls) →
  pl_table p' = pl_table p ∧ pl_requests p' = pl_requests p ∧ pl_tasks p' = pl_tasks p ∧
  Forall (λ l, ∀ r, about r l → held_by x = Some r ∧ l.1 ≠ AGet r) ls.
Proof.
  destruct x as [| | | | |op r f| | |]; cbn; try discriminate. destruct (is_terminal f); [|discriminate].
  intros ([p1 l] & (s & o & Hr & -> & ->)%gw_step_sys & [= <- <-])%bind_Some.
  (split_and!; [done..|]). apply Forall_singleton. intros r' [Ha|Ho]; cbn in *; [by injection Ha as ->|].
  unfold sys_run in Hr. cbn in Hr. destruct (sys_calls (pl_sys p) !! r) as [[]|]; try discriminate Hr;
    injection Hr as _ <-; discriminate Ho.
Qed.

Lemma timeout_run_hop locked i k x p p' e :
  timeout_run locked i k x p = Some (p', e) →
  ∃ x', hop i k p x x' e (pl_sys p') ∧ hop_frame i k p p' x' e.
Proof.
  intros H. pose proof (timeout_run_exec _ _ _ _ _ _ _ H) as Hex. unfold timeout_run in H.
  apply bind_Some in H as (j & Hj & H). apply bind_Some in H as ([p1 l1] & H1 & H).
  apply bind_Some in H as ([p2 l2] & (s & o & Hr & -> & ->)%gw_step_sys & H).
  assert (pl_table p1 = pl_table p ∧ pl_requests p1 = pl_requests p ∧ pl_tasks p1 = pl_tasks p ∧
    Forall (λ l, ∀ r, about r l → held_by x = Some r ∧ l.1 ≠ AGet r) l1) as (Ht & Hq & Hk & Hab)
    by (destruct locked; [by eapply abandon_at_lock_about|by eapply abandon_about]).
  injection H as <- <-. eexists. split; cycle 1.
  - split; cbn; by rewrite ?Hk, ?Ht, ?Hq.
  - eapply hop_timeout; [exact Hj|exact Hex| |].
    + cbn. apply Forall_app. split; [done|]. apply Forall_singleton.
      destruct (sys_run_cancel _ _ _ _ Hr) as [b ->]. by intros r [Ha|Ho].
    + cbn. destruct (drop _ _); eauto.
Qed.

(** Every other step: no task moves (one may be created), a frame of a held
    stream is not touched, and a row is changed by a request or a late write. *)
Record quiet (p : pipeline T) (e : event) (p' : pipeline T) : Prop := {
  qt_tasks : pl_tasks p' = pl_tasks p ∨ ∃ k, pl_tasks p' = pl_tasks p ++ [(k, TLoad)];
  qt_writes : e.2 = [];
  qt_about : Forall (λ l, ∀ r i k x, pl_tasks p !! i = Some (k, x) → held_by x = Some r →
    action_call l.1 ≠ Some r) e.1;
  qt_table : pl_table p' = pl_table p ∨ (∃ k w, pl_table p' = apply_write k w (pl_table p)) ∨
    (∃ i ths, pool_step (pl_table p, pl_requests p) i (pl_table p', ths) ∧
       pl_requests p' = ths ∧ keys_not_reused (pl_table p) (pl_table p') p = true);
  qt_requests : pl_requests p' = pl_requests p ∨ ∃ i ths,
    pool_step (pl_table p, pl_requests p) i (pl_table p', ths) ∧ pl_requests p' = ths
}.

Lemma foreign_not_held a p i k x r :
  foreign a p = true → pl_tasks p !! i = Some (k, x) → held_by x = Some r → action_call a ≠ Some r.
Proof.
  intros Hf Hi Hh Ha.
  assert (Hall : forallb (λ kt : pk * task, negb (bool_decide (held_by kt.2 = Some r))) (pl_tasks p) = true)
    by (destruct a; cbn in Ha |- *; try discriminate Ha; injection Ha as ->; exact Hf).
  rewrite forallb_forall in Hall. apply list_elem_of_lookup_2, list_elem_of_In, Hall in Hi. cbn in Hi.
  rewrite bool_decide_true in Hi; done.
Qed.

Lemma quiet_gateway a p p' l :
  foreign a p = true → gw_step a p = Some (p', l) → quiet p ([l], []) p'.
Proof.
  intros Hf (s & o & _ & -> & ->)%gw_step_sys. split; cbn; auto.
  apply Forall_singleton. intros r i k x Hi Hh. by eapply foreign_not_held.
Qed.

Lemma quiet_request i p t ths :
  pool_run i (pl_table p, pl_requests p) = Some (t, ths) → keys_not_reused (pl_table p) t p = true →
  quiet p ([], []) (mkPipeline (pl_sys p) t ths (pl_tasks p) (pl_late p)).
Proof. intros H Hk. split; cbn; eauto 10. Qed.

(** Every step of the composition is a move of one task or quiet. *)
Lemma pl_step_cases p l e p' :
  pl_step p (l, e) p' →
  (∃ i k x x', pl_tasks p !! i = Some (k, x) ∧ hop i k p x x' e (pl_sys p') ∧
     hop_frame i k p p' x' e) ∨ quiet p e p'.
Proof.
  unfold pl_step. cbn. destruct l as [a|i|k|i|i|i|n]; cbn; intros H.
  - right. destruct (foreign a p) eqn:Hf; [|done].
    apply bind_Some in H as ([p1 l1] & H & [= <- <-]). by eapply quiet_gateway.
  - right. apply bind_Some in H as ([t ths] & H & H').
    destruct (keys_not_reused _ _ _) eqn:Hk; [|done]. injection H' as <- <-. by eapply quiet_request.
  - right. injection H as <- <-. split; cbn; eauto.
  - left. apply bind_Some in H as ([k x] & Hi & H).
    destruct (task_run_hop _ _ _ _ _ _ Hi H) as (x' & Hh & Hf). exists i, k, x, x'. done.
  - left. apply bind_Some in H as ([k x] & Hi & H).
    destruct (timeout_run_hop _ _ _ _ _ _ _ H) as (x' & Hh & Hf). exists i, k, x, x'. done.
  - left. apply bind_Some in H as ([k x] & Hi & H).
    destruct (timeout_run_hop _ _ _ _ _ _ _ H) as (x' & Hh & Hf). exists i, k, x, x'. done.
  - right. apply bind_Some in H as ([k f] & _ & [= <- <-]).
    split; try (by left); [constructor|]. right. left. by exists k, (WFrame f).
Qed.

(** * A finished task has settled its row *)

Definition task_settled t k (x : task) : Prop :=
  match x with
  | TResume _ _ f => is_result f = true → settled k t
  | TDone (EStream f) => is_terminal f = true ∧ (is_result f = true → settled k t)
  | TDone EMissing | TDone (ERaised _) => settled k t
  | _ => True
  end.

Record settle_inv (p : pipeline T) : Prop := {
  sv_requests : Forall (guarded keeps_settled) (pl_requests p);
  sv_tasks : ∀ i k x, pl_tasks p !! i = Some (k, x) → task_settled (pl_table p) k x
}.

Lemma task_settled_mono t t' k x :
  (settled k t → settled k t') → task_settled t k x → task_settled t' k x.
Proof. destruct x as [| | | | | | | |[]]; cbn; intuition. Qed.

Lemma settled_writes k k' ws t : settled k t → settled k (written k' ws t).
Proof.
  unfold written. revert t. induction ws as [|w ws IH]; intros t Hs; cbn; [done|].
  by apply IH, settled_write.
Qed.

(** Rows of tasks stay settled. *)
Lemma settled_quiet p e p' i k x :
  Forall (guarded keeps_settled) (pl_requests p) → quiet p e p' →
  pl_tasks p !! i = Some (k, x) → settled k (pl_table p) → settled k (pl_table p').
Proof.
  intros Hg Hq Hi Hs. destruct (qt_table _ _ _ Hq) as [->|[(k' & w & ->)|(n & ths & Hp & _ & Hk)]].
  - done.
  - by apply settled_write.
  - destruct (pool_step_guarded _ _ _ _ Hp Hg) as [HR _]. cbn in HR.
    destruct (tb_get (pl_table p) k) as [op|] eqn:E; [eapply HR; eauto|].
    unfold keys_not_reused in Hk. rewrite forallb_forall in Hk.
    apply list_elem_of_lookup_2, list_elem_of_In, Hk in Hi. cbn in Hi. rewrite E in Hi.
    intros op'. by destruct (tb_get (pl_table p') k).
Qed.

Lemma hop_settled i k p x x' e s :
  hop i k p x x' e s → task_settled (pl_table p) k x →
  task_settled (written k e.2 (pl_table p)) k x'.
Proof.
  destruct 1 as [op Hk|Hk|op|op a r s Hr|op a ex s Hr|op r s j po o|op r s j r' f|op r f|op r f s o
    |po n s o|ex|x x' j ls s Hj Hex Ha Hx']; cbn; intros Hs; try done.
  - intros op. by rewrite Hk.
  - unfold body_of. destruct f; cbn; try done.
  - intros Hr. destruct f; try discriminate Hr. apply result_settles.
  - by destruct (is_terminal f) eqn:Hf.
  - apply error_settles.
  - by destruct Hx' as [->|[po ->]].
Qed.

Lemma settle_inv_step p l p' : settle_inv p → pl_step p l p' → settle_inv p'.
Proof.
  destruct l as [l e]. intros [Hg Ht] [(i & k & x & x' & Hi & Hh & [Hk Htab Hreq])|Hq]%pl_step_cases.
  - split; [by rewrite Hreq|]. intros i' k' y. rewrite Hk, Htab.
    destruct (decide (i' = i)) as [->|Hne].
    + rewrite list_lookup_insert_eq by (by eapply lookup_lt_Some). intros [= <- <-].
      eapply hop_settled; eauto.
    + rewrite list_lookup_insert_ne by done. intros Hi'.
      eapply task_settled_mono; [apply settled_writes|by eapply Ht].
  - split.
    + destruct (qt_requests _ _ _ Hq) as [->|(n & ths & Hp & ->)]; [done|].
      by apply (pool_step_guarded _ _ _ _ Hp).
    + intros i k x Hi.
      assert (pl_tasks p !! i = Some (k, x) ∨ x = TLoad) as [Hi'| ->]; [|by eapply task_settled_mono; [eapply settled_quiet|]; eauto|done].
      destruct (qt_tasks _ _ _ Hq) as [Hk|[k' Hk]]; rewrite Hk in Hi; [by left|].
      apply lookup_app_Some in Hi as [?|[_ [_ [= _ <-]]%list_lookup_singleton_Some]]; auto.
Qed.

Lemma settle_inv_run tokens mc mi ths p0 tr p :
  pl_start tokens mc mi ths p0 → Forall service_request ths → exec pl_step p0 tr p → settle_inv p.
Proof.
  intros (_ & Hq & Ht & _) Hths Hex.
  refine (exec_invariant _ settle_inv settle_inv_step _ _ _ Hex _). split.
  - rewrite Hq. eapply Forall_impl; [exact Hths|]. apply service_request_settled.
  - rewrite Ht. intros i k x. by rewrite lookup_nil.
Qed.

(** * The writes of a task *)

(** The writes the loop body makes for the frames [fs]. *)
Definition frame_writes (fs : list AgentFrame) : list write :=
  WFrame <$> filter (λ f, is_Some (frame_statement (T := T) 0 f)) fs.

Definition end_writes (e : stream_end) : list write :=
  match e with StreamDone => [] | StreamRaises e => [WError e] end.

Lemma frame_writes_app fs f :
  frame_writes (fs ++ [f]) =
    frame_writes fs ++ match frame_statement (T := T) 0 f with Some _ => [WFrame f] | None => [] end.
Proof.
  unfold frame_writes. rewrite filter_app, fmap_app. f_equal. rewrite filter_cons.
  destruct (frame_statement 0 f) as [w|]; case_decide as Hd; try done; exfalso;
    first [by destruct Hd|by apply Hd].
Qed.

Lemma run_consume_frames k fs e t :
  (run_thread (consume_frames k fs e None) t).1 = replay k (frame_writes fs ++ end_writes e) t.
Proof.
  revert t. induction fs as [|f fs IH]; intros t.
  - destruct e as [|ex]; [done|]. cbn. by destruct ex.
  - unfold frame_writes. rewrite filter_cons.
    assert (Hs : is_Some (frame_statement (T := T) 0 f) ↔ is_Some (frame_statement (T := T) k f))
      by by destruct f.
    cbn [consume_frames]. destruct (frame_statement k f) as [w|] eqn:E; case_decide as Hd.
    + cbn. rewrite IH. cbn. by rewrite E.
    + exfalso. apply Hd, Hs. done.
    + apply Hs in Hd. by destruct Hd.
    + apply IH.
Qed.

(** What [Services.consume] writes for a stream of these frames and this end. *)
Lemma run_consume_writes k op fs e t :
  tb_get t k = Some op →
  (run_thread (consume (λ _ _ _, (fs, e)) None k) t).1 =
    replay k (WRunning :: frame_writes fs ++ end_writes e) t.
Proof. intros Hk. cbn. rewrite Hk. cbn. by rewrite run_consume_frames. Qed.

(** ** The stream of a task *)

Definition yielded (d : ref → list AgentFrame) (calls : gmap ref call) op r f : Prop :=
  ∃ fs, calls !! r = Some (KYielded (op_public_id op) (is_terminal f)) ∧ d r = fs ++ [f] ∧ Forall goes_on fs.

Definition writes_ok (d : ref → list AgentFrame) (calls : gmap ref call) (ws : list write)
    (x : task) : Prop :=
  match x with
  | TLoad | TMark _ | TDone EMissing => ws = []
  | TOpen _ => ws = [WRunning]
  | TWait op r =>
      ws = WRunning :: frame_writes (d r) ∧ Forall goes_on (d r) ∧
      ∃ c, calls !! r = Some c ∧ awaited c = true ∧ call_job c = Some (op_public_id op)
  | TWrite op r f =>
      ws ++ [WFrame f] = WRunning :: frame_writes (d r) ∧ yielded d calls op r f ∧
      is_Some (frame_statement (T := T) 0 f)
  | TResume op r f => ws = WRunning :: frame_writes (d r) ∧ yielded d calls op r f
  | TCancelPut _ => ∃ r fs, fs `prefix_of` d r ∧ ws = WRunning :: frame_writes fs
  | TSave _ => ∃ r fs, fs `prefix_of` d r ∧ ws = WRunning :: frame_writes fs
  | TDone (ERaised e) => ∃ r fs, fs `prefix_of` d r ∧ ws = WRunning :: frame_writes fs ++ [WError e]
  | TDone (EStream f) =>
      ∃ r fs, ws = WRunning :: frame_writes (d r) ∧ d r = fs ++ [f] ∧ Forall goes_on fs ∧
        is_terminal f = true ∧ calls !! r = Some KDone
  end.

Lemma writes_ok_mono d d' calls calls' ws x :
  (∀ r, d r `prefix_of` d' r) →
  (∀ r, held_by x = Some r ∨ calls !! r = Some KDone → d' r = d r ∧ calls' !! r = calls !! r) →
  writes_ok d calls ws x → writes_ok d' calls' ws x.
Proof.
  intros Hp Hr. destruct x as [|op|op|op r|op r f|op r f|po|ex|[|f|ex]]; cbn; try done;
    unfold yielded; try (destruct (Hr r) as [-> ->]; [by left|done]).
  - intros (r & fs & Hfs & ->). exists r, fs. split; [by etrans|done].
  - intros (r & fs & Hfs & ->). exists r, fs. split; [by etrans|done].
  - intros (r & fs & Hws & Hd & Hf & Ht & Hc). exists r, fs.
    destruct (Hr r) as [-> ->]; [by right|done].
  - intros (r & fs & Hfs & ->). exists r, fs. split; [by etrans|done].
Qed.

(** ** The invariant *)

Definition frames_of (tr : list (label * event)) (r : ref) : list AgentFrame :=
  delivered r (gateway_trace tr).

Record writes_inv tokens mc mi (tr : list (label * event)) (p : pipeline T) : Prop := {
  wi_live : live_system tokens mc mi (pl_sys p);
  wi_fresh : ∀ r, gw_job_objs (sys_gw (pl_sys p)) !! r = None → frames_of tr r = [];
  wi_tasks : ∀ i k x, pl_tasks p !! i = Some (k, x) →
    writes_ok (frames_of tr) (sys_calls (pl_sys p)) (task_writes i tr) x;
  wi_none : ∀ i, pl_tasks p !! i = None → task_writes i tr = [];
  wi_apart : ∀ i j ki kj x y r, pl_tasks p !! i = Some (ki, x) → pl_tasks p !! j = Some (kj, y) →
    held_by x = Some r → held_by y = Some r → i = j
}.

Lemma frames_of_snoc tr l e r : frames_of (tr ++ [(l, e)]) r = frames_of tr r ++ delivered r e.1.
Proof.
  unfold frames_of, gateway_trace. rewrite flat_map_app, delivered_app. cbn. by rewrite app_nil_r.
Qed.

Definition writes_of (i : nat) (e : event) : list write :=
  flat_map (λ w : nat * write, if w.1 =? i then [w.2] else []) e.2.

Lemma task_writes_snoc i tr l e : task_writes i (tr ++ [(l, e)]) = task_writes i tr ++ writes_of i e.
Proof. unfold task_writes. rewrite flat_map_app. cbn. by rewrite app_nil_r. Qed.

(** A task that holds a stream waits for one of its operation's job. *)
Lemma held_job d calls ws x r :
  writes_ok d calls ws x → held_by x = Some r → ∃ c, calls !! r = Some c ∧ call_job c = job_of x.
Proof.
  destruct x; cbn; try done; intros Hw [= ->].
  - destruct Hw as (_ & _ & c & -> & _ & Hj). by exists c.
  - destruct Hw as (_ & (fs & -> & _) & _). by eexists.
  - destruct Hw as (_ & (fs & -> & _)). by eexists.
Qed.

Lemma held_call d calls ws x r :
  writes_ok d calls ws x → held_by x = Some r → is_Some (calls !! r).
Proof. intros Hw Hx. destruct (held_job _ _ _ _ _ Hw Hx) as (c & -> & _). done. Qed.

(** A task that does not move is not affected by the gateway's steps. *)
Lemma writes_ok_still tokens mc mi tr p l e s' i k x :
  writes_inv tokens mc mi tr p → pl_tasks p !! i = Some (k, x) →
  exec sys_step (pl_sys p) e.1 s' →
  (∀ r, held_by x = Some r → Forall (λ l, action_call l.1 ≠ Some r) e.1) →
  writes_ok (frames_of (tr ++ [(l, e)])) (sys_calls s') (task_writes i tr) x.
Proof.
  intros Hinv Hi Hex Hh. assert (Hok := wi_tasks _ _ _ _ _ Hinv _ _ _ Hi).
  eapply writes_ok_mono; [| |exact Hok].
  - intros r. rewrite frames_of_snoc. by apply prefix_app_r.
  - intros r Hr. rewrite frames_of_snoc.
    destruct (exec_untouched _ _ _ _ _ _ r (wi_live _ _ _ _ _ Hinv) Hex) as [-> ->].
    + destruct Hr as [Hr| ->]; [by eapply held_call|done].
    + destruct Hr; auto.
    + by rewrite app_nil_r.
Qed.

Lemma writes_of_one i w ls : writes_of i (ls, [(i, w)]) = [w].
Proof. unfold writes_of. cbn. by rewrite Nat.eqb_refl. Qed.

(** Frames written and the prefix a stream goes on from. *)
Lemma abandoned_writes tr p i x l e j :
  writes_ok (frames_of tr) (sys_calls (pl_sys p)) (task_writes i tr) x → job_of x = Some j →
  ∃ r fs, fs `prefix_of` frames_of (tr ++ [(l, e)]) r ∧ task_writes i tr = WRunning :: frame_writes fs.
Proof.
  destruct x as [| |op|op r|op r f|op r f| | |]; try done; cbn; intros Hw _; [exists 0|exists r..].
  - exists []. split; [apply prefix_nil|done].
  - destruct Hw as (-> & _). eexists. split; [|done]. rewrite frames_of_snoc. by apply prefix_app_r.
  - destruct Hw as (Hw & (fs & _ & Hd & _) & Hs). exists fs.
    rewrite frames_of_snoc, Hd. split; [by apply prefix_app_r, prefix_app_r|].
    rewrite Hd, frame_writes_app in Hw. destruct (frame_statement 0 f); [|by destruct Hs].
    change (WRunning :: ?a ++ ?b) with ((WRunning :: a) ++ b) in Hw. by apply app_inj_tail in Hw as [? _].
  - destruct Hw as (-> & _). eexists. split; [|done]. rewrite frames_of_snoc. by apply prefix_app_r.
Qed.

Lemma hop_writes tokens mc mi tr p l e i k x x' s' :
  writes_inv tokens mc mi tr p → pl_tasks p !! i = Some (k, x) → hop i k p x x' e s' →
  writes_ok (frames_of (tr ++ [(l, e)])) (sys_calls s') (task_writes i tr ++ writes_of i e) x'.
Proof.
  intros Hinv Hi Hh. pose proof (wi_tasks _ _ _ _ _ Hinv _ _ _ Hi) as Hw.
  assert (Hg : ∀ ls r, frames_of (tr ++ [(l, (ls, []))]) r = frames_of tr r ++ delivered r ls)
    by (intros; apply frames_of_snoc).
  destruct Hh as [op Hk|Hk|op|op a r s -> Hr|op a ex s Hr Ha|op r s j po o Hc Hr|op r s j r' f Hc Hr
    |op r f|op r f s o Hr|po n s o Hr|ex|x x' j ls s Hj Hex Ha Hx'];
    rewrite ?writes_of_one; try (change (writes_of i (_, [])) with (@nil write); rewrite app_nil_r).
  - done.
  - done.
  - cbn in *. by rewrite Hw.
  - cbn in Hw |- *. destruct (sys_run_opened _ _ _ _ Hr) as [-> (c & Hs & po & ->)].
    destruct (live_fresh _ _ _ _ (wi_live _ _ _ _ _ Hinv)) as [_ Hn].
    rewrite Hg, (wi_fresh _ _ _ _ _ Hinv _ Hn), Hw, Hs. cbn. split_and!; [done|constructor|eauto].
  - cbn in Hw |- *. exists 0, []. rewrite Hw. split; [apply prefix_nil|done].
  - cbn in Hw |- *. destruct Hw as (Hw & Hf & c & Hc' & _ & Hj). rewrite Hc in Hc'. injection Hc' as <-.
    destruct (dispatch_step _ _ _ _ _ _ Hc Hr) as [-> Hs].
    rewrite Hg, Hs. cbn. rewrite app_nil_r. split_and!; eauto.
  - cbn in Hw. destruct Hw as (Hw & Hf & c & Hc' & _ & Hj). rewrite Hc in Hc'. injection Hc' as <-.
    injection Hj as ->. destruct (get_step _ _ _ _ _ _ Hc Hr) as [-> Hs].
    set (d := frames_of (tr ++ _)).
    assert (Hd : d r = frames_of tr r ++ [f]) by (unfold d; rewrite Hg; cbn; by rewrite decide_True).
    assert (Hy : yielded d (sys_calls s) op r f) by (eexists _; done).
    unfold body_of. destruct (frame_statement 0 f) eqn:Ef; cbn; rewrite Hd, frame_writes_app, Ef, Hw.
    + done.
    + by rewrite app_nil_r.
  - cbn in Hw |- *. destruct Hw as (Hw & Hy & _). unfold yielded in *.
    rewrite frames_of_snoc. cbn. by rewrite app_nil_r.
  - cbn in Hw. destruct Hw as (Hw & fs & Hc & Hd & Hf). destruct (resume_step _ _ _ _ _ _ Hc Hr) as [-> Hs].
    set (d := frames_of (tr ++ _)).
    assert (Hd' : d r = frames_of tr r) by (unfold d; rewrite Hg; apply app_nil_r).
    destruct (is_terminal f) eqn:Ef; cbn.
    + exists r, fs. by rewrite Hd'.
    + rewrite Hd', Hs. split_and!; [done| |eauto]. rewrite Hd. apply Forall_app. by repeat constructor.
  - cbn in Hw |- *. destruct Hw as (r & fs & Hp & ->). exists r, fs. split; [|done].
    rewrite Hg. by apply prefix_app_r.
  - cbn in Hw |- *. destruct Hw as (r & fs & Hp & ->). exists r, fs. split; [|done].
    rewrite frames_of_snoc. by apply prefix_app_r.
  - destruct (abandoned_writes _ _ _ _ l (ls, []) _ Hw Hj) as (r & fs & Hp & Hws).
    destruct Hx' as [->|[po ->]]; cbn; eauto.
Qed.

Lemma writes_of_other i j ls w : j ≠ i → writes_of j (ls, [(i, w)]) = [].
Proof. intros Hne. unfold writes_of. cbn. by rewrite (proj2 (Nat.eqb_neq i j)) by done. Qed.

Lemma hop_others i k p x x' e s' j :
  hop i k p x x' e s' → j ≠ i → writes_of j e = [].
Proof. by destruct 1; intros; try apply writes_of_other. Qed.

Lemma hop_calls i k p x x' e s' :
  hop i k p x x' e s' →
  Forall (λ l, ∀ r, action_call l.1 = Some r → held_by x = Some r) e.1.
Proof.
  destruct 1 as [op Hk|Hk|op|op a r s -> Hr|op a ex s Hr Ha|op r s j po o Hc Hr|op r s j r' f Hc Hr
    |op r f|op r f s o Hr|po n s o Hr|ex|x x' j ls s Hj Hex Ha Hx']; cbn;
    repeat constructor; cbn; try (by intros; congruence).
  eapply Forall_impl; [exact Ha|]. intros l Hl r Hr. by apply (Hl r); left.
Qed.

Lemma hop_held i k p x x' e s' r :
  sys_calls (pl_sys p) !! gw_next_ref (sys_gw (pl_sys p)) = None →
  hop i k p x x' e s' → held_by x' = Some r →
  held_by x = Some r ∨ sys_calls (pl_sys p) !! r = None.
Proof.
  intros Hn. destruct 1 as [op Hk|Hk|op|op a r1 s -> Hr|op a ex s Hr Ha|op r1 s j po o Hc Hr
    |op r1 s j r' f Hc Hr|op r1 f|op r1 f s o Hr|po n s o Hr|ex|x x' j ls s Hj Hex Ha Hx']; cbn; auto.
  - intros [= ->]. right. by destruct (sys_run_opened _ _ _ _ Hr) as [-> _].
  - unfold body_of. by destruct (frame_statement 0 f); left.
  - destruct (is_terminal f); by left.
  - by destruct Hx' as [->|[po ->]].
Qed.

Lemma hop_step tokens mc mi tr p l e p' i k x x' :
  writes_inv tokens mc mi tr p → pl_tasks p !! i = Some (k, x) → hop i k p x x' e (pl_sys p') →
  hop_frame i k p p' x' e → exec sys_step (pl_sys p) e.1 (pl_sys p') →
  (∀ j kj y, pl_tasks p' !! j = Some (kj, y) →
     writes_ok (frames_of (tr ++ [(l, e)])) (sys_calls (pl_sys p')) (task_writes j (tr ++ [(l, e)])) y) ∧
  (∀ j, pl_tasks p' !! j = None → task_writes j (tr ++ [(l, e)]) = []) ∧
  (∀ j j' kj kj' y y' r, pl_tasks p' !! j = Some (kj, y) → pl_tasks p' !! j' = Some (kj', y') →
    held_by y = Some r → held_by y' = Some r → j = j').
Proof.
  intros Hinv Hi Hh [Hk _ _] Hex.
  assert (Hlen := lookup_lt_Some _ _ _ Hi). rewrite Hk.
  assert (Hother : ∀ j kj y r, j ≠ i → pl_tasks p !! j = Some (kj, y) → held_by y = Some r →
    held_by x' = Some r → False).
  { intros j kj y r Hne Hj Hy Hx'.
    destruct (live_fresh _ _ _ _ (wi_live _ _ _ _ _ Hinv)) as [Hn _].
    destruct (hop_held _ _ _ _ _ _ _ _ Hn Hh Hx') as [Hx|Hr].
    - apply Hne. by eapply (wi_apart _ _ _ _ _ Hinv).
    - destruct (held_call _ _ _ _ _ (wi_tasks _ _ _ _ _ Hinv _ _ _ Hj) Hy) as [c Hc]. congruence. }
  split_and!.
  - intros j kj y Hj. rewrite task_writes_snoc. destruct (decide (j = i)) as [->|Hne].
    + rewrite list_lookup_insert_eq in Hj by done. injection Hj as <- <-. by eapply hop_writes.
    + rewrite list_lookup_insert_ne in Hj by done.
      rewrite (hop_others _ _ _ _ _ _ _ _ Hh Hne), app_nil_r. eapply writes_ok_still; eauto.
      intros r Hr. eapply Forall_impl; [by eapply hop_calls|]. intros la Hla Ha.
      apply Hne. eapply (wi_apart _ _ _ _ _ Hinv); eauto.
  - intros j Hj. apply lookup_ge_None in Hj. rewrite length_insert in Hj.
    rewrite task_writes_snoc, (wi_none _ _ _ _ _ Hinv) by (by apply lookup_ge_None).
    apply (hop_others _ _ _ _ _ _ _ _ Hh). lia.
  - intros j j' kj kj' y y' r Hj Hj' Hy Hy'.
    destruct (decide (j = i)) as [->|Hne], (decide (j' = i)) as [->|Hne']; [done|..].
    + rewrite list_lookup_insert_eq in Hj by done. rewrite list_lookup_insert_ne in Hj' by done.
      simplify_eq. exfalso. eauto.
    + rewrite list_lookup_insert_ne in Hj by done. rewrite list_lookup_insert_eq in Hj' by done.
      simplify_eq. exfalso. eauto.
    + rewrite list_lookup_insert_ne in Hj, Hj' by done. by eapply (wi_apart _ _ _ _ _ Hinv).
Qed.

Lemma quiet_step tokens mc mi tr p l e p' :
  writes_inv tokens mc mi tr p → quiet p e p' → exec sys_step (pl_sys p) e.1 (pl_sys p') →
  (∀ j kj y, pl_tasks p' !! j = Some (kj, y) →
     writes_ok (frames_of (tr ++ [(l, e)])) (sys_calls (pl_sys p')) (task_writes j (tr ++ [(l, e)])) y) ∧
  (∀ j, pl_tasks p' !! j = None → task_writes j (tr ++ [(l, e)]) = []) ∧
  (∀ j j' kj kj' y y' r, pl_tasks p' !! j = Some (kj, y) → pl_tasks p' !! j' = Some (kj', y') →
    held_by y = Some r → held_by y' = Some r → j = j').
Proof.
  intros Hinv Hq Hex.
  assert (Htw : ∀ j, task_writes j (tr ++ [(l, e)]) = task_writes j tr).
  { intros j. rewrite task_writes_snoc. unfold writes_of. by rewrite (qt_writes _ _ _ Hq), app_nil_r. }
  assert (Hold : ∀ j kj y, pl_tasks p' !! j = Some (kj, y) →
    pl_tasks p !! j = Some (kj, y) ∨ (y = TLoad ∧ pl_tasks p !! j = None)).
  { intros j kj y Hj. destruct (qt_tasks _ _ _ Hq) as [Hk|[k Hk]]; rewrite Hk in Hj; [by left|].
    apply lookup_app_Some in Hj as [?|[Hge [_ [= _ <-]]%list_lookup_singleton_Some]]; [by left|].
    right. split; [done|]. by apply lookup_ge_None. }
  split_and!.
  - intros j kj y Hj. rewrite Htw. destruct (Hold _ _ _ Hj) as [Hj'|[-> Hn]].
    + eapply writes_ok_still; eauto. intros r Hr.
      eapply Forall_impl; [apply (qt_about _ _ _ Hq)|]. intros la Hla. by eapply Hla.
    + by apply (wi_none _ _ _ _ _ Hinv).
  - intros j Hj. rewrite Htw. apply (wi_none _ _ _ _ _ Hinv).
    destruct (qt_tasks _ _ _ Hq) as [Hk|[k Hk]]; rewrite Hk in Hj; [done|].
    apply lookup_ge_None in Hj. rewrite length_app in Hj. apply lookup_ge_None. lia.
  - intros j j' kj kj' y y' r Hj Hj' Hy Hy'.
    destruct (Hold _ _ _ Hj) as [?|[-> _]], (Hold _ _ _ Hj') as [?|[-> _]]; try done.
    by eapply (wi_apart _ _ _ _ _ Hinv).
Qed.

Lemma writes_inv_run tokens mc mi ths p0 tr p :
  pl_start tokens mc mi ths p0 → exec pl_step p0 tr p → writes_inv tokens mc mi tr p.
Proof.
  intros (Hs0 & _ & Ht & _). revert tr p.
  assert (Hbase : ∀ tr p, exec pl_step p0 tr p → live_system tokens mc mi (pl_sys p) ∧
    ∀ r, gw_job_objs (sys_gw (pl_sys p)) !! r = None → frames_of tr r = []).
  { intros tr p Hex%pl_run_gateway. split; [by exists (pl_sys p0), (gateway_trace tr)|].
    intros r Hr. by apply (si_fresh _ _ (stream_inv_run _ _ _ _ _ _ Hs0 Hex)). }
  apply exec_ind_r.
  - destruct (Hbase [] p0) as [Hl Hf]; [constructor|]. split; [done|done|..].
    + intros i k x. by rewrite Ht, lookup_nil.
    + done.
    + intros i j ki kj x y r. by rewrite Ht, lookup_nil.
  - intros tr p1 [l e] p2 Hex Hinv Hstep. pose proof (pl_step_exec _ _ _ _ Hstep) as Hg.
    destruct (Hbase (tr ++ [(l, e)]) p2) as [Hl Hf].
    { eapply exec_app; [exact Hex|by apply exec_one]. }
    destruct (pl_step_cases _ _ _ _ Hstep) as [(i & k & x & x' & Hi & Hh & Hfr)|Hq].
    + destruct (hop_step _ _ _ _ _ l _ _ _ _ _ _ Hinv Hi Hh Hfr Hg) as (? & ? & ?). by split.
    + destruct (quiet_step _ _ _ _ _ l _ _ Hinv Hq Hg) as (? & ? & ?). by split.
Qed.
End props.
