(* ===== verification/PipelineProps.v ===== *)
(** The properties of the composed background task ([Pipeline]): it refines
    [Services.consume] on the frames its gateway stream yields, settles its row,
    can always end, and stores only frames of its operation's own agent. *)

From S2P Require Import Prelude Text Regex Dict Gateway GatewaySystem GatewayInv GatewayStreams.
From S2P Require Import GatewayJobs GatewayOrigin GatewayRuns GatewayProps Store Models Services ServicesProps.
From S2P Require Import Pipeline PipelineInv.

Open Scope list_scope.
Open Scope nat_scope.

Section props.
Context {T : Type} `{HT : Table DiagnosticOperation T} `{!TableLaws DiagnosticOperation T}.
Implicit Types (p : pipeline T) (t : T) (k : pk) (op : DiagnosticOperation).

(** C3: a finished background task has settled its operation: whatever agents,
    callers and timeouts do and however everything interleaves, once the task has
    ended, its row is deleted or no longer pending or running.  The one exception
    is a stream that an agent ended with a Kubernetes result. *)
Theorem finished_tasks_settle tokens mc mi ths p0 tr p i k how :
  pl_start tokens mc mi ths p0 → Forall service_request ths → exec pl_step p0 tr p →
  pl_tasks p !! i = Some (k, TDone how) → (∀ r, how ≠ EStream (FKubernetesResult r)) →
  settled k (pl_table p).
Proof.
  intros Hs Hths Hex Hi Hne. destruct (settle_inv_run _ _ _ _ _ _ _ Hs Hths Hex) as [_ Ht].
  specialize (Ht _ _ _ Hi). destruct how as [|f|e]; cbn in Ht; [done| |done].
  destruct Ht as [Hterm Hres]. destruct f; try discriminate Hterm; [by apply Hres|].
  by edestruct Hne.
Qed.

(** C4: the task refines [consume]: what a finished task has written to its row is
    what [consume] writes for the frames its gateway stream delivered to it: all of
    them, ending with the only terminal one, when the stream ended; the first of
    them, then the error, when it failed or the time was up. *)
Theorem task_refines_consume tokens mc mi ths p0 tr p i k how t op :
  pl_start tokens mc mi ths p0 → exec pl_step p0 tr p →
  pl_tasks p !! i = Some (k, TDone how) → tb_get t k = Some op → how ≠ EMissing →
  ∃ r frames e,
    replay k (task_writes i tr) t = (run_thread (consume (λ _ _ _, (frames, e)) None k) t).1 ∧
    match how with
    | EStream f =>
        e = StreamDone ∧ frames = delivered r (gateway_trace tr) ∧
        ∃ fs, frames = fs ++ [f] ∧ is_terminal f = true ∧ Forall (λ f, is_terminal f = false) fs
    | ERaised ex => e = StreamRaises ex ∧ frames `prefix_of` delivered r (gateway_trace tr)
    | EMissing => False
    end.
Proof.
  intros Hs Hex Hi Hk Hne. pose proof (writes_inv_run _ _ _ _ _ _ _ Hs Hex) as Hinv.
  pose proof (wi_tasks _ _ _ _ _ Hinv _ _ _ Hi) as Hw. destruct how as [|f|ex]; cbn in Hw; [done|..].
  - destruct Hw as (r & fs & Hw & Hd & Hf & Ht & _). exists r, (frames_of tr r), StreamDone.
    rewrite (run_consume_writes _ _ _ _ _ Hk), Hw. cbn. rewrite app_nil_r.
    split_and!; [done..|]. by exists fs.
  - destruct Hw as (r & fs & Hp & Hw). exists r, fs, (StreamRaises ex).
    by rewrite (run_consume_writes _ _ _ _ _ Hk), Hw.
Qed.
End props.

(** * Every task can end *)

Section ending.
Context {T : Type} `{HT : Table DiagnosticOperation T} `{!TableLaws DiagnosticOperation T}.
Implicit Types (p : pipeline T).

(** [ends i k n p]: at most [n] pieces of task [i] alone end it, unless it comes to
    wait for the put of a cancellation. *)
Definition ends (i : nat) (k : pk) (n : nat) (p : pipeline T) : Prop :=
  ∃ ls p' tr x, length ls ≤ n ∧ Forall (λ l, l = LTask i ∨ l = LTimeout i) ls ∧
    pl_exec ls p = Some (p', tr) ∧ pl_tasks p' !! i = Some (k, x) ∧
    ((∃ how, x = TDone how) ∨ ∃ op, x = TCancelPut op).

Lemma ends_now i k n p x :
  pl_tasks p !! i = Some (k, x) → (∃ how, x = TDone how) ∨ (∃ op, x = TCancelPut op) → ends i k n p.
Proof. intros Hi Hx. exists [], p, [], x. split_and!; [cbn; lia|constructor|done..]. Qed.

Lemma ends_step i k n p l p1 e :
  l = LTask i ∨ l = LTimeout i → pl_run l p = Some (p1, e) → ends i k n p1 → ends i k (S n) p.
Proof.
  intros Hl Hrun (ls & p' & tr & x & Hn & Hls & Hex & Hi & Hx).
  exists (l :: ls), p', ((l, e) :: tr), x. split_and!; [cbn; lia|by constructor| |done..].
  cbn [pl_exec]. rewrite Hrun. cbn. by rewrite Hex.
Qed.

(** The task's entry after a step that sets it. *)
Lemma set_task_lookup i k y x p :
  pl_tasks p !! i = Some (k, y) → pl_tasks (set_task i k x p) !! i = Some (k, x).
Proof. intros Hi. cbn. apply list_lookup_insert_eq. by eapply lookup_lt_Some. Qed.

Lemma ends_save i k e p : pl_tasks p !! i = Some (k, TSave e) → ends i k 1 p.
Proof.
  intros Hi. eapply ends_step; [by left|cbn; rewrite Hi; reflexivity|].
  eapply ends_now; [|left; eauto]. by eapply set_task_lookup.
Qed.

Lemma ends_timeout i k x j p :
  pl_tasks p !! i = Some (k, x) → job_of x = Some j → is_Some (abandon x p) → ends i k 2 p.
Proof.
  intros Hi Hj [[p1 ls] Hab].
  assert (∃ p2 l, gw_step (ACancel j) p1 = Some (p2, l)) as (p2 & l & Hc).
  { unfold gw_step, sys_run. cbn. destruct (cancel j _) as [[g b] op]. cbn. eauto. }
  pose proof (abandon_about _ _ _ _ Hab) as (_ & _ & Hk & _).
  pose proof (gw_step_sys _ _ _ _ Hc) as (s & o & _ & -> & ->).
  assert (Hlen : i < length (pl_tasks p1)) by (rewrite Hk; by eapply lookup_lt_Some).
  eapply ends_step; [by right|cbn; rewrite Hi; cbn; unfold timeout_run; rewrite Hj; cbn;
    rewrite Hab; cbn; rewrite Hc; reflexivity|].
  cbn. destruct (drop _ _) as [|op q].
  - eapply ends_save. cbn. by apply list_lookup_insert_eq.
  - eapply ends_now; [cbn; by apply list_lookup_insert_eq|]. right. eauto.
Qed.

Lemma ends_open i k op p : pl_tasks p !! i = Some (k, TOpen op) → ends i k 3 p.
Proof.
  intros Hi. set (a := ADiagnostics (agent_id (op_agent op)) (op_public_id op) (release_root (op_project op))).
  destruct (diagnostics (agent_id (op_agent op)) (op_public_id op) (release_root (op_project op))
    (sys_gw (pl_sys p))) as [[[g r] po]|e] eqn:E.
  - eapply ends_step; [by left|cbn; rewrite Hi; cbn; unfold gw_step, sys_run; cbn; rewrite E; reflexivity|].
    eapply (ends_timeout _ _ (TWait op r)); [by eapply set_task_lookup|done|].
    cbn. rewrite lookup_insert_eq. unfold gw_step, sys_run. cbn. rewrite lookup_insert_eq. done.
  - eapply ends_step; [by left|cbn; rewrite Hi; cbn; unfold gw_step, sys_run; cbn; rewrite E; reflexivity|].
    destruct (ends_save i k e (set_task i k (TSave e) (set_sys (pl_sys p) p)))
      as (ls & p' & tr & x & Hn & H); [by eapply set_task_lookup|].
    exists ls, p', tr, x. split; [lia|done].
Qed.

(** C19: no background task is stuck: from every state of every run, at most five
    pieces of the task alone, its timeout among them, end it; only a cancellation
    whose put finds the agent's queue full can still hold it.  (A piece begins when
    its task gets the gateway's lock, where it needs it.) *)
Theorem tasks_can_end tokens mc mi ths p0 tr p i k x :
  pl_start tokens mc mi ths p0 → exec pl_step p0 tr p → pl_tasks p !! i = Some (k, x) → ends i k 5 p.
Proof.
  intros Hs Hex Hi. pose proof (wi_tasks _ _ _ _ _ (writes_inv_run _ _ _ _ _ _ _ Hs Hex) _ _ _ Hi) as Hw.
  assert (Hmono : ∀ n m, n ≤ m → ends i k n p → ends i k m p).
  { intros n m Hn (ls & p' & tr' & y & Hl & H). exists ls, p', tr', y. split; [lia|done]. }
  assert (Hmark : ∀ p op, pl_tasks p !! i = Some (k, TMark op) → ends i k 4 p).
  { intros q op Hq. eapply ends_step; [by left|cbn; rewrite Hq; reflexivity|].
    eapply ends_open. by eapply set_task_lookup. }
  destruct x as [|op|op|op r|op r f|op r f|po|e|how].
  - eapply ends_step; [by left|cbn; rewrite Hi; reflexivity|].
    destruct (tb_get (pl_table p) k) as [op|].
    + eapply Hmark. by eapply set_task_lookup.
    + eapply ends_now; [by eapply set_task_lookup|]. left. eauto.
  - apply (Hmono 4); [lia|]. by eapply Hmark.
  - apply (Hmono 3); [lia|]. by eapply ends_open.
  - apply (Hmono 2); [lia|]. eapply ends_timeout; [done..|]. cbn.
    destruct Hw as (_ & _ & c & Hc & Ha & _). rewrite Hc.
    destruct c; try discriminate Ha; cbn; unfold gw_step, sys_run; cbn; by rewrite Hc.
  - apply (Hmono 2); [lia|]. by eapply ends_timeout.
  - apply (Hmono 2); [lia|]. by eapply ends_timeout.
  - eapply ends_now; [done|]. right. eauto.
  - apply (Hmono 1); [lia|]. by eapply ends_save.
  - eapply ends_now; [done|]. left. eauto.
Qed.
End ending.

(** * Whose frames a task writes *)

Section origin.
Context {T : Type} `{HT : Table DiagnosticOperation T} `{!TableLaws DiagnosticOperation T}.
Implicit Types (p : pipeline T).

(** The stream of a task is a job of its operation's agent. *)
Definition stream_agent (g : AgentGateway) (x : task) : Prop :=
  match x with
  | TWait op r | TWrite op r _ | TResume op r _ =>
      ∃ j, gw_job_objs g !! r = Some j ∧ js_agent_id j = agent_id (op_agent op)
  | _ => True
  end.

Lemma stream_agent_stay g g' x : objs_stay g g' → stream_agent g x → stream_agent g' x.
Proof.
  intros [HJ _]. destruct x; cbn; try done;
    intros (j & Hj & Ha); destruct (HJ _ _ Hj) as (j' & Hj' & Ej); exists j'; by rewrite Ej.
Qed.

Lemma hop_agent i k p x x' e s' :
  objs_stay (sys_gw (pl_sys p)) (sys_gw s') → hop i k p x x' e s' →
  stream_agent (sys_gw (pl_sys p)) x → stream_agent (sys_gw s') x'.
Proof.
  intros Hstay Hh Hx. destruct Hh as [op Hk|Hk|op|op a r s -> Hr|op a ex s Hr Ha|op r s j po o Hc Hr
    |op r s j r' f Hc Hr|op r f|op r f s o Hr|po n s o Hr|ex|x x' j ls s Hj Hex Ha Hx']; try done.
  - unfold sys_run in Hr. cbn in Hr.
    destruct (diagnostics _ _ _ _) as [[[g r'] po]|] eqn:E; [|discriminate Hr].
    injection Hr as <- <-. apply diagnostics_open in E as (sid & E & _).
    apply open_job_inv in E as (_ & _ & _ & _ & _ & -> & ->). cbn.
    rewrite lookup_insert_eq. by eexists.
  - by eapply (stream_agent_stay _ _ (TWait op r)).
  - unfold body_of. destruct (frame_statement 0 f); by eapply (stream_agent_stay _ _ (TWait op r)).
  - destruct (is_terminal f); [done|]. by eapply (stream_agent_stay _ _ (TWait op r)).
  - by destruct Hx' as [->|[po ->]].
Qed.

Lemma agents_run tokens mc mi ths p0 tr p :
  pl_start tokens mc mi ths p0 → exec pl_step p0 tr p →
  ∀ i k x, pl_tasks p !! i = Some (k, x) → stream_agent (sys_gw (pl_sys p)) x.
Proof.
  intros Hs. revert tr p. refine (exec_ind_r _ p0
    (λ tr p, ∀ i k x, pl_tasks p !! i = Some (k, x) → stream_agent (sys_gw (pl_sys p)) x) _ _).
  - destruct Hs as (_ & _ & -> & _). intros i k x. by rewrite lookup_nil.
  - intros tr p1 [l e] p2 Hex IH Hstep i k x Hi.
    pose proof (exec_stay _ _ _ _ _ _ (wi_live _ _ _ _ _ (writes_inv_run _ _ _ _ _ _ _ Hs Hex))
      (pl_step_exec _ _ _ _ Hstep)) as Hstay.
    destruct (pl_step_cases _ _ _ _ Hstep) as [(i' & k' & y & y' & Hi' & Hh & [Hk _ _])|Hq].
    + rewrite Hk in Hi. destruct (decide (i = i')) as [->|Hne].
      * rewrite list_lookup_insert_eq in Hi by (by eapply lookup_lt_Some). injection Hi as <- <-.
        eapply hop_agent; eauto.
      * rewrite list_lookup_insert_ne in Hi by done. eapply stream_agent_stay; eauto.
    + destruct (qt_tasks _ _ _ Hq) as [Hk|[k' Hk]]; rewrite Hk in Hi;
        [by eapply stream_agent_stay; eauto|].
      apply lookup_app_Some in Hi as [Hi|[_ [_ [= _ <-]]%list_lookup_singleton_Some]]; [|done].
      eapply stream_agent_stay; eauto.
Qed.

(** C11: an operation is written only by its own agent: a frame a task is about to
    store, or has just stored, is a failure frame of the gateway, or was received
    on an authenticated session of the agent the operation belongs to. *)
Theorem frames_come_from_own_agent tokens mc mi ths p0 tr p i k x op r f :
  pl_start tokens mc mi ths p0 → exec pl_step p0 tr p → pl_tasks p !! i = Some (k, x) →
  x = TWrite op r f ∨ x = TResume op r f →
  from_gateway f ∨ sent (gateway_trace tr) (pl_sys p) (agent_id (op_agent op)) f.
Proof.
  intros Hs Hex Hi Hx.
  pose proof (wi_tasks _ _ _ _ _ (writes_inv_run _ _ _ _ _ _ _ Hs Hex) _ _ _ Hi) as Hw.
  pose proof (agents_run _ _ _ _ _ _ _ Hs Hex _ _ _ Hi) as Ha.
  assert (Hd : f ∈ delivered r (gateway_trace tr)).
  { assert (yielded (frames_of tr) (sys_calls (pl_sys p)) op r f) as (fs & _ & Hd & _)
      by (destruct Hx as [->| ->]; apply Hw).
    unfold frames_of in Hd. rewrite Hd. apply elem_of_app. right. apply list_elem_of_here. }
  destruct Hs as (Hs0 & _).
  destruct (origin_run _ _ _ _ _ _ Hs0 (pl_run_gateway _ _ _ Hex) r f) as [Hg|(j & Hj & Hsent)];
    [by right|by left|right].
  assert (∃ j, gw_job_objs (sys_gw (pl_sys p)) !! r = Some j ∧ js_agent_id j = agent_id (op_agent op))
    as (j' & Hj' & <-) by (destruct Hx as [->| ->]; exact Ha).
  by rewrite Hj in Hj'; injection Hj' as <-.
Qed.
End origin.

(** * A timeout while waiting *)

Lemma cancel_unknown j g : dict_get (gw_jobs g) j = None → cancel j g = (g, false, None).
Proof. unfold cancel. intros ->. done. Qed.

(** When the time is up while the task waits for a frame, the [finally] of
    [_events] has already removed the job, so [gateway.cancel] does not find it:
    no cancel frame is queued for the agent, which goes on with the job. *)
Theorem timeout_sends_no_cancel {T} `{Table DiagnosticOperation T} tokens mc mi (p p' : pipeline T) e i k op r :
  live_system tokens mc mi (pl_sys p) →
  pl_tasks p !! i = Some (k, TWait op r) →
  sys_calls (pl_sys p) !! r = Some (KStream (op_public_id op)) →
  pl_run (LTimeout i) p = Some (p', e) →
  gw_session_objs (sys_gw (pl_sys p')) = gw_session_objs (sys_gw (pl_sys p)) ∧
  sys_cancels (pl_sys p') = sys_cancels (pl_sys p) ∧
  pl_tasks p' !! i = Some (k, TSave (TimeoutError "")).
Proof.
  intros Hlive Hi Hr Hrun. cbn in Hrun. rewrite Hi in Hrun. cbn in Hrun.
  unfold timeout_run in Hrun. cbn in Hrun. rewrite Hr in Hrun. cbn in Hrun.
  unfold gw_step, sys_run in Hrun. cbn in Hrun. rewrite Hr in Hrun. cbn in Hrun.
  destruct (gw_inv_reachable _ _ _ _ Hlive) as [_ [Hwf _ _ _ _] _ _ _ _].
  rewrite cancel_unknown in Hrun by (rewrite events_finally_jobs; by apply dict_get_pop_eq).
  cbn in Hrun. rewrite app_nil_r, drop_all in Hrun. injection Hrun as <- <-. cbn.
  split; [unfold events_finally, remember_completed; by repeat case_match|]. split; [done|].
  apply list_lookup_insert_eq. by eapply lookup_lt_Some.
Qed.

(** * Concrete runs *)

Definition demo_pipeline : pipeline (gtable DiagnosticOperation) :=
  mkPipeline demo_start (demo_table "pending") [] [] [].

Definition demo_open_task : list label :=
  [LSpawn 1; LGateway (AConnect 0 (Some demo_hello)); LGateway (AStart 0);
   LTask 0; LTask 0; LTask 0; LTask 0].

Definition demo_frame (f : AgentFrame) : list label := [LGateway (ARecv 1 0 f); LGateway (APut 0); LTask 0].

Definition demo_diagnosis : list label :=
  demo_open_task ++ demo_frame (FProgress "op-1" 1 "checks" "password: hunter2") ++ [LTask 0; LTask 0] ++
  demo_frame (FResult (DResult "op-1" 2 "succeeded" [])) ++ [LTask 0; LTask 0].

Definition demo_confusion : list label :=
  demo_open_task ++ demo_frame (FKubernetesResult (KResult "op-1" 1 "succeeded" 0 0 "" "")) ++ [LTask 0].

Definition pl_state (ls : list label) : pipeline (gtable DiagnosticOperation) :=
  from_option fst demo_pipeline (pl_exec ls demo_pipeline).
Definition pl_trace (ls : list label) : list (label * event) :=
  from_option snd [] (pl_exec ls demo_pipeline).

Lemma pl_demo ls :
  bool_decide (is_Some (pl_exec ls demo_pipeline)) = true →
  exec pl_step demo_pipeline (pl_trace ls) (pl_state ls).
Proof.
  intros [[p tr] E]%bool_decide_eq_true. unfold pl_state, pl_trace. rewrite E. by eapply pl_exec_exec.
Qed.

Lemma pl_demo_start : pl_start demo_tokens 2 1 [] demo_pipeline.
Proof. split_and!; [apply demo_started|done..]. Qed.

(** An agent that answers a diagnosis with a Kubernetes result ends the stream,
    the task stops, and the operation stays running for ever. *)
Example kubernetes_result_leaves_running :
  pl_tasks (pl_state demo_confusion) !! 0 =
    Some (1, TDone (EStream (FKubernetesResult (KResult "op-1" 1 "succeeded" 0 0 "" "")))) ∧
  (op_status <$> tb_get (pl_table (pl_state demo_confusion)) 1) = Some "running"%string.
Proof. split; by vm_compute. Qed.

Lemma finished_tasks_settle_witness :
  (op_status <$> tb_get (pl_table (pl_state demo_diagnosis)) 1) = Some "succeeded"%string ∧
  settled 1 (pl_table (pl_state demo_diagnosis)).
Proof.
  split; [by vm_compute|].
  apply (finished_tasks_settle demo_tokens 2 1 [] demo_pipeline (pl_trace demo_diagnosis) _ 0 1
    (EStream (FResult (DResult "op-1" 2 "succeeded" [])))).
  - apply pl_demo_start.
  - constructor.
  - apply pl_demo. by vm_compute.
  - by vm_compute.
  - done.
Defined.

Lemma task_refines_consume_witness :
  ∃ r frames e,
    replay 1 (task_writes 0 (pl_trace demo_diagnosis)) (demo_table "pending") =
      (run_thread (consume (λ _ _ _, (frames, e)) None 1) (demo_table "pending")).1 ∧
    e = StreamDone ∧ frames = delivered r (gateway_trace (pl_trace demo_diagnosis)) ∧
    ∃ fs, frames = fs ++ [FResult (DResult "op-1" 2 "succeeded" [])] ∧ true = true ∧
      Forall (λ f, is_terminal f = false) fs.
Proof.
  apply (task_refines_consume demo_tokens 2 1 [] demo_pipeline (pl_trace demo_diagnosis)
    (pl_state demo_diagnosis) 0 1 (EStream (FResult (DResult "op-1" 2 "succeeded" [])))
    (demo_table "pending") (demo_operation "pending")).
  - apply pl_demo_start.
  - apply pl_demo. by vm_compute.
  - by vm_compute.
  - by vm_compute.
  - done.
Defined.

Lemma frames_come_from_own_agent_witness :
  let ls := demo_open_task ++ demo_frame (FResult (DResult "op-1" 1 "succeeded" [])) in
  from_gateway (FResult (DResult "op-1" 1 "succeeded" [])) ∨
  sent (gateway_trace (pl_trace ls)) (pl_sys (pl_state ls)) "edge" (FResult (DResult "op-1" 1 "succeeded" [])).
Proof.
  intros ls.
  apply (frames_come_from_own_agent demo_tokens 2 1 [] demo_pipeline (pl_trace ls) (pl_state ls) 0 1
    (TWrite (demo_operation "pending") 1 (FResult (DResult "op-1" 1 "succeeded" [])))
    (demo_operation "pending") 1).
  - apply pl_demo_start.
  - apply pl_demo. by vm_compute.
  - by vm_compute.
  - by left.
Defined.

(** The time runs out while the task waits: the operation is recorded as timed
    out, and the agent's queue holds its request only. *)
Example timed_out_agent_is_not_told :
  let p := pl_state (demo_open_task ++ [LTimeout 0; LTask 0]) in
  (op_status <$> tb_get (pl_table p) 1) = Some "timeout"%string ∧
  (as_outgoing <$> gw_session_objs (sys_gw (pl_sys p)) !! 0) = Some [Some (CDiagnostics "op-1" "current")] ∧
  sys_cancels (pl_sys p) = [].
Proof. split_and!; by vm_compute. Qed.

(** The time runs out after the result is stored, while the stream waits for the
    lock: the operation has succeeded, and its job is never removed. *)
Example timed_out_at_lock_keeps_job :
  let p := pl_state (demo_open_task ++ demo_frame (FResult (DResult "op-1" 1 "succeeded" [])) ++
    [LTask 0; LLockTimeout 0; LTask 0; LTask 0]) in
  (op_status <$> tb_get (pl_table p) 1) = Some "succeeded"%string ∧
  pl_tasks p !! 0 = Some (1, TDone (ERaised (TimeoutError ""))) ∧
  gw_jobs (sys_gw (pl_sys p)) = [("op-1"%string, 1)].
Proof. split_and!; by vm_compute. Qed.

Lemma tasks_can_end_witness : ends 0 1 5 (pl_state demo_open_task).
Proof.
  apply (tasks_can_end demo_tokens 2 1 [] demo_pipeline (pl_trace demo_open_task) _ 0 1
    (TWait (demo_operation "pending") 1)).
  - apply pl_demo_start.
  - apply pl_demo. by vm_compute.
  - by vm_compute.
Defined.
