(* ===== verification/TelemetryProps.v ===== *)
(** The properties of [controlplane/telemetry.py]. *)

From S2P Require Import Prelude Text Regex Redaction Json Url Telemetry.

Open Scope list_scope.
Open Scope nat_scope.

(** * Label space *)

Definition all_labels : list label :=
  c ← ALLOWED_COMPONENTS; k ← ALLOWED_KINDS; o ← ALLOWED_OUTCOMES; [(c, k, o)].
Definition all_pairs : list (string * string) :=
  c ← ALLOWED_COMPONENTS; k ← ALLOWED_KINDS; [(c, k)].

(** The three replacements, each with a member of its list. *)
Ltac in_list := match goal with
  | |- (if str_in ?x ?l then _ else _) ∈ _ =>
      let E := fresh in destruct (str_in x l) eqn:E; [by apply str_in_spec|by apply (bool_decide_eq_true_1 _)]
  end.

Lemma labels_allowed c k o : labels c k o ∈ all_labels.
Proof.
  apply list_elem_of_bind. exists (if str_in c ALLOWED_COMPONENTS then c else "controlplane"%string). split; [|in_list].
  apply list_elem_of_bind. exists (if str_in k ALLOWED_KINDS then k else "diagnostic"%string). split; [|in_list].
  apply list_elem_of_bind. exists (if str_in o ALLOWED_OUTCOMES then o else "failed"%string). split; [|in_list].
  by apply list_elem_of_singleton.
Qed.

Lemma labels_pair c k o : (labels c k o).1 ∈ all_pairs.
Proof.
  apply list_elem_of_bind. exists (if str_in c ALLOWED_COMPONENTS then c else "controlplane"%string). split; [|in_list].
  apply list_elem_of_bind. exists (if str_in k ALLOWED_KINDS then k else "diagnostic"%string). split; [|in_list].
  by apply list_elem_of_singleton.
Qed.

(** Counters over [keys], with non-negative values. *)
Definition counter_wf {K} `{Countable K} (keys : list K) (c : gmap K Z) : Prop :=
  ∀ k v, c !! k = Some v → k ∈ keys ∧ (0 <= v)%Z.

Lemma counter_wf_insert {K} `{Countable K} (keys : list K) c k v :
  counter_wf keys c → k ∈ keys → (0 <= v)%Z → counter_wf keys (<[k := v]> c).
Proof. intros Hc Hk Hv k' v'. rewrite lookup_insert. case_decide; [|apply Hc]. intros [= <-]. by subst. Qed.

Lemma counter_wf_default {K} `{Countable K} (keys : list K) c k :
  counter_wf keys c → (0 <= default 0 (c !! k))%Z.
Proof. intros Hc. destruct (c !! k) as [v|] eqn:E; cbn; [by apply (Hc k v)|lia]. Qed.

Lemma counter_wf_size {K} `{Countable K} (keys : list K) c :
  counter_wf keys c → size c ≤ length keys.
Proof.
  intros Hc. rewrite <- length_map_to_list, <- (length_fmap fst).
  apply submseteq_length, NoDup_submseteq; [apply NoDup_fst_map_to_list|].
  intros k ([k' v] & -> & Hin)%list_elem_of_fmap. apply elem_of_map_to_list in Hin.
  by apply (Hc k' v).
Qed.

Record telemetry_wf (size : nat) (t : Telemetry) : Prop := {
  tw_size : t_size t = size;
  tw_counts : counter_wf all_labels (t_counts t);
  tw_durations : counter_wf all_labels (t_durations t);
  tw_inflight : counter_wf all_pairs (t_inflight t);
  tw_events : length (t_events t) ≤ size;
  tw_exports : length (t_exports t) ≤ size;
  tw_dropped : (0 <= t_dropped t)%Z;
  tw_errors : (0 <= t_export_errors t)%Z
}.

Lemma deque_append_length {A} n (x : A) q : length (deque_append n x q) ≤ n.
Proof. unfold deque_append. rewrite length_drop. lia. Qed.

Lemma telemetry_wf_step size t t' : telemetry_wf size t → tel_step t t' → telemetry_wf size t'.
Proof.
  intros [Hs Hc Hd Hi He Hx Hdr Her] Hstep. destruct Hstep as [component kind t|random component kind outcome ms correlation project dec t|trace span e t|ok t t' Ht].
  - unfold start. pose proof (labels_pair component kind "pending") as Hl.
    destruct (labels component kind "pending") as [[c k] o]. split; cbn; try done.
    apply counter_wf_insert; [done|done|]. pose proof (counter_wf_default _ _ (c, k) Hi). lia.
  - unfold event_of_args. pose proof (labels_allowed component kind outcome) as Hl.
    pose proof (labels_pair component kind outcome) as Hp.
    destruct (labels component kind outcome) as [[c k] o]. cbn in Hp.
    split; cbn; try done.
    + apply counter_wf_insert; [done|done|]. pose proof (counter_wf_default _ _ (c, k, o) Hc). lia.
    + apply counter_wf_insert; [done|done|]. pose proof (counter_wf_default _ _ (c, k, o) Hd). lia.
    + destruct dec; [|done]. apply counter_wf_insert; [done|done|lia].
    + rewrite Hs. apply deque_append_length.
  - unfold enqueue. destruct (String.eqb _ _); [by split|].
    unfold has_room. destruct (bool_decide_reflect (length (t_exports t) < t_size t)); split; cbn; try done; [|lia].
    rewrite length_app. cbn. lia.
  - unfold export_one in Ht. destruct (t_exports t) as [|x rest] eqn:E; [discriminate Ht|].
    injection Ht as <-. split; cbn; try done; [cbn in Hx; lia|]. destruct ok; lia.
Qed.

Lemma telemetry_init_wf checks env max_buffer endpoint t :
  telemetry_init checks env max_buffer endpoint = Ok t → telemetry_wf (buffer_size max_buffer) t.
Proof.
  unfold telemetry_init. destruct (validate_otlp_endpoint _ _); [|done]. cbn. intros [= <-].
  split; cbn; try done; try lia; intros k v; by rewrite lookup_empty.
Qed.

Lemma telemetry_wf_steps size t t' : rtc tel_step t t' → telemetry_wf size t → telemetry_wf size t'.
Proof. induction 1; eauto using telemetry_wf_step. Qed.

(** C40: however long the process runs and whatever labels, durations and
    identifiers it is given, telemetry uses bounded memory: at most 3*7*12 counters
    of each kind and 3*7 gauges, at most [size] events and queued exports, [size]
    being between 8 and 1024; and no counter is negative, be it of events,
    durations, running requests, dropped exports or failed exports. *)
Theorem telemetry_is_bounded checks env max_buffer endpoint t t' :
  telemetry_init checks env max_buffer endpoint = Ok t → rtc tel_step t t' →
  (8 ≤ t_size t' ≤ 1024) ∧
  size (t_counts t') ≤ 252 ∧ size (t_durations t') ≤ 252 ∧ size (t_inflight t') ≤ 21 ∧
  length (t_events t') ≤ t_size t' ∧ length (t_exports t') ≤ t_size t' ∧
  (∀ k v, t_counts t' !! k = Some v → 0 <= v)%Z ∧ (∀ k v, t_durations t' !! k = Some v → 0 <= v)%Z ∧
  (∀ k v, t_inflight t' !! k = Some v → 0 <= v)%Z ∧ (0 <= t_dropped t')%Z ∧ (0 <= t_export_errors t')%Z.
Proof.
  intros Hi Hr. destruct (telemetry_wf_steps _ _ _ Hr (telemetry_init_wf _ _ _ _ _ Hi))
    as [Hs Hc Hd Hin He Hx Hdr Her].
  rewrite Hs. split_and!; try done.
  - unfold buffer_size. lia.
  - unfold buffer_size. lia.
  - apply (counter_wf_size all_labels), Hc.
  - apply (counter_wf_size all_labels), Hd.
  - apply (counter_wf_size all_pairs), Hin.
  - intros k v Hk. by apply (Hc k v).
  - intros k v Hk. by apply (Hd k v).
  - intros k v Hk. by apply (Hin k v).
Qed.

(** * The exposition format *)

Definition no_newline (s : string) : bool := negb (char_in (char 10) s).

Lemma char_in_app c a b : char_in c (a +:+ b) = char_in c a || char_in c b.
Proof. induction a as [|d a IH]; [done|]. rewrite str_app_cons. cbn. by rewrite IH, orb_assoc. Qed.

Lemma no_newline_app a b : no_newline (a +:+ b) = no_newline a && no_newline b.
Proof. unfold no_newline. by rewrite char_in_app, negb_orb. Qed.

Lemma split_on_fresh c s : char_in c s = false → split_on c s = [s].
Proof.
  induction s as [|d s IH]; cbn [char_in split_on]; [done|].
  intros [Hd%Ascii.eqb_neq Hs]%orb_false_iff.
  rewrite (IH Hs). by destruct (Ascii.eqb_spec d c) as [->|].
Qed.

Lemma split_on_app c a b :
  char_in c a = false → split_on c (a +:+ String c b) = a :: split_on c b.
Proof.
  induction a as [|d a IH]; [intros _; rewrite str_app_nil_l; cbn [split_on]; by rewrite Ascii.eqb_refl|].
  cbn [char_in]. intros [Hd%Ascii.eqb_neq Ha]%orb_false_iff. rewrite str_app_cons. cbn [split_on].
  rewrite (IH Ha). by destruct (Ascii.eqb_spec d c) as [->|].
Qed.

(** [text.split(sep)] undoes [sep.join(lines)] for lines without the separator. *)
Lemma split_join_lines c lines last :
  Forall (λ l, char_in c l = false) lines → lines ≠ [] → char_in c last = false →
  split_on c (join (String c "") lines +:+ String c last) = lines ++ [last].
Proof.
  intros Hl. induction Hl as [|l lines H Hl IH]; intros Hne Hlast; [done|].
  destruct lines as [|l' lines].
  - cbn [join]. rewrite split_on_app by done. by rewrite split_on_fresh.
  - rewrite join_cons by done. rewrite <- !str_app_assoc.
    change (String c "" +:+ (join (String c "") (l' :: lines) +:+ String c last))
      with (String c (join (String c "") (l' :: lines) +:+ String c last)).
    rewrite split_on_app by done. by rewrite IH.
Qed.

Lemma insert_by_perm {A} (leb : A → A → bool) (y : A) l : insert_by leb y l ≡ₚ y :: l.
Proof.
  induction l as [|z l IH]; cbn; [done|]. destruct (leb y z); [done|]. rewrite IH. apply Permutation_swap.
Qed.

Lemma sort_by_perm {A} (leb : A → A → bool) (l : list A) : sort_by leb l ≡ₚ l.
Proof. induction l as [|y l IH]; [done|]. cbn. rewrite insert_by_perm. by constructor. Qed.

Lemma sort_by_elem {A} (leb : A → A → bool) (x : A) l : x ∈ sort_by leb l ↔ x ∈ l.
Proof. by rewrite sort_by_perm. Qed.

Lemma no_newline_Z z : no_newline (str_of_Z z) = true.
Proof. unfold no_newline. by rewrite char_in_str_of_Z. Qed.

Lemma all_labels_no_newline :
  forallb (λ l : label, no_newline l.1.1 && no_newline l.1.2 && no_newline l.2) all_labels = true.
Proof. by vm_compute. Qed.

Lemma all_pairs_no_newline :
  forallb (λ l : string * string, no_newline l.1 && no_newline l.2) all_pairs = true.
Proof. by vm_compute. Qed.

Lemma counter_lines_ok name c :
  no_newline name = true → counter_wf all_labels c →
  Forall (λ l, char_in (char 10) l = false) (counter_line name <$> sorted_counter c).
Proof.
  intros Hn Hc. apply Forall_fmap, Forall_forall. intros [[[a b] o] v] Hin%sort_by_elem.
  apply elem_of_map_to_list, Hc in Hin as [Hin _].
  pose proof all_labels_no_newline as Hall. rewrite forallb_forall in Hall.
  apply list_elem_of_In, Hall in Hin. cbn in Hin.
  apply andb_true_iff in Hin as [[Ha Hb]%andb_true_iff Ho].
  apply negb_true_iff. change (no_newline (counter_line name (a, b, o, v)) = true).
  unfold counter_line, quoted. by rewrite !no_newline_app, Hn, Ha, Hb, Ho, no_newline_Z.
Qed.

Lemma inflight_lines_ok c :
  counter_wf all_pairs c → Forall (λ l, char_in (char 10) l = false) (inflight_line <$> sorted_inflight c).
Proof.
  intros Hc. apply Forall_fmap, Forall_forall. intros [[a b] v] Hin%sort_by_elem.
  apply elem_of_map_to_list, Hc in Hin as [Hin _].
  pose proof all_pairs_no_newline as Hall. rewrite forallb_forall in Hall.
  apply list_elem_of_In, Hall in Hin. cbn in Hin. apply andb_true_iff in Hin as [Ha Hb].
  apply negb_true_iff. change (no_newline (inflight_line (a, b, v)) = true).
  unfold inflight_line, quoted. by rewrite !no_newline_app, Ha, Hb, no_newline_Z.
Qed.

Lemma extra_lines_ok extra : Forall (λ l, char_in (char 10) l = false) (extra_lines extra).
Proof.
  apply Forall_fmap, Forall_forall. intros [k v] [Hk _]%list_elem_of_filter. cbn in Hk |- *.
  apply negb_true_iff. change (no_newline (k +:+ " " +:+ str_of_Z (Z.max 0 v)) = true).
  rewrite !no_newline_app, no_newline_Z, andb_true_r.
  assert (no_newline k = true) as ->; [|done].
  apply negb_true_iff. destruct (char_in (char 10) k) eqn:E; [|done].
  apply char_in_chars in E. apply fullmatch_spec in Hk.
  apply (may_contain_lang _ _ _ Hk) in E. by vm_compute in E.
Qed.

(** No label, outcome or extra metric name can inject a line into the
    Prometheus text: reading it back line by line gives exactly the lines built
    from the counters, with the names of the extra metrics restricted to
    [djangoops_[a-z0-9_]+]. *)
Theorem prometheus_has_no_injected_lines checks env max_buffer endpoint t t' extra :
  telemetry_init checks env max_buffer endpoint = Ok t → rtc tel_step t t' →
  split_on (char 10) (prometheus extra t') = prometheus_lines extra t' ++ [""%string] ∧
  length (prometheus_lines extra t') =
    5 + size (t_counts t') + size (t_durations t') + size (t_inflight t') +
    length (filter (λ kv, fullmatch EXTRA_NAME kv.1 = true) extra).
Proof.
  intros Hi Hr. destruct (telemetry_wf_steps _ _ _ Hr (telemetry_init_wf _ _ _ _ _ Hi))
    as [_ Hc Hd Hin _ _ _ _]. split.
  - apply (split_join_lines (char 10)); [|done|done]. unfold prometheus_lines.
    repeat (apply Forall_app; split); auto using counter_lines_ok, inflight_lines_ok, extra_lines_ok.
    all: repeat constructor; rewrite char_in_app; by rewrite char_in_str_of_Z.
  - unfold prometheus_lines, extra_lines, sorted_counter, sorted_inflight.
    rewrite !length_app, !length_fmap, !sort_by_perm, sort_items_perm, !length_map_to_list. cbn. lia.
Qed.

(** * Identifiers *)

Lemma sub_cls fuel p by_ s :
  length s < fuel → sub_text fuel (Cls p) by_ s = flat_map (λ c, if p c then by_ else [c]) s.
Proof.
  revert s. induction fuel as [|fuel IH]; intros s Hlen; [lia|]. destruct s as [|c s]; [done|].
  cbn in Hlen. cbn [sub_text results flat_map]. destruct (p c).
  - rewrite (proj2 (Nat.ltb_lt (length s) (length (c :: s)))) by (cbn; lia).
    by rewrite IH by lia.
  - by rewrite IH by lia.
Qed.

Lemma sub_cls_forall (q : ascii → bool) p by_ s :
  forallb q (chars by_) = true → (∀ c, p c = false → q c = true) →
  forallb q (chars (sub (Cls p) by_ s)) = true.
Proof.
  intros Hb Hq. unfold sub. rewrite String.list_ascii_of_string_of_list_ascii, sub_cls by lia.
  induction (chars s) as [|c l IH]; [done|]. cbn [flat_map]. rewrite forallb_app, IH, andb_true_r.
  destruct (p c) eqn:E; [done|]. cbn. by rewrite Hq.
Qed.

Lemma take_forallb {A} (q : A → bool) n l : forallb q l = true → forallb q (take n l) = true.
Proof.
  revert n. induction l as [|x l IH]; intros [|n]; cbn; try done.
  intros [Hx Hl]%andb_true_iff. rewrite Hx. cbn. auto.
Qed.

(** A correlation id is always a non-empty string of at most 64 characters
    from [A-Za-z0-9_.:/@+-], so it can be logged and exported as it is, whatever
    text the caller supplied. *)
Theorem correlation_ids_are_safe random value :
  random ≠ ""%string → String.length random ≤ MAX_CORRELATION →
  forallb safe_char (chars random) = true →
  let id := correlation_id random value in
  id ≠ ""%string ∧ String.length id ≤ MAX_CORRELATION ∧ forallb safe_char (chars id) = true.
Proof.
  intros Hne Hlen Hsafe. destruct value as [v|]; [|done]. unfold correlation_id. cbn zeta.
  destruct (String.eqb_spec (str_take MAX_CORRELATION (sub SAFE "_"
    (replace_char (char 13) "_" (replace_char (char 10) "_" v)))) ""); [done|].
  split_and!; [done|apply str_take_length|]. rewrite str_take_list. apply take_forallb.
  apply sub_cls_forall; [done|]. unfold not_class. by intros c ?%negb_false_iff.
Qed.

(** * Concrete runs *)

Definition demo_checks : UrlChecks := mkChecks (λ _, true) (λ _, true).

Definition demo_telemetry : Telemetry :=
  mkTelemetry "https://otel.example:4318" 8 ∅ ∅ ∅ [] [] 0 0 false.

Definition demo_event : TelemetryEvent :=
  event_of_args "0123" "agent" "diagnostic" "bogus" 5 (Some "op 1") (Some 7%Z).

Lemma demo_telemetry_init :
  telemetry_init demo_checks "" 0 (Some "https://otel.example:4318/") = Ok demo_telemetry.
Proof. by vm_compute. Qed.

Definition demo_telemetry_after : Telemetry :=
  enqueue (otlp_payload "t" "s" demo_event)
    (record_event demo_event true (start "agent" "diagnostic" demo_telemetry)).

Lemma demo_telemetry_steps : rtc tel_step demo_telemetry demo_telemetry_after.
Proof.
  eapply rtc_l; [exact (ts_start "agent" "diagnostic" _)|].
  eapply rtc_l; [exact (ts_record "0123" "agent" "diagnostic" "bogus" 5 (Some "op 1"%string) (Some 7%Z) true _)|].
  eapply rtc_l; [exact (ts_enqueue "t" "s" demo_event _)|]. apply rtc_refl.
Qed.

Lemma telemetry_is_bounded_witness :
  (8 ≤ t_size demo_telemetry_after ≤ 1024) ∧
  size (t_counts demo_telemetry_after) ≤ 252 ∧ size (t_durations demo_telemetry_after) ≤ 252 ∧
  size (t_inflight demo_telemetry_after) ≤ 21 ∧
  length (t_events demo_telemetry_after) ≤ t_size demo_telemetry_after ∧
  length (t_exports demo_telemetry_after) ≤ t_size demo_telemetry_after ∧
  (∀ k v, t_counts demo_telemetry_after !! k = Some v → 0 <= v)%Z ∧
  (∀ k v, t_durations demo_telemetry_after !! k = Some v → 0 <= v)%Z ∧
  (∀ k v, t_inflight demo_telemetry_after !! k = Some v → 0 <= v)%Z ∧
  (0 <= t_dropped demo_telemetry_after)%Z ∧ (0 <= t_export_errors demo_telemetry_after)%Z.
Proof.
  exact (telemetry_is_bounded _ _ _ _ _ _ demo_telemetry_init demo_telemetry_steps).
Defined.

Lemma prometheus_has_no_injected_lines_witness :
  let extra := [("djangoops_x"%string, 1%Z); ("evil" +:+ newline +:+ "y", 2%Z)%string] in
  split_on (char 10) (prometheus extra demo_telemetry_after) =
    prometheus_lines extra demo_telemetry_after ++ [""%string] ∧
  length (prometheus_lines extra demo_telemetry_after) =
    5 + size (t_counts demo_telemetry_after) + size (t_durations demo_telemetry_after) +
    size (t_inflight demo_telemetry_after) +
    length (filter (λ kv, fullmatch EXTRA_NAME kv.1 = true) extra).
Proof.
  intros extra.
  exact (prometheus_has_no_injected_lines _ _ _ _ _ _ extra demo_telemetry_init demo_telemetry_steps).
Defined.

Lemma correlation_ids_are_safe_witness :
  let id := correlation_id "00ff" (Some ("a b" +:+ newline)%string) in
  id ≠ ""%string ∧ String.length id ≤ MAX_CORRELATION ∧ forallb safe_char (chars id) = true.
Proof. apply (correlation_ids_are_safe "00ff"); [done|cbn; unfold MAX_CORRELATION; lia|done]. Defined.
