(* ===== verification/Kubernetes.v ===== *)
(** Kubernetes targets and releases: [controlplane/kubernetes.py], with the
    wrappers [controlplane/kubernetes_observability.py] installs at start-up.

    [register_target], [start_release] and [cancel_release] are threads over the
    pair of tables (targets, releases).  The transaction of [start_release] locks
    the target row ([select_for_update]) and is one statement. *)

From S2P Require Import Prelude Text Regex Dict Gateway Store Json Url Sha256 Telemetry Models Services.

Open Scope list_scope.
Open Scope nat_scope.

(** * Constants *)

Definition DNS_LABEL : re :=
  (Cls (or_class is_lower is_digit)
   ⋅ Opt (Star (Cls (or_class is_lower (or_class is_digit (one_of "-"))))
          ⋅ Cls (or_class is_lower is_digit)))%re.
Definition CREDENTIAL_REF : re :=
  (Cls is_alnum ⋅ Between (Cls (or_class is_alnum (one_of ":/_.-"))) 2 127)%re.
Definition not_newline (c : ascii) : bool := negb (code c =? 10).
Definition is_hex (c : ascii) : bool := is_digit c || in_range 97 102 c.
Definition DIGEST_IMAGE : re :=
  (Plus (Cls not_newline) ⋅ Lit "@sha256:" ⋅ Between (Cls is_hex) 64 64)%re.
Definition K8S_TERMINAL : list string :=
  ["succeeded"; "failed"; "cancelled"; "rolled_back"; "rollback_blocked"].
Definition K8S_ACTIVE : list string := ["pending"; "validating"; "migrating"; "applying"; "verifying"].
Definition RECOVERABLE_ERRORS : list string :=
  ["AGENT_UNAVAILABLE"; "AGENT_RESULT_UNAVAILABLE"; "CANCEL_UNAVAILABLE";
   "DURABLE_STATE_UNAVAILABLE"; "RECOVERY_REQUIRED"].
Definition REQUIRED_PERMISSIONS : list string :=
  ["deployments"; "jobs"; "services"; "ingresses"; "secrets"].

Record TargetValidation := mkValidation {
  tv_reachable : bool;
  tv_namespace_access : bool;
  tv_helm_available : bool;
  tv_permissions : list string
}.

Definition valid (v : TargetValidation) : bool :=
  tv_reachable v && tv_namespace_access v && tv_helm_available v.

Record ReleaseRequest := mkRequest {
  rq_operation_id : string;
  rq_namespace : string;
  rq_release_name : string;
  rq_image : string;
  rq_values_json : string;
  rq_credential_ref : string;
  rq_rollback_policy : string;
  rq_mode : string;
  rq_previous_revision : Z;
  rq_migration_timeout : Z;
  rq_rollout_timeout : Z
}.

Record ReleaseResult := mkResult {
  rr_status : string;
  rr_helm_revision : option Z;
  rr_previous_revision : option Z;
  rr_rollback_status : string;
  rr_error_code : string
}.

Record KubernetesBackend := mkK8sBackend {
  kb_validate : KubernetesTarget → result exn TargetValidation;
  kb_start : KubernetesTarget → ReleaseRequest → result exn ReleaseResult;
  kb_cancel : string → result exn bool
}.

(** * Validation *)

Definition validate_name (release : bool) (value : string) : result exn string :=
  let value := strip value in
  if String.eqb value "" || ((if release then 53 else 63) <? String.length value) ||
     negb (fullmatch DNS_LABEL value)
  then Err (ValueError "invalid Kubernetes name") else Ok value.

Definition validate_api_server (checks : UrlChecks) (value : string) : result exn string :=
  parsed ← urlsplit checks value;
  if negb (String.eqb (scheme parsed) "https") || negb (truthy (hostname parsed)) ||
     truthy (username parsed) || truthy (password parsed)
  then Err (ValueError "api_server must be an https endpoint without embedded credentials")
  else Ok (rstrip "/" value).

Definition validate_credential_ref (value : string) : result exn string :=
  if fullmatch CREDENTIAL_REF value then Ok value
  else Err (ValueError "credential_ref must be an opaque server-side reference").

Definition validate_image (value : string) : result exn string :=
  if fullmatch DIGEST_IMAGE value then Ok value
  else Err (ValueError "release image must use an immutable sha256 digest").

Abbreviation values := (list (string * json)).

Definition ALLOWED_VALUES : list string :=
  ["webReplicas"; "celeryWorker"; "celeryBeat"; "ingress"; "resources"; "health";
   "environmentSecretName"; "migrationCompatibility"].
Definition SECRET_TOKENS : list string :=
  (λ w, dquote +:+ w +:+ dquote) <$> ["password"; "token"; "secretkey"; "access_key"]%string.

(** [sorted(set(values) - allowed)]. *)
Definition unknown_values (vs : values) : list string :=
  (sort_items (filter (λ kv : string * json, kv.1 ∉ ALLOWED_VALUES) vs)).*1.

Definition sanitize_base (vs : values) : result exn values :=
  let unknown := unknown_values vs in
  _ ← raise_if (negb (bool_decide (unknown = [])))
        (ValueError ("unsupported Helm values: " +:+ join ", " unknown));
  let encoded := dumps (JObj vs) in
  _ ← raise_if (existsb (λ token, contains token (lower encoded)) SECRET_TOKENS)
        (ValueError "plaintext secret-like Helm values are not accepted");
  match loads encoded with
  | Some (JObj items) => Ok items
  | _ => Err (ValueError "Expecting value")
  end.

Definition values_digest (vs : values) : string := sha256_hex (dumps (JObj vs)).

(** [str(v)] for a value that is not a list or a dict. *)
Definition scalar_str (v : json) : option string :=
  match v with
  | JNull => Some "None"
  | JBool true => Some "True"
  | JBool false => Some "False"
  | JInt z => Some (str_of_Z z)
  | JStr s => Some s
  | JArr _ | JObj _ => None
  end%string.

(** ** Observability values *)

Definition NAMESPACE : re :=
  (Cls is_alnum ⋅ Between (Cls (or_class is_alnum (one_of "_.-"))) 0 62)%re.
Definition OBSERVABILITY_KEYS : list string :=
  ["enabled"; "otlpEndpoint"; "serviceNamespace"; "correlationId"].

(** The text of a list or dict begins with a bracket: it is neither a URL nor a
    namespace, so both checks refuse it as they refuse [None] below. *)
Definition sanitize_observability (checks : UrlChecks) (value : json) : result exn values :=
  match value with
  | JNull | JObj [] => Ok []
  | JObj items =>
      if existsb (λ kv : string * json, negb (str_in kv.1 OBSERVABILITY_KEYS)) items
      then Err (ValueError "observability Helm values are invalid")
      else
        match dict_get items "enabled" with
        | None | Some (JBool false) => Ok [("enabled"%string, JBool false)]
        | Some (JBool true) =>
            endpoint ← match scalar_str (default (JStr "") (dict_get items "otlpEndpoint")) with
              | Some s => validate_otlp_endpoint checks s
              | None => Err (ValueError "OTLP endpoint must be an http(s) URL")
              end;
            if String.eqb endpoint ""
            then Err (ValueError "observability.otlpEndpoint is required when enabled")
            else
              match scalar_str (default (JStr "djangoops") (dict_get items "serviceNamespace")) with
              | Some namespace =>
                  if fullmatch NAMESPACE namespace
                  then Ok [("enabled", JBool true); ("otlpEndpoint", JStr endpoint);
                           ("serviceNamespace", JStr namespace); ("correlationId", JStr "")]%string
                  else Err (ValueError "observability.serviceNamespace is invalid")
              | None => Err (ValueError "observability.serviceNamespace is invalid")
              end
        | Some _ => Err (ValueError "observability.enabled must be a boolean")
        end
  | _ => Err (ValueError "observability Helm values are invalid")
  end.

(** [kubernetes.sanitize_values] once [install_kubernetes_observability] ran. *)
Definition sanitize_values (checks : UrlChecks) (vs : values) : result exn values :=
  let observability := default JNull (dict_get vs "observability") in
  cleaned ← sanitize_base (dict_pop vs "observability");
  safe ← sanitize_observability checks observability;
  Ok (match safe with [] => cleaned | _ => dict_set cleaned "observability"%string (JObj safe) end).

Definition inject_release_correlation (random values_json operation_id : string) : result exn string :=
  match loads values_json with
  | Some (JObj raw) =>
      Ok (dumps (JObj
        match dict_get raw "observability" with
        | Some (JObj o) =>
            match dict_get o "enabled" with
            | Some (JBool true) =>
                dict_set raw "observability"%string
                  (JObj (dict_set o "correlationId"%string (JStr (correlation_id random (Some operation_id)))))
            | _ => raw
            end
        | _ => raw
        end))
  | Some _ => Err (ValueError "Helm values must be a mapping")
  | None => Err (ValueError "Expecting value")
  end.

(** * The runtime backend *)

Definition nonzero (z : Z) : option Z := if (z =? 0)%Z then None else Some z.

Definition gateway_request (request : ReleaseRequest) : KubernetesReleaseRequest :=
  KRequest (rq_operation_id request) (rq_namespace request) (rq_release_name request)
    "charts/djangoops" (rq_image request) (rq_values_json request) (rq_credential_ref request)
    (rq_migration_timeout request) (rq_rollout_timeout request) (rq_rollback_policy request)
    (rq_mode request) (rq_previous_revision request).

(** [collect]: the last Kubernetes result of the stream. *)
Definition keep_result (last : option KubernetesReleaseResult) (f : AgentFrame)
    : option KubernetesReleaseResult :=
  match f with FKubernetesResult r => Some r | _ => last end.

Definition last_result (frames : list AgentFrame) : option KubernetesReleaseResult :=
  fold_left keep_result frames None.

(** Its end, with the value of the local [result]. *)
Definition collected (last : option KubernetesReleaseResult) : result exn ReleaseResult :=
  match last with
  | None => Err (RuntimeError "agent returned no Kubernetes result")
  | Some r => Ok (mkResult (kr_status r) (nonzero (kr_helm_revision r))
                    (nonzero (kr_previous_revision r)) (kr_rollback_status r) (kr_error_code r))
  end.

Definition collect (stream : list AgentFrame * stream_end) : result exn ReleaseResult :=
  match stream with
  | (_, StreamRaises e) => Err e
  | (frames, StreamDone) => collected (last_result frames)
  end.

(** What [_run] makes of [future.result]: timeouts and runtime errors become one
    runtime error, exceptions of other classes pass. *)
Definition run_outcome (outcome : result exn ReleaseResult) : result exn ReleaseResult :=
  match outcome with
  | Err (TimeoutError _) | Err (RuntimeError _) =>
      Err (RuntimeError "kubernetes agent operation failed")
  | outcome => outcome
  end.

Definition run_request (registered : bool) (stream : string → KubernetesReleaseRequest → list AgentFrame * stream_end)
    (agent : string) (request : ReleaseRequest) : result exn ReleaseResult :=
  if registered then run_outcome (collect (stream agent (gateway_request request)))
  else Err (RuntimeError "kubernetes agent backend unavailable").

Fixpoint repeat_char (n : nat) (c : ascii) : string :=
  match n with 0 => EmptyString | S n => String c (repeat_char n c) end.

Definition validation_request (uuid : string) (target : KubernetesTarget) : ReleaseRequest :=
  mkRequest ("k8sv-" +:+ str_take 20 uuid) (kt_namespace target) (kt_release_name target)
    ("validation.invalid/app@sha256:" +:+ repeat_char 64 "0") "{}" (kt_credential_ref target)
    "block-after-migration" "validate" 0 300 300.

(** [replace(request, values_json=...)]. *)
Definition with_values_json (js : string) (r : ReleaseRequest) : ReleaseRequest :=
  mkRequest (rq_operation_id r) (rq_namespace r) (rq_release_name r) (rq_image r) js (rq_credential_ref r)
    (rq_rollback_policy r) (rq_mode r) (rq_previous_revision r) (rq_migration_timeout r) (rq_rollout_timeout r).

(** The wrapper around [start]: the request it passes on. *)
Definition correlated_request (random : string) (request : ReleaseRequest) : result exn ReleaseRequest :=
  js ← inject_release_correlation random (rq_values_json request) (rq_operation_id request);
  Ok (with_values_json js request).

(** [RuntimeKubernetesBackend], with the start wrapper; [cancelled] is what the
    gateway's [cancel] answers within five seconds. *)
Definition RuntimeKubernetesBackend (registered : bool) (uuid random : string)
    (stream : string → KubernetesReleaseRequest → list AgentFrame * stream_end)
    (cancelled : string → result exn bool) : KubernetesBackend :=
  mkK8sBackend
    (λ target,
       r ← run_request registered stream (agent_id (kt_agent target)) (validation_request uuid target);
       Ok (if String.eqb (rr_status r) "succeeded"
           then mkValidation true true true REQUIRED_PERMISSIONS
           else mkValidation false false false []))
    (λ target request,
       request ← correlated_request random request;
       run_request registered stream (agent_id (kt_agent target)) request)
    (λ operation_id,
       if registered then
         match cancelled operation_id with Err (TimeoutError _) => Ok false | answer => answer end
       else Ok false).

(** * The service *)

Definition rl_active (r : KubernetesRelease) : bool := str_in (rl_status r) K8S_ACTIVE.
Definition rl_recoverable (r : KubernetesRelease) : bool :=
  String.eqb (rl_status r) "failed" && str_in (rl_error_code r) RECOVERABLE_ERRORS.
Definition rl_open (r : KubernetesRelease) : bool := rl_active r || rl_recoverable r.

(** [update(status=..., error_code=...)]. *)
Definition set_release_status (status code : string) (r : KubernetesRelease) : KubernetesRelease :=
  mkRelease (rl_public_id r) (rl_target r) (rl_project r) (rl_requested_by r) status (rl_operation_id r)
    (rl_image r) (rl_chart_version r) (rl_values_digest r) (rl_values_snapshot r)
    (rl_helm_revision r) (rl_previous_helm_revision r) (rl_previous_image r)
    (rl_previous_values_digest r) (rl_migration_compatibility r) (rl_rollback_status r) code
    (rl_created_at r).

(** The update that records the backend's result. *)
Definition set_release_result (result : ReleaseResult) (previous : option Z) (r : KubernetesRelease)
    : KubernetesRelease :=
  mkRelease (rl_public_id r) (rl_target r) (rl_project r) (rl_requested_by r)
    (if str_in (rr_status result) K8S_TERMINAL then rr_status result else "failed")
    (rl_operation_id r) (rl_image r) (rl_chart_version r) (rl_values_digest r) (rl_values_snapshot r)
    (rr_helm_revision result)
    (match rr_previous_revision result with Some z => Some z | None => previous end)
    (rl_previous_image r) (rl_previous_values_digest r) (rl_migration_compatibility r)
    (str_take 32 (rr_rollback_status result)) (str_take 48 (rr_error_code result)) (rl_created_at r).

Section service.
Context {TT TR : Type} `{Table KubernetesTarget TT} `{Table KubernetesRelease TR}.
Abbreviation db := (TT * TR)%type.

Definition on_targets (f : TT → TT) (d : db) : db := (f d.1, d.2).
Definition on_releases (f : TR → TR) (d : db) : db := (d.1, f d.2).

(** [KubernetesRelease.objects.filter(pk=pk, status__in=_ACTIVE).update(...)]. *)
Definition update_active_release (k : pk) (f : KubernetesRelease → KubernetesRelease) : db → db :=
  on_releases (tb_update (λ k' r, (k' =? k) && rl_active r) f).

Definition refresh_release {A} (k : pk) (cont : KubernetesRelease → thread db (result exn A))
    : thread db (result exn A) :=
  read_then (λ d : db,
    match tb_get d.2 k with
    | Some r => cont r
    | None => Return (Err (OtherError "KubernetesRelease.DoesNotExist"))
    end).

(** ** register_target *)

Definition same_identity (api namespace release : string) (t : KubernetesTarget) : bool :=
  String.eqb (kt_api_server t) api && String.eqb (kt_namespace t) namespace &&
  String.eqb (kt_release_name t) release.

Definition identity_taken (api namespace release : string) (p : KubernetesTarget → bool) (t : TT) : bool :=
  negb (bool_decide (tb_select (λ _ row, same_identity api namespace release row && p row)
                       (λ _, 0%Z) t = [])).

Definition optional_name (value : string) : result exn string :=
  if String.eqb value "" then Ok ""%string else validate_name false value.

(** The fields of the row [register_target] creates. *)
Definition new_target (checks : UrlChecks) (uuid : string) (project : Project) (agent : AgentRegistration)
    (name api namespace release credential ingress tls : string) : result exn KubernetesTarget :=
  credential ← validate_credential_ref credential;
  ingress ← optional_name ingress;
  tls ← optional_name tls;
  Ok (mkTarget uuid project agent (str_take 80 (strip name)) api namespace release credential
        ingress tls None []).

Definition validated (now : Z) (v : TargetValidation) (t : KubernetesTarget) : KubernetesTarget :=
  mkTarget (kt_public_id t) (kt_project t) (kt_agent t) (kt_name t) (kt_api_server t)
    (kt_namespace t) (kt_release_name t) (kt_credential_ref t) (kt_ingress_class t)
    (kt_tls_secret_name t) (Some now) (take 32 (tv_permissions v)).

(** The insertion, under the table's unique constraint on the identity. *)
Definition insert_target (row : KubernetesTarget) (t : TT) : result exn (TT * pk) :=
  if identity_taken (kt_api_server row) (kt_namespace row) (kt_release_name row) (λ _, true) t
  then Err (OtherError "IntegrityError") else Ok (tb_create row t).

(** Releases refer to the target, whose foreign key protects it: [target.delete()]
    raises. *)
Definition target_in_use (k : pk) (d : db) : bool :=
  negb (bool_decide (tb_select (λ _ r, rl_target r =? k) rl_created_at d.2 = [])).

Definition register_target (be : KubernetesBackend) (checks : UrlChecks) (now : Z) (uuid : string)
    (project : Project) (agent : AgentRegistration)
    (name api namespace release credential ingress tls : string) : thread db (result exn pk) :=
  if negb (project_id (agent_project agent) =? project_id project)
  then Return (Err (ValueError "agent and target project must match"))
  else
    match
      api ← validate_api_server checks api;
      namespace ← validate_name false namespace;
      release ← validate_name true release;
      Ok (api, namespace, release)
    with
    | Err e => Return (Err e)
    | Ok (api, namespace, release) =>
        read_then (λ d : db,
          if identity_taken api namespace release
               (λ row, negb (project_id (kt_project row) =? project_id project)) d.1
          then Return (Err (ValueError "cluster namespace/release identity belongs to another project"))
          else
            match new_target checks uuid project agent name api namespace release credential ingress tls with
            | Err e => Return (Err e)
            | Ok row =>
                Stmt
                  (λ d, match insert_target row d.1 with Ok (t, _) => (t, d.2) | Err _ => d end)
                  (λ d,
                    match insert_target row d.1 with
                    | Err e => Return (Err e)
                    | Ok (_, k) =>
                        match kb_validate be row with
                        | Err e => Return (Err e)
                        | Ok v =>
                            if valid v
                            then Stmt (on_targets (tb_update (λ k' _, k' =? k) (validated now v)))
                                   (λ _, Return (Ok k))
                            else Stmt (λ d, if target_in_use k d then d else on_targets (tb_delete [k]) d)
                                   (λ d, Return (Err (if target_in_use k d then OtherError "ProtectedError"
                                                      else ValueError "cluster validation failed")))
                        end
                    end)
            end)
    end.

(** ** start_release *)

Record release_key := mkKey { key_target : pk; key_image : string; key_chart : string; key_digest : string }.

Definition has_key (key : release_key) (r : KubernetesRelease) : bool :=
  (rl_target r =? key_target key) && String.eqb (rl_image r) (key_image key) &&
  String.eqb (rl_chart_version r) (key_chart key) && String.eqb (rl_values_digest r) (key_digest key).

(** What the transaction decided. *)
Inductive admission :=
| NoTarget
| Reuse (k : pk)
| Dispatch (k : pk).

(** [uuid] is the two draws of [uuid4]: the default of [public_id], and the one the
    operation id is made of. *)
Definition new_release (now : Z) (uuid : string * string) (user : nat) (project : nat) (key : release_key)
    (snapshot compatibility : string) (previous : option KubernetesRelease) : KubernetesRelease :=
  mkRelease uuid.1 (key_target key) project user "validating" ("k8s-" +:+ str_take 20 uuid.2)
    (key_image key) (key_chart key) (key_digest key) snapshot None
    (previous ≫= rl_helm_revision)
    (from_option rl_image ""%string previous)
    (from_option rl_values_digest ""%string previous)
    compatibility "" "" now.

(** The transaction: the newest open release of the key is reused or retried;
    without one, a row is created. *)
Definition admit_release (now : Z) (uuid : string * string) (user : nat) (key : release_key)
    (snapshot compatibility : string) (d : db) : db * admission :=
  match tb_get d.1 (key_target key) with
  | None => (d, NoTarget)
  | Some target =>
      match tb_select (λ _ r, has_key key r && rl_open r) rl_created_at d.2 with
      | k :: _ =>
          match tb_get d.2 k with
          | Some r =>
              if rl_active r then (d, Reuse k)
              else (on_releases (tb_update (λ k' _, k' =? k) (set_release_status "validating" "")) d,
                    Dispatch k)
          | None => (d, NoTarget)
          end
      | [] =>
          let previous :=
            match tb_select (λ _ r, (rl_target r =? key_target key) && String.eqb (rl_status r) "succeeded")
                    rl_created_at d.2 with
            | k :: _ => tb_get d.2 k
            | [] => None
            end in
          let '(rs, k) := tb_create (new_release now uuid user (project_id (kt_project target)) key
                                       snapshot compatibility previous) d.2 in
          ((d.1, rs), Dispatch k)
      end
  end.

(** [str(clean_values.get("migrationCompatibility", "unknown"))], checked. *)
Definition compatibility_of (clean : values) : result exn string :=
  match scalar_str (default (JStr "unknown") (dict_get clean "migrationCompatibility")) with
  | Some s => if str_in s ["safe"; "unknown"] then Ok s
              else Err (ValueError "migrationCompatibility must be safe or unknown")
  | None => Err (ValueError "migrationCompatibility must be safe or unknown")
  end%string.

Definition release_request (target : KubernetesTarget) (image : string) (clean : values)
    (compatibility : string) (r : KubernetesRelease) : ReleaseRequest :=
  mkRequest (rl_operation_id r) (kt_namespace target) (kt_release_name target) image
    (dumps (JObj clean)) (kt_credential_ref target)
    (if String.eqb compatibility "safe" then "allow" else "block-after-migration")
    "release" (default 0%Z (rl_previous_helm_revision r)) 300 300.

(** The [try] around [backend.start]; [r] is the release object in memory. *)
Definition record_outcome (outcome : result exn ReleaseResult) (k : pk) (r : KubernetesRelease)
    : thread db (result exn KubernetesRelease) :=
  let finish := refresh_release k (λ r, Return (Ok r)) in
  match outcome with
  | Err (RuntimeError _) =>
      Stmt (update_active_release k (set_release_status "failed" "AGENT_UNAVAILABLE")) (λ _, finish)
  | Err e => Return (Err e)
  | Ok result =>
      Stmt (update_active_release k (set_release_result result (rl_previous_helm_revision r))) (λ _, finish)
  end.

(** After the transaction. *)
Definition dispatch_release (be : KubernetesBackend) (target : KubernetesTarget)
    (request : ReleaseRequest) (k : pk) (r : KubernetesRelease) : thread db (result exn KubernetesRelease) :=
  record_outcome (kb_start be target request) k r.

(** The checks before the transaction: the clean values, the image, the
    compatibility. *)
Definition checked_release (checks : UrlChecks) (image : string) (vs : values)
    : result exn (values * string * string) :=
  clean ← sanitize_values checks vs;
  image ← validate_image image;
  compatibility ← compatibility_of clean;
  Ok (clean, image, compatibility).

(** What follows the transaction: the call is over, or the backend is started
    with a request for row [k]. *)
Inductive admitted :=
| Finished (res : result exn KubernetesRelease)
| Started (request : ReleaseRequest) (k : pk) (r : KubernetesRelease).

Definition after_admission (target : KubernetesTarget) (input : values * string * string)
    (tx : db * admission) : admitted :=
  let '(clean, image, compatibility) := input in
  match tx with
  | (_, NoTarget) => Finished (Err (OtherError "KubernetesTarget.DoesNotExist"))
  | (d, Reuse k) =>
      match tb_get d.2 k with
      | Some r => Finished (Ok r)
      | None => Finished (Err (OtherError "KubernetesRelease.DoesNotExist"))
      end
  | (d, Dispatch k) =>
      match tb_get d.2 k with
      | Some r => Started (release_request target image clean compatibility r) k r
      | None => Finished (Err (OtherError "KubernetesRelease.DoesNotExist"))
      end
  end.

(** The transaction for checked input. *)
Definition release_tx (now : Z) (uuid : string * string) (target_pk : pk) (user : nat)
    (chart_version : string) (input : values * string * string) : db → db * admission :=
  let '(clean, image, compatibility) := input in
  admit_release now uuid user (mkKey target_pk image chart_version (values_digest clean))
    (dumps (JObj clean)) compatibility.

Definition start_release (be : KubernetesBackend) (checks : UrlChecks) (now : Z) (uuid : string * string)
    (target_pk : pk) (target : KubernetesTarget) (user : nat) (image : string) (vs : values)
    (chart_version : string) : thread db (result exn KubernetesRelease) :=
  match checked_release checks image vs with
  | Err e => Return (Err e)
  | Ok input =>
      let tx := release_tx now uuid target_pk user chart_version input in
      Stmt (λ d, (tx d).1) (λ d,
        match after_admission target input (tx d) with
        | Finished res => Return res
        | Started request k r => dispatch_release be target request k r
        end)
  end.

(** ** cancel_release *)

Definition cancel_release (be : KubernetesBackend) (k : pk) : thread db (result exn KubernetesRelease) :=
  refresh_release k (λ r,
    if str_in (rl_status r) K8S_TERMINAL then Return (Ok r)
    else
      match kb_cancel be (rl_operation_id r) with
      | Err e => Return (Err e)
      | Ok accepted =>
          Stmt (update_active_release k
                  (set_release_status (if accepted then "cancelled" else "failed")
                     (if accepted then "" else "CANCEL_UNAVAILABLE")))
            (λ _, refresh_release k (λ r, Return (Ok r)))
      end).
End service.
