(* ===== verification/KubernetesProps.v ===== *)
(** The properties of Kubernetes targets and releases
    ([controlplane/kubernetes.py]), for every interleaving of requests. *)

From S2P Require Import Prelude Text Regex Redaction Dict Gateway Store Json Url Telemetry Models Services Kubernetes.

Open Scope list_scope.
Open Scope nat_scope.

Section props.
Context {TT TR : Type} `{HT : Table KubernetesTarget TT} `{HR : Table KubernetesRelease TR}.
Context `{!TableLaws KubernetesTarget TT} `{!TableLaws KubernetesRelease TR}.
Abbreviation db := (TT * TR)%type.
Implicit Types (d : db) (k : pk) (r : KubernetesRelease).

Definition key_of_release r : release_key :=
  mkKey (rl_target r) (rl_image r) (rl_chart_version r) (rl_values_digest r).

Lemma has_key_spec key r : has_key key r = true ↔ key_of_release r = key.
Proof.
  unfold has_key, key_of_release. destruct key as [t i c v]. cbn.
  rewrite !andb_true_iff, Nat.eqb_eq, !String.eqb_eq. split.
  - by intros [[[-> ->] ->] ->].
  - by intros [= -> -> -> ->].
Qed.

(** * Effects on the releases table *)

(** What any statement may do to a release: active rows may change but keep
    their key; a recoverable one may be retried; others stay.  New rows get a key
    no open row has. *)
Record release_step (d d' : db) : Prop := {
  rs_keep : ∀ k r, tb_get d.2 k = Some r → rl_open r = false → tb_get d'.2 k = Some r;
  rs_key : ∀ k r, tb_get d.2 k = Some r →
    ∃ r', tb_get d'.2 k = Some r' ∧ key_of_release r' = key_of_release r;
  rs_new : ∀ k r', tb_get d'.2 k = Some r' →
    (∃ r, tb_get d.2 k = Some r) ∨
    (tb_get d.2 k = None ∧ (∀ k1 r1, tb_get d'.2 k1 = Some r1 → rl_open r1 = true →
       key_of_release r1 = key_of_release r' → k1 = k))
}.

Lemma release_step_refl d : release_step d d.
Proof. split; eauto. Qed.

Lemma release_step_targets f d : release_step d (on_targets f d).
Proof. split; cbn; eauto. Qed.

(** An update of open rows that keeps the key. *)
Lemma release_step_update (p : pk → KubernetesRelease → bool) f d :
  (∀ r, key_of_release (f r) = key_of_release r) →
  (∀ k r, tb_get d.2 k = Some r → p k r = true → rl_open r = true) →
  release_step d (on_releases (tb_update p f) d).
Proof.
  intros Hf Hp. split; cbn; intros k r.
  - intros Hk Ho. rewrite tb_get_update, Hk. cbn. destruct (p k r) eqn:E; [|done].
    by rewrite (Hp _ _ Hk E) in Ho.
  - intros Hk. rewrite tb_get_update, Hk. cbn. eexists. split; [done|]. by destruct (p k r).
  - rewrite tb_get_update. intros (r0 & Hk & _)%fmap_Some. eauto.
Qed.

Lemma release_step_active k f d :
  (∀ r, key_of_release (f r) = key_of_release r) → release_step d (update_active_release k f d).
Proof.
  intros Hf. apply release_step_update; [done|]. intros k' r _ [_ Ha]%andb_true_iff.
  unfold rl_open. by rewrite Ha.
Qed.

Lemma admit_step now uuid user key snapshot compat d :
  release_step d (admit_release now uuid user key snapshot compat d).1.
Proof.
  unfold admit_release. destruct (tb_get d.1 (key_target key)) as [target|]; [|apply release_step_refl].
  destruct (tb_select _ _ d.2) as [|k l] eqn:E.
  - set (row := new_release _ _ _ _ _ _ _ _).
    destruct (tb_create row d.2) as [rs k'] eqn:Ec. cbn.
    assert (Hget : ∀ k, tb_get rs k = if decide (k = k') then Some row else tb_get d.2 k).
    { intros k. pose proof (tb_get_create row d.2 k) as H. by rewrite Ec in H. }
    assert (Hfr : tb_get d.2 k' = None).
    { pose proof (tb_create_fresh row d.2) as H. by rewrite Ec in H. }
    split; cbn; intros k r; rewrite ?Hget.
    + intros Hk _. rewrite decide_False; [done|]. congruence.
    + intros Hk. rewrite decide_False; [eauto|]. congruence.
    + case_decide as Hd; [|eauto]. intros [= <-]. subst k. right. split; [done|].
      intros k1 r1. rewrite Hget. case_decide; [done|]. intros Hk1 Ho Hkey.
      assert (Hin : k1 ∈ tb_select (λ _ r, has_key key r && rl_open r) rl_created_at d.2).
      { apply tb_select_elem. exists r1. split; [done|]. rewrite Ho, andb_true_r.
        apply has_key_spec. rewrite Hkey. by destruct key. }
      rewrite E in Hin. by apply elem_of_nil in Hin.
  - destruct (tb_get d.2 k) as [r|] eqn:Hk; [|apply release_step_refl].
    destruct (rl_active r) eqn:Ha; [apply release_step_refl|]. cbn.
    apply release_step_update; [done|]. intros k' r' Hk' ->%Nat.eqb_eq.
    assert (Hin : k ∈ tb_select (λ _ r, has_key key r && rl_open r) rl_created_at d.2)
      by (rewrite E; apply list_elem_of_here).
    apply tb_select_elem in Hin as (r0 & Hr0 & [_ Ho]%andb_true_iff). congruence.
Qed.

(** * The threads *)

Lemma guarded_refresh_release {A} (R : db → db → Prop) k (c : KubernetesRelease → thread db (result exn A)) :
  (∀ d, R d d) → (∀ r, guarded R (c r)) → guarded R (refresh_release k c).
Proof.
  intros HR0 Hc. apply guarded_read; [done|]. intros d. destruct (tb_get d.2 k); [done|constructor].
Qed.

Lemma start_release_guarded be checks now uuid tpk target user image vs chart :
  guarded release_step (start_release be checks now uuid tpk target user image vs chart).
Proof.
  unfold start_release. destruct (checked_release _ _ _) as [[[clean image'] compat]|]; [|constructor].
  constructor; [intros; apply admit_step|]. intros d. unfold after_admission, release_tx.
  destruct (admit_release _ _ _ _ _ _ d) as [d' [|k|k]]; [constructor|..].
  - destruct (tb_get d'.2 k); constructor.
  - destruct (tb_get d'.2 k) as [r|]; [|constructor]. unfold dispatch_release, record_outcome.
    assert (Hfin : guarded (A := result exn KubernetesRelease) release_step
      (refresh_release k (λ r, Return (Ok r))))
      by (apply guarded_refresh_release; [apply release_step_refl|constructor]).
    destruct (kb_start be target _) as [res|[]]; try constructor;
      solve [intros; by apply release_step_active|auto].
Qed.

Lemma cancel_release_guarded be k : guarded release_step (cancel_release be k).
Proof.
  apply guarded_refresh_release; [apply release_step_refl|]. intros r.
  destruct (str_in _ _); [constructor|]. destruct (kb_cancel be _) as [b|]; [|constructor].
  constructor; [intros; by apply release_step_active|]. intros d.
  apply guarded_refresh_release; [apply release_step_refl|constructor].
Qed.

Lemma register_target_guarded be checks now uuid project agent name api ns rel cred ing tls :
  guarded release_step (register_target be checks now uuid project agent name api ns rel cred ing tls).
Proof.
  unfold register_target. destruct (negb _); [constructor|].
  destruct (_ ≫= _) as [[[api' ns'] rel']|]; [|constructor].
  apply guarded_read; [apply release_step_refl|]. intros d.
  destruct (identity_taken _ _ _ _ _); [constructor|].
  destruct (new_target _ _ _ _ _ _ _ _ _ _ _) as [row|]; [|constructor]. constructor.
  - intros d0. destruct (insert_target row d0.1) as [[t k]|]; [|apply release_step_refl].
    by apply (release_step_targets (λ _, t)).
  - intros d0. destruct (insert_target row d0.1) as [[t k]|]; [|constructor].
    destruct (kb_validate be row) as [v|]; [|constructor].
    destruct (valid v); (constructor; [intros d1|constructor]); [apply release_step_targets|].
    destruct (target_in_use k d1); [apply release_step_refl|apply release_step_targets].
Qed.

Inductive k8s_request : thread db () → Prop :=
| kr_start be checks now uuid tpk target user image vs chart :
    k8s_request (forget (start_release be checks now uuid tpk target user image vs chart))
| kr_cancel be k : k8s_request (forget (cancel_release be k))
| kr_register be checks now uuid project agent name api ns rel cred ing tls :
    k8s_request (forget (register_target be checks now uuid project agent name api ns rel cred ing tls)).

Lemma k8s_request_guarded th : k8s_request th → guarded release_step th.
Proof.
  destruct 1; apply guarded_map;
    auto using start_release_guarded, cancel_release_guarded, register_target_guarded.
Qed.

(** No two rows with the same target, image, chart version and values digest are
    open (active, or failed with a recoverable error). *)
Definition one_open d : Prop :=
  ∀ k1 k2 r1 r2, tb_get d.2 k1 = Some r1 → tb_get d.2 k2 = Some r2 →
    rl_open r1 = true → rl_open r2 = true → key_of_release r1 = key_of_release r2 → k1 = k2.

Lemma one_open_step d d' : release_step d d' → one_open d → one_open d'.
Proof.
  intros [Hkeep Hkey Hnew] Hone k1 k2 r1 r2 H1 H2 Ho1 Ho2 Heq.
  destruct (Hnew _ _ H1) as [[r1' H1']|[_ Hu]].
  2: { symmetry. eapply Hu; [exact H2|done|done]. }
  destruct (Hnew _ _ H2) as [[r2' H2']|[_ Hu]].
  2: { eapply Hu; [exact H1|done|done]. }
  assert (Hold : ∀ k r r', tb_get d.2 k = Some r' → tb_get d'.2 k = Some r → rl_open r = true →
    rl_open r' = true ∧ key_of_release r' = key_of_release r).
  { intros k r r' Hk Hk' Ho. destruct (Hkey _ _ Hk) as (r0 & Hr0 & Hkk).
    split; [|congruence]. destruct (rl_open r') eqn:E; [done|].
    rewrite (Hkeep _ _ Hk E) in Hk'. congruence. }
  destruct (Hold _ _ _ H1' H1 Ho1) as [Ha Hka]. destruct (Hold _ _ _ H2' H2 Ho2) as [Hb Hkb].
  eapply Hone; eauto. congruence.
Qed.

(** C10: starting the same release twice is idempotent at the level of the
    database: under every interleaving of starts, cancellations and
    registrations there is never a second open release for the same target,
    image, chart version and values. *)
Theorem one_open_release_per_key d ths sched d' ths' :
  Forall k8s_request ths → exec pool_step (d, ths) sched (d', ths') →
  one_open d → one_open d'.
Proof.
  intros Hths Hex Hone.
  apply (rtc_preserves release_step one_open d d'); [intros ??; apply one_open_step| |done].
  apply (pool_run_guarded release_step _ _ _ Hex).
  eapply Forall_impl; [exact Hths|]. apply k8s_request_guarded.
Qed.

(** C35: a release that has ended for good (any terminal status but a recoverable
    failure) is never modified or deleted again, whatever requests run and however
    late the agent's answer arrives. *)
Theorem ended_releases_stay d ths sched d' ths' k r :
  Forall k8s_request ths → exec pool_step (d, ths) sched (d', ths') →
  tb_get d.2 k = Some r → rl_open r = false → tb_get d'.2 k = Some r.
Proof.
  intros Hths Hex Hk Ho. revert Hk.
  apply (rtc_preserves release_step (λ d, tb_get d.2 k = Some r) d d').
  - intros d1 d2 [Hkeep _ _] Hk. by apply Hkeep.
  - apply (pool_run_guarded release_step _ _ _ Hex).
    eapply Forall_impl; [exact Hths|]. apply k8s_request_guarded.
Qed.

(** * Errors that are not caught *)

Lemma admit_fresh now uuid user key snapshot compat d target :
  tb_get d.1 (key_target key) = Some target →
  tb_select (λ _ r, has_key key r && rl_open r) rl_created_at d.2 = [] →
  ∃ d' k row, admit_release now uuid user key snapshot compat d = (d', Dispatch k) ∧
    tb_get d'.2 k = Some row ∧ rl_status row = "validating"%string ∧ key_of_release row = key ∧
    d'.1 = d.1 ∧ (∀ k' r, tb_get d'.2 k' = Some r → has_key key r && rl_open r = true → k' = k).
Proof.
  intros Ht Hs. unfold admit_release. rewrite Ht, Hs.
  set (row := new_release _ _ _ _ _ _ _ _).
  destruct (tb_create row d.2) as [rs k] eqn:Ec.
  assert (Hget : ∀ k', tb_get rs k' = if decide (k' = k) then Some row else tb_get d.2 k').
  { intros k'. pose proof (tb_get_create row d.2 k') as H. by rewrite Ec in H. }
  exists (d.1, rs), k, row. split_and!; try done; cbn.
  - rewrite Hget. by rewrite decide_True.
  - by destruct key.
  - intros k' r. rewrite Hget. case_decide; [done|]. intros Hk Ho.
    assert (Hin : k' ∈ tb_select (λ _ r, has_key key r && rl_open r) rl_created_at d.2)
      by (apply tb_select_elem; eauto).
    rewrite Hs in Hin. by apply elem_of_nil in Hin.
Qed.

Lemma admit_reuse now uuid user key snapshot compat d target k row :
  tb_get d.1 (key_target key) = Some target →
  tb_get d.2 k = Some row → rl_active row = true → key_of_release row = key →
  (∀ k' r, tb_get d.2 k' = Some r → has_key key r && rl_open r = true → k' = k) →
  admit_release now uuid user key snapshot compat d = (d, Reuse k).
Proof.
  intros Ht Hk Ha Hkey Hu. unfold admit_release. rewrite Ht.
  assert (Hin : k ∈ tb_select (λ _ r, has_key key r && rl_open r) rl_created_at d.2).
  { apply tb_select_elem. exists row. split; [done|]. unfold rl_open. rewrite Ha. cbn.
    rewrite andb_true_r. by apply has_key_spec. }
  destruct (tb_select _ _ d.2) as [|k' l] eqn:E; [by apply elem_of_nil in Hin|].
  assert (k' = k) as ->.
  { assert (Hin' : k' ∈ tb_select (λ _ r, has_key key r && rl_open r) rl_created_at d.2)
      by (rewrite E; apply list_elem_of_here).
    apply tb_select_elem in Hin' as (r & Hr & Ho). eauto. }
  by rewrite Hk, Ha.
Qed.

(** When the agent is not connected the backend raises [LookupError], which
    [start_release] does not catch: the caller gets the error, the new row stays
    [validating], and every later start of the same release returns that row
    without contacting the agent, whatever backend is available by then. *)
Theorem offline_release_stays_validating be checks now uuid tpk target user image vs chart clean image' compat d msg :
  sanitize_values checks vs = Ok clean → validate_image image = Ok image' →
  compatibility_of clean = Ok compat →
  tb_get d.1 tpk = Some target →
  tb_select (λ _ r, has_key (mkKey tpk image' chart (values_digest clean)) r && rl_open r)
    rl_created_at d.2 = [] →
  (∀ request, kb_start be target request = Err (LookupError msg)) →
  let '(d1, res) := run_thread (start_release be checks now uuid tpk target user image vs chart) d in
  res = Err (LookupError msg) ∧
  ∃ k r, tb_get d1.2 k = Some r ∧ rl_status r = "validating"%string ∧
    ∀ be2 now2 uuid2 user2,
      run_thread (start_release be2 checks now2 uuid2 tpk target user2 image vs chart) d1 = (d1, Ok r).
Proof.
  intros Hc Hi Hco Ht Hs Hb.
  destruct (admit_fresh now uuid user (mkKey tpk image' chart (values_digest clean))
    (dumps (JObj clean)) compat d target Ht Hs) as (d' & k & row & Ha & Hk & Hst & Hkey & Hd1 & Hu).
  assert (Hform : ∀ be now uuid user, start_release (TT := TT) (TR := TR) be checks now uuid tpk target user image vs chart =
    Stmt (λ d, (admit_release now uuid user (mkKey tpk image' chart (values_digest clean)) (dumps (JObj clean)) compat d).1)
      (λ d, match after_admission target (clean, image', compat)
                    (admit_release now uuid user (mkKey tpk image' chart (values_digest clean)) (dumps (JObj clean)) compat d) with
        | Finished res => Return res
        | Started request k r => dispatch_release be target request k r
        end)).
  { intros. unfold start_release, checked_release. rewrite Hc. cbn. rewrite Hi. cbn. by rewrite Hco. }
  rewrite Hform. cbn [run_thread]. rewrite Ha. cbn [after_admission fst]. rewrite Hk.
  unfold dispatch_release, record_outcome. rewrite Hb. cbn.
  split; [done|]. exists k, row. split_and!; [done|done|]. intros be2 now2 uuid2 user2.
  rewrite Hform. cbn [run_thread].
  assert (Hactive : rl_active row = true) by (unfold rl_active; rewrite Hst; by vm_compute).
  erewrite admit_reuse; [|by rewrite Hd1|exact Hk|done|done|exact Hu]. cbn. by rewrite Hk.
Qed.

Lemma identity_taken_false api ns rel p (t : TT) :
  identity_taken api ns rel p t = false ↔
  ∀ k row, tb_get t k = Some row → same_identity api ns rel row = true → p row = false.
Proof.
  unfold identity_taken. rewrite negb_false_iff, bool_decide_eq_true.
  assert (Hspec := tb_select_elem (λ _ row, same_identity api ns rel row && p row) (λ _, 0%Z) t).
  destruct (tb_select (λ _ row, same_identity api ns rel row && p row) (λ _, 0%Z) t) as [|k l].
  - split; [|done]. intros _ k row Hk Hs. destruct (p row) eqn:E; [|done]. exfalso.
    apply (not_elem_of_nil k). apply Hspec. exists row. by rewrite Hs, E.
  - split; [done|]. intros H. exfalso.
    destruct (proj1 (Hspec k)) as (row & Hk & [Hs Hp]%andb_true_iff); [apply list_elem_of_here|].
    rewrite (H _ _ Hk Hs) in Hp. done.
Qed.

(** When validation of a new target raises, its row is left in the table
    unvalidated, and from then on registering the same cluster, namespace and
    release fails with an integrity error, also for the same project and with a
    working backend. *)
Theorem failed_registration_blocks_identity be checks now uuid project agent name api ns rel cred ing tls
    api' ns' rel' row d e :
  project_id (agent_project agent) = project_id project →
  validate_api_server checks api = Ok api' → validate_name false ns = Ok ns' →
  validate_name true rel = Ok rel' →
  new_target checks uuid project agent name api' ns' rel' cred ing tls = Ok row →
  identity_taken api' ns' rel' (λ _, true) d.1 = false →
  kb_validate be row = Err e →
  let '(d1, res) := run_thread
    (register_target be checks now uuid project agent name api ns rel cred ing tls) d in
  res = Err e ∧
  (∃ k, tb_get d1.1 k = Some row ∧ kt_validated_at row = None) ∧
  ∀ be2 now2 uuid2 row2,
    new_target checks uuid2 project agent name api' ns' rel' cred ing tls = Ok row2 →
    run_thread (register_target be2 checks now2 uuid2 project agent name api ns rel cred ing tls) d1 =
      (d1, Err (OtherError "IntegrityError")).
Proof.
  intros Hp Ha Hn Hr Hrow Hfree He.
  assert (Hid : ∀ uuid row, new_target checks uuid project agent name api' ns' rel' cred ing tls = Ok row →
    kt_api_server row = api' ∧ kt_namespace row = ns' ∧ kt_release_name row = rel' ∧
    kt_project row = project ∧ kt_validated_at row = None).
  { clear. intros uuid row. unfold new_target.
    destruct (validate_credential_ref cred); [|done]. cbn.
    destruct (optional_name ing); [|done]. cbn. destruct (optional_name tls); [|done]. cbn.
    by intros [= <-]. }
  rewrite identity_taken_false in Hfree.
  assert (Hnone : ∀ k row, tb_get d.1 k = Some row → same_identity api' ns' rel' row = false).
  { intros k r0 Hk. destruct (same_identity api' ns' rel' r0) eqn:E; [|done].
    by specialize (Hfree _ _ Hk E). }
  assert (Hsub : ∀ p, identity_taken api' ns' rel' p d.1 = false).
  { intros p. apply identity_taken_false. intros k r0 Hk Hs. by rewrite (Hnone _ _ Hk) in Hs. }
  destruct (Hid _ _ Hrow) as (E1 & E2 & E3 & E4 & E5).
  unfold register_target. rewrite Hp, Nat.eqb_refl. cbn [negb]. rewrite Ha. cbn. rewrite Hn. cbn.
  rewrite Hr. cbn. rewrite Hsub, Hrow. cbn. unfold insert_target.
  rewrite E1, E2, E3, Hsub. destruct (tb_create row d.1) as [t k] eqn:Ec. cbn. rewrite He. cbn.
  assert (Hget : ∀ k', tb_get t k' = if decide (k' = k) then Some row else tb_get d.1 k').
  { intros k'. pose proof (tb_get_create row d.1 k') as H. by rewrite Ec in H. }
  assert (Hk : tb_get t k = Some row) by (rewrite Hget; by rewrite decide_True).
  split; [done|]. split; [by exists k|]. intros be2 now2 uuid2 row2 Hrow2. rewrite Hrow2.
  destruct (Hid _ _ Hrow2) as (F1 & F2 & F3 & _ & _).
  assert (Hother : identity_taken api' ns' rel' (λ row, negb (project_id (kt_project row) =? project_id project)) t = false).
  { apply identity_taken_false. intros k1 r1. rewrite Hget. case_decide.
    - intros [= <-] _. by rewrite E4, Nat.eqb_refl.
    - intros Hk1 Hs. by rewrite (Hnone _ _ Hk1) in Hs. }
  rewrite Hother. cbn. rewrite F1, F2, F3.
  assert (Htaken : identity_taken api' ns' rel' (λ _, true) t = true).
  { destruct (identity_taken api' ns' rel' (λ _, true) t) eqn:E; [done|].
    rewrite identity_taken_false in E. specialize (E _ _ Hk). unfold same_identity in E.
    rewrite E1, E2, E3, !String.eqb_refl in E. by specialize (E eq_refl). }
  by rewrite Htaken.
Qed.
End props.

(** * Helm values *)

Definition SECRET_KEYS : list string := ["password"; "token"; "secretkey"; "access_key"].

(** No object anywhere in the value has a secret-like key, in any case. *)
Fixpoint secret_free (v : json) : bool :=
  match v with
  | JArr l => forallb secret_free l
  | JObj items => forallb (λ kv, negb (str_in (lower kv.1) SECRET_KEYS) && secret_free kv.2) items
  | _ => true
  end.

Definition infix (p s : text) : Prop := ∃ a b, s = a ++ p ++ b.

Lemma infix_app_l p a s : infix p s → infix p (a ++ s).
Proof. intros (x & y & ->). exists (a ++ x), y. by rewrite <- app_assoc. Qed.

Lemma infix_app_r p s b : infix p s → infix p (s ++ b).
Proof. intros (x & y & ->). exists x, (y ++ b). by rewrite <- !app_assoc. Qed.

Lemma infix_cons p c s : infix p s → infix p (c :: s).
Proof. apply (infix_app_l p [c]). Qed.

Lemma infix_commas p part parts : infix p part → part ∈ parts → infix p (commas parts).
Proof.
  intros Hp. induction 1 as [part parts|part part' parts Hin IH].
  - destruct parts; [exact Hp|]. by apply infix_app_r.
  - destruct parts as [|part'' parts]; [by apply elem_of_nil in Hin|].
    apply infix_app_l, infix_cons. by apply IH.
Qed.

(** The text of a value with a secret-like key contains that key, quoted. *)
Lemma secret_key_encoded v :
  secret_free v = false →
  ∃ k, str_in (lower k) SECRET_KEYS = true ∧ infix (quote k) (encode v).
Proof.
  induction v as [|b|z|s|l IH|items IH] using json_ind'; cbn [secret_free]; try done.
  - intros Hf. assert (∃ v, v ∈ l ∧ secret_free v = false) as (v & Hv & Hs).
    { clear IH. induction l as [|v l IH]; [done|]. cbn in Hf. apply andb_false_iff in Hf as [Hf|Hf].
      - exists v. split; [apply list_elem_of_here|done].
      - destruct (IH Hf) as (v' & ? & ?). exists v'. split; [by apply list_elem_of_further|done]. }
    rewrite Forall_forall in IH. destruct (IH v Hv Hs) as (k & Hk & Hin). exists k. split; [done|].
    cbn [encode]. apply infix_cons, infix_app_r. eapply infix_commas; [exact Hin|].
    apply list_elem_of_fmap. by exists v.
  - intros Hf.
    assert (∃ kv, kv ∈ items ∧ negb (str_in (lower kv.1) SECRET_KEYS) && secret_free kv.2 = false)
      as (kv & Hv & Hs).
    { clear IH. induction items as [|kv l IH]; [done|]. cbn in Hf. apply andb_false_iff in Hf as [Hf|Hf].
      - exists kv. split; [apply list_elem_of_here|done].
      - destruct (IH Hf) as (v' & ? & ?). exists v'. split; [by apply list_elem_of_further|done]. }
    assert (Hm : member kv ∈ map member (sort_items items)).
    { apply list_elem_of_fmap. exists kv. split; [done|]. by rewrite sort_items_perm. }
    assert (∃ k, str_in (lower k) SECRET_KEYS = true ∧ infix (quote k) (member kv)) as (k & Hk & Hin).
    { apply andb_false_iff in Hs as [Hs%negb_false_iff|Hs].
      - exists kv.1. split; [done|]. exists [], (":"%char :: encode kv.2). done.
      - rewrite Forall_forall in IH. destruct (IH kv Hv Hs) as (k & Hk & Hin). exists k. split; [done|].
        unfold member. apply infix_app_l, infix_cons, Hin. }
    exists k. split; [done|]. rewrite encode_obj. apply infix_cons, infix_app_r.
    eapply infix_commas; [exact Hin|exact Hm].
Qed.

Lemma startswith_app p s : startswith p s = true ↔ ∃ b, chars s = chars p ++ b.
Proof.
  revert s. induction p as [|c p IH]; intros s; cbn; [split; [by exists (chars s)|done]|].
  destruct s as [|d s]; cbn; [by split; [|intros [b ?]]|].
  rewrite andb_true_iff, Ascii.eqb_eq, IH. split.
  - intros [-> [b ->]]. by exists b.
  - intros [b [= -> ->]]. eauto.
Qed.

Lemma contains_infix p s : contains p s = true ↔ infix (chars p) (chars s).
Proof.
  induction s as [|c s IH]; cbn [contains].
  - rewrite orb_false_r, startswith_app. split.
    + intros [b Hb]. by exists [], b.
    + intros (a & b & Hab). cbn in Hab. destruct a; [by exists b|done].
  - rewrite orb_true_iff, startswith_app, IH. split.
    + intros [[b Hb]|Hs]; [by exists [], b|]. cbn. by apply infix_cons.
    + intros ([|a a'] & b & Hab); cbn in Hab; [left; by exists b|].
      right. injection Hab as _ Hab. by exists a', b.
Qed.

Lemma chars_lower s : chars (lower s) = map lower_char (chars s).
Proof. unfold lower. induction s as [|c s IH]; [done|]. cbn. by rewrite IH. Qed.

(** Characters whose lower case is a letter or an underscore are written as they are. *)
Lemma escape_plain c :
  is_lower (lower_char c) || Ascii.eqb (lower_char c) "_" = true → escape_char c = [c].
Proof.
  intros Hc. assert (Hall : forallb (λ c,
    negb (is_lower (lower_char c) || Ascii.eqb (lower_char c) "_") || bool_decide (escape_char c = [c]))
    all_chars = true) by by vm_compute.
  rewrite forallb_forall in Hall. specialize (Hall c). rewrite <- list_elem_of_In in Hall.
  specialize (Hall (all_chars_elem c)). rewrite Hc in Hall. by apply bool_decide_eq_true in Hall.
Qed.

Lemma quote_plain k :
  str_in (lower k) SECRET_KEYS = true →
  map lower_char (quote k) = chars (dquote +:+ lower k +:+ dquote).
Proof.
  intros Hk.
  assert (Hp : Forall (λ c, is_lower (lower_char c) || Ascii.eqb (lower_char c) "_" = true) (chars k)).
  { apply (Forall_fmap lower_char (λ c, is_lower c || Ascii.eqb c "_" = true)).
    change (lower_char <$> chars k) with (map lower_char (chars k)).
    rewrite <- chars_lower. apply str_in_spec in Hk.
    assert (Hall : Forall (λ w, forallb (λ c, is_lower c || Ascii.eqb c "_") (chars w) = true) SECRET_KEYS)
      by (repeat constructor).
    rewrite Forall_forall in Hall. apply Hall in Hk. rewrite forallb_forall in Hk.
    apply Forall_forall. intros c Hc. by apply Hk, list_elem_of_In. }
  unfold quote. assert (flat_map escape_char (chars k) = chars k) as ->.
  { induction Hp as [|c l Hc _ IH]; [done|]. cbn. by rewrite IH, escape_plain. }
  cbn [map]. rewrite map_app, <- chars_lower.
  change (dquote +:+ lower k +:+ dquote) with (String (char 34) (lower k +:+ dquote)). cbn [chars].
  f_equal. change (map lower_char [char 34]) with (chars dquote). generalize (lower k). clear.
  intros s. induction s as [|c s IH]; [done|]. rewrite str_app_cons. cbn [chars app]. by rewrite IH.
Qed.

Lemma encoded_without_tokens v :
  existsb (λ token, contains token (lower (dumps v))) SECRET_TOKENS = false → secret_free v = true.
Proof.
  intros Hn. destruct (secret_free v) eqn:E; [done|]. exfalso.
  destruct (secret_key_encoded v E) as (k & Hk & a & b & Hab).
  assert (existsb (λ token, contains token (lower (dumps v))) SECRET_TOKENS = true); [|congruence].
  apply existsb_exists. exists (dquote +:+ lower k +:+ dquote). split.
  - apply list_elem_of_In. unfold SECRET_TOKENS. apply list_elem_of_fmap.
    exists (lower k). split; [done|]. by apply str_in_spec.
  - apply contains_infix. exists (map lower_char a), (map lower_char b).
    rewrite chars_lower. unfold dumps. rewrite String.list_ascii_of_string_of_list_ascii, Hab, !map_app.
    by rewrite quote_plain.
Qed.

Lemma secret_free_sort v : secret_free v = true → secret_free (json_sort v) = true.
Proof.
  induction v as [|b|z|s|l IH|items IH] using json_ind'; cbn [secret_free json_sort]; try done.
  - rewrite !forallb_forall. intros Hl x Hx. apply in_map_iff in Hx as (v & <- & Hv).
    rewrite Forall_forall in IH. apply IH; [by apply list_elem_of_In|by apply Hl].
  - rewrite !forallb_forall. intros Hl [k x] Hx. apply list_elem_of_In in Hx.
    rewrite sort_items_perm in Hx. apply list_elem_of_fmap in Hx as (kv & [= -> ->] & Hv).
    rewrite Forall_forall in IH. specialize (Hl kv). rewrite <- list_elem_of_In in Hl.
    apply Hl in Hv as Hs. apply andb_true_iff in Hs as [H1 H2]. cbn. rewrite H1. cbn. by apply IH.
Qed.

(** ** The sanitised values *)

Lemma dict_pop_json_wf (vs : values) k : json_wf (JObj vs) = true → json_wf (JObj (dict_pop vs k)) = true.
Proof.
  cbn [json_wf]. rewrite !andb_true_iff, !bool_decide_eq_true, !forallb_forall.
  intros [Hn Hl]. split; [by apply dict_pop_wf|]. intros [k' v] Hin. apply Hl.
  apply list_elem_of_In. apply list_elem_of_In in Hin. by eapply dict_pop_elem.
Qed.

Lemma sanitize_base_ok (vs : values) clean :
  json_wf (JObj vs) = true → sanitize_base vs = Ok clean →
  JObj clean = json_sort (JObj vs) ∧ secret_free (JObj vs) = true ∧
  ∀ k v, (k, v) ∈ vs → k ∈ ALLOWED_VALUES.
Proof.
  intros Hwf. unfold sanitize_base, raise_if.
  destruct (bool_decide_reflect (unknown_values vs = [])) as [Hu|]; [|done]. cbn [negb mbind result_bind].
  destruct (existsb _ SECRET_TOKENS) eqn:Hs; [done|]. cbn [mbind result_bind].
  rewrite loads_dumps by done. cbn [json_sort]. intros [= <-].
  split; [done|]. split; [by apply encoded_without_tokens|].
  intros k v Hin. destruct (decide (k ∈ ALLOWED_VALUES)) as [|Hk]; [done|]. exfalso.
  unfold unknown_values in Hu. apply fmap_nil_inv in Hu.
  assert (Hin' : (k, v) ∈ sort_items (filter (λ kv : string * json, kv.1 ∉ ALLOWED_VALUES) vs)).
  { rewrite sort_items_perm. by apply list_elem_of_filter. }
  rewrite Hu in Hin'. by apply elem_of_nil in Hin'.
Qed.

Lemma sanitize_observability_ok checks v safe :
  sanitize_observability checks v = Ok safe → secret_free (JObj safe) = true.
Proof.
  unfold sanitize_observability. intros H.
  destruct v as [| | | | |items]; try discriminate H; [by injection H as <-|].
  destruct items as [|kv items]; [by injection H as <-|].
  destruct (existsb _ _); [discriminate H|].
  destruct (dict_get (kv :: items) "enabled") as [[|[]| | | |]|];
    try discriminate H; try (by injection H as <-).
  destruct (scalar_str (default (JStr "") (dict_get (kv :: items) "otlpEndpoint"))) as [s|];
    [|by cbn in H].
  destruct (validate_otlp_endpoint checks s) as [endpoint|]; [|by cbn in H].
  cbn [mbind result_bind] in H. destruct (String.eqb endpoint ""); [discriminate H|].
  destruct (scalar_str _) as [ns|] in H; [|discriminate H].
  destruct (fullmatch NAMESPACE ns); [|discriminate H]. by injection H as <-.
Qed.

(** C22: what is stored, digested and sent to the agent has only allowed top-level
    keys and no secret-like key at any depth, in any mixture of cases. *)
Theorem sanitized_values_are_safe checks vs clean :
  json_wf (JObj vs) = true → sanitize_values checks vs = Ok clean →
  (∀ k v, (k, v) ∈ clean → k ∈ "observability"%string :: ALLOWED_VALUES) ∧
  secret_free (JObj clean) = true.
Proof.
  intros Hwf. unfold sanitize_values.
  destruct (sanitize_base _) as [base|] eqn:Eb; [|done]. cbn [mbind result_bind].
  destruct (sanitize_observability _ _) as [safe|] eqn:Eo; [|done]. cbn [mbind result_bind]. intros [= <-].
  destruct (sanitize_base_ok _ _ (dict_pop_json_wf _ "observability" Hwf) Eb) as (Hsort & Hfree & Hkeys).
  apply sanitize_observability_ok in Eo. apply secret_free_sort in Hfree. rewrite <- Hsort in Hfree.
  assert (Hk : ∀ k v, (k, v) ∈ base → k ∈ ALLOWED_VALUES).
  { intros k v Hin. cbn [json_sort] in Hsort. injection Hsort as ->. rewrite sort_items_perm in Hin.
    apply list_elem_of_fmap in Hin as ([k' v'] & [= -> ->] & Hin). by eapply Hkeys. }
  assert (Hn : dict_get base "observability" = None).
  { apply dict_get_None. intros ([k v] & Heq & Hin)%list_elem_of_fmap. cbn in Heq. subst k.
    apply Hk in Hin. revert Hin. apply (bool_decide_eq_false_1 _). by vm_compute. }
  destruct safe as [|kv safe].
  - split; [|done]. intros k v Hin. apply list_elem_of_further. by eapply Hk.
  - rewrite dict_set_fresh by done. split.
    + intros k v [Hin|Hin]%elem_of_app; [apply list_elem_of_further; by eapply Hk|].
      apply list_elem_of_singleton in Hin. injection Hin as -> _. apply list_elem_of_here.
    + assert (Hobs : negb (str_in (lower "observability") SECRET_KEYS) = true) by by vm_compute.
      cbn [secret_free] in *. rewrite forallb_app, Hfree. cbn [forallb fst snd andb].
      rewrite Hobs, andb_true_r. exact Eo.
Qed.

(** A release image that is accepted is pinned: it ends in [@sha256:] and 64
    lower-case hexadecimal digits, after a non-empty name without newlines. *)
Theorem release_images_are_pinned image image' :
  validate_image image = Ok image' →
  image' = image ∧ ∃ name digest, chars image = name ++ chars "@sha256:" ++ digest ∧
    name ≠ [] ∧ Forall (λ c, not_newline c = true) name ∧
    length digest = 64 ∧ Forall (λ c, is_hex c = true) digest.
Proof.
  unfold validate_image. destruct (fullmatch DIGEST_IMAGE image) eqn:E; [|done]. intros [= <-].
  split; [done|]. apply fullmatch_spec in E.
  destruct E as (name & s2 & -> & Hname & (lit & digest & -> & Hlit & Hdigest)).
  apply lang_lit in Hlit as ->.
  exists name, digest. split; [done|].
  apply lang_cls_rep in Hname as (Hn & Hlo & _). apply lang_cls_rep in Hdigest as (Hd & Hlo' & Hhi).
  split_and!.
  - intros ->. cbn in Hlo. lia.
  - rewrite forallb_forall in Hn. apply Forall_forall. intros c Hc. by apply Hn, list_elem_of_In.
  - lia.
  - rewrite forallb_forall in Hd. apply Forall_forall. intros c Hc. by apply Hd, list_elem_of_In.
Qed.

(** * Concrete runs *)

Definition k8s_project : Project := mkProject 7 "shop" "Shop" "current" [1].
Definition k8s_agent : AgentRegistration := mkAgent 3 k8s_project "edge" [].
Definition k8s_target : KubernetesTarget :=
  mkTarget "t-1" k8s_project k8s_agent "main" "https://k8s.example" "prod" "web" "vault:prod/web" "" ""
    (Some 5%Z) [].
Definition k8s_image : string :=
  "registry.example/app@sha256:" +:+ repeat_char 64 "a".
Definition k8s_values : values :=
  [("webReplicas", JInt 2); ("ingress", JObj [("host", JStr "a.example"); ("enabled", JBool true)]);
   ("celeryBeat", JObj [("enabled", JBool false)])]%string.
Definition k8s_clean : values :=
  [("celeryBeat", JObj [("enabled", JBool false)]);
   ("ingress", JObj [("enabled", JBool true); ("host", JStr "a.example")]); ("webReplicas", JInt 2)]%string.
Definition k8s_checks : UrlChecks := mkChecks (λ _, true) (λ _, true).

Abbreviation demo_db := (gtable KubernetesTarget * gtable KubernetesRelease)%type.
Definition k8s_db : demo_db := (GTable 2 {[1 := k8s_target]}, GTable 1 ∅).

(** A backend that is offline, and one that works. *)
Definition offline : KubernetesBackend :=
  mkK8sBackend (λ _, Err (RuntimeError "kubernetes agent operation failed"))
    (λ _ _, Err (LookupError "agent is not connected")) (λ _, Ok false).
Definition online : KubernetesBackend :=
  mkK8sBackend (λ _, Ok (mkValidation true true true REQUIRED_PERMISSIONS))
    (λ _ _, Ok (mkResult "succeeded" (Some 4%Z) None "" "")) (λ _, Ok true).

Definition demo_start_release (be : KubernetesBackend) (uuid : string * string) : thread demo_db (result exn KubernetesRelease) :=
  start_release be k8s_checks 10 uuid 1 k8s_target 1 k8s_image k8s_values "0.1.0".

Definition k8s_pool : list (thread demo_db ()) :=
  [forget (demo_start_release online ("r-1", "aa")); forget (demo_start_release offline ("r-2", "bb"));
   forget (cancel_release online 1)].

(** Both starts enter before either answer is recorded; then the cancellation. *)
Definition k8s_schedule : list nat := [0; 1; 2; 2; 0].

Lemma k8s_pool_requests : Forall k8s_request k8s_pool.
Proof.
  unfold k8s_pool, demo_start_release.
  constructor; [apply kr_start|]. constructor; [apply kr_start|].
  constructor; [apply kr_cancel|]. constructor.
Defined.

Lemma one_open_release_per_key_witness :
  ∃ d' ths', exec pool_step (k8s_db, k8s_pool) k8s_schedule (d', ths') ∧
    (rl_status <$> gt_rows d'.2 !! 1) = Some "cancelled"%string ∧ one_open d'.
Proof.
  destruct (pool_exec_some k8s_schedule (k8s_db, k8s_pool)) as (d' & ths' & E & Hex); [by vm_compute|].
  assert (Hst : (rl_status <$> gt_rows d'.2 !! 1) = Some "cancelled"%string).
  { assert (Hs : (λ s : demo_db * list (thread demo_db ()), rl_status <$> gt_rows s.1.2 !! 1) <$>
      pool_exec k8s_schedule (k8s_db, k8s_pool) = Some (Some "cancelled"%string)) by by vm_compute.
    rewrite E in Hs. cbn in Hs. by injection Hs. }
  exists d', ths'. split; [exact Hex|]. split; [exact Hst|].
  apply (one_open_release_per_key k8s_db k8s_pool k8s_schedule d' ths' k8s_pool_requests Hex).
  intros k1 k2 r1 r2 H1. cbn in H1. by rewrite lookup_empty in H1.
Defined.

Definition k8s_ended : KubernetesRelease :=
  mkRelease "r-0" 1 7 1 "succeeded" "k8s-0" k8s_image "0.1.0" "d" "{}" (Some 3%Z) None "" "" "unknown" "" "" 1.
Definition k8s_ended_db : demo_db := (GTable 2 {[1 := k8s_target]}, GTable 2 {[1 := k8s_ended]}).

Lemma ended_releases_stay_witness :
  ∃ d' ths', exec pool_step (k8s_ended_db, k8s_pool) [0; 0; 2] (d', ths') ∧
    tb_get d'.2 1 = Some k8s_ended.
Proof.
  destruct (pool_exec_some [0; 0; 2] (k8s_ended_db, k8s_pool)) as (d' & ths' & _ & Hex); [by vm_compute|].
  exists d', ths'. split; [exact Hex|].
  apply (ended_releases_stay k8s_ended_db k8s_pool [0; 0; 2] d' ths' 1 k8s_ended k8s_pool_requests Hex);
    by vm_compute.
Defined.

Lemma offline_release_stays_validating_witness :
  let '(d1, res) := run_thread (demo_start_release offline ("r-1", "aa")) k8s_db in
  res = Err (LookupError "agent is not connected") ∧
  ∃ k r, tb_get d1.2 k = Some r ∧ rl_status r = "validating"%string ∧
    ∀ be2 now2 uuid2 user2,
      run_thread (start_release be2 k8s_checks now2 uuid2 1 k8s_target user2 k8s_image k8s_values "0.1.0") d1 =
        (d1, Ok r).
Proof.
  apply (offline_release_stays_validating offline k8s_checks 10 ("r-1", "aa") 1 k8s_target 1 k8s_image k8s_values
    "0.1.0" k8s_clean k8s_image "unknown" k8s_db "agent is not connected"); by vm_compute.
Defined.

Lemma failed_registration_blocks_identity_witness :
  let d : demo_db := (GTable 1 ∅, GTable 1 ∅) in
  let register be uuid := register_target be k8s_checks 5 uuid k8s_project k8s_agent
    "main" "https://k8s.example" "prod" "web" "vault:prod/web" "" "" in
  let row := mkTarget "t-9" k8s_project k8s_agent "main" "https://k8s.example" "prod" "web"
    "vault:prod/web" "" "" None [] in
  let '(d1, res) := run_thread (register offline "t-9") d in
  res = Err (RuntimeError "kubernetes agent operation failed") ∧
  (∃ k, tb_get d1.1 k = Some row ∧ kt_validated_at row = None) ∧
  ∀ be2 now2 uuid2 row2,
    new_target k8s_checks uuid2 k8s_project k8s_agent "main" "https://k8s.example" "prod" "web"
      "vault:prod/web" "" "" = Ok row2 →
    run_thread (register_target be2 k8s_checks now2 uuid2 k8s_project k8s_agent
      "main" "https://k8s.example" "prod" "web" "vault:prod/web" "" "") d1 =
      (d1, Err (OtherError "IntegrityError")).
Proof.
  intros d register row.
  apply (failed_registration_blocks_identity offline k8s_checks 5 "t-9" k8s_project k8s_agent
    "main" "https://k8s.example" "prod" "web" "vault:prod/web" "" "" "https://k8s.example" "prod" "web" row d);
    by vm_compute.
Defined.

Lemma sanitized_values_are_safe_witness :
  (∀ k v, (k, v) ∈ k8s_clean → k ∈ "observability"%string :: ALLOWED_VALUES) ∧
  secret_free (JObj k8s_clean) = true.
Proof. apply (sanitized_values_are_safe k8s_checks k8s_values); by vm_compute. Defined.

Lemma release_images_are_pinned_witness :
  k8s_image = k8s_image ∧ ∃ name digest, chars k8s_image = name ++ chars "@sha256:" ++ digest ∧
    name ≠ [] ∧ Forall (λ c, not_newline c = true) name ∧
    length digest = 64 ∧ Forall (λ c, is_hex c = true) digest.
Proof. apply (release_images_are_pinned k8s_image). by vm_compute. Defined.
