(* ===== verification/ValuesProps.v ===== *)
(** The Helm values of a release as text ([controlplane/kubernetes.py] and
    [controlplane/kubernetes_observability.py]): what is stored, digested and sent
    to the agent does not depend on the order of the caller's keys, and reading the
    text that is sent gives the stored values, with the correlation id filled in. *)

From S2P Require Import Prelude Text Regex Redaction Dict Gateway Store Json JsonEq Url Telemetry Models Services Kubernetes KubernetesProps.

Open Scope list_scope.
Open Scope nat_scope.

(** * Values whose keys come in another order *)

Lemma unknown_same vs vs' :
  dict_wf vs → dict_wf vs' → same_json (JObj vs) (JObj vs') → unknown_values vs = unknown_values vs'.
Proof.
  intros Hw Hw' (? & [= <-] & Hd)%same_obj_inv. unfold unknown_values.
  assert (Hkeys : ∀ l : values, (sort_items l).*1 = (sort_items (map (λ kv, (kv.1, ())) l)).*1).
  { intros l. rewrite (sort_items_map (λ _, ())). change (map ?g ?l) with (g <$> l). by rewrite <- list_fmap_compose. }
  rewrite !Hkeys. f_equal. change (map ?g ?l) with (g <$> l).
  assert (Hf : ∀ l : values, (λ kv, (kv.1, ())) <$> filter (λ kv : string * json, kv.1 ∉ ALLOWED_VALUES) l =
    filter (λ kv : string * (), kv.1 ∉ ALLOWED_VALUES) ((λ kv, (kv.1, ())) <$> l))
    by (induction l as [|[k v] l IH]; [done|]; rewrite fmap_cons, !filter_cons; cbn; case_decide; rewrite ?fmap_cons, IH; done).
  rewrite !Hf. apply sort_items_canonical.
  - eapply sublist_NoDup; [|apply fmap_sublist, sublist_filter]. by rewrite <- list_fmap_compose.
  - f_equiv. apply (same_dict_map (λ _, ())); [done..|]. intros k. destruct (Hd k); by constructor.
Qed.

Lemma sanitize_base_same vs vs' :
  json_wf (JObj vs) = true → json_wf (JObj vs') = true → same_json (JObj vs) (JObj vs') →
  sanitize_base vs' = sanitize_base vs.
Proof.
  intros Hw Hw' Hs. unfold sanitize_base. rewrite (dumps_same _ _ Hw Hw' Hs).
  by rewrite (unknown_same vs vs'); [|by apply json_wf_obj..|].
Qed.

Lemma same_scalar v v' : same_json v v' → scalar_str v' = scalar_str v.
Proof. by inversion 1. Qed.

Lemma same_default v v' d : option_Forall2 same_json v v' → same_json (default d v) (default d v').
Proof. by inversion 1. Qed.

Lemma sanitize_observability_same checks v v' :
  same_json v v' → sanitize_observability checks v' = sanitize_observability checks v.
Proof.
  inversion 1 as [| | | | |d d' Hd]; subst; try done.
  assert (Hhas : ∀ k, is_Some (dict_get d k) ↔ is_Some (dict_get d' k)).
  { intros k. destruct (Hd k); split; by intros [? [=]] || eauto. }
  assert (Hex : ∀ p : string → bool, existsb (λ kv : string * json, p kv.1) d' = existsb (λ kv : string * json, p kv.1) d).
  { intros p. apply eq_bool_prop_intro. rewrite !Is_true_true, !existsb_exists.
    assert (Hiff : ∀ e : values, (∃ x, In x e ∧ p x.1 = true) ↔ ∃ k, is_Some (dict_get e k) ∧ p k = true).
    { intros e. split.
      - intros ([k x] & Hin & Hp). exists k. split; [|done]. apply not_eq_None_Some. rewrite dict_get_None.
        intros Hn. apply Hn, list_elem_of_fmap. exists (k, x). split; [done|by apply list_elem_of_In].
      - intros (k & [x Hx%dict_get_Some_elem] & Hp). exists (k, x). split; [by apply list_elem_of_In|done]. }
    rewrite !Hiff. by setoid_rewrite Hhas. }
  unfold sanitize_observability.
  destruct d as [|kv d], d' as [|kv' d']; try done.
  { exfalso. destruct (Hhas kv'.1) as [_ [? [=]]]. destruct kv' as [k x]. cbn. rewrite decide_True by done. eauto. }
  { exfalso. destruct (Hhas kv.1) as [[? [=]] _]. destruct kv as [k x]. cbn. rewrite decide_True by done. eauto. }
  rewrite (Hex (λ k, negb (str_in k OBSERVABILITY_KEYS))). destruct (existsb _ _); [done|].
  pose proof (same_scalar _ _ (same_default _ _ (JStr "") (Hd "otlpEndpoint"%string))) as ->.
  pose proof (same_scalar _ _ (same_default _ _ (JStr "djangoops") (Hd "serviceNamespace"%string))) as ->.
  destruct (Hd "enabled"%string) as [x x' Hx|]; [|done]. by destruct Hx.
Qed.

Lemma sanitize_values_same checks vs vs' :
  json_wf (JObj vs) = true → json_wf (JObj vs') = true → same_json (JObj vs) (JObj vs') →
  sanitize_values checks vs' = sanitize_values checks vs.
Proof.
  intros Hw Hw' Hs. unfold sanitize_values.
  rewrite (sanitize_base_same (dict_pop vs "observability") (dict_pop vs' "observability"));
    [|by apply dict_pop_json_wf..|by apply same_dict_pop; [by apply json_wf_obj..|]].
  assert (Hd : option_Forall2 same_json (dict_get vs "observability") (dict_get vs' "observability"))
    by (by apply same_obj_inv in Hs as (? & [= <-] & Hd)).
  by rewrite (sanitize_observability_same checks _ _ (same_default _ _ JNull Hd)).
Qed.

(** * The text the agent reads *)

(** The stored values, with the correlation id filled in where observability is
    enabled. *)
Definition with_correlation_id (id : string) (vs : values) : values :=
  match dict_get vs "observability" with
  | Some (JObj o) =>
      match dict_get o "enabled" with
      | Some (JBool true) =>
          dict_set vs "observability"%string (JObj (dict_set o "correlationId"%string (JStr id)))
      | _ => vs
      end
  | _ => vs
  end.

Lemma with_correlation_same id d d' :
  same_json (JObj d) (JObj d') → same_json (JObj (with_correlation_id id d)) (JObj (with_correlation_id id d')).
Proof.
  intros Hs. pose proof Hs as (? & [= <-] & Hd)%same_obj_inv. unfold with_correlation_id.
  destruct (Hd "observability"%string) as [v v' Hv|]; [|done].
  destruct Hv as [| | | | |o o' Ho]; try done.
  destruct (Ho "enabled"%string) as [e e' He|]; [|done].
  destruct He as [|[]| | | |]; try done. apply same_dict_set; [done|]. by apply same_dict_set; [constructor|].
Qed.

Lemma json_wf_dict_set d k v : json_wf (JObj d) = true → json_wf v = true → json_wf (JObj (dict_set d k v)) = true.
Proof.
  rewrite !json_wf_obj, !Forall_forall. intros [Hw Hd] Hv. split; [by apply dict_set_wf|].
  intros [k' x] Hin. apply dict_get_elem in Hin; [|by apply dict_set_wf].
  destruct (decide (k = k')) as [<-|].
  - rewrite dict_get_set_eq in Hin. by injection Hin as <-.
  - rewrite dict_get_set_ne in Hin by done. apply dict_get_Some_elem in Hin. by apply (Hd (k', x)).
Qed.

Lemma json_wf_at d k v : json_wf (JObj d) = true → dict_get d k = Some v → json_wf v = true.
Proof. rewrite json_wf_obj, Forall_forall. intros [_ Hd] H%dict_get_Some_elem. by apply (Hd (k, v)). Qed.

Lemma with_correlation_wf id d : json_wf (JObj d) = true → json_wf (JObj (with_correlation_id id d)) = true.
Proof.
  intros Hw. unfold with_correlation_id.
  destruct (dict_get d "observability") as [[| | | | |o]|] eqn:E; try done.
  destruct (dict_get o "enabled") as [[|[]| | | |]|]; try done.
  apply json_wf_dict_set; [done|]. apply json_wf_dict_set; [|done]. by eapply json_wf_at.
Qed.

(** What [inject_release_correlation] makes of the text of some values. *)
Lemma inject_spec random d op :
  json_wf (JObj d) = true →
  ∃ js sent, inject_release_correlation random (dumps (JObj d)) op = Ok js ∧ loads js = Some (JObj sent) ∧
    same_json (JObj sent) (JObj (with_correlation_id (correlation_id random (Some op)) d)).
Proof.
  intros Hw. destruct (loads_dumps_same (JObj d) Hw) as (v & Hl & Hs & Hv).
  symmetry in Hs. pose proof Hs as (d' & -> & _)%same_obj_inv. symmetry in Hs.
  set (id := correlation_id random (Some op)).
  assert (Hi : inject_release_correlation random (dumps (JObj d)) op = Ok (dumps (JObj (with_correlation_id id d'))))
    by (unfold inject_release_correlation; by rewrite Hl).
  destruct (loads_dumps_same (JObj (with_correlation_id id d'))) as (v & Hl' & Hs' & _);
    [by apply with_correlation_wf|].
  symmetry in Hs'. pose proof Hs' as (sent & -> & _)%same_obj_inv. symmetry in Hs'.
  eexists _, sent. split_and!; [exact Hi|done|]. etrans; [exact Hs'|]. by apply with_correlation_same.
Qed.

Lemma sanitize_observability_wf checks v safe :
  sanitize_observability checks v = Ok safe → json_wf (JObj safe) = true.
Proof.
  unfold sanitize_observability. intros H.
  repeat (case_match; simplify_eq/=; try done);
    repeat match type of H with (?e ≫= _) = _ => destruct e; simplify_eq/=; try done end;
    repeat (case_match; simplify_eq/=; try done); by vm_compute.
Qed.

Lemma sanitize_values_wf checks vs clean :
  json_wf (JObj vs) = true → sanitize_values checks vs = Ok clean → json_wf (JObj clean) = true.
Proof.
  intros Hw. unfold sanitize_values. destruct (sanitize_base _) as [base|] eqn:Eb; [|done]. cbn [mbind result_bind].
  destruct (sanitize_observability _ _) as [safe|] eqn:Eo; [|done]. cbn [mbind result_bind]. intros [= <-].
  destruct (sanitize_base_ok _ _ (dict_pop_json_wf _ "observability" Hw) Eb) as (Hsort & _).
  assert (Hb : json_wf (JObj base) = true) by (rewrite Hsort; by apply json_wf_sort, dict_pop_json_wf).
  apply sanitize_observability_wf in Eo. destruct safe; [done|]. by apply json_wf_dict_set.
Qed.

(** C28: the values of a release survive their text.  Accepted values that list
    their keys in another order, at any depth, are accepted as the very same stored
    values (so they have the same digest and the same text); reading the stored
    text gives those values back; and the text that is sent to the agent, which
    always exists, reads as those values with the correlation id filled in where
    observability is enabled, and nothing else changed. *)
Theorem values_json_round_trips checks vs clean :
  json_wf (JObj vs) = true → sanitize_values checks vs = Ok clean →
  (∀ vs', json_wf (JObj vs') = true → same_json (JObj vs) (JObj vs') → sanitize_values checks vs' = Ok clean) ∧
  (∃ v, loads (dumps (JObj clean)) = Some v ∧ same_json v (JObj clean)) ∧
  ∀ random op, ∃ js sent,
    inject_release_correlation random (dumps (JObj clean)) op = Ok js ∧ loads js = Some (JObj sent) ∧
    same_json (JObj sent) (JObj (with_correlation_id (correlation_id random (Some op)) clean)).
Proof.
  intros Hw Hc. assert (Hwc := sanitize_values_wf _ _ _ Hw Hc). split_and!.
  - intros vs' Hw' Hs. by rewrite (sanitize_values_same _ vs).
  - destruct (loads_dumps_same _ Hwc) as (v & ? & ? & _). eauto.
  - intros random op. by apply inject_spec.
Qed.

Definition observed_values : values :=
  k8s_values ++ [("observability", JObj [("serviceNamespace", JStr "shop"); ("enabled", JBool true);
                                         ("otlpEndpoint", JStr "https://otel.example")])]%string.
Definition observed_clean : values :=
  k8s_clean ++ [("observability", JObj [("enabled", JBool true); ("otlpEndpoint", JStr "https://otel.example");
                                        ("serviceNamespace", JStr "shop"); ("correlationId", JStr "")])]%string.

Lemma values_json_round_trips_witness :
  sanitize_values k8s_checks (rev observed_values) = Ok observed_clean ∧
  (∃ v, loads (dumps (JObj observed_clean)) = Some v ∧ same_json v (JObj observed_clean)) ∧
  ∃ js sent,
    inject_release_correlation "r" (dumps (JObj observed_clean)) "k8s-1" = Ok js ∧ loads js = Some (JObj sent) ∧
    same_json (JObj sent) (JObj (with_correlation_id (correlation_id "r" (Some "k8s-1"%string)) observed_clean)).
Proof.
  destruct (values_json_round_trips k8s_checks observed_values observed_clean) as (H1 & H2 & H3);
    [by vm_compute|by vm_compute|].
  split; [|split; [exact H2|exact (H3 "r" "k8s-1")%string]].
  apply H1; [by vm_compute|]. apply same_dict_perm; [|apply Permutation_rev].
  apply (bool_decide_eq_true_1 (NoDup _)). by vm_compute.
Defined.
