(* ===== verification/Releases.v ===== *)
(** A release from the request to the agent's answer: [start_release] and
    [RuntimeKubernetesBackend._run] of [controlplane/kubernetes.py] composed with
    the job streams of [controlplane/gateway.py] and the tables they write.

    [Kubernetes.start_release] takes the answer of its backend as an argument; here
    it comes from the running gateway.  A [run] is one [backend.start]: a request
    thread blocked in [future.result], and the coroutine [collect] on the event
    loop, which it may give up on and cancel.  [rp_run] runs one piece of one of
    them, of the gateway, or one database statement of a request. *)

From S2P Require Import Prelude Text Regex Dict Gateway GatewaySystem Store Url Json Models Services Kubernetes.

Open Scope list_scope.
Open Scope nat_scope.

(** * Runs *)

(** The arguments of one call of [start_release], with what it draws: the time,
    two uuids, and the random part of the correlation id. *)
Record start_args := mkStart {
  sa_checks : UrlChecks;
  sa_now : Z;
  sa_uuid : string * string;
  sa_random : string;
  sa_target_pk : pk;
  sa_target : KubernetesTarget;
  sa_user : nat;
  sa_image : string;
  sa_values : values;
  sa_chart : string
}.

(** The coroutine [collect]: not started (or in [_open_job], before it gets the
    lock); in its [async for] over generator [r], with its local [result]; the same
    after a terminal frame, where the generator ends when it gets the lock; ended;
    cancelled. *)
Inductive collector :=
| CNew
| CWait (r : ref) (last : option KubernetesReleaseResult)
| CClosing (r : ref) (last : option KubernetesReleaseResult)
| CDone (outcome : result exn ReleaseResult)
| CCancelled.

Definition reads_from (c : collector) : option ref :=
  match c with CWait r _ | CClosing r _ => Some r | _ => None end.

Section releases.
Context {TT TR : Type} `{Table KubernetesTarget TT} `{Table KubernetesRelease TR}.
Abbreviation db := (TT * TR)%type.

(** The request thread: in [future.result]; after [backend.start], which gave
    [outcome]. *)
Inductive worker :=
| WAwait
| WBack (outcome : result exn ReleaseResult) (th : thread db (result exn KubernetesRelease)).

(** [rn_cancelled]: [future.cancel()] was called and has not reached the coroutine
    yet. *)
Record run := mkRun {
  rn_args : start_args;
  rn_request : ReleaseRequest;
  rn_pk : pk;
  rn_release : KubernetesRelease;
  rn_worker : worker;
  rn_collector : collector;
  rn_cancelled : bool
}.

Definition set_worker (w : worker) (n : run) : run :=
  mkRun (rn_args n) (rn_request n) (rn_pk n) (rn_release n) w (rn_collector n) (rn_cancelled n).
Definition set_collector (c : collector) (n : run) : run :=
  mkRun (rn_args n) (rn_request n) (rn_pk n) (rn_release n) (rn_worker n) c (rn_cancelled n).
Definition cancel_future (n : run) : run :=
  mkRun (rn_args n) (rn_request n) (rn_pk n) (rn_release n) (rn_worker n) (rn_collector n) true.

(** A call of [start_release] before its transaction; one that called its backend;
    any other request, also a start that ended without the backend. *)
Inductive process :=
| PStart (a : start_args)
| PRun (n : run)
| PThread (th : thread db ()).

Record rpipeline := mkReleases {
  rp_sys : system;
  rp_db : db;
  rp_procs : list process
}.

Definition set_proc (i : nat) (x : process) (p : rpipeline) : rpipeline :=
  mkReleases (rp_sys p) (rp_db p) (<[i := x]> (rp_procs p)).

Inductive label :=
| LGateway (a : action)
| LStatement (i : nat)
| LCollect (i : nat)
| LReturn (i : nat)
| LTimeout (i : nat)
| LCancel (i : nat).

(** What one piece did to the gateway. *)
Abbreviation event := (list (action * list obs)).

(** ** The request thread *)

(** [backend.start] came back with [outcome]. *)
Definition back (outcome : result exn ReleaseResult) (n : run) : run :=
  set_worker (WBack outcome (record_outcome outcome (rn_pk n) (rn_release n))) n.

(** After the transaction: the start is over, or [backend.start] is called, which
    raises at once when the correlation id cannot be put in the values. *)
Definition begin_run (a : start_args) (x : admitted) : process :=
  match x with
  | Finished res => PThread (Return ())
  | Started request k r =>
      let n := mkRun a request k r WAwait CNew false in
      PRun (match correlated_request (sa_random a) request with Ok _ => n | Err e => back (Err e) n end)
  end.

Definition start_tx (a : start_args) (input : values * string * string) : db → db * admission :=
  release_tx (sa_now a) (sa_uuid a) (sa_target_pk a) (sa_user a) (sa_chart a) input.

(** One database statement of a process. *)
Definition statement (x : process) (d : db) : option (db * process) :=
  match x with
  | PStart a =>
      match checked_release (sa_checks a) (sa_image a) (sa_values a) with
      | Err _ => None
      | Ok input =>
          Some ((start_tx a input d).1,
                begin_run a (after_admission (sa_target a) input (start_tx a input d)))
      end
  | PRun n =>
      match rn_worker n with
      | WBack outcome (Stmt w k) => Some (w d, PRun (set_worker (WBack outcome (k d)) n))
      | _ => None
      end
  | PThread (Stmt w k) => Some (w d, PThread (k d))
  | PThread (Return _) => None
  end.

(** [future.result] returns or raises what [collect] ended with. *)
Definition return_run (n : run) : option run :=
  match rn_worker n, rn_collector n with
  | WAwait, CDone outcome => Some (back (run_outcome outcome) n)
  | _, _ => None
  end.

(** [future.result] raises [TimeoutError]; the handler cancels the future. *)
Definition timeout_run (n : run) : option run :=
  match rn_worker n with
  | WAwait => Some (cancel_future (back (run_outcome (Err (TimeoutError ""))) n))
  | _ => None
  end.

(** ** The coroutine *)

Definition run_agent (n : run) : string := agent_id (kt_agent (sa_target (rn_args n))).

(** A piece of [collect]: up to the put of the generator, up to its first frame, the
    next frame with the loop body, which does not suspend, or the end of the
    generator; without the capability, the removal of the job. *)
Definition collect_piece (n : run) (s : system) : option (system * event * collector) :=
  match rn_collector n with
  | CNew =>
      match correlated_request (sa_random (rn_args n)) (rn_request n) with
      | Err _ => None
      | Ok request =>
          let a := AKubernetes (run_agent n) (gateway_request request) in
          '(s, o) ← sys_run a s;
          c ← match o with
              | [OOpened r] => Some (CWait r None)
              | [ORaised e] => Some (CDone (Err e))
              | _ => None
              end;
          Some (s, [(a, o)], c)
      end
  | CWait r last =>
      match sys_calls s !! r with
      | Some (KWithdraw _) =>
          '(s, o) ← sys_run (AWithdraw r) s;
          e ← match o with [ORaised e] => Some e | _ => None end;
          Some (s, [(AWithdraw r, o)], CDone (Err e))
      | Some (KDispatch _ _) =>
          '(s, o) ← sys_run (ADispatch r) s; Some (s, [(ADispatch r, o)], CWait r last)
      | Some (KStream _) =>
          '(s1, o1) ← sys_run (AGet r) s;
          f ← match o1 with [ODelivered _ f] => Some f | _ => None end;
          let last := keep_result last f in
          if is_terminal f then Some (s1, [(AGet r, o1)], CClosing r last)
          else '(s2, o2) ← sys_run (AResume r) s1;
               Some (s2, [(AGet r, o1); (AResume r, o2)], CWait r last)
      | _ => None
      end
  | CClosing r last =>
      '(s, o) ← sys_run (AResume r) s; Some (s, [(AResume r, o)], CDone (collected last))
  | CDone _ | CCancelled => None
  end.

(** [CancelledError] reaches the coroutine at its [await], if it has not ended: at
    the put, at the [get], whose [finally] then gets the lock, or where it waits for
    the lock. *)
Definition cancel_piece (n : run) (s : system) : option (system * event * collector) :=
  if rn_cancelled n then
    match rn_collector n with
    | CNew => Some (s, [], CCancelled)
    | CWait r _ =>
        a ← match sys_calls s !! r with
            | Some (KWithdraw _) => Some (ALockCancelled r)
            | Some (KDispatch _ _) => Some (ADispatchCancelled r)
            | Some (KStream _) => Some (AClose r)
            | _ => None
            end;
        '(s, o) ← sys_run a s;
        Some (s, [(a, o)], CCancelled)
    | CClosing r _ =>
        '(s, o) ← sys_run (ALockCancelled r) s;
        Some (s, [(ALockCancelled r, o)], CCancelled)
    | CDone _ | CCancelled => None
    end
  else None.

(** ** The composition *)

(** Generators belong to the coroutine that iterates them. *)
Definition holds (r : ref) (x : process) : bool :=
  match x with PRun n => bool_decide (reads_from (rn_collector n) = Some r) | _ => false end.

Definition foreign (a : action) (p : rpipeline) : bool :=
  match action_call a with
  | Some r => negb (existsb (holds r) (rp_procs p))
  | None => true
  end.

Definition the_run (i : nat) (p : rpipeline) : option run :=
  x ← rp_procs p !! i; match x with PRun n => Some n | _ => None end.

(** A piece of the coroutine of run [i]. *)
Definition loop_step (piece : run → system → option (system * event * collector)) (i : nat)
    (p : rpipeline) : option (rpipeline * event) :=
  n ← the_run i p;
  '(s, e, c) ← piece n (rp_sys p);
  Some (mkReleases s (rp_db p) (<[i := PRun (set_collector c n)]> (rp_procs p)), e).

Definition rp_run (l : label) (p : rpipeline) : option (rpipeline * event) :=
  match l with
  | LGateway a =>
      if foreign a p
      then '(s, o) ← sys_run a (rp_sys p); Some (mkReleases s (rp_db p) (rp_procs p), [(a, o)])
      else None
  | LStatement i =>
      x ← rp_procs p !! i;
      '(d, x) ← statement x (rp_db p);
      Some (mkReleases (rp_sys p) d (<[i := x]> (rp_procs p)), [])
  | LCollect i => loop_step collect_piece i p
  | LReturn i => n ← the_run i p; n ← return_run n; Some (set_proc i (PRun n) p, [])
  | LTimeout i => n ← the_run i p; n ← timeout_run n; Some (set_proc i (PRun n) p, [])
  | LCancel i => loop_step cancel_piece i p
  end.

Definition rp_step (p : rpipeline) (l : label * event) (p' : rpipeline) : Prop :=
  rp_run l.1 p = Some (p', l.2).

Definition is_run (x : process) : bool := match x with PRun _ => true | _ => false end.

(** A fresh gateway, any tables, any requests, none of which has reached its
    backend. *)
Definition rp_start (tokens : gmap string string) (mc mi : Z) (p : rpipeline) : Prop :=
  sys_start tokens mc mi (rp_sys p) ∧ forallb (λ x, negb (is_run x)) (rp_procs p) = true.

Definition gateway_trace (tr : list (label * event)) : event := flat_map snd tr.

(** The generator the coroutine of run [i] opened. *)
Definition opened (tr : list (label * event)) (i : nat) (r : ref) : Prop :=
  ∃ a, (LCollect i, [(a, [OOpened r])]) ∈ tr.

(** ** The same requests without a gateway *)

(** The backend whose stream for this run was [stream]. *)
Definition answered_by (stream : list AgentFrame * stream_end) (a : start_args) : KubernetesBackend :=
  RuntimeKubernetesBackend true "" (sa_random a) (λ _ _, stream) (λ _, Ok false).

(** A process as a thread of the sequential model, with that backend. *)
Definition thread_of (stream : list AgentFrame * stream_end) (x : process) : thread db () :=
  match x with
  | PStart a =>
      forget (start_release (answered_by stream a) (sa_checks a) (sa_now a) (sa_uuid a) (sa_target_pk a)
                (sa_target a) (sa_user a) (sa_image a) (sa_values a) (sa_chart a))
  | PRun n =>
      match rn_worker n with
      | WAwait => forget (dispatch_release (answered_by stream (rn_args n)) (sa_target (rn_args n))
                            (rn_request n) (rn_pk n) (rn_release n))
      | WBack _ th => forget th
      end
  | PThread th => th
  end.

Definition threads_of (streams : nat → list AgentFrame * stream_end) (l : list process)
    : list (thread db ()) := imap (λ i x, thread_of (streams i) x) l.

(** Running a list of labels, for concrete executions. *)
Fixpoint rp_exec (ls : list label) (p : rpipeline) : option (rpipeline * list (label * event)) :=
  match ls with
  | [] => Some (p, [])
  | l :: ls =>
      '(p1, e) ← rp_run l p;
      '(p2, tr) ← rp_exec ls p1;
      Some (p2, (l, e) :: tr)
  end.

Lemma rp_exec_exec ls p p' tr : rp_exec ls p = Some (p', tr) → exec rp_step p tr p'.
Proof.
  revert p p' tr. induction ls as [|l ls IH]; intros p p' tr; cbn.
  - intros [= <- <-]. constructor.
  - intros ([p1 e] & Hrun & ([p2 tr2] & Hex & [= <- <-])%bind_Some)%bind_Some.
    econstructor; [exact Hrun|eauto].
Qed.
End releases.
Arguments rpipeline TT TR : clear implicits.
Arguments process TT TR : clear implicits.
Arguments run TT TR : clear implicits.
Arguments worker TT TR : clear implicits.
