(* ===== verification/ReleasesInv.v ===== *)
(** What every run of the composed release pipeline ([Releases]) keeps: which
    generator each coroutine reads, what it has made of its frames, and that the
    outcome of each [backend.start] is the one the sequential backend gives for
    them. *)

From S2P Require Import Prelude Text Regex Dict Gateway GatewaySystem GatewayInv GatewayStreams.
From S2P Require Import GatewayJobs GatewayOrigin GatewayRuns Store Url Json Models Services Kubernetes Releases.

Open Scope list_scope.
Open Scope nat_scope.

(** * Why a backend can fail *)

(** What [_open_job], the capability check, or the time limit raise. *)
Inductive refusal_of_start : exn → Prop :=
| rs_value m : refusal_of_start (ValueError m)
| rs_lookup m : refusal_of_start (LookupError m)
| rs_runtime m : refusal_of_start (RuntimeError m)
| rs_timeout m : refusal_of_start (TimeoutError m).

Lemma kubernetes_release_raises a q g e :
  kubernetes_release a q g = Err e → refusal_of_start e.
Proof.
  unfold kubernetes_release. destruct (open_job _ _ _ _ _) as [[[g1 sid] r]|e'] eqn:E; [done|].
  cbn. intros [= <-]. revert E. unfold open_job, validate_job_id, require, raise_if. intros E.
  repeat (case_match; simplify_eq/=; try constructor).
Qed.

Lemma correlated_id random request q :
  correlated_request random request = Ok q → rq_operation_id q = rq_operation_id request.
Proof. unfold correlated_request. destruct (inject_release_correlation _ _ _); cbn; [|done]. by intros [= <-]. Qed.

Section inv.
Context {TT TR : Type} `{Table KubernetesTarget TT} `{Table KubernetesRelease TR}.
Implicit Types (p : rpipeline TT TR) (n : run TT TR) (x : process TT TR) (s : system).

(** * The pieces of a coroutine *)

(** [collects n s s' e c]: a piece of the coroutine of [n] takes the gateway from
    [s] to [s'] doing [e], and leaves the coroutine at [c]. *)
Inductive collects n s : system → list (action * list obs) → collector → Prop :=
| collects_open request a r s' :
    rn_collector n = CNew → rq_operation_id request = rq_operation_id (rn_request n) →
    a = AKubernetes (run_agent n) (gateway_request request) →
    sys_run a s = Some (s', [OOpened r]) → collects n s s' [(a, [OOpened r])] (CWait r None)
| collects_refused request a e s' :
    rn_collector n = CNew → a = AKubernetes (run_agent n) (gateway_request request) →
    sys_run a s = Some (s', [ORaised e]) → collects n s s' [(a, [ORaised e])] (CDone (Err e))
| collects_dispatch r last j po s' o :
    rn_collector n = CWait r last → sys_calls s !! r = Some (KDispatch j po) →
    sys_run (ADispatch r) s = Some (s', o) → collects n s s' [(ADispatch r, o)] (CWait r last)
| collects_frame r last j r' f s1 s' o :
    rn_collector n = CWait r last → sys_calls s !! r = Some (KStream j) → is_terminal f = false →
    sys_run (AGet r) s = Some (s1, [ODelivered r' f]) → sys_run (AResume r) s1 = Some (s', o) →
    collects n s s' [(AGet r, [ODelivered r' f]); (AResume r, o)] (CWait r (keep_result last f))
| collects_last r last j r' f s' :
    rn_collector n = CWait r last → sys_calls s !! r = Some (KStream j) → is_terminal f = true →
    sys_run (AGet r) s = Some (s', [ODelivered r' f]) →
    collects n s s' [(AGet r, [ODelivered r' f])] (CClosing r (keep_result last f))
| collects_end r last s' o :
    rn_collector n = CClosing r last → sys_run (AResume r) s = Some (s', o) →
    collects n s s' [(AResume r, o)] (CDone (collected last))
| collects_withdraw r last j s' e :
    rn_collector n = CWait r last → sys_calls s !! r = Some (KWithdraw j) →
    sys_run (AWithdraw r) s = Some (s', [ORaised e]) →
    collects n s s' [(AWithdraw r, [ORaised e])] (CDone (Err e))
| collects_cancel_new : rn_collector n = CNew → collects n s s [] CCancelled
| collects_cancel r last a s' o :
    rn_collector n = CWait r last ∨ rn_collector n = CClosing r last →
    a = ADispatchCancelled r ∨ a = AClose r ∨ a = ALockCancelled r →
    sys_run a s = Some (s', o) → collects n s s' [(a, o)] CCancelled.

Lemma collect_piece_collects n s s' e c : collect_piece n s = Some (s', e, c) → collects n s s' e c.
Proof.
  unfold collect_piece. intros Hp. destruct (rn_collector n) as [|r last|r last| |] eqn:Ec; try discriminate Hp.
  - destruct (correlated_request _ _) as [q|] eqn:Eq; [|discriminate Hp]. apply correlated_id in Eq.
    apply bind_Some in Hp as ([s1 o] & Hr & Hp). apply bind_Some in Hp as (c1 & Ho & [= <- <- <-]).
    destruct o as [|[] []]; try discriminate Ho; injection Ho as <-; by econstructor.
  - destruct (sys_calls s !! r) as [[j|j po|j| |]|] eqn:Er; try discriminate Hp.
    + apply bind_Some in Hp as ([s1 o] & Hr & Hp). apply bind_Some in Hp as (e1 & Ho & [= <- <- <-]).
      destruct o as [|[] []]; try discriminate Ho; injection Ho as ->; by econstructor.
    + apply bind_Some in Hp as ([s1 o] & Hr & [= <- <- <-]). by econstructor.
    + apply bind_Some in Hp as ([s1 o1] & Hr & Hp). apply bind_Some in Hp as (f & Ho & Hp).
      destruct o1 as [|[] []]; try discriminate Ho; injection Ho as ->. destruct (is_terminal f) eqn:Ef.
      { injection Hp as <- <- <-. by eapply collects_last. }
      apply bind_Some in Hp as ([s2 o2] & Hr2 & [= <- <- <-]). by eapply collects_frame.
  - apply bind_Some in Hp as ([s1 o] & Hr & [= <- <- <-]). by econstructor.
Qed.

Lemma cancel_piece_collects n s s' e c : cancel_piece n s = Some (s', e, c) → collects n s s' e c.
Proof.
  unfold cancel_piece. intros Hp. destruct (rn_cancelled n); [|discriminate Hp].
  destruct (rn_collector n) as [|r last|r last| |] eqn:Ec; try discriminate Hp.
  - injection Hp as <- <- <-. by constructor.
  - apply bind_Some in Hp as (a & Ha & Hp). apply bind_Some in Hp as ([s1 o] & Hr & [= <- <- <-]).
    eapply collects_cancel; [by left| |exact Hr].
    destruct (sys_calls s !! r) as [[]|]; simplify_eq/=; auto.
  - apply bind_Some in Hp as ([s1 o] & Hr & [= <- <- <-]).
    eapply collects_cancel; [by right| |exact Hr]. auto.
Qed.

Lemma collects_reads n s s' e c :
  collects n s s' e c → Forall (λ l, ∀ r, action_call l.1 = Some r → reads_from (rn_collector n) = Some r) e.
Proof.
  destruct 1 as [q a r1 s' Hc _ -> _|q a ex s' Hc -> _|r1 last j po s' o Hc _ _|r1 last j r' f s1 s' o Hc _ _ _ _
    |r1 last j r' f s' Hc _ _ _|r1 last s' o Hc _|r1 last j s' ex Hc _ _
    |Hc|r1 last a s' o [Hc|Hc] [->|[->| ->]] _]; try rewrite Hc;
    repeat constructor; cbn; intros; congruence.
Qed.

Lemma collects_exec n s s' e c : collects n s s' e c → exec sys_step s e s'.
Proof.
  destruct 1; try (by apply exec_one); [|constructor].
  econstructor; [|by apply exec_one]. done.
Qed.

(** It drives no generator but its own. *)
Lemma collects_calls n s s' e c r :
  collects n s s' e c → reads_from (rn_collector n) ≠ Some r →
  Forall (λ l, action_call l.1 ≠ Some r) e.
Proof.
  intros Hc Hr. eapply Forall_impl; [by eapply collects_reads|]. intros l Hl Ha. by apply Hr, Hl.
Qed.

(** * What the steps are *)

(** One process of the list changed, everything else of the gateway and of the
    other processes did not. *)
Definition moved p p' (i : nat) x x' : Prop :=
  rp_procs p !! i = Some x ∧ rp_procs p' = <[i := x']> (rp_procs p).

Inductive moves p : label → list (action * list obs) → rpipeline TT TR → Prop :=
| moves_gateway a o p' :
    foreign a p = true → sys_run a (rp_sys p) = Some (rp_sys p', o) →
    rp_db p' = rp_db p → rp_procs p' = rp_procs p → moves p (LGateway a) [(a, o)] p'
| moves_statement i x x' p' :
    moved p p' i x x' → statement x (rp_db p) = Some (rp_db p', x') → rp_sys p' = rp_sys p →
    moves p (LStatement i) [] p'
| moves_collect i n c e l p' :
    l = LCollect i ∨ l = LCancel i →
    moved p p' i (PRun n) (PRun (set_collector c n)) → collects n (rp_sys p) (rp_sys p') e c →
    rp_db p' = rp_db p → (∀ a r, e = [(a, [OOpened r])] → l = LCollect i) → moves p l e p'
| moves_return i n o p' :
    moved p p' i (PRun n) (PRun (back (run_outcome o) n)) → rn_worker n = WAwait →
    rn_collector n = CDone o → rp_db p' = rp_db p → rp_sys p' = rp_sys p → moves p (LReturn i) [] p'
| moves_timeout i n p' :
    moved p p' i (PRun n) (PRun (cancel_future (back (run_outcome (Err (TimeoutError ""))) n))) →
    rn_worker n = WAwait → rp_db p' = rp_db p → rp_sys p' = rp_sys p → moves p (LTimeout i) [] p'.

Lemma the_run_lookup i p n : the_run i p = Some n → rp_procs p !! i = Some (PRun n).
Proof. unfold the_run. intros ([] & Hi & Hx)%bind_Some; simplify_eq/=. done. Qed.

Lemma cancel_opens_nothing n s s' c a r : ¬ cancel_piece n s = Some (s', [(a, [OOpened r])], c).
Proof.
  unfold cancel_piece. intros Hp. destruct (rn_cancelled n); [|discriminate Hp].
  assert (Hn : ∀ r0 a s1, a = ADispatchCancelled r0 ∨ a = AClose r0 ∨ a = ALockCancelled r0 →
    sys_run a s ≠ Some (s1, [OOpened r])).
  { intros r0 a0 s1 Ha Hr. unfold sys_run in Hr. destruct Ha as [->|[->| ->]]; cbn in Hr;
      destruct (sys_calls s !! r0) as [[]|]; cbn in Hr; discriminate Hr. }
  destruct (rn_collector n) as [|r0 last|r0 last| |]; try discriminate Hp.
  - apply bind_Some in Hp as (a0 & Ha & Hp). apply bind_Some in Hp as ([s1 o] & Hr & [= -> -> -> <-]).
    destruct (Hn r0 a s') in Hr; [|done]. destruct (sys_calls s !! r0) as [[]|]; simplify_eq/=; auto.
  - apply bind_Some in Hp as ([s1 o] & Hr & [= -> <- -> <-]). by destruct (Hn r0 (ALockCancelled r0) s'); auto.
Qed.

Lemma rp_step_moves p l e p' : rp_step p (l, e) p' → moves p l e p'.
Proof.
  unfold rp_step. cbn. destruct l as [a|i|i|i|i|i]; cbn; unfold loop_step; intros Hs.
  - destruct (foreign a p) eqn:Hf; [|discriminate Hs].
    apply bind_Some in Hs as ([s o] & Hr & [= <- <-]). by constructor.
  - apply bind_Some in Hs as (x & Hx & Hs). apply bind_Some in Hs as ([d x'] & Hd & [= <- <-]).
    by econstructor.
  - apply bind_Some in Hs as (n & Hn%the_run_lookup & Hs).
    apply bind_Some in Hs as ([[s e'] c] & Hc & [= <- <-]).
    eapply moves_collect; [by left|split; [exact Hn|done]|by apply collect_piece_collects|done|done].
  - apply bind_Some in Hs as (n & Hn%the_run_lookup & Hs). apply bind_Some in Hs as (n' & Hr & [= <- <-]).
    unfold return_run in Hr. destruct (rn_worker n) eqn:Ew; [|discriminate Hr].
    destruct (rn_collector n) eqn:Ec; simplify_eq. by econstructor.
  - apply bind_Some in Hs as (n & Hn%the_run_lookup & Hs). apply bind_Some in Hs as (n' & Hr & [= <- <-]).
    unfold timeout_run in Hr. destruct (rn_worker n) eqn:Ew; simplify_eq. by econstructor.
  - apply bind_Some in Hs as (n & Hn%the_run_lookup & Hs).
    apply bind_Some in Hs as ([[s e'] c] & Hc & [= <- <-]).
    eapply moves_collect; [by right|split; [exact Hn|done]|by apply cancel_piece_collects|done|].
    intros a r ->. by apply cancel_opens_nothing in Hc.
Qed.

(** A run of the composition contains a run of the gateway. *)
Lemma moves_exec p l e p' : moves p l e p' → exec sys_step (rp_sys p) e (rp_sys p').
Proof.
  destruct 1 as [a o p' _ Hr _ _|i x x' p' _ _ ->|i n c e l p' _ _ Hc _ _|i n o p' _ _ _ _ ->|i n p' _ _ _ ->];
    try constructor; [by apply exec_one|by eapply collects_exec].
Qed.

Lemma rp_run_gateway p tr p' :
  exec rp_step p tr p' → exec sys_step (rp_sys p) (gateway_trace tr) (rp_sys p').
Proof.
  induction 1 as [|p [l e] p1 tr p2 Hstep _ IH]; [constructor|].
  cbn. eapply exec_app; [by eapply moves_exec, rp_step_moves|done].
Qed.

(** * Frames *)

(** The generator [r] serves a job of [agent]. *)
Definition owned s (agent : string) (r : ref) : Prop :=
  ∃ j, gw_job_objs (sys_gw s) !! r = Some j ∧ js_agent_id j = agent.

(** Run [i] could have seen this stream: nothing but a refusal, or the frames of
    the generator it opened, all of them or up to where its time was over. *)
Inductive heard (tr : list (label * list (action * list obs))) s (i : nat) (agent : string)
  : list AgentFrame * stream_end → Prop :=
| heard_refusal e : refusal_of_start e → heard tr s i agent ([], StreamRaises e)
| heard_frames r :
    opened tr i r → sys_calls s !! r = Some KDone → owned s agent r →
    heard tr s i agent (delivered r (gateway_trace tr), StreamDone).

Definition collector_ok tr s (i : nat) n : Prop :=
  match rn_collector n with
  | CNew | CCancelled => True
  | CWait r last =>
      opened tr i r ∧ last = last_result (delivered r (gateway_trace tr)) ∧ owned s (run_agent n) r ∧
      ∃ c, sys_calls s !! r = Some c ∧ call_job c = Some (rq_operation_id (rn_request n))
  | CClosing r last =>
      opened tr i r ∧ last = last_result (delivered r (gateway_trace tr)) ∧ owned s (run_agent n) r ∧
      sys_calls s !! r = Some (KYielded (rq_operation_id (rn_request n)) true)
  | CDone o => ∃ stream, heard tr s i (run_agent n) stream ∧ o = collect stream
  end.

Definition worker_ok tr s (i : nat) n : Prop :=
  match rn_worker n with
  | WAwait => ∃ request, correlated_request (sa_random (rn_args n)) (rn_request n) = Ok request
  | WBack o _ =>
      ∃ stream, heard tr s i (run_agent n) stream ∧
        o = kb_start (answered_by stream (rn_args n)) (sa_target (rn_args n)) (rn_request n)
  end.

Record releases_inv tokens mc mi tr p : Prop := {
  ri_live : live_system tokens mc mi (rp_sys p);
  ri_fresh : ∀ r, gw_job_objs (sys_gw (rp_sys p)) !! r = None → delivered r (gateway_trace tr) = [];
  ri_runs : ∀ i n, rp_procs p !! i = Some (PRun n) →
    collector_ok tr (rp_sys p) i n ∧ worker_ok tr (rp_sys p) i n;
  ri_apart : ∀ i j n m r, rp_procs p !! i = Some (PRun n) → rp_procs p !! j = Some (PRun m) →
    reads_from (rn_collector n) = Some r → reads_from (rn_collector m) = Some r → i = j
}.

(** ** What lasts *)

Lemma gateway_trace_snoc (tr : list (label * list (action * list obs))) l e :
  gateway_trace (tr ++ [(l, e)]) = gateway_trace tr ++ e.
Proof. unfold gateway_trace. rewrite flat_map_app. cbn. by rewrite app_nil_r. Qed.

Lemma opened_snoc tr l i r : opened tr i r → opened (tr ++ [l]) i r.
Proof. intros [a Ha]. exists a. apply elem_of_app. by left. Qed.

Lemma owned_stay s s' agent r : objs_stay (sys_gw s) (sys_gw s') → owned s agent r → owned s' agent r.
Proof. intros [HJ _] (j & Hj & Ha). destruct (HJ _ _ Hj) as (j' & Hj' & Ej). exists j'. by rewrite Ej. Qed.

Section one_step.
Context (tokens : gmap string string) (mc mi : Z) (tr : list (label * list (action * list obs))) (l : label)
  (e : list (action * list obs)) (s s' : system).
Hypothesis (Hlive : live_system tokens mc mi s) (Hex : exec sys_step s e s').

(** A generator that is finished, or that the step does not drive. *)
Lemma still r :
  is_Some (sys_calls s !! r) →
  Forall (λ l, action_call l.1 ≠ Some r) e ∨ sys_calls s !! r = Some KDone →
  delivered r (gateway_trace (tr ++ [(l, e)])) = delivered r (gateway_trace tr) ∧
  sys_calls s' !! r = sys_calls s !! r.
Proof.
  intros Hr Hl. rewrite gateway_trace_snoc, delivered_app.
  destruct (exec_untouched _ _ _ _ _ _ r Hlive Hex Hr Hl) as [-> ->]. by rewrite app_nil_r.
Qed.

Lemma heard_later i agent stream : heard tr s i agent stream → heard (tr ++ [(l, e)]) s' i agent stream.
Proof.
  intros [ex He|r Ho Hr Hn]; [by constructor|].
  destruct (still r) as [Hd Hc]; [by rewrite Hr|by right|]. rewrite <- Hd. constructor.
  - by apply opened_snoc.
  - by rewrite Hc.
  - eapply owned_stay; [by eapply exec_stay|done].
Qed.

Lemma worker_later i n : worker_ok tr s i n → worker_ok (tr ++ [(l, e)]) s' i n.
Proof.
  unfold worker_ok. destruct (rn_worker n); [done|]. intros (stream & Hh & ->).
  exists stream. split; [by apply heard_later|done].
Qed.

Lemma collector_later i n :
  (∀ r, reads_from (rn_collector n) = Some r → Forall (λ l, action_call l.1 ≠ Some r) e) →
  collector_ok tr s i n → collector_ok (tr ++ [(l, e)]) s' i n.
Proof.
  unfold collector_ok. intros Hr. destruct (rn_collector n) as [|r last|r last|o|]; try done.
  - intros (Ho & Hlast & Hn & c & Hc & Hj).
    destruct (still r) as [-> ->]; [by rewrite Hc|by left; apply Hr|].
    split_and!; [by apply opened_snoc|done| |by exists c].
    eapply owned_stay; [by eapply exec_stay|done].
  - intros (Ho & Hlast & Hn & Hc).
    destruct (still r) as [-> ->]; [by rewrite Hc|by left; apply Hr|].
    split_and!; [by apply opened_snoc|done| |done].
    eapply owned_stay; [by eapply exec_stay|done].
  - intros (stream & Hh & ->). exists stream. split; [by apply heard_later|done].
Qed.
End one_step.

(** ** The moves *)

Lemma last_result_snoc fs f : last_result (fs ++ [f]) = keep_result (last_result fs) f.
Proof. unfold last_result. by rewrite fold_left_app. Qed.

(** A piece of a coroutine, run by itself or by its cancellation. *)
Lemma collects_ok tokens mc mi tr l e s s' i n c :
  live_system tokens mc mi s →
  (∀ r, gw_job_objs (sys_gw s) !! r = None → delivered r (gateway_trace tr) = []) →
  collector_ok tr s i n → collects n s s' e c → (∀ a r, e = [(a, [OOpened r])] → l = LCollect i) →
  collector_ok (tr ++ [(l, e)]) s' i (set_collector c n).
Proof.
  intros Hlive Hfresh Hok Hc Hl. pose proof (collects_exec _ _ _ _ _ Hc) as Hex.
  pose proof (exec_stay _ _ _ _ _ _ Hlive Hex) as Hstay.
  assert (Hget : ∀ r f e', delivered r (gateway_trace (tr ++ [(l, (AGet r, [ODelivered r f]) :: e')])) =
    delivered r (gateway_trace tr) ++ [f] ++ delivered r e').
  { intros r f e'. rewrite gateway_trace_snoc, delivered_app. cbn. by rewrite decide_True. }
  unfold collector_ok in Hok.
  destruct Hc as [q a r s' Hc Hid Ha Hr|q a ex s' Hc Ha Hr|r last j po s' o Hc Hk Hr
    |r last j r' f s1 s' o Hc Hk Hf Hr1 Hr2|r last j r' f s' Hc Hk Hf Hr|r last s' o Hc Hr
    |r last j s' ex Hc Hk Hr|Hc|r last a s' o Hc Ha Hr]; cbn; try done.
  - rewrite gateway_trace_snoc, delivered_app.
    destruct (sys_run_opened _ _ _ _ Hr) as [Hnext (c & Hs & Hop)].
    assert (gw_job_objs (sys_gw s) !! r = None) as Hn by (rewrite Hnext; apply (live_fresh _ _ _ _ Hlive)).
    rewrite (Hfresh _ Hn). unfold collector_ok. cbn. split_and!; [|done| |].
    + exists a. apply elem_of_app. right. rewrite (Hl a r); [|done]. apply list_elem_of_here.
    + subst a. unfold sys_run in Hr. cbn in Hr.
      destruct (kubernetes_release _ _ _) as [[[g r1] op]|] eqn:E; [|discriminate Hr].
      apply kubernetes_release_open in E as (sid & (_ & _ & _ & _ & _ & -> & ->)%open_job_inv & _).
      injection Hr as <- <-. exists (mkJob (run_agent n) "kubernetes" [] 1 false). cbn.
      by rewrite lookup_insert_eq.
    + exists c. split; [done|]. subst a. rewrite <- Hid. by destruct Hop as [[po ->]| ->].
  - exists ([], StreamRaises ex). split; [|done]. constructor.
    subst a. unfold sys_run in Hr. cbn in Hr.
    destruct (kubernetes_release _ _ _) as [[[g' r] po]|e'] eqn:E; [discriminate Hr|].
    injection Hr as _ ->. by eapply kubernetes_release_raises.
  - rewrite Hc in Hok. destruct Hok as (Ho & Hlast & Hn & k & Hk' & Hj).
    rewrite Hk in Hk'. injection Hk' as <-. destruct (dispatch_step _ _ _ _ _ _ Hk Hr) as [-> Hs].
    rewrite gateway_trace_snoc, delivered_app. unfold collector_ok. cbn. rewrite app_nil_r, Hs.
    split_and!; [by apply opened_snoc|done|by eapply owned_stay|by eexists].
  - rewrite Hc in Hok. destruct Hok as (Ho & -> & Hn & k & Hk' & Hj).
    rewrite Hk in Hk'. injection Hk' as <-. destruct (get_step _ _ _ _ _ _ Hk Hr1) as [-> Hs1]. destruct (resume_step _ _ _ _ _ _ Hs1 Hr2) as [-> Hs].
    unfold collector_ok. cbn. rewrite Hget. cbn. rewrite last_result_snoc, Hs, Hf.
    split_and!; [by apply opened_snoc|done|by eapply owned_stay|by eexists].
  - rewrite Hc in Hok. destruct Hok as (Ho & -> & Hn & k & Hk' & Hj).
    rewrite Hk in Hk'. injection Hk' as <-. injection Hj as ->.
    destruct (get_step _ _ _ _ _ _ Hk Hr) as [-> Hs].
    unfold collector_ok. cbn. rewrite Hget. cbn. rewrite last_result_snoc, Hs, Hf.
    split_and!; [by apply opened_snoc|done|by eapply owned_stay|done].
  - rewrite Hc in Hok. destruct Hok as (Ho & -> & Hn & Hs1).
    destruct (resume_step _ _ _ _ _ _ Hs1 Hr) as [-> Hs]. unfold collector_ok. cbn.
    exists (delivered r (gateway_trace (tr ++ [(l, [(AResume r, [])])])), StreamDone). split.
    + constructor; [by apply opened_snoc|done|by eapply owned_stay].
    + rewrite gateway_trace_snoc, delivered_app. cbn. by rewrite app_nil_r.
  - destruct (withdraw_step _ _ _ _ _ Hk Hr) as [[= ->] _].
    eexists ([], StreamRaises _). split; [|done]. repeat constructor.
Qed.

(** ** The request thread *)

(** What [backend.start] gives for a stream. *)
Lemma start_answered stream a target request :
  kb_start (answered_by stream a) target request =
    (_ ← correlated_request (sa_random a) request; run_outcome (collect stream)).
Proof. done. Qed.

Lemma worker_ok_begin tr s i a (x : admitted) n : begin_run a x = PRun n → collector_ok tr s i n ∧ worker_ok tr s i n.
Proof.
  destruct x as [res|request k r]; cbn; [done|]. intros [= <-].
  destruct (correlated_request _ _) as [q|e] eqn:E; (split; [done|]); unfold worker_ok; cbn; [eauto|].
  exists ([], StreamRaises (RuntimeError "")). split; [by repeat constructor|]. by rewrite E.
Qed.

Lemma worker_ok_back tr s i n stream :
  rn_worker n = WAwait → worker_ok tr s i n → heard tr s i (run_agent n) stream →
  worker_ok tr s i (back (run_outcome (collect stream)) n).
Proof.
  unfold worker_ok. intros -> [q Hq] Hh. exists stream. split; [done|]. cbn. by rewrite Hq.
Qed.

(** ** Every run *)

Lemma moved_lookup p p' i x x' j y :
  moved p p' i x x' → rp_procs p' !! j = Some y → (j = i ∧ y = x') ∨ (j ≠ i ∧ rp_procs p !! j = Some y).
Proof.
  intros [Hi ->]. destruct (decide (j = i)) as [->|Hne].
  - rewrite list_lookup_insert_eq by (by eapply lookup_lt_Some). intros [= <-]. by left.
  - rewrite list_lookup_insert_ne by done. by right.
Qed.

Lemma generator_not_held a p i n r :
  foreign a p = true → rp_procs p !! i = Some (PRun n) → reads_from (rn_collector n) = Some r →
  action_call a ≠ Some r.
Proof.
  intros Hf Hi Hr Ha. unfold foreign in Hf. rewrite Ha in Hf.
  apply negb_true_iff in Hf. rewrite <- not_true_iff_false, existsb_exists in Hf. apply Hf.
  exists (PRun n). split; [by apply list_elem_of_In, (list_elem_of_lookup_2 _ i)|].
  cbn. by apply bool_decide_eq_true.
Qed.

(** A generator read after a step was read before it by the same run, or was
    opened by it. *)
Lemma reads_before p l e p' i n r :
  moves p l e p' → rp_procs p' !! i = Some (PRun n) → reads_from (rn_collector n) = Some r →
  (∃ m, rp_procs p !! i = Some (PRun m) ∧ reads_from (rn_collector m) = Some r) ∨
  (r = gw_next_ref (sys_gw (rp_sys p)) ∧ l = LCollect i).
Proof.
  intros Hm Hi' Hr.
  destruct Hm as [a o p' _ _ _ Hp|j x x' p' Hmv Hs _|j m c e l p' Hl Hmv Hc _ Hop|j m o p' Hmv _ _ _ _|j m p' Hmv _ _ _];
    [rewrite Hp in Hi'; eauto|..];
    (destruct (moved_lookup _ _ _ _ _ _ _ Hmv Hi') as [[-> E]|[_ Hi]]; [|by eauto]);
    destruct Hmv as [Hi _].
  - destruct x as [a|m|[|w k]]; cbn in Hs; simplify_eq/=.
    + destruct (checked_release _ _ _) as [input|]; [|discriminate Hs]. injection Hs as _ E.
      unfold begin_run in E. destruct (after_admission _ _ _); [discriminate E|]. injection E as <-. left.
      by destruct (correlated_request _ _).
    + left. exists m. split; [done|]. destruct (rn_worker m) as [|o [|]]; simplify_eq. done.
  - injection E as ->. cbn in Hr.
    destruct Hc as [q a r1 s' Hc _ Ha Hrun|q a ex s' Hc Ha Hrun|r1 last k po s' o Hc _ _
      |r1 last k r' f s1 s' o Hc _ _ _ _|r1 last k r' f s' Hc _ _ _|r1 last s' o Hc _|r1 last k s' ex Hc _ _
      |Hc|r1 last a s' o Hc _ _]; simplify_eq/=;
      try (left; exists m; by rewrite Hc).
    right. split; [by destruct (sys_run_opened _ _ _ _ Hrun)|by eapply Hop].
  - injection E as ->. left. eauto.
  - injection E as ->. left. eauto.
Qed.

Section step.
Context (tokens : gmap string string) (mc mi : Z) (tr : list (label * list (action * list obs)))
  (p p' : rpipeline TT TR) (l : label) (e : list (action * list obs)).
Hypothesis (Hinv : releases_inv tokens mc mi tr p) (Hm : moves p l e p').

(** A run the step does not move. *)
Lemma kept_ok i n :
  rp_procs p !! i = Some (PRun n) →
  (∀ r, reads_from (rn_collector n) = Some r → Forall (λ l, action_call l.1 ≠ Some r) e) →
  collector_ok (tr ++ [(l, e)]) (rp_sys p') i n ∧ worker_ok (tr ++ [(l, e)]) (rp_sys p') i n.
Proof.
  intros Hi Hr. destruct (ri_runs _ _ _ _ _ Hinv _ _ Hi) as [Hc Hw].
  pose proof (ri_live _ _ _ _ _ Hinv) as Hlive. pose proof (moves_exec _ _ _ _ Hm) as Hex.
  split; [by eapply collector_later|by eapply worker_later].
Qed.

Lemma runs_step i n :
  rp_procs p' !! i = Some (PRun n) →
  collector_ok (tr ++ [(l, e)]) (rp_sys p') i n ∧ worker_ok (tr ++ [(l, e)]) (rp_sys p') i n.
Proof.
  intros Hi'. pose proof kept_ok as Hkept. pose proof (moves_exec _ _ _ _ Hm) as Hex.
  assert (Hkept' : ∀ n, e = [] → rp_procs p !! i = Some (PRun n) →
    collector_ok (tr ++ [(l, e)]) (rp_sys p') i n ∧ worker_ok (tr ++ [(l, e)]) (rp_sys p') i n)
    by (intros m -> Hi; by apply Hkept).
  destruct Hm as [a o p1 Hf _ _ Hp|j x x' p1 Hmv Hs Hsys|j m c e1 l1 p1 Hl Hmv Hc _ Hop
    |j m o p1 Hmv Hw Hc _ Hsys|j m p1 Hmv Hw _ Hsys].
  { rewrite Hp in Hi'. apply Hkept; [done|]. intros r Hr. apply Forall_singleton. cbn.
    by eapply generator_not_held. }
  all: destruct (moved_lookup _ _ _ _ _ _ _ Hmv Hi') as [[-> E]|[Hne Hi]];
    [|apply Hkept; [done|]; intros r Hr; try by constructor]; destruct Hmv as [Hj _].
  - rewrite Hsys. destruct x as [a|m|[|w k]]; cbn in Hs; simplify_eq/=.
    + destruct (checked_release _ _ _) as [input|]; [|discriminate Hs]. injection Hs as _ E.
      by eapply worker_ok_begin.
    + destruct (Hkept' m) as [Hc Hw]; [done..|]. rewrite Hsys in Hc, Hw. unfold worker_ok in Hw.
      destruct (rn_worker m) as [|o [|w k]]; simplify_eq. by split.
  - injection E as ->. destruct (ri_runs _ _ _ _ _ Hinv _ _ Hj) as [Hcol Hw]. split.
    + eapply collects_ok; eauto using ri_live, ri_fresh.
    + by eapply worker_later; eauto using ri_live.
  - eapply collects_calls; [exact Hc|]. intros Hr'. apply Hne. by eapply (ri_apart _ _ _ _ _ Hinv).
  - injection E as ->. destruct (Hkept' m) as [Hcol Hok]; [done..|]. split; [done|].
    unfold collector_ok in Hcol. rewrite Hc in Hcol. destruct Hcol as (stream & Hh & ->).
    by apply worker_ok_back.
  - injection E as ->. destruct (Hkept' m) as [Hcol Hok]; [done..|]. split; [done|].
    apply (worker_ok_back _ _ _ _ ([], StreamRaises (TimeoutError ""))); [done|done|]. by repeat constructor.
Qed.
End step.

Lemma reading_call tokens mc mi tr p i n r :
  releases_inv tokens mc mi tr p → rp_procs p !! i = Some (PRun n) →
  reads_from (rn_collector n) = Some r → is_Some (sys_calls (rp_sys p) !! r).
Proof.
  intros Hinv Hi Hr. destruct (ri_runs _ _ _ _ _ Hinv _ _ Hi) as [Hc _]. unfold collector_ok in Hc.
  destruct (rn_collector n); simplify_eq/=; [by destruct Hc as (_ & _ & _ & c & -> & _)|].
  by destruct Hc as (_ & _ & _ & ->).
Qed.

Lemma apart_step tokens mc mi tr p l e p' i j n m r :
  releases_inv tokens mc mi tr p → moves p l e p' →
  rp_procs p' !! i = Some (PRun n) → rp_procs p' !! j = Some (PRun m) →
  reads_from (rn_collector n) = Some r → reads_from (rn_collector m) = Some r → i = j.
Proof.
  intros Hinv Hm Hi Hj Hn Hr.
  destruct (live_fresh _ _ _ _ (ri_live _ _ _ _ _ Hinv)) as [Hfresh _].
  destruct (reads_before _ _ _ _ _ _ _ Hm Hi Hn) as [(n0 & Hi0 & Hn0)|[Er El]],
    (reads_before _ _ _ _ _ _ _ Hm Hj Hr) as [(m0 & Hj0 & Hm0)|[Er' El']].
  - by eapply (ri_apart _ _ _ _ _ Hinv).
  - destruct (reading_call _ _ _ _ _ _ _ _ Hinv Hi0 Hn0) as [c Hc]. congruence.
  - destruct (reading_call _ _ _ _ _ _ _ _ Hinv Hj0 Hm0) as [c Hc]. congruence.
  - congruence.
Qed.

Lemma no_runs p i n : forallb (λ x, negb (is_run x)) (rp_procs p) = true → rp_procs p !! i ≠ Some (PRun n).
Proof.
  rewrite forallb_forall. intros Hf Hi. apply list_elem_of_lookup_2, list_elem_of_In, Hf in Hi. done.
Qed.

Lemma releases_inv_run tokens mc mi p0 tr p :
  rp_start tokens mc mi p0 → exec rp_step p0 tr p → releases_inv tokens mc mi tr p.
Proof.
  intros [Hs0 Hp0]. revert tr p.
  assert (Hbase : ∀ tr p, exec rp_step p0 tr p → live_system tokens mc mi (rp_sys p) ∧
    ∀ r, gw_job_objs (sys_gw (rp_sys p)) !! r = None → delivered r (gateway_trace tr) = []).
  { intros tr p Hex%rp_run_gateway. split; [by exists (rp_sys p0), (gateway_trace tr)|].
    intros r Hr. by apply (si_fresh _ _ (stream_inv_run _ _ _ _ _ _ Hs0 Hex)). }
  apply exec_ind_r.
  - destruct (Hbase [] p0) as [Hl Hf]; [constructor|]. split; [done|done|..].
    + intros i n Hi. by edestruct (no_runs p0).
    + intros i j n m r Hi. by edestruct (no_runs p0).
  - intros tr p1 [l e] p2 Hex Hinv Hstep.
    destruct (Hbase (tr ++ [(l, e)]) p2) as [Hl Hf].
    { eapply exec_app; [exact Hex|by apply exec_one]. }
    apply rp_step_moves in Hstep.
    split; [done|done|by intros; eapply runs_step|by intros; eapply apart_step].
Qed.

(** * The sequential requests inside *)

(** The streams [f] explain the outcomes of the runs that came back. *)
Definition explains (f : nat → list AgentFrame * stream_end) p : Prop :=
  ∀ i n o th, rp_procs p !! i = Some (PRun n) → rn_worker n = WBack o th →
    o = kb_start (answered_by (f i) (rn_args n)) (sa_target (rn_args n)) (rn_request n).

Lemma threads_lookup f (l : list (process TT TR)) i : threads_of f l !! i = thread_of (f i) <$> l !! i.
Proof. unfold threads_of. by rewrite list_lookup_imap. Qed.

Lemma threads_insert f (l : list (process TT TR)) i x :
  threads_of f (<[i := x]> l) = <[i := thread_of (f i) x]> (threads_of f l).
Proof.
  apply list_eq. intros j. rewrite threads_lookup.
  destruct (decide (j = i)) as [->|Hne]; [|by rewrite !list_lookup_insert_ne, threads_lookup].
  destruct (decide (i < length l)) as [Hl|Hl].
  - rewrite !list_lookup_insert_eq; [done| |done]. unfold threads_of. by rewrite length_imap.
  - rewrite !list_insert_ge; [by rewrite threads_lookup| |lia]. unfold threads_of. rewrite length_imap. lia.
Qed.

(** A statement of a process is one of its thread. *)
Lemma statement_thread stream x d d' x' :
  statement x d = Some (d', x') →
  (∀ n o th, x' = PRun n → rn_worker n = WBack o th →
    o = kb_start (answered_by stream (rn_args n)) (sa_target (rn_args n)) (rn_request n)) →
  ∃ w k, thread_of stream x = Stmt w k ∧ d' = w d ∧ thread_of stream x' = k d.
Proof.
  intros Hs Hex. destruct x as [a|n|[|w k]]; cbn in Hs; simplify_eq.
  - cbn [thread_of]. unfold start_release, start_tx in *.
    destruct (checked_release _ _ _) as [input|]; [|discriminate Hs]. injection Hs as <- Hx.
    eexists _, _. split; [reflexivity|]. split; [done|]. cbn beta.
    destruct (after_admission _ _ _) as [res|request k r]; cbn in Hx; subst x'; [done|].
    cbn [thread_of]. destruct (correlated_request _ _) as [q|e] eqn:E; [done|].
    assert (He : Err e = kb_start (answered_by stream a) (sa_target a) request)
      by exact (Hex _ _ _ eq_refl eq_refl).
    unfold dispatch_release. by rewrite <- He.
  - destruct (rn_worker n) as [|o [|w k]] eqn:Ew; simplify_eq. exists w, (λ t, forget (k t)).
    cbn. by rewrite Ew.
  - by exists w, k.
Qed.

(** A step that is no statement. *)
Lemma stutter f p p' i n n' :
  explains f p' → moved p p' i (PRun n) (PRun n') → rp_db p' = rp_db p →
  (∀ o th, rn_worker n = WBack o th → rn_worker n' = WBack o th) →
  rn_args n' = rn_args n → rn_request n' = rn_request n →
  thread_of (f i) (PRun n') = thread_of (f i) (PRun n) →
  explains f p ∧
  ∃ sched, exec pool_step (rp_db p, threads_of f (rp_procs p)) sched (rp_db p', threads_of f (rp_procs p')).
Proof.
  intros Hex [Hi Hp] -> Hw Ha Hq Ht. split.
  - intros j m o th Hj Hm'. destruct (decide (j = i)) as [->|Hne].
    + rewrite Hi in Hj. injection Hj as ->. rewrite <- Ha, <- Hq. eapply Hex; [|by eapply Hw].
      rewrite Hp. apply list_lookup_insert_eq. by eapply lookup_lt_Some.
    + eapply Hex; [|exact Hm']. rewrite Hp. by rewrite list_lookup_insert_ne.
  - exists []. rewrite Hp, threads_insert, Ht, list_insert_id; [constructor|].
    by rewrite threads_lookup, Hi.
Qed.

Lemma back_thread stream n o :
  rn_worker n = WAwait → o = kb_start (answered_by stream (rn_args n)) (sa_target (rn_args n)) (rn_request n) →
  thread_of stream (PRun (back o n)) = thread_of stream (PRun n).
Proof. cbn [thread_of]. intros -> Ho. unfold dispatch_release. by rewrite <- Ho. Qed.

Lemma moves_pool f p l e p' :
  moves p l e p' → explains f p' →
  explains f p ∧
  ∃ sched, exec pool_step (rp_db p, threads_of f (rp_procs p)) sched (rp_db p', threads_of f (rp_procs p')).
Proof.
  intros Hm Hex.
  assert (Hnew : ∀ i x x', moved p p' i x x' → rp_procs p' !! i = Some x')
    by (intros i x x' [Hi ->]; apply list_lookup_insert_eq; by eapply lookup_lt_Some).
  destruct Hm as [a o p' _ _ -> Hp|i x x' p' Hmv Hs _|i n c e l p' _ Hmv _ Hd _|i n o p' Hmv Hw _ Hd _
    |i n p' Hmv Hw Hd _].
  - unfold explains in *. rewrite Hp in *. split; [done|]. exists []. constructor.
  - destruct (statement_thread (f i) _ _ _ _ Hs) as (w & k & Hx & Hd & Hx').
    { intros n o th -> Hw. eapply Hex; [by eapply Hnew|exact Hw]. }
    split; cycle 1.
    { destruct Hmv as [Hi Hp]. exists [i]. apply exec_one. unfold pool_step, pool_run. cbn.
      rewrite threads_lookup, Hi. cbn. rewrite Hx, Hp, threads_insert. by rewrite Hd, Hx'. }
    intros j m o th Hj Hm. destruct (decide (j = i)) as [->|Hne].
    + destruct (Hmv) as [Hi _]. rewrite Hi in Hj. injection Hj as ->. cbn in Hs. rewrite Hm in Hs.
      destruct th as [|w' k']; [discriminate Hs|]. injection Hs as _ <-.
      by refine (Hex _ _ o _ (Hnew _ _ _ Hmv) _).
    + destruct Hmv as [_ Hp]. eapply Hex; [|exact Hm]. rewrite Hp. by rewrite list_lookup_insert_ne.
  - by eapply stutter.
  - eapply stutter; eauto; [by rewrite Hw|]. apply back_thread; [done|].
    by refine (Hex _ _ _ _ (Hnew _ _ _ Hmv) _).
  - eapply stutter; eauto; [by rewrite Hw|]. apply (back_thread _ n); [done|].
    by refine (Hex _ _ _ _ (Hnew _ _ _ Hmv) _).
Qed.

Lemma exec_pool f p tr p' :
  exec rp_step p tr p' → explains f p' →
  explains f p ∧
  ∃ sched, exec pool_step (rp_db p, threads_of f (rp_procs p)) sched (rp_db p', threads_of f (rp_procs p')).
Proof.
  induction 1 as [p|p [l e] p1 tr p2 Hstep _ IH]; intros Hex; [split; [done|]; exists []; constructor|].
  destruct (IH Hex) as [Hex1 (sched2 & H2)]. apply rp_step_moves in Hstep.
  destruct (moves_pool _ _ _ _ _ Hstep Hex1) as [Hex0 (sched1 & H1)].
  split; [done|]. exists (sched1 ++ sched2). by eapply exec_app.
Qed.

Lemma runs_explained tokens mc mi tr p :
  releases_inv tokens mc mi tr p →
  ∃ f, explains f p ∧ ∀ i n o th, rp_procs p !! i = Some (PRun n) → rn_worker n = WBack o th →
    heard tr (rp_sys p) i (run_agent n) (f i).
Proof.
  intros Hinv.
  destruct (choose_each (λ i x stream, ∀ n o th, x = PRun n → rn_worker n = WBack o th →
    heard tr (rp_sys p) i (run_agent n) stream ∧
    o = kb_start (answered_by stream (rn_args n)) (sa_target (rn_args n)) (rn_request n))
    (rp_procs p) ([], StreamDone)) as [f Hf].
  - intros i x Hi. destruct x as [a|n|th]; [by exists ([], StreamDone)| |by exists ([], StreamDone)].
    destruct (ri_runs _ _ _ _ _ Hinv _ _ Hi) as [_ Hw]. unfold worker_ok in Hw.
    destruct (rn_worker n) as [|o th] eqn:Ew; [exists ([], StreamDone); intros ? ? ? [= <-]; by rewrite Ew|].
    destruct Hw as (stream & Hh & Ho). exists stream. intros n' o' th' [= <-]. rewrite Ew. by intros [= <- <-].
  - exists f. split; [intros i n o th Hi Hw|intros i n o th Hi Hw]; by eapply Hf.
Qed.
End inv.
