(* ===== verification/ReleasesRows.v ===== *)
(** The releases table along every run of the composed pipeline ([Releases]): each
    row is as it was, closed by a failure or a cancellation, driven by a run, or
    holds what a run's backend answered. *)

From S2P Require Import Prelude Text Regex Dict Gateway GatewaySystem GatewayInv GatewayStreams GatewayRuns.
From S2P Require Import Store Url Json Models Services Kubernetes KubernetesProps Releases ReleasesInv.

Open Scope list_scope.
Open Scope nat_scope.

Section rows.
Context {TT TR : Type} `{HT : Table KubernetesTarget TT} `{HR : Table KubernetesRelease TR}.
Context `{!TableLaws KubernetesTarget TT} `{!TableLaws KubernetesRelease TR}.
Abbreviation db := (TT * TR)%type.
Implicit Types (p : rpipeline TT TR) (n : run TT TR) (x : process TT TR) (d : db) (k : pk)
  (row r : KubernetesRelease).

(** * Statements *)

Definition closed row : Prop := rl_status row = "failed"%string ∨ rl_status row = "cancelled"%string.

Lemma closed_inactive row : closed row → rl_active row = false.
Proof. unfold rl_active. by intros [-> | ->]. Qed.

(** Every row afterwards was there before, or is closed. *)
Definition closes d d' : Prop :=
  ∀ k row, tb_get d'.2 k = Some row → tb_get d.2 k = Some row ∨ closed row.

Definition aside_step d d' : Prop := release_step d d' ∧ closes d d'.

Lemma aside_refl d : aside_step d d.
Proof. split; [apply release_step_refl|]. intros k row. by left. Qed.

Lemma aside_targets f d : aside_step d (on_targets f d).
Proof. split; [apply release_step_targets|]. intros k row. by left. Qed.

(** An update of an active release changes that row or nothing. *)
Lemma update_active_rows k f d k' row :
  tb_get (update_active_release k f d).2 k' = Some row →
  ∃ old, tb_get d.2 k' = Some old ∧
    ((k' = k ∧ rl_active old = true ∧ row = f old) ∨ ((k' ≠ k ∨ rl_active old = false) ∧ row = old)).
Proof.
  cbn. rewrite tb_get_update. intros (old & Ho & Hr)%fmap_Some. exists old. split; [done|].
  destruct (Nat.eqb_spec k' k) as [->|Hne]; cbn in Hr; [|by right; split; [left|]].
  destruct (rl_active old); [by left|]. right. split; [by right|done].
Qed.

Lemma aside_status k status code d :
  status = "failed"%string ∨ status = "cancelled"%string →
  aside_step d (update_active_release k (set_release_status status code) d).
Proof.
  intros Hs. split; [by apply release_step_active|]. intros k' row Hk.
  destruct (update_active_rows _ _ _ _ _ Hk) as (old & Ho & [(_ & _ & ->)|[_ ->]]); [by right|by left].
Qed.

(** The requests beside the starts. *)
Inductive aside_request : thread db () → Prop :=
| ar_cancel be k : aside_request (forget (cancel_release be k))
| ar_register be checks now uuid project agent name api ns rel cred ing tls :
    aside_request (forget (register_target be checks now uuid project agent name api ns rel cred ing tls)).

Lemma cancel_aside be k : guarded aside_step (cancel_release be k).
Proof.
  apply guarded_refresh_release; [apply aside_refl|]. intros r.
  destruct (str_in _ _); [constructor|]. destruct (kb_cancel be _) as [b|]; [|constructor].
  constructor; [intros; apply aside_status; destruct b; auto|]. intros d.
  apply guarded_refresh_release; [apply aside_refl|constructor].
Qed.

Lemma register_aside be checks now uuid project agent name api ns rel cred ing tls :
  guarded aside_step (register_target be checks now uuid project agent name api ns rel cred ing tls).
Proof.
  unfold register_target. destruct (negb _); [constructor|].
  destruct (_ ≫= _) as [[[api' ns'] rel']|]; [|constructor].
  apply guarded_read; [apply aside_refl|]. intros d.
  destruct (identity_taken _ _ _ _ _); [constructor|].
  destruct (new_target _ _ _ _ _ _ _ _ _ _ _) as [row|]; [|constructor]. constructor.
  - intros d0. destruct (insert_target row d0.1) as [[t k]|]; [|apply aside_refl].
    by apply (aside_targets (λ _, t)).
  - intros d0. destruct (insert_target row d0.1) as [[t k]|]; [|constructor].
    destruct (kb_validate be row) as [v|]; [|constructor].
    destruct (valid v); (constructor; [intros d1|constructor]); [apply aside_targets|].
    destruct (target_in_use k d1); [apply aside_refl|apply aside_targets].
Qed.

Lemma aside_guarded th : aside_request th → guarded aside_step th.
Proof. destruct 1; apply guarded_map; auto using cancel_aside, register_aside. Qed.

(** ** The transaction *)

(** What the transaction leaves: every row as it was but the one it dispatches,
    which is active and has the key asked for. *)
Lemma admit_rows now uuid user key snapshot compat d k row :
  tb_get (admit_release now uuid user key snapshot compat d).1.2 k = Some row →
  tb_get d.2 k = Some row ∨
  ((admit_release now uuid user key snapshot compat d).2 = Dispatch k ∧ rl_active row = true).
Proof.
  unfold admit_release. destruct (tb_get d.1 (key_target key)) as [target|]; [|by left].
  destruct (tb_select _ _ d.2) as [|k0 l] eqn:E.
  - set (new := new_release _ _ _ _ _ _ _ _). pose proof (tb_get_create new d.2 k) as Hg.
    destruct (tb_create new d.2) as [rs k'] eqn:Ec. cbn in *. rewrite Hg. case_decide as Hd; [|by left].
    intros [= <-]. subst k'. right. by split.
  - destruct (tb_get d.2 k0) as [r|] eqn:Hk; [|by left]. destruct (rl_active r) eqn:Ha; [by left|].
    cbn. rewrite tb_get_update. intros (old & Ho & Hr)%fmap_Some.
    destruct (Nat.eqb_spec k k0) as [->|Hne]; subst row; [right; by split|by left].
Qed.

Lemma admit_dispatch now uuid user key snapshot compat d d' k r :
  admit_release now uuid user key snapshot compat d = (d', Dispatch k) →
  tb_get d'.2 k = Some r → key_of_release r = key.
Proof.
  unfold admit_release. destruct (tb_get d.1 (key_target key)) as [target|]; [|done].
  destruct (tb_select _ _ d.2) as [|k0 l] eqn:E.
  - set (new := new_release _ _ _ _ _ _ _ _). pose proof (tb_get_create new d.2) as Hg.
    destruct (tb_create new d.2) as [rs k'] eqn:Ec. intros [= <- <-]. cbn in *.
    rewrite Hg, decide_True by done. intros [= <-]. by destruct key.
  - destruct (tb_get d.2 k0) as [r0|] eqn:Hk; [|done]. destruct (rl_active r0) eqn:Ha; [done|].
    intros [= <- <-]. cbn. rewrite tb_get_update, Hk, Nat.eqb_refl. cbn. intros [= <-].
    assert (Hin : k0 ∈ tb_select (λ _ r, has_key key r && rl_open r) rl_created_at d.2)
      by (rewrite E; apply list_elem_of_here).
    apply tb_select_elem in Hin as (r1 & Hr1 & [Hkey%has_key_spec _]%andb_true_iff).
    rewrite Hk in Hr1. by injection Hr1 as ->.
Qed.

(** ** The statements of a run *)

Definition last_read k : thread db (result exn KubernetesRelease) :=
  refresh_release k (λ r, Return (Ok r)).

(** Where the request thread is after [backend.start]. *)
Definition back_at (o : result exn ReleaseResult) k r (th : thread db (result exn KubernetesRelease)) : Prop :=
  th = record_outcome o k r ∨ th = last_read k ∨ ∃ v, th = Return v.

(** The write of the outcome [o] to row [k]. *)
Definition wrote (o : result exn ReleaseResult) k d d' : Prop :=
  ∃ f, d' = update_active_release k f d ∧
    (∀ old, key_of_release (f old) = key_of_release old) ∧
    ∀ old, closed (f old) ∨ ∃ res previous, o = Ok res ∧ f old = set_release_result res previous old.

Lemma outcome_statement o k r w c d :
  Stmt w c = record_outcome (TT := TT) o k r → wrote o k d (w d) ∧ c d = last_read k.
Proof.
  unfold record_outcome, wrote.
  destruct o as [res|[]]; try discriminate; intros [= -> ->]; (split; [|done]);
    (eexists; split; [done|]; split; [done|]); intros old.
  - right. eauto.
  - left. by left.
Qed.

(** One of its statements only reads, or is the write. *)
Lemma back_statement o k r w c d :
  back_at o k r (Stmt w c) →
  back_at o k r (c d) ∧ (w d = d ∨ wrote o k d (w d)) ∧
  (Stmt w c = record_outcome o k r → wrote o k d (w d)).
Proof.
  intros Hth.
  assert (Hw : Stmt w c = record_outcome o k r → wrote o k d (w d)) by (intros E; by eapply outcome_statement).
  destruct Hth as [Hth|[Hth|[v Hth]]]; [| |discriminate Hth].
  - destruct (outcome_statement _ _ _ _ _ d Hth) as [Hwr ->]. split_and!; auto. right. by left.
  - injection Hth as -> ->. split_and!; auto. destruct (tb_get d.2 k); right; right; eauto.
Qed.

Lemma wrote_step o k d d' : wrote o k d d' → release_step d d'.
Proof. intros (f & -> & Hf & _). by apply release_step_active. Qed.

Lemma result_inactive res previous old : rl_active (set_release_result res previous old) = false.
Proof.
  unfold rl_active, set_release_result. cbn.
  destruct (str_in (rr_status res) K8S_TERMINAL) eqn:E; [|done]. apply str_in_spec in E.
  repeat (apply elem_of_cons in E as [->|E]; [done|]). by apply elem_of_nil in E.
Qed.

(** * The rows *)

(** A run that will still write its outcome to row [k], or could not. *)
Definition drives k n : Prop :=
  rn_pk n = k ∧
  (rn_worker n = WAwait ∨ ∃ o, rn_worker n = WBack o (record_outcome o (rn_pk n) (rn_release n))).

(** The row of a run: the target, the image and the chart of the start. *)
Definition run_key n : release_key :=
  mkKey (sa_target_pk (rn_args n)) (rq_image (rn_request n)) (sa_chart (rn_args n))
    (rl_values_digest (rn_release n)).

Definition run_ok d n : Prop :=
  (∃ row, tb_get d.2 (rn_pk n) = Some row ∧ key_of_release row = run_key n) ∧
  match rn_worker n with
  | WAwait => True
  | WBack o th => back_at o (rn_pk n) (rn_release n) th
  end.

(** Why row [k] holds [row]. *)
Inductive accounted (d0 : db) p k row : Prop :=
| acc_same : tb_get d0.2 k = Some row → accounted d0 p k row
| acc_closed : closed row → accounted d0 p k row
| acc_driven i n :
    rl_active row = true → rp_procs p !! i = Some (PRun n) → drives k n → accounted d0 p k row
| acc_reported i n res th previous old :
    rp_procs p !! i = Some (PRun n) → rn_pk n = k → rn_worker n = WBack (Ok res) th →
    row = set_release_result res previous old → key_of_release old = run_key n → accounted d0 p k row.

Record rows_inv (d0 : db) p : Prop := {
  ro_aside : ∀ i th, rp_procs p !! i = Some (PThread th) → guarded aside_step th;
  ro_runs : ∀ i n, rp_procs p !! i = Some (PRun n) → run_ok (rp_db p) n;
  ro_rows : ∀ k row, tb_get (rp_db p).2 k = Some row → accounted d0 p k row
}.

(** ** Runs stay *)

(** The run after a step: the same call, and an outcome is kept. *)
Definition same_run n n' : Prop :=
  rn_args n' = rn_args n ∧ rn_request n' = rn_request n ∧ rn_pk n' = rn_pk n ∧
  rn_release n' = rn_release n ∧
  ∀ o th, rn_worker n = WBack o th → ∃ th', rn_worker n' = WBack o th'.

Lemma run_stays p l e p' i n :
  moves p l e p' → rp_procs p !! i = Some (PRun n) →
  ∃ n', rp_procs p' !! i = Some (PRun n') ∧ same_run n n' ∧
    (l = LStatement i ∨ ∀ k, drives k n → drives k n').
Proof.
  intros Hm Hi.
  assert (Hself : same_run n n) by (split_and!; eauto).
  assert (Hmv : ∀ j x x', moved p p' j x x' →
    rp_procs p' !! i = Some (PRun n) ∨ (i = j ∧ x = PRun n ∧ rp_procs p' !! i = Some x')).
  { intros j x x' [Hj ->]. destruct (decide (i = j)) as [->|Hne].
    - right. rewrite Hi in Hj. injection Hj as <-. split_and!; [done..|].
      apply list_lookup_insert_eq. by eapply lookup_lt_Some.
    - left. by rewrite list_lookup_insert_ne. }
  destruct Hm as [a o p' _ _ _ Hp|j x x' p' Hj Hs _|j m c e l p' _ Hj _ _ _|j m o p' Hj Hw _ _ _|j m p' Hj Hw _ _];
    [rewrite <- Hp in Hi; eauto|..];
    (destruct (Hmv _ _ _ Hj) as [?|(-> & Hx & Hi')]; [by eauto|]); simplify_eq;
    try (eexists; split; [done|]; split; [split_and!; [done..|by rewrite ?Hw]|right; intros k [Hk _]; split;
      [done|right; eexists; done]]).
  - cbn in Hs. destruct (rn_worker n) as [|o [|w k]] eqn:Ew; simplify_eq.
    eexists. split; [done|]. split; [|by left]. split_and!; try done. cbn. rewrite Ew.
    intros ? ? [= <- <-]. eauto.
  - eexists. split; [done|]. split; [by split_and!; eauto|by right].
Qed.

(** A row the step leaves as it was stays accounted for, unless it was left to the
    run whose statement the step is. *)
Lemma accounted_stays d0 p l e p' k row :
  moves p l e p' → accounted d0 p k row →
  accounted d0 p' k row ∨
  ∃ i n, l = LStatement i ∧ rp_procs p !! i = Some (PRun n) ∧ drives k n ∧ rl_active row = true.
Proof.
  intros Hm [Hr|Hc|i n Ha Hi Hd|i n res th previous old Hi Hk Hw Hr Ho].
  - left. by apply acc_same.
  - left. by apply acc_closed.
  - destruct (run_stays _ _ _ _ _ _ Hm Hi) as (n' & Hi' & _ & [->|Hd']); [right; eauto 10|].
    left. eapply acc_driven; eauto.
  - destruct (run_stays _ _ _ _ _ _ Hm Hi) as (n' & Hi' & (Ea & Eq & Ek & Er & Hw') & _).
    destruct (Hw' _ _ Hw) as [th' Hth']. left. eapply acc_reported; eauto; [by rewrite Ek|].
    unfold run_key. by rewrite Ea, Eq, Er.
Qed.

(** ** The statements *)

Lemma wrote_rows o k d d' k' row :
  wrote o k d d' → tb_get d'.2 k' = Some row →
  (tb_get d.2 k' = Some row ∧ (k' ≠ k ∨ rl_active row = false)) ∨
  (k' = k ∧ (closed row ∨ ∃ res previous old, o = Ok res ∧ tb_get d.2 k = Some old ∧
     row = set_release_result res previous old)).
Proof.
  intros (f & -> & _ & Hf) Hk. destruct (update_active_rows _ _ _ _ _ Hk) as (old & Ho & [(-> & _ & ->)|[Hne ->]]).
  - right. split; [done|]. destruct (Hf old) as [?|(res & previous & -> & ->)]; [by left|right; eauto 10].
  - by left.
Qed.

(** The start of a run: its row has the key of the start. *)
Lemma begin_run_ok a input d n :
  checked_release (sa_checks a) (sa_image a) (sa_values a) = Ok input →
  begin_run a (after_admission (sa_target a) input (start_tx a input d)) = PRun n →
  run_ok (start_tx a input d).1 n ∧ (start_tx a input d).2 = Dispatch (rn_pk n) ∧ drives (rn_pk n) n.
Proof.
  destruct input as [[clean image] compat]. intros _. unfold start_tx, release_tx.
  destruct (admit_release _ _ _ _ _ _ d) as [d' [|k|k]] eqn:Ea; cbn; [done|by destruct (tb_get d'.2 k)|].
  destruct (tb_get d'.2 k) as [r|] eqn:Er; [|done]. intros [= <-].
  pose proof (admit_dispatch _ _ _ _ _ _ _ _ _ _ Ea Er) as Hkey.
  destruct (correlated_request _ _) as [q|ex]; cbn; (split; [split; [|done || by left]|split; [done|split; [done|]]]).
  all: try (exists r; split; [done|]; unfold run_key; cbn; rewrite Hkey; f_equal; by injection Hkey as _ _ _ ->).
  - by left.
  - right. eauto.
Qed.

(** What the statement of process [x] does to the tables. *)
Definition statement_effect x d d' x' : Prop :=
  release_step d d' ∧
  match x with
  | PStart a => ∀ k row, tb_get d'.2 k = Some row →
      tb_get d.2 k = Some row ∨ ∃ n, x' = PRun n ∧ drives k n ∧ rl_active row = true
  | PRun n => ∃ o th, rn_worker n = WBack o th ∧
      (d' = d ∨ wrote o (rn_pk n) d d') ∧
      (th = record_outcome o (rn_pk n) (rn_release n) → wrote o (rn_pk n) d d')
  | PThread _ => closes d d'
  end.

Lemma statement_effects x d d' x' :
  statement x d = Some (d', x') →
  (∀ th, x = PThread th → guarded aside_step th) → (∀ n, x = PRun n → run_ok d n) →
  statement_effect x d d' x' ∧
  (∀ th, x' = PThread th → guarded aside_step th) ∧ (∀ n, x' = PRun n → run_ok d' n).
Proof.
  intros Hs Hg Hok. destruct x as [a|n|th]; cbn in Hs.
  - destruct (checked_release _ _ _) as [input|] eqn:Ei; [|discriminate Hs]. injection Hs as <- <-.
    assert (Hrel : release_step d (start_tx a input d).1)
      by (destruct input as [[? ?] ?]; apply admit_step).
    split; [split; [done|]|split].
    + intros k row Hk.
      assert (tb_get d.2 k = Some row ∨ ((start_tx a input d).2 = Dispatch k ∧ rl_active row = true))
        as [?|[Hd Ha]] by (destruct input as [[? ?] ?]; by apply admit_rows); [by left|right].
      destruct (begin_run a _) as [|n|] eqn:En; [by destruct (after_admission _ _ _)| |].
      * destruct (begin_run_ok _ _ _ _ Ei En) as (_ & Hd' & Hdr).
        rewrite Hd in Hd'. injection Hd' as ->. eauto.
      * exfalso. destruct input as [[clean image] compat]. unfold start_tx, release_tx in *.
        destruct (admit_release _ _ _ _ _ _ d) as [d' adm]. cbn in Hd, Hk, En. subst adm. cbn in En.
        rewrite Hk in En. done.
    + intros th Hth. destruct (after_admission _ _ _); cbn in Hth; [injection Hth as <-; constructor|done].
    + intros n Hn. by apply (begin_run_ok _ _ _ _ Ei Hn).
  - destruct (rn_worker n) as [|o [|w c]] eqn:Ew; [done|done|]. injection Hs as <- <-.
    destruct (Hok n eq_refl) as [(row & Hrow & Hkey) Hb]. rewrite Ew in Hb.
    destruct (back_statement _ _ _ _ _ d Hb) as (Hb' & Hw & Hr).
    assert (Hrel : release_step d (w d))
      by (destruct Hw as [->|Hw]; [apply release_step_refl|by eapply wrote_step]).
    split; [split; [done|]; exists o, (Stmt w c); by split_and!|]. split; [done|].
    intros n' [= <-]. split; [|done]. cbn.
    destruct (rs_key _ _ Hrel _ _ Hrow) as (row' & Hrow' & Hkey'). exists row'. by rewrite Hkey'.
  - destruct th as [|w c]; [done|]. injection Hs as <- <-. specialize (Hg _ eq_refl).
    inversion Hg as [|? ? Hw Hc]; subst. destruct (Hw d) as [Hrel Hcl].
    split; [by split|]. split; [by intros th [= <-]|done].
Qed.

(** ** Every step *)

Lemma moves_release_step d0 p l e p' : rows_inv d0 p → moves p l e p' → release_step (rp_db p) (rp_db p').
Proof.
  intros Hinv [a o p1 _ _ -> _|i x x' p1 Hj Hs _|i m c e1 l1 p1 _ _ _ -> _|i m o p1 _ _ _ -> _|i m p1 _ _ -> _];
    try apply release_step_refl.
  destruct Hj as [Hi _].
  destruct (statement_effects _ _ _ _ Hs) as [[Hrel _] _]; [| |done].
  - intros th ->. by eapply (ro_aside _ _ Hinv).
  - intros n ->. by eapply (ro_runs _ _ Hinv).
Qed.

(** A run keeps its row under a step of another process, or a step of its own that
    is no statement. *)
Lemma run_ok_stays d0 p l e p' i n n' :
  rows_inv d0 p → moves p l e p' → rp_procs p !! i = Some (PRun n) → same_run n n' →
  (rn_worker n' = rn_worker n ∨ (rn_worker n = WAwait ∧
     ∃ o, rn_worker n' = WBack o (record_outcome o (rn_pk n') (rn_release n')))) →
  run_ok (rp_db p') n'.
Proof.
  intros Hinv Hm Hi (Ea & Eq & Ek & Er & _) Hw.
  destruct (ro_runs _ _ Hinv _ _ Hi) as [(row & Hrow & Hkey) Hb].
  destruct (rs_key _ _ (moves_release_step _ _ _ _ _ Hinv Hm) _ _ Hrow) as (row' & Hrow' & Hkey').
  split.
  - exists row'. rewrite Ek. split; [done|]. unfold run_key in *. by rewrite Ea, Eq, Er, Hkey'.
  - destruct Hw as [->|[_ [o ->]]]; [by rewrite Ek, Er|by left].
Qed.

(** The rows after a run's write. *)
Lemma wrote_accounted d0 p p' i n o th k row :
  rows_inv d0 p → moves p (LStatement i) [] p' → rp_procs p !! i = Some (PRun n) →
  rn_worker n = WBack o th → wrote o (rn_pk n) (rp_db p) (rp_db p') →
  tb_get (rp_db p').2 k = Some row → accounted d0 p' k row.
Proof.
  intros Hinv Hm Hi Hw Hwr Hrow.
  destruct (wrote_rows _ _ _ _ _ _ Hwr Hrow) as [[Hold Hne]|[-> [Hc|(res & previous & old & -> & Hold & ->)]]].
  - destruct (accounted_stays _ _ _ _ _ _ _ Hm (ro_rows _ _ Hinv _ _ Hold)) as [?|(j & m & [= <-] & Hj & [Hk _] & Ha)];
      [done|]. rewrite Hi in Hj. injection Hj as <-. destruct Hne as [?|?]; congruence.
  - by apply acc_closed.
  - destruct (run_stays _ _ _ _ _ _ Hm Hi) as (n' & Hi' & (Ea & Eq & Ek & Er & Hw') & _).
    destruct (Hw' _ _ Hw) as [th' Hth']. eapply acc_reported; eauto.
    destruct (ro_runs _ _ Hinv _ _ Hi) as [(row0 & Hrow0 & Hkey) _].
    rewrite Hold in Hrow0. injection Hrow0 as <-. rewrite Hkey. unfold run_key. by rewrite Ea, Eq, Er.
Qed.

Lemma statement_accounted d0 p p' i x x' k row :
  rows_inv d0 p → moves p (LStatement i) [] p' → moved p p' i x x' →
  statement_effect x (rp_db p) (rp_db p') x' →
  tb_get (rp_db p').2 k = Some row → accounted d0 p' k row.
Proof.
  intros Hinv Hm [Hi Hp] [_ Heff] Hrow.
  assert (Hold : tb_get (rp_db p).2 k = Some row →
    accounted d0 p' k row ∨ ∃ n, x = PRun n ∧ drives k n).
  { intros Ho. destruct (accounted_stays _ _ _ _ _ _ _ Hm (ro_rows _ _ Hinv _ _ Ho))
      as [?|(j & m & [= <-] & Hj & Hd & _)]; [by left|]. right. exists m. by rewrite Hi in Hj; injection Hj as ->. }
  destruct x as [a|n|th].
  - destruct (Heff _ _ Hrow) as [Ho|(n & -> & Hd & Ha)].
    + by destruct (Hold Ho) as [?|(n & [=] & _)].
    + eapply acc_driven; [done| |exact Hd]. rewrite Hp. apply list_lookup_insert_eq. by eapply lookup_lt_Some.
  - destruct Heff as (o & th & Hw & [Hd|Hwr] & Hwrote); [|by eapply wrote_accounted].
    rewrite Hd in Hrow. destruct (Hold Hrow) as [?|(m & [= <-] & Hk & [Hw'|[o' Hw']])]; [done| |];
      rewrite Hw in Hw'; [done|]. injection Hw' as -> Hth.
    eapply wrote_accounted; eauto. by rewrite Hd.
  - destruct (Heff _ _ Hrow) as [Ho|Hc]; [|by apply acc_closed].
    by destruct (Hold Ho) as [?|(n & [=] & _)].
Qed.

(** A step that leaves the tables alone. *)
Lemma same_db_accounted d0 p l e p' k row :
  rows_inv d0 p → moves p l e p' → rp_db p' = rp_db p → (∀ i, l ≠ LStatement i) →
  tb_get (rp_db p').2 k = Some row → accounted d0 p' k row.
Proof.
  intros Hinv Hm -> Hl Hrow.
  destruct (accounted_stays _ _ _ _ _ _ _ Hm (ro_rows _ _ Hinv _ _ Hrow)) as [?|(j & m & -> & _)]; [done|].
  by edestruct Hl.
Qed.

Lemma rows_inv_step d0 p l e p' : rows_inv d0 p → moves p l e p' → rows_inv d0 p'.
Proof.
  intros Hinv Hm. pose proof Hm as Hm0. pose proof (run_ok_stays d0 p l e p') as Hstay.
  assert (Hself : ∀ n, same_run n n) by (intros; split_and!; eauto).
  assert (Hrun : ∀ i n n', moved p p' i (PRun n) (PRun n') → (∀ j, l ≠ LStatement j) → rp_db p' = rp_db p →
    run_ok (rp_db p') n' → rows_inv d0 p').
  { intros i n n' Hj Hl Hd Hok. split.
    - intros j th Hj'. destruct (moved_lookup _ _ _ _ _ _ _ Hj Hj') as [[_ [=]]|[_ Hj0]].
      by eapply (ro_aside _ _ Hinv).
    - intros j m Hj'. destruct (moved_lookup _ _ _ _ _ _ _ Hj Hj') as [[_ [= ->]]|[_ Hj0]]; [done|]. eauto.
    - intros. by eapply same_db_accounted. }
  destruct Hm as [a o p' _ _ Hd Hp|i x x' p' Hj Hs _|i m c e l p' Hl Hj _ Hd _|i m o p' Hj Hw _ Hd _
    |i m p' Hj Hw Hd _].
  - split; [rewrite Hp; apply Hinv|rewrite Hp, Hd; apply Hinv|]. intros. by eapply same_db_accounted.
  - destruct (statement_effects _ _ _ _ Hs) as (Heff & Hth & Hrok).
    { intros th ->. eapply (ro_aside _ _ Hinv), Hj. }
    { intros n ->. eapply (ro_runs _ _ Hinv), Hj. }
    split; [| |intros; by eapply statement_accounted].
    + intros j th Hj'. destruct (moved_lookup _ _ _ _ _ _ _ Hj Hj') as [[_ <-]|[_ Hj0]]; [by apply Hth|].
      by eapply (ro_aside _ _ Hinv).
    + intros j n Hj'. destruct (moved_lookup _ _ _ _ _ _ _ Hj Hj') as [[_ <-]|[_ Hj0]]; [by apply Hrok|]. eauto.
  - eapply Hrun; [exact Hj|by destruct Hl as [-> | ->]|done|].
    eapply Hstay; [done|done|apply Hj|by split_and!; eauto|by left].
  - eapply Hrun; [exact Hj|done|done|].
    eapply Hstay; [done|done|apply Hj|split_and!; try done; by rewrite Hw|right; eauto].
  - eapply Hrun; [exact Hj|done|done|].
    eapply Hstay; [done|done|apply Hj|split_and!; try done; by rewrite Hw|right; eauto].
Qed.

(** The requests a composition starts with. *)
Definition requests_aside p : Prop := ∀ i th, rp_procs p !! i = Some (PThread th) → aside_request th.

Lemma rows_inv_run tokens mc mi p0 tr p :
  rp_start tokens mc mi p0 → requests_aside p0 → exec rp_step p0 tr p → rows_inv (rp_db p0) p.
Proof.
  intros [_ Hp] Hr Hex. refine (exec_invariant _ (rows_inv (rp_db p0)) _ _ _ _ Hex _).
  - intros p1 [l e] p2 Hinv Hstep%rp_step_moves. by eapply rows_inv_step.
  - split; [|by intros i n Hi; edestruct (no_runs p0)|by intros; apply acc_same].
    intros i th Hi. by eapply aside_guarded, Hr.
Qed.
End rows.
