(* ===== verification/ReleasesProps.v ===== *)
(** The properties of the composed release pipeline ([Releases]): it refines the
    sequential requests with a backend that answers what the gateway delivered, it
    records as reported only what the target's own agent reported, and no release
    is left active without a run. *)

From S2P Require Import Prelude Text Regex Dict Gateway GatewaySystem GatewayInv GatewayStreams.
From S2P Require Import GatewayJobs GatewayOrigin GatewayRuns GatewayProps Store Url Json Models Services.
From S2P Require Import Kubernetes KubernetesProps Releases ReleasesInv ReleasesRows.

Open Scope list_scope.
Open Scope nat_scope.

(** * Outcomes *)

Lemma correlated_request_raises random request e :
  correlated_request random request = Err e → ∃ m, e = ValueError m.
Proof.
  unfold correlated_request, inject_release_correlation.
  destruct (loads _) as [[]|]; cbn; intros [=]; eauto.
Qed.

Lemma last_result_elem frames kr : last_result frames = Some kr → FKubernetesResult kr ∈ frames.
Proof.
  induction frames as [|f fs IH] using rev_ind; [done|]. rewrite last_result_snoc, elem_of_app.
  destruct f; cbn; eauto. intros [= ->]. right. apply list_elem_of_here.
Qed.

Lemma run_outcome_ok o res : run_outcome o = Ok res → o = Ok res.
Proof. by destruct o as [|[]]. Qed.

Lemma run_outcome_raises o e :
  run_outcome o = Err e → (∃ m, e = RuntimeError m) ∨ (o = Err e ∧ ∀ m, e ≠ TimeoutError m ∧ e ≠ RuntimeError m).
Proof. destruct o as [|[]]; cbn; intros [= <-]; eauto; right; done. Qed.

Lemma collected_ok last res :
  collected last = Ok res → ∃ kr, last = Some kr ∧ rr_status res = kr_status kr ∧
    rr_helm_revision res = nonzero (kr_helm_revision kr).
Proof. destruct last as [kr|]; cbn; intros [= <-]. by exists kr. Qed.

Section props.
Context {TT TR : Type} `{HT : Table KubernetesTarget TT} `{HR : Table KubernetesRelease TR}.
Implicit Types (p : rpipeline TT TR) (n : run TT TR) (row : KubernetesRelease).

(** An answer comes from a Kubernetes result of the stream the run read to its end. *)
Lemma answered_ok tr s i agent stream a target request res :
  heard tr s i agent stream → kb_start (answered_by stream a) target request = Ok res →
  ∃ r kr, owned s agent r ∧ FKubernetesResult kr ∈ delivered r (gateway_trace tr) ∧
    rr_status res = kr_status kr ∧ rr_helm_revision res = nonzero (kr_helm_revision kr).
Proof.
  intros Hh. rewrite start_answered. destruct (correlated_request _ _) as [q|]; [|done]. cbn.
  intros Ho%run_outcome_ok. destruct Hh as [e He|r Hop Hr Hown]; [done|].
  destruct (collected_ok _ _ Ho) as (kr & Hlast%last_result_elem & ? & ?). by exists r, kr.
Qed.

(** The exceptions a start can raise. *)
Lemma answered_raises tr s i agent stream a target request e :
  heard tr s i agent stream → kb_start (answered_by stream a) target request = Err e →
  ∃ m, e = RuntimeError m ∨ e = ValueError m ∨ e = LookupError m.
Proof.
  intros Hh. rewrite start_answered. destruct (correlated_request _ _) as [q|e'] eqn:E; cbn.
  - intros [[m ->]|[Ho Hn]]%run_outcome_raises; [eauto|].
    destruct Hh as [e' He|r Hop Hr Hown]; cbn in Ho.
    + injection Ho as ->. destruct He as [m|m|m|m]; eauto. by destruct (Hn m).
    + destruct (last_result _); [done|]. injection Ho as <-. eauto.
  - intros [= <-]. destruct (correlated_request_raises _ _ _ E) as [m ->]. eauto.
Qed.

(** C5: the composition refines the sequential model: in every run, the tables and
    the request threads are those of some run of the same threads in which every
    [start_release] has a backend whose stream is what the gateway delivered to
    it, all of its generator's frames or nothing but an error; so whatever holds of
    [start_release], [cancel_release] and [register_target] under every
    interleaving holds with the gateway in the loop. *)
Theorem releases_refine_requests tokens mc mi p0 tr p :
  rp_start tokens mc mi p0 → exec rp_step p0 tr p →
  ∃ streams sched,
    exec pool_step (rp_db p0, threads_of streams (rp_procs p0)) sched
      (rp_db p, threads_of streams (rp_procs p)) ∧
    ∀ i n o th, rp_procs p !! i = Some (PRun n) → rn_worker n = WBack o th →
      o = kb_start (answered_by (streams i) (rn_args n)) (sa_target (rn_args n)) (rn_request n) ∧
      ((∃ e, streams i = ([], StreamRaises e)) ∨
       ∃ r, opened tr i r ∧ streams i = (delivered r (gateway_trace tr), StreamDone)).
Proof.
  intros Hs Hex. destruct (runs_explained _ _ _ _ _ (releases_inv_run _ _ _ _ _ _ Hs Hex)) as (f & Hf & Hh).
  destruct (exec_pool f _ _ _ Hex Hf) as [_ [sched Hpool]]. exists f, sched. split; [done|].
  intros i n o th Hi Hw. split; [by eapply Hf|].
  destruct (Hh _ _ _ _ Hi Hw) as [e He|r Ho Hr Hown]; [left|right]; eauto.
Qed.

Context `{!TableLaws KubernetesTarget TT} `{!TableLaws KubernetesRelease TR}.

Definition REPORTED : list string := ["succeeded"; "rolled_back"; "rollback_blocked"]%string.

(** C6: a release is recorded as succeeded or rolled back only on the word of its
    own agent: such a row is as it was before, or some run of this very target and
    image got a Kubernetes result that was received on an authenticated session of
    the target's agent, with that status and that revision. *)
Theorem reported_releases_come_from_agent tokens mc mi p0 tr p k row :
  rp_start tokens mc mi p0 → requests_aside p0 → exec rp_step p0 tr p →
  tb_get (rp_db p).2 k = Some row → rl_status row ∈ REPORTED →
  tb_get (rp_db p0).2 k = Some row ∨
  ∃ i n kr, rp_procs p !! i = Some (PRun n) ∧ rn_pk n = k ∧
    sent (gateway_trace tr) (rp_sys p) (run_agent n) (FKubernetesResult kr) ∧
    rl_status row = kr_status kr ∧ rl_helm_revision row = nonzero (kr_helm_revision kr) ∧
    rl_target row = sa_target_pk (rn_args n) ∧ rl_image row = rq_image (rn_request n).
Proof.
  intros Hs Hr Hex Hk Hst. pose proof (releases_inv_run _ _ _ _ _ _ Hs Hex) as Hinv.
  assert (Hreal : rl_status row ≠ "failed"%string ∧ rl_status row ≠ "cancelled"%string ∧ rl_active row = false).
  { clear -Hst. unfold rl_active. repeat (apply elem_of_cons in Hst as [->|Hst]; [done|]).
    by apply elem_of_nil in Hst. }
  destruct Hreal as (Hf & Hc & Ha).
  destruct (ro_rows _ _ (rows_inv_run _ _ _ _ _ _ Hs Hr Hex) _ _ Hk)
    as [?|[?|?]|i n Ha'|i n res th previous old Hi Hpk Hw -> Hkey]; [by left|done|done|congruence|right].
  destruct (ri_runs _ _ _ _ _ Hinv _ _ Hi) as [_ Hok]. unfold worker_ok in Hok. rewrite Hw in Hok.
  destruct Hok as (stream & Hh & Ho). symmetry in Ho.
  destruct (answered_ok _ _ _ _ _ _ _ _ _ Hh Ho) as (r & kr & (j & Hj & Hagent) & Hin & Es & Er).
  cbn in Hf |- *. rewrite Es in *. destruct (str_in (kr_status kr) K8S_TERMINAL) eqn:Et; [|done].
  exists i, n, kr. injection Hkey as Ht Himg _ _. split_and!; try done.
  destruct Hs as [Hs0 _].
  destruct (origin_run _ _ _ _ _ _ Hs0 (rp_run_gateway _ _ _ Hex) r (FKubernetesResult kr))
    as [(kind & jid & z & c & Hg)|(j' & Hj' & Hsent)]; [by right| |].
  - unfold failure_frame in Hg. destruct (String.eqb kind "kubernetes"); [|done]. injection Hg as ->. done.
  - rewrite Hj in Hj'. injection Hj' as <-. by rewrite <- Hagent.
Qed.

(** C8: no release is left behind: an active row is as it was before, or a run
    waits for the agent's answer for it, or is about to make the row inactive, or
    was refused with an exception [start_release] does not catch, which can only
    be a [ValueError] or a [LookupError]. *)
Theorem active_releases_are_driven tokens mc mi p0 tr p k row :
  rp_start tokens mc mi p0 → requests_aside p0 → exec rp_step p0 tr p →
  tb_get (rp_db p).2 k = Some row → rl_active row = true →
  tb_get (rp_db p0).2 k = Some row ∨
  ∃ i n, rp_procs p !! i = Some (PRun n) ∧ rn_pk n = k ∧
    (rn_worker n = WAwait ∨
     (∃ o w c, rn_worker n = WBack o (Stmt w c) ∧
        ∀ d row', tb_get (w d).2 k = Some row' → rl_active row' = false) ∨
     (∃ e m, rn_worker n = WBack (Err e) (Return (Err e)) ∧ (e = ValueError m ∨ e = LookupError m))).
Proof.
  intros Hs Hr Hex Hk Ha. pose proof (releases_inv_run _ _ _ _ _ _ Hs Hex) as Hinv.
  destruct (ro_rows _ _ (rows_inv_run _ _ _ _ _ _ Hs Hr Hex) _ _ Hk)
    as [?|Hc%closed_inactive|i n _ Hi [Hpk Hw]|i n res th previous old Hi Hpk Hw -> Hkey];
    [by left|congruence| |by rewrite result_inactive in Ha].
  right. exists i, n. split; [done|]. split; [done|]. destruct Hw as [?|[o Hw]]; [by left|right].
  destruct (ri_runs _ _ _ _ _ Hinv _ _ Hi) as [_ Hok]. unfold worker_ok in Hok. rewrite Hw in Hok.
  destruct Hok as (stream & Hh & Ho). symmetry in Ho. rewrite Hpk in Hw.
  destruct (record_outcome o k (rn_release n)) as [v|w c] eqn:Er.
  - right. destruct o as [res|e]; [done|].
    destruct (answered_raises _ _ _ _ _ _ _ _ _ Hh Ho) as [m [->|[->| ->]]]; [done|..];
      injection Er as <-; eauto 10.
  - left. exists o, w, c. split; [done|]. intros d row' Hrow'.
    destruct (outcome_statement _ _ _ _ _ d (eq_sym Er)) as [Hwr _].
    destruct (wrote_rows _ _ _ _ _ _ Hwr Hrow') as [[_ [?|?]]|[_ [Hcl|(res & prev & old & _ & _ & ->)]]];
      [done|done|by apply closed_inactive|apply result_inactive].
Qed.
End props.

(** * Concrete runs *)

Definition rl_hello : AgentFrame :=
  FHello (Hello "edge" 1 0 [DIAGNOSTIC_CAPABILITY; KUBERNETES_CAPABILITY] "secret").

Definition rl_args (uuid : string * string) : start_args :=
  mkStart k8s_checks 10 uuid "0f" 1 k8s_target 1 k8s_image k8s_values "0.1.0".

(** Two starts of the same release, and a cancellation the agent does not take. *)
Definition rl_demo : rpipeline (gtable KubernetesTarget) (gtable KubernetesRelease) :=
  mkReleases demo_start k8s_db
    [PStart (rl_args ("r-1", "aa")); PStart (rl_args ("r-2", "bb")); PThread (forget (cancel_release offline 1))].

Definition rl_state (ls : list label) : rpipeline (gtable KubernetesTarget) (gtable KubernetesRelease) :=
  from_option fst rl_demo (rp_exec ls rl_demo).
Definition rl_trace (ls : list label) : list (label * list (action * list obs)) :=
  from_option snd [] (rp_exec ls rl_demo).
Definition rl_row (ls : list label) : KubernetesRelease :=
  default k8s_ended (tb_get (rp_db (rl_state ls)).2 1).

Definition rl_connect : list label := [LGateway (AConnect 0 (Some rl_hello)); LGateway (AStart 0)].
Definition rl_answer : AgentFrame := FKubernetesResult (KResult "k8s-aa" 1 "succeeded" 4 3 "" "").

(** A release from the request to the recorded result. *)
Definition rl_release : list label :=
  rl_connect ++ [LStatement 0; LCollect 0; LCollect 0; LGateway (ARecv 1 0 rl_answer); LGateway (APut 0);
    LCollect 0; LCollect 0; LReturn 0; LStatement 0; LStatement 0].

(** The agent is not connected. *)
Definition rl_offline : list label := [LStatement 0; LCollect 0; LReturn 0].

(** While the first start waits for the agent, the cancellation makes the row
    recoverable and the second start retries it; the first run's answer comes last. *)
Definition rl_retry : list label :=
  rl_connect ++ [LStatement 0; LCollect 0; LCollect 0; LStatement 2; LStatement 2; LStatement 1; LCollect 1; LReturn 1].

Lemma rl_demo_start : rp_start demo_tokens 2 1 rl_demo.
Proof. split; [apply demo_started|done]. Qed.

Lemma rl_demo_requests : requests_aside rl_demo.
Proof.
  intros [|[|[|i]]] th Hi; try discriminate Hi. injection Hi as <-. apply ar_cancel.
Qed.

Lemma rl_run ls :
  bool_decide (is_Some (rp_exec ls rl_demo)) = true → exec rp_step rl_demo (rl_trace ls) (rl_state ls).
Proof.
  intros [[p tr] E]%bool_decide_eq_true. unfold rl_state, rl_trace. rewrite E. by eapply rp_exec_exec.
Qed.

Lemma rl_row_get ls :
  bool_decide (is_Some (tb_get (rp_db (rl_state ls)).2 1)) = true →
  tb_get (rp_db (rl_state ls)).2 1 = Some (rl_row ls).
Proof. intros [r E]%bool_decide_eq_true. unfold rl_row. by rewrite E. Qed.

Example release_is_recorded :
  rl_status (rl_row rl_release) = "succeeded"%string ∧ rl_helm_revision (rl_row rl_release) = Some 4%Z.
Proof. split; by vm_compute. Qed.

(** The retry is refused because the first stream still has the job id, and the
    caller gets an exception although the row is validating again. *)
Example retry_is_refused_while_first_waits :
  rl_status (rl_row rl_retry) = "validating"%string ∧
  (n ← the_run 1 (rl_state rl_retry);
   match rn_worker n with WBack o _ => Some o | WAwait => None end) =
    Some (Err (ValueError "job_id is already active")).
Proof. split; by vm_compute. Qed.

(** ** Witnesses *)

Lemma releases_refine_requests_witness :
  ∃ streams sched,
    exec pool_step (k8s_db, threads_of streams (rp_procs rl_demo)) sched
      (rp_db (rl_state rl_release), threads_of streams (rp_procs (rl_state rl_release))) ∧
    ∀ i n o th, rp_procs (rl_state rl_release) !! i = Some (PRun n) → rn_worker n = WBack o th →
      o = kb_start (answered_by (streams i) (rn_args n)) (sa_target (rn_args n)) (rn_request n) ∧
      ((∃ e, streams i = ([], StreamRaises e)) ∨
       ∃ r, opened (rl_trace rl_release) i r ∧
         streams i = (delivered r (gateway_trace (rl_trace rl_release)), StreamDone)).
Proof.
  apply (releases_refine_requests demo_tokens 2 1 rl_demo (rl_trace rl_release) (rl_state rl_release)).
  - apply rl_demo_start.
  - apply rl_run. by vm_compute.
Defined.

Lemma reported_releases_come_from_agent_witness :
  let ls := rl_release in
  tb_get k8s_db.2 1 = Some (rl_row ls) ∨
  ∃ i n kr, rp_procs (rl_state ls) !! i = Some (PRun n) ∧ rn_pk n = 1 ∧
    sent (gateway_trace (rl_trace ls)) (rp_sys (rl_state ls)) (run_agent n) (FKubernetesResult kr) ∧
    rl_status (rl_row ls) = kr_status kr ∧ rl_helm_revision (rl_row ls) = nonzero (kr_helm_revision kr) ∧
    rl_target (rl_row ls) = sa_target_pk (rn_args n) ∧ rl_image (rl_row ls) = rq_image (rn_request n).
Proof.
  intros ls.
  apply (reported_releases_come_from_agent demo_tokens 2 1 rl_demo (rl_trace ls) (rl_state ls) 1 (rl_row ls)).
  - apply rl_demo_start.
  - apply rl_demo_requests.
  - apply rl_run. by vm_compute.
  - apply rl_row_get. by vm_compute.
  - apply str_in_spec. by vm_compute.
Defined.

(** The agent is offline: the row is validating, and its run was refused. *)
Lemma active_releases_are_driven_witness :
  let ls := rl_offline in
  rl_status (rl_row ls) = "validating"%string ∧
  (tb_get k8s_db.2 1 = Some (rl_row ls) ∨
   ∃ i n, rp_procs (rl_state ls) !! i = Some (PRun n) ∧ rn_pk n = 1 ∧
    (rn_worker n = WAwait ∨
     (∃ o w c, rn_worker n = WBack o (Stmt w c) ∧
        ∀ d row', tb_get (w d).2 1 = Some row' → rl_active row' = false) ∨
     (∃ e m, rn_worker n = WBack (Err e) (Return (Err e)) ∧ (e = ValueError m ∨ e = LookupError m)))).
Proof.
  intros ls. split; [by vm_compute|].
  apply (active_releases_are_driven demo_tokens 2 1 rl_demo (rl_trace ls) (rl_state ls) 1 (rl_row ls)).
  - apply rl_demo_start.
  - apply rl_demo_requests.
  - apply rl_run. by vm_compute.
  - apply rl_row_get. by vm_compute.
  - by vm_compute.
Defined.
