(* ===== verification/ControlPlane.v ===== *)
(** The control plane as one system: the background tasks of
    [controlplane/services.py] ([Pipeline]) and the releases of
    [controlplane/kubernetes.py] ([Releases]) on one gateway
    ([controlplane/gateway.py]), under one event loop.

    A step is one piece of either side, or of the gateway.  The two sides meet only
    in the gateway: they compete for the sessions, the outgoing queues, the limit of
    jobs per agent and the job ids. *)

From S2P Require Import Prelude Text Regex Dict Gateway GatewaySystem Store Url Json Models Services Kubernetes.
From S2P Require Pipeline Releases.

Open Scope list_scope.
Open Scope nat_scope.

Section plane.
Context {TO TT TR : Type} `{Table DiagnosticOperation TO} `{Table KubernetesTarget TT} `{Table KubernetesRelease TR}.

(** The diagnosis side, with the gateway, and the tables and processes of the
    releases. *)
Record plane := mkPlane {
  cp_pipe : Pipeline.pipeline TO;
  cp_db : TT * TR;
  cp_procs : list (Releases.process TT TR)
}.

(** The release side, with the same gateway. *)
Definition releases_of (c : plane) : Releases.rpipeline TT TR :=
  Releases.mkReleases (Pipeline.pl_sys (cp_pipe c)) (cp_db c) (cp_procs c).

Inductive label :=
| CGateway (a : action)
| CDiagnosis (l : Pipeline.label)
| CRelease (l : Releases.label).

(** What a step did to the gateway, and the writes of the background tasks. *)
Abbreviation event := (list (action * list obs) * list (nat * Pipeline.write))%type.

(** A step of the release side, seen by the whole. *)
Definition with_releases (c : plane) (r : Releases.rpipeline TT TR) : plane :=
  mkPlane (Pipeline.set_sys (Releases.rp_sys r) (cp_pipe c)) (Releases.rp_db r) (Releases.rp_procs r).

Definition cp_run (l : label) (c : plane) : option (plane * event) :=
  match l with
  | CGateway a =>
      if Pipeline.foreign a (cp_pipe c) && Releases.foreign a (releases_of c)
      then '(s, o) ← sys_run a (Pipeline.pl_sys (cp_pipe c));
           Some (mkPlane (Pipeline.set_sys s (cp_pipe c)) (cp_db c) (cp_procs c), ([(a, o)], []))
      else None
  | CDiagnosis (Pipeline.LGateway _) | CRelease (Releases.LGateway _) => None
  | CDiagnosis l => '(p, e) ← Pipeline.pl_run l (cp_pipe c); Some (mkPlane p (cp_db c) (cp_procs c), e)
  | CRelease l => '(r, e) ← Releases.rp_run l (releases_of c); Some (with_releases c r, (e, []))
  end.

Definition cp_step (c : plane) (l : label * event) (c' : plane) : Prop := cp_run l.1 c = Some (c', l.2).

(** A fresh gateway, any tables, any requests. *)
Definition cp_start (tokens : gmap string string) (mc mi : Z) (ths : list (thread TO ())) (c : plane) : Prop :=
  Pipeline.pl_start tokens mc mi ths (cp_pipe c) ∧ Releases.rp_start tokens mc mi (releases_of c).

(** ** What each side sees *)

(** The steps of the gateway, one by one. *)
Definition seen_by_tasks (e : list (action * list obs)) : list (Pipeline.label * Pipeline.event) :=
  (λ l, (Pipeline.LGateway l.1, ([l], []))) <$> e.
Definition seen_by_releases (e : list (action * list obs)) : list (Releases.label * list (action * list obs)) :=
  (λ l, (Releases.LGateway l.1, [l])) <$> e.

(** A run as the background tasks see it: steps of the releases are steps of the
    gateway. *)
Definition diagnosis_trace (tr : list (label * event)) : list (Pipeline.label * Pipeline.event) :=
  flat_map (λ l, match l.1 with
                 | CDiagnosis l' => [(l', l.2)]
                 | CGateway _ | CRelease _ => seen_by_tasks l.2.1
                 end) tr.

(** A run as the releases see it. *)
Definition release_trace (tr : list (label * event)) : list (Releases.label * list (action * list obs)) :=
  flat_map (λ l, match l.1 with
                 | CRelease l' => [(l', l.2.1)]
                 | CGateway _ | CDiagnosis _ => seen_by_releases l.2.1
                 end) tr.

(** What happened at the gateway. *)
Definition shared_trace (tr : list (label * event)) : list (action * list obs) := flat_map (λ l, l.2.1) tr.

(** ** What is in flight *)

(** The agent and the job id of the stream a background task holds. *)
Definition task_work (kt : pk * Pipeline.task) : option (string * string) :=
  match kt.2 with
  | Pipeline.TWait op _ | Pipeline.TWrite op _ _ | Pipeline.TResume op _ _ =>
      Some (agent_id (op_agent op), op_public_id op)
  | _ => None
  end.

(** Those of the stream a release reads. *)
Definition release_work (x : Releases.process TT TR) : option (string * string) :=
  match x with
  | Releases.PRun n =>
      _ ← Releases.reads_from (Releases.rn_collector n);
      Some (Releases.run_agent n, rq_operation_id (Releases.rn_request n))
  | _ => None
  end.

Definition in_flight (c : plane) : list (string * string) :=
  omap task_work (Pipeline.pl_tasks (cp_pipe c)) ++ omap release_work (cp_procs c).

(** Running a list of labels, for concrete executions. *)
Fixpoint cp_exec (ls : list label) (c : plane) : option (plane * list (label * event)) :=
  match ls with
  | [] => Some (c, [])
  | l :: ls =>
      '(c1, e) ← cp_run l c;
      '(c2, tr) ← cp_exec ls c1;
      Some (c2, (l, e) :: tr)
  end.

Lemma cp_exec_exec ls c c' tr : cp_exec ls c = Some (c', tr) → exec cp_step c tr c'.
Proof.
  revert c c' tr. induction ls as [|l ls IH]; intros c c' tr; cbn.
  - intros [= <- <-]. constructor.
  - intros ([c1 e] & Hrun & ([c2 tr2] & Hex & [= <- <-])%bind_Some)%bind_Some.
    econstructor; [exact Hrun|eauto].
Qed.
End plane.
Arguments plane TO TT TR : clear implicits.
