(* ===== verification/ControlPlaneProps.v ===== *)
(** The properties of the control plane as one system ([ControlPlane]): what each
    side sees of a run is a run of that side alone beside an arbitrary gateway, so
    what is proved of each composition holds of the whole; and the two sides
    together keep the limits of the one gateway. *)

From S2P Require Import Prelude Text Regex Dict Gateway GatewaySystem GatewayInv GatewayStreams.
From S2P Require Import GatewayJobs GatewayOrigin GatewayRuns GatewayProps Store Url Json Models Services ServicesProps.
From S2P Require Import Kubernetes KubernetesProps ControlPlane.
From S2P Require Pipeline PipelineInv PipelineProps Releases ReleasesInv ReleasesRows ReleasesProps.

Open Scope list_scope.
Open Scope nat_scope.

Section props.
Context {TO TT TR : Type} `{HO : Table DiagnosticOperation TO} `{HT : Table KubernetesTarget TT}
  `{HR : Table KubernetesRelease TR}.
Context `{!TableLaws DiagnosticOperation TO}.
Implicit Types (c : plane TO TT TR) (p : Pipeline.pipeline TO) (r : Releases.rpipeline TT TR).

(** * Steps of the gateway, one by one *)

Lemma tasks_see p ls s :
  exec sys_step (Pipeline.pl_sys p) ls s →
  Forall (λ l, ∀ s', Pipeline.foreign l.1 (Pipeline.set_sys s' p) = true) ls →
  exec (Pipeline.pl_step (T := TO)) p (seen_by_tasks ls) (Pipeline.set_sys s p).
Proof.
  intros Hex. remember (Pipeline.pl_sys p) as s0 eqn:E. revert p E.
  induction Hex as [s0|s0 [a o] s1 ls s2 Hstep _ IH]; intros p -> Hf.
  - destruct p. constructor.
  - inversion Hf as [|? ? Ha Hf']; subst. econstructor.
    + unfold Pipeline.pl_step. cbn.
      pose proof (Ha (Pipeline.pl_sys p)) as Ha0.
      replace (Pipeline.set_sys (Pipeline.pl_sys p) p) with p in Ha0 by by destruct p.
      cbn in Ha0. rewrite Ha0. unfold Pipeline.gw_step. unfold sys_step in Hstep. cbn in Hstep.
      rewrite Hstep. cbn. reflexivity.
    + by apply (IH (Pipeline.set_sys s1 p)).
Qed.

Lemma releases_see r ls s :
  exec sys_step (Releases.rp_sys r) ls s →
  Forall (λ l, Releases.foreign l.1 r = true) ls →
  exec (Releases.rp_step (TT := TT) (TR := TR)) r (seen_by_releases ls)
    (Releases.mkReleases s (Releases.rp_db r) (Releases.rp_procs r)).
Proof.
  intros Hex. remember (Releases.rp_sys r) as s0 eqn:E. revert r E.
  induction Hex as [s0|s0 [a o] s1 ls s2 Hstep _ IH]; intros r -> Hf.
  - destruct r. constructor.
  - inversion Hf as [|? ? Ha Hf']; subst. cbn in Ha. econstructor.
    + unfold Releases.rp_step. cbn. rewrite Ha. unfold sys_step in Hstep. cbn in Hstep.
      rewrite Hstep. cbn. reflexivity.
    + apply (IH (Releases.mkReleases s1 (Releases.rp_db r) (Releases.rp_procs r))); [done|].
      exact Hf'.
Qed.

(** * Generators stay apart *)

(** No coroutine of a release reads the generator of a background task. *)
Definition apart c : Prop :=
  ∀ i k x j n g, Pipeline.pl_tasks (cp_pipe c) !! i = Some (k, x) → Pipeline.held_by x = Some g →
    cp_procs c !! j = Some (Releases.PRun n) → Releases.reads_from (Releases.rn_collector n) ≠ Some g.

(** A piece of a task drives the generator it holds, no other. *)
Lemma task_piece_calls p l e p' :
  Pipeline.pl_step p (l, e) p' → (∀ a, l ≠ Pipeline.LGateway a) →
  Forall (λ l, ∀ g, action_call l.1 = Some g → ∃ i k x,
    Pipeline.pl_tasks p !! i = Some (k, x) ∧ Pipeline.held_by x = Some g) e.1.
Proof.
  unfold Pipeline.pl_step. cbn. intros Hs Hl.
  destruct l as [a|i|k|i|i|i|n]; cbn in Hs; [by edestruct Hl|..].
  - apply bind_Some in Hs as ([t ths] & _ & Hs). destruct (Pipeline.keys_not_reused _ _ _); [|done].
    injection Hs as _ <-. constructor.
  - injection Hs as _ <-. constructor.
  - apply bind_Some in Hs as ([k x] & Hi & Hs).
    destruct (PipelineInv.task_run_hop _ _ _ _ _ _ Hi Hs) as (x' & Hh & _).
    eapply Forall_impl; [by eapply PipelineInv.hop_calls|]. cbn. eauto 10.
  - apply bind_Some in Hs as ([k x] & Hi & Hs).
    destruct (PipelineInv.timeout_run_hop _ _ _ _ _ _ _ Hs) as (x' & Hh & _).
    eapply Forall_impl; [by eapply PipelineInv.hop_calls|]. cbn. eauto 10.
  - apply bind_Some in Hs as ([k x] & Hi & Hs).
    destruct (PipelineInv.timeout_run_hop _ _ _ _ _ _ _ Hs) as (x' & Hh & _).
    eapply Forall_impl; [by eapply PipelineInv.hop_calls|]. cbn. eauto 10.
  - apply bind_Some in Hs as ([k f] & _ & [= _ <-]). constructor.
Qed.

(** A piece of a release opens a generator or drives the one it reads. *)
Lemma release_piece_calls (r r' : Releases.rpipeline TT TR) l e :
  ReleasesInv.moves r l e r' → (∀ a, l ≠ Releases.LGateway a) →
  Forall (λ l, (∃ agent q, l.1 = AKubernetes agent q) ∨ ∃ i n g, action_call l.1 = Some g ∧
    Releases.rp_procs r !! i = Some (Releases.PRun n) ∧
    Releases.reads_from (Releases.rn_collector n) = Some g) e.
Proof.
  intros Hm Hl.
  destruct Hm as [a o r' _ _ _ _|i x x' r' _ _ _|i n c e l r' _ [Hi _] Hc _ _|i n o r' _ _ _ _ _|i n r' _ _ _ _];
    [by edestruct Hl|constructor| |constructor|constructor].
  destruct Hc as [q a g s' Hc _ -> _|q a ex s' Hc -> _|g last j po s' o Hc _ _|g last j g' f s1 s' o Hc _ _ _ _
    |g last j g' f s' Hc _ _ _|g last s' o Hc _|g last j s' ex Hc _ _|Hc|g last a s' o [Hc|Hc] [->|[->| ->]] _];
    repeat apply Forall_cons_2; try apply Forall_nil_2;
    try (left; cbn; by eauto); right; exists i, n, g; by rewrite Hc.
Qed.

Lemma foreign_to_tasks a p :
  (∃ agent q, a = AKubernetes agent q) ∨
  (∃ g, action_call a = Some g ∧ ∀ i k x, Pipeline.pl_tasks p !! i = Some (k, x) → Pipeline.held_by x ≠ Some g) →
  ∀ s, Pipeline.foreign a (Pipeline.set_sys (T := TO) s p) = true.
Proof.
  intros [(agent & q & ->)|(g & Ha & Hg)] s; [done|].
  assert (Hall : forallb (λ kt : pk * Pipeline.task, negb (bool_decide (Pipeline.held_by kt.2 = Some g)))
    (Pipeline.pl_tasks p) = true).
  { apply forallb_forall. intros [k x] [i Hi]%list_elem_of_In%list_elem_of_lookup_1.
    apply negb_true_iff, bool_decide_eq_false. by eapply Hg. }
  destruct a; cbn in Ha |- *; try discriminate Ha; injection Ha as ->; exact Hall.
Qed.

Lemma foreign_to_releases a (r : Releases.rpipeline TT TR) :
  (∀ g i n, action_call a = Some g → Releases.rp_procs r !! i = Some (Releases.PRun n) →
     Releases.reads_from (Releases.rn_collector n) ≠ Some g) →
  Releases.foreign a r = true.
Proof.
  intros Hg. unfold Releases.foreign. destruct (action_call a) as [g|]; [|done].
  apply negb_true_iff, not_true_iff_false. rewrite existsb_exists.
  intros ([|n|] & [i Hi]%list_elem_of_In%list_elem_of_lookup_1 & Hx); try discriminate Hx.
  apply bool_decide_eq_true in Hx. by eapply Hg.
Qed.

(** * Both sides of a run *)

Record sides c0 tr c : Prop := {
  sd_tasks : exec Pipeline.pl_step (cp_pipe c0) (diagnosis_trace tr) (cp_pipe c);
  sd_releases : exec Releases.rp_step (releases_of c0) (release_trace tr) (releases_of c);
  sd_apart : apart c
}.

Section step.
Context (tokens : gmap string string) (mc mi : Z) (ths : list (thread TO ())) (c0 c c' : plane TO TT TR)
  (tr : list (label * (list (action * list obs) * list (nat * Pipeline.write)))).
Hypothesis (Hs : cp_start tokens mc mi ths c0) (Hsides : sides c0 tr c).

Let p := cp_pipe c.
Let s := Pipeline.pl_sys p.

Lemma task_generator i k x g :
  Pipeline.pl_tasks p !! i = Some (k, x) → Pipeline.held_by x = Some g → is_Some (sys_calls s !! g).
Proof.
  intros Hi Hg. destruct Hs as [Hp _].
  pose proof (PipelineInv.writes_inv_run _ _ _ _ _ _ _ Hp (sd_tasks _ _ _ Hsides)) as Hinv.
  eapply PipelineInv.held_call; [by eapply (PipelineInv.wi_tasks _ _ _ _ _ Hinv)|done].
Qed.

Lemma release_generator j n g :
  cp_procs c !! j = Some (Releases.PRun n) → Releases.reads_from (Releases.rn_collector n) = Some g →
  is_Some (sys_calls s !! g).
Proof.
  intros Hj Hg. destruct Hs as [_ Hr].
  pose proof (ReleasesInv.releases_inv_run _ _ _ _ _ _ Hr (sd_releases _ _ _ Hsides)) as Hinv.
  by eapply (ReleasesInv.reading_call _ _ _ _ (releases_of c)).
Qed.

Lemma next_generator : sys_calls s !! gw_next_ref (sys_gw s) = None.
Proof.
  destruct Hs as [Hp _].
  pose proof (PipelineInv.writes_inv_run _ _ _ _ _ _ _ Hp (sd_tasks _ _ _ Hsides)) as Hinv.
  by apply (live_fresh _ _ _ _ (PipelineInv.wi_live _ _ _ _ _ Hinv)).
Qed.

(** A piece of a background task. *)
Lemma diagnosis_step l p' e :
  Pipeline.pl_step p (l, e) p' → (∀ a, l ≠ Pipeline.LGateway a) →
  let c' := mkPlane p' (cp_db c) (cp_procs c) in
  exec Releases.rp_step (releases_of c) (seen_by_releases e.1) (releases_of c') ∧ apart c'.
Proof.
  intros Hstep Hl. split.
  - pose proof (PipelineInv.pl_step_exec _ _ _ _ Hstep) as Hex.
    apply (releases_see (releases_of c) _ _ Hex).
    eapply Forall_impl; [by eapply task_piece_calls|]. intros a Ha. apply foreign_to_releases.
    intros g j n Hg Hj. destruct (Ha g Hg) as (i & k & x & Hi & Hx). by eapply (sd_apart _ _ _ Hsides).
  - intros i k x j n g Hi Hx Hj Hn. cbn in Hi, Hj.
    destruct (release_generator _ _ _ Hj Hn) as [call Hcall].
    destruct (PipelineInv.pl_step_cases _ _ _ _ Hstep) as [(i' & k' & y & y' & Hi' & Hh & [Hk _ _])|Hq].
    + rewrite Hk in Hi. destruct (decide (i = i')) as [->|Hne].
      * rewrite list_lookup_insert_eq in Hi by (by eapply lookup_lt_Some). injection Hi as <- <-.
        destruct (PipelineInv.hop_held _ _ _ _ _ _ _ _ next_generator Hh Hx) as [Hy|Hnone];
          [by eapply (sd_apart _ _ _ Hsides)|]. unfold s in Hcall. by rewrite Hnone in Hcall.
      * rewrite list_lookup_insert_ne in Hi by done. by apply (sd_apart _ _ _ Hsides i k x j n g).
    + destruct (PipelineInv.qt_tasks _ _ _ Hq) as [Hk|[k' Hk]]; rewrite Hk in Hi;
        [by apply (sd_apart _ _ _ Hsides i k x j n g)|].
      apply lookup_app_Some in Hi as [Hi|[_ [_ [= _ <-]]%list_lookup_singleton_Some]]; [|done].
      by apply (sd_apart _ _ _ Hsides i k x j n g).
Qed.

(** A piece of a release. *)
Lemma release_step_sides l r' e :
  Releases.rp_step (releases_of c) (l, e) r' → (∀ a, l ≠ Releases.LGateway a) →
  exec Pipeline.pl_step p (seen_by_tasks e) (cp_pipe (with_releases c r')) ∧ apart (with_releases c r').
Proof.
  intros Hm%ReleasesInv.rp_step_moves Hl. split.
  - pose proof (ReleasesInv.moves_exec _ _ _ _ Hm) as Hex.
    apply (tasks_see p _ _ Hex).
    eapply Forall_impl; [by eapply release_piece_calls|]. intros a Ha. apply foreign_to_tasks.
    destruct Ha as [?|(j & n & g & Hg & Hj & Hn)]; [by left|right]. exists g. split; [done|].
    intros i k x Hi Hx. by eapply (sd_apart _ _ _ Hsides).
  - intros i k x j n g Hi Hx Hj Hn. cbn in Hi, Hj.
    destruct (task_generator _ _ _ _ Hi Hx) as [call Hcall].
    destruct (ReleasesInv.reads_before _ _ _ _ _ _ _ Hm Hj Hn) as [(m & Hj' & Hm')|[-> _]].
    + by eapply (sd_apart _ _ _ Hsides).
    + pose proof next_generator as Hnone. unfold s, p in *. cbn in Hcall. by rewrite Hnone in Hcall.
Qed.
End step.

Lemma diagnosis_trace_snoc (tr : list (label * (list (action * list obs) * list (nat * Pipeline.write)))) l e :
  diagnosis_trace (tr ++ [(l, e)]) = diagnosis_trace tr ++ diagnosis_trace [(l, e)].
Proof. unfold diagnosis_trace. by rewrite flat_map_app. Qed.

Lemma release_trace_snoc (tr : list (label * (list (action * list obs) * list (nat * Pipeline.write)))) l e :
  release_trace (tr ++ [(l, e)]) = release_trace tr ++ release_trace [(l, e)].
Proof. unfold release_trace. by rewrite flat_map_app. Qed.

(** One step, seen by both sides. *)
Lemma sides_step tokens mc mi ths c0 tr c l e c' :
  cp_start tokens mc mi ths c0 → sides c0 tr c → cp_step c (l, e) c' →
  exec Pipeline.pl_step (cp_pipe c) (diagnosis_trace [(l, e)]) (cp_pipe c') ∧
  exec Releases.rp_step (releases_of c) (release_trace [(l, e)]) (releases_of c') ∧ apart c'.
Proof.
  intros Hs Hsides Hstep. unfold cp_step in Hstep. cbn in Hstep. destruct l as [a|l|l].
  - cbn in Hstep. destruct (Pipeline.foreign _ _) eqn:Hf; [|discriminate Hstep].
    destruct (Releases.foreign _ _) eqn:Hg; [|discriminate Hstep].
    apply bind_Some in Hstep as ([s o] & Hr & [= <- <-]). cbn. split_and!.
    + apply exec_one. unfold Pipeline.pl_step. cbn. rewrite Hf. unfold Pipeline.gw_step. by rewrite Hr.
    + apply exec_one. unfold Releases.rp_step. cbn. rewrite Hg. by rewrite Hr.
    + apply (sd_apart _ _ _ Hsides).
  - assert (Hl : ∀ a, l ≠ Pipeline.LGateway a) by (by destruct l).
    assert (Hrun : ('(p, e) ← Pipeline.pl_run l (cp_pipe c); Some (mkPlane p (cp_db c) (cp_procs c), e)) =
      Some (c', e)) by (by destruct l).
    apply bind_Some in Hrun as ([p' e'] & Hr & [= <- <-]).
    destruct (diagnosis_step _ _ _ _ _ _ _ Hs Hsides _ _ _ Hr Hl) as [Hrel Hap].
    unfold diagnosis_trace, release_trace. cbn. rewrite !app_nil_r. split_and!; [by apply exec_one|done..].
  - assert (Hl : ∀ a, l ≠ Releases.LGateway a) by (by destruct l).
    assert (Hrun : ('(r, e) ← Releases.rp_run l (releases_of c); Some (with_releases c r, (e, []))) =
      Some (c', e)) by (by destruct l).
    apply bind_Some in Hrun as ([r' e'] & Hr & [= <- <-]).
    destruct (release_step_sides _ _ _ _ _ _ _ Hs Hsides _ _ _ Hr Hl) as [Hp Hap].
    unfold diagnosis_trace, release_trace. cbn. rewrite !app_nil_r. split_and!; [done| |done].
    apply exec_one. by destruct r'.
Qed.

Lemma sides_run tokens mc mi ths c0 tr c :
  cp_start tokens mc mi ths c0 → exec cp_step c0 tr c → sides c0 tr c.
Proof.
  intros Hs. revert tr c. apply exec_ind_r.
  - split; [constructor..|]. destruct Hs as [(_ & _ & Ht & _) _]. intros i k x j n g.
    by rewrite Ht, lookup_nil.
  - intros tr c [l e] c' Hex Hsides Hstep.
    destruct (sides_step _ _ _ _ _ _ _ _ _ _ Hs Hsides Hstep) as (Hp & Hr & Hap).
    split; [| |done].
    + rewrite diagnosis_trace_snoc. eapply exec_app; [by apply Hsides|exact Hp].
    + rewrite release_trace_snoc. eapply exec_app; [by apply Hsides|exact Hr].
Qed.

(** Both sides see the same gateway. *)
Lemma tasks_see_trace e : Pipeline.gateway_trace (seen_by_tasks e) = e.
Proof. induction e as [|l e IH]; [done|]. cbn. f_equal. exact IH. Qed.

Lemma releases_see_trace e : Releases.gateway_trace (seen_by_releases e) = e.
Proof. induction e as [|l e IH]; [done|]. cbn. f_equal. exact IH. Qed.

Lemma same_gateway (tr : list (label * (list (action * list obs) * list (nat * Pipeline.write)))) :
  Pipeline.gateway_trace (diagnosis_trace tr) = shared_trace tr ∧
  Releases.gateway_trace (release_trace tr) = shared_trace tr.
Proof.
  induction tr as [|[l [e ws]] tr [IH1 IH2]]; [done|].
  change (shared_trace _) with (e ++ shared_trace tr). rewrite <- IH1 at 1. rewrite <- IH2.
  assert (Ht : ∀ l', Pipeline.gateway_trace (seen_by_tasks e ++ l') = e ++ Pipeline.gateway_trace l')
    by (intros l'; unfold Pipeline.gateway_trace at 1; rewrite flat_map_app; f_equal; apply tasks_see_trace).
  assert (Hr : ∀ l', Releases.gateway_trace (seen_by_releases e ++ l') = e ++ Releases.gateway_trace l')
    by (intros l'; unfold Releases.gateway_trace at 1; rewrite flat_map_app; f_equal; apply releases_see_trace).
  destruct l; split; first [apply Ht|apply Hr|done].
Qed.

(** Diagnoses and releases on one gateway do not disturb each other: every run
    of the control plane is, seen by the background tasks, a run of the tasks
    alone, and, seen by the releases, a run of the releases alone, in which the
    other side's pieces are steps of the gateway that leave their generators
    alone, with one history of the gateway; so all that is proved of either side
    under arbitrary gateway activity holds when both run. *)
Theorem sides_are_independent tokens mc mi ths c0 tr c :
  cp_start tokens mc mi ths c0 → exec cp_step c0 tr c →
  exec Pipeline.pl_step (cp_pipe c0) (diagnosis_trace tr) (cp_pipe c) ∧
  exec Releases.rp_step (releases_of c0) (release_trace tr) (releases_of c) ∧
  Pipeline.gateway_trace (diagnosis_trace tr) = shared_trace tr ∧
  Releases.gateway_trace (release_trace tr) = shared_trace tr.
Proof. intros Hs Hex. destruct (sides_run _ _ _ _ _ _ _ Hs Hex). split_and!; try done; apply same_gateway. Qed.
(** * What both sides hold at the gateway *)

(** Generator [g] has the entry of job [w.2], a job of agent [w.1]. *)
Definition has_slot (g : AgentGateway) (w : string * string) (r : ref) : Prop :=
  dict_get (gw_jobs g) w.2 = Some r ∧ agent_at g r = Some w.1.

Lemma has_slot_unique g (w w' : string * string) (r r' : ref) : has_slot g w r → has_slot g w' r' → w.2 = w'.2 → r = r'.
Proof. intros [H _] [H' _] E. rewrite E in H. congruence. Qed.

Section slots.
Context (tokens : gmap string string) (mc mi : Z) (ths : list (thread TO ())) (c0 c : plane TO TT TR)
  (tr : list (label * (list (action * list obs) * list (nat * Pipeline.write)))).
Hypothesis (Hs : cp_start tokens mc mi ths c0) (Hex : exec cp_step c0 tr c).

Let g := sys_gw (Pipeline.pl_sys (cp_pipe c)).

Lemma both_sides : sides c0 tr c.
Proof. by eapply sides_run. Qed.

Lemma plane_live : live_system tokens mc mi (Pipeline.pl_sys (cp_pipe c)).
Proof.
  destruct Hs as [Hp _]. apply (PipelineInv.wi_live _ _ _ _ _
    (PipelineInv.writes_inv_run _ _ _ _ _ _ _ Hp (sd_tasks _ _ _ both_sides))).
Qed.

Lemma entry_of (r : ref) k j :
  sys_calls (Pipeline.pl_sys (cp_pipe c)) !! r = Some k → call_job k = Some j → dict_get (gw_jobs g) j = Some r.
Proof.
  destruct plane_live as (s0 & ls & Hs0 & Hls). destruct (jobs_run _ _ _ _ _ _ Hs0 Hls) as [Hown _]. apply Hown.
Qed.

Lemma task_slot i kt w :
  Pipeline.pl_tasks (cp_pipe c) !! i = Some kt → task_work kt = Some w →
  ∃ r : ref, Pipeline.held_by kt.2 = Some r ∧ has_slot g w r.
Proof.
  destruct kt as [k x]. intros Hi Hw. destruct Hs as [Hp _].
  pose proof (PipelineInv.writes_inv_run _ _ _ _ _ _ _ Hp (sd_tasks _ _ _ both_sides)) as Hinv.
  pose proof (PipelineInv.wi_tasks _ _ _ _ _ Hinv _ _ _ Hi) as Hok.
  pose proof (PipelineProps.agents_run _ _ _ _ _ _ _ Hp (sd_tasks _ _ _ both_sides) _ _ _ Hi) as Ha.
  destruct x as [| | |op r|op r f|op r f| | |]; try discriminate Hw; injection Hw as <-; exists r;
    (split; [done|]); destruct (PipelineInv.held_job _ _ _ _ r Hok) as (call & Hc & Hj); try done;
    (split; [by eapply entry_of|]); destruct Ha as (j & Hj' & Ha); unfold agent_at, g; rewrite Hj';
    cbn; by rewrite Ha.
Qed.

Lemma release_slot i x w :
  cp_procs c !! i = Some x → release_work x = Some w →
  ∃ n (r : ref), x = Releases.PRun n ∧ Releases.reads_from (Releases.rn_collector n) = Some r ∧ has_slot g w r.
Proof.
  intros Hi Hw. destruct x as [|n|]; try discriminate Hw. cbn in Hw.
  apply bind_Some in Hw as (r & Hr & [= <-]). exists n, r. split_and!; [done..|].
  destruct Hs as [_ Hrel].
  pose proof (ReleasesInv.releases_inv_run _ _ _ _ _ _ Hrel (sd_releases _ _ _ both_sides)) as Hinv.
  destruct (ReleasesInv.ri_runs _ _ _ _ _ Hinv i n Hi) as [Hok _].
  unfold ReleasesInv.collector_ok in Hok. cbn [releases_of Releases.rp_sys] in Hok.
  assert (ReleasesInv.owned (Pipeline.pl_sys (cp_pipe c)) (Releases.run_agent n) r ∧ ∃ k,
    sys_calls (Pipeline.pl_sys (cp_pipe c)) !! r = Some k ∧
    call_job k = Some (rq_operation_id (Releases.rn_request n))) as ((j & Hj & Ha) & k & Hk & Hkj).
  { destruct (Releases.rn_collector n); simplify_eq/=; destruct Hok as (_ & _ & ? & Hk); [done|eauto]. }
  split; [by eapply entry_of|]. unfold agent_at, g. rewrite Hj. cbn. by rewrite Ha.
Qed.

Lemma in_flight_slot w : w ∈ in_flight c → ∃ r : ref, has_slot g w r.
Proof.
  unfold in_flight. rewrite elem_of_app, !list_elem_of_omap. intros [(kt & Hin & Hw)|(x & Hin & Hw)];
    apply list_elem_of_lookup in Hin as [i Hi].
  - destruct (task_slot _ _ _ Hi Hw) as (r & _ & ?). eauto.
  - destruct (release_slot _ _ _ Hi Hw) as (n & r & _ & _ & ?). eauto.
Qed.

Lemma in_flight_nodup : NoDup (in_flight c).*2.
Proof.
  unfold in_flight. rewrite fmap_app. apply NoDup_app. split_and!.
  - apply NoDup_omap_snd. intros i i' x x' w w' Hi Hi' Hw Hw' E.
    destruct (task_slot _ _ _ Hi Hw) as (r & Hr & Hslot), (task_slot _ _ _ Hi' Hw') as (r' & Hr' & Hslot').
    rewrite (has_slot_unique _ _ _ _ _ Hslot Hslot' E) in Hr. destruct x as [k x], x' as [k' x'], Hs as [Hp _].
    by eapply (PipelineInv.wi_apart _ _ _ _ _ (PipelineInv.writes_inv_run _ _ _ _ _ _ _ Hp (sd_tasks _ _ _ both_sides))).
  - intros id. rewrite !list_elem_of_fmap. intros (w & -> & Hin) (w' & E & Hin').
    apply list_elem_of_omap in Hin as ([k x] & [i Hi]%list_elem_of_lookup & Hw).
    apply list_elem_of_omap in Hin' as (y & [j Hj]%list_elem_of_lookup & Hw').
    destruct (task_slot _ _ _ Hi Hw) as (r & Hr & Hslot), (release_slot _ _ _ Hj Hw') as (n & r' & -> & Hr' & Hslot').
    rewrite (has_slot_unique _ _ _ _ _ Hslot Hslot' E) in Hr. by eapply (sd_apart _ _ _ both_sides).
  - apply NoDup_omap_snd. intros i i' x x' w w' Hi Hi' Hw Hw' E.
    destruct (release_slot _ _ _ Hi Hw) as (n & r & -> & Hr & Hslot), (release_slot _ _ _ Hi' Hw') as (n' & r' & -> & Hr' & Hslot').
    rewrite (has_slot_unique _ _ _ _ _ Hslot Hslot' E) in Hr. destruct Hs as [_ Hrel].
    by eapply (ReleasesInv.ri_apart _ _ _ _ _ (ReleasesInv.releases_inv_run _ _ _ _ _ _ Hrel (sd_releases _ _ _ both_sides))).
Qed.

(** The ids of one agent's streams in flight are among its entries. *)
Lemma in_flight_entries a : length (filter (λ w, w.1 = a) (in_flight c)) ≤ inflight a g.
Proof.
  rewrite <- (length_fmap snd). unfold inflight. rewrite <- (length_fmap fst (filter _ (gw_jobs g))).
  apply submseteq_length, NoDup_submseteq.
  - eapply sublist_NoDup; [apply in_flight_nodup|]. apply fmap_sublist, sublist_filter.
  - intros id. rewrite list_elem_of_fmap. intros (w & -> & [<- Hin]%list_elem_of_filter).
    destruct (in_flight_slot _ Hin) as (r & Hd & Ha). apply list_elem_of_fmap. exists (w.2, r).
    split; [done|]. apply list_elem_of_filter. split; [exact Ha|by apply dict_get_Some_elem].
Qed.
End slots.

(** C9: diagnoses and releases share the limits of the one gateway: in every
    reachable state of the control plane, the background tasks and the releases
    together hold at most [max_inflight_per_agent] streams of any one agent, no two
    of them, of either kind, work under the same job id, each of those ids is a
    valid one, and the gateway has it in its table, for that agent. *)
Theorem sides_share_limits tokens mc mi ths c0 tr c :
  cp_start tokens mc mi ths c0 → exec cp_step c0 tr c →
  (∀ a, length (filter (λ w, w.1 = a) (in_flight c)) ≤ Z.to_nat mi) ∧
  NoDup (in_flight c).*2 ∧
  ∀ a id, (a, id) ∈ in_flight c → fullmatch ID_RE id = true ∧
    ∃ (r : ref) j, dict_get (gw_jobs (sys_gw (Pipeline.pl_sys (cp_pipe c)))) id = Some r ∧
      gw_job_objs (sys_gw (Pipeline.pl_sys (cp_pipe c))) !! r = Some j ∧ js_agent_id j = a.
Proof.
  intros Hs Hex. destruct (gw_inv_reachable _ _ _ _ (plane_live _ _ _ _ _ _ _ Hs Hex)) as [_ Hj _ _ _ Hmi].
  split_and!; [|by eapply in_flight_nodup|].
  - intros a. etrans; [by eapply in_flight_entries|]. rewrite <- Hmi. apply Hj.
  - intros a id Hin. destruct (in_flight_slot _ _ _ _ _ _ _ Hs Hex _ Hin) as (r & Hd & Ha).
    split; [by eapply (jw_ids _ Hj), dict_get_Some_elem|].
    apply fmap_Some in Ha as (j & Hr & Ha). exists r, j. done.
Qed.
End props.

(** * A concrete run *)

Definition cp_system : system := demo_system demo_tokens 2 2.

(** A pending diagnosis, and a release, of the same agent. *)
Definition cp_demo : plane (gtable DiagnosticOperation) (gtable KubernetesTarget) (gtable KubernetesRelease) :=
  mkPlane (Pipeline.mkPipeline cp_system (demo_table "pending") [] [] []) k8s_db
    [Releases.PStart (ReleasesProps.rl_args ("r-1", "aa"))].

(** Both are in flight; the agent answers the release first. *)
Definition cp_labels : list label :=
  [CGateway (AConnect 0 (Some ReleasesProps.rl_hello)); CGateway (AStart 0);
   CDiagnosis (Pipeline.LSpawn 1); CDiagnosis (Pipeline.LTask 0); CDiagnosis (Pipeline.LTask 0);
   CRelease (Releases.LStatement 0); CRelease (Releases.LCollect 0);
   CDiagnosis (Pipeline.LTask 0); CDiagnosis (Pipeline.LTask 0); CRelease (Releases.LCollect 0);
   CGateway (ARecv 1 0 ReleasesProps.rl_answer); CGateway (APut 0); CRelease (Releases.LCollect 0);
   CRelease (Releases.LCollect 0); CGateway (ARecv 2 0 (FResult (DResult "op-1" 1 "succeeded" []))); CGateway (APut 0);
   CDiagnosis (Pipeline.LTask 0); CDiagnosis (Pipeline.LTask 0); CDiagnosis (Pipeline.LTask 0);
   CRelease (Releases.LReturn 0); CRelease (Releases.LStatement 0)].

Definition cp_state : plane (gtable DiagnosticOperation) (gtable KubernetesTarget) (gtable KubernetesRelease) :=
  from_option fst cp_demo (cp_exec cp_labels cp_demo).
Definition cp_trace : list (label * (list (action * list obs) * list (nat * Pipeline.write))) :=
  from_option snd [] (cp_exec cp_labels cp_demo).

Lemma cp_demo_start : cp_start demo_tokens 2 2 [] cp_demo.
Proof.
  assert (Hs : sys_start demo_tokens 2 2 cp_system) by (eexists; by vm_compute).
  split; [by split_and!|by split].
Qed.

Lemma cp_demo_run ls :
  bool_decide (is_Some (cp_exec ls cp_demo)) = true →
  exec cp_step cp_demo (from_option snd [] (cp_exec ls cp_demo)) (from_option fst cp_demo (cp_exec ls cp_demo)).
Proof. intros [[c tr] E]%bool_decide_eq_true. rewrite E. by eapply cp_exec_exec. Qed.

Example both_sides_succeed :
  (op_status <$> tb_get (Pipeline.pl_table (cp_pipe cp_state)) 1) = Some "succeeded"%string ∧
  (rl_status <$> tb_get (cp_db cp_state).2 1) = Some "succeeded"%string.
Proof. split; by vm_compute. Qed.

(** Both are in flight, at the limit: one more is refused. *)
Definition cp_busy : plane (gtable DiagnosticOperation) (gtable KubernetesTarget) (gtable KubernetesRelease) :=
  from_option fst cp_demo (cp_exec (take 9 cp_labels) cp_demo).

Lemma sides_share_limits_witness :
  in_flight cp_busy = [("edge", "op-1"); ("edge", "k8s-aa")]%string ∧
  is_ok (open_job "edge" "job-3" "diagnostic" false (sys_gw (Pipeline.pl_sys (cp_pipe cp_busy)))) = false ∧
  (∀ a, length (filter (λ w, w.1 = a) (in_flight cp_busy)) ≤ Z.to_nat 2) ∧
  NoDup (in_flight cp_busy).*2 ∧
  ∀ a id, (a, id) ∈ in_flight cp_busy → fullmatch ID_RE id = true ∧
    ∃ r j, dict_get (gw_jobs (sys_gw (Pipeline.pl_sys (cp_pipe cp_busy)))) id = Some r ∧
      gw_job_objs (sys_gw (Pipeline.pl_sys (cp_pipe cp_busy))) !! r = Some j ∧ js_agent_id j = a.
Proof.
  split; [by vm_compute|]. split; [by vm_compute|].
  eapply (sides_share_limits demo_tokens 2 2 []); [exact cp_demo_start|].
  apply (cp_demo_run (take 9 cp_labels)). by vm_compute.
Defined.
