(* ===== verification/Shell.v ===== *)
(** [shlex.quote], and the part of the POSIX shell the commands built with it are
    read back with.

    [shell_commands] splits a command line into simple commands and words: blanks
    separate words, [;] and [&] separate commands, single and double quotes are
    removed.  It gives up ([None]) on everything that would make the shell do
    more: expansions, pipes, redirections, globs, backslashes, comments. *)

From S2P Require Import Prelude Text Regex.

Open Scope string_scope.
Open Scope list_scope.
Open Scope nat_scope.

(** * Quoting *)

Definition squote : ascii := char 39.

(** [[\w@%+=:,./-]] with [re.ASCII]. *)
Definition is_safe (c : ascii) : bool := is_alnum c || char_in c "_@%+=:,./-".

(** The single quote, escaped inside single quotes. *)
Definition escaped_squote : string :=
  String squote (dquote +:+ String squote (dquote +:+ String squote "")).

Definition quote (s : string) : string :=
  if String.eqb s "" then String squote (String squote "")
  else if str_forallb is_safe s then s
  else String squote (replace_char squote escaped_squote s +:+ String squote "").

(** * Reading *)

Inductive quoting := Unquoted | Single | Double.

(** The commands read so far and the words of the current one, newest first; the
    word in progress. *)
Record lexer := mkLexer {
  lx_commands : list (list string);
  lx_words : list string;
  lx_word : option string;
  lx_mode : quoting
}.

Definition push (c : ascii) (mode : quoting) (l : lexer) : lexer :=
  mkLexer (lx_commands l) (lx_words l) (Some (default "" (lx_word l) +:+ String c "")) mode.
Definition open_quote (mode : quoting) (l : lexer) : lexer :=
  mkLexer (lx_commands l) (lx_words l) (Some (default "" (lx_word l))) mode.
Definition end_word (l : lexer) : lexer :=
  match lx_word l with
  | Some w => mkLexer (lx_commands l) (w :: lx_words l) None Unquoted
  | None => l
  end.
Definition end_command (l : lexer) : lexer :=
  let l := end_word l in
  match lx_words l with
  | [] => l
  | ws => mkLexer (rev ws :: lx_commands l) [] None Unquoted
  end.

(** Characters that mean themselves outside quotes. *)
Definition is_plain (c : ascii) : bool := is_safe c || char_in c "{}".

Definition lex_char (l : lexer) (c : ascii) : option lexer :=
  match lx_mode l with
  | Unquoted =>
      if Ascii.eqb c " " then Some (end_word l)
      else if Ascii.eqb c ";" || Ascii.eqb c "&" then Some (end_command l)
      else if Ascii.eqb c squote then Some (open_quote Single l)
      else if Ascii.eqb c (char 34) then Some (open_quote Double l)
      else if is_plain c then Some (push c Unquoted l)
      else None
  | Single =>
      Some (if Ascii.eqb c squote then open_quote Unquoted l else push c Single l)
  | Double =>
      if Ascii.eqb c (char 34) then Some (open_quote Unquoted l)
      else if char_in c "$`\" then None
      else Some (push c Double l)
  end.

Fixpoint lex (l : lexer) (s : string) : option lexer :=
  match s with
  | EmptyString => Some l
  | String c rest => l ← lex_char l c; lex l rest
  end.

Definition shell_commands (s : string) : option (list (list string)) :=
  l ← lex (mkLexer [] [] None Unquoted) s;
  match lx_mode l with
  | Unquoted => Some (rev (lx_commands (end_command l)))
  | _ => None
  end.

Example quote_spaces : quote "a b'c" = "'a b'" +:+ dquote +:+ "'" +:+ dquote +:+ "'c'".
Proof. reflexivity. Qed.
Example read_back :
  shell_commands "cd 'a b'; ls -l 'x'/y && echo ''" =
    Some [["cd"; "a b"]; ["ls"; "-l"; "x/y"]; ["echo"; ""]].
Proof. reflexivity. Qed.

(** * Reading what was quoted *)

Lemma lex_app l a b : lex l (a +:+ b) = l' ← lex l a; lex l' b.
Proof.
  revert l. induction a as [|c a IH]; intros l; [done|]. rewrite str_app_cons. cbn [lex].
  destruct (lex_char l c) as [l'|]; [|done]. cbn. apply IH.
Qed.

(** The lexer after the word [w] was read at once. *)
Definition extend (w : string) (mode : quoting) (l : lexer) : lexer :=
  mkLexer (lx_commands l) (lx_words l) (Some (default "" (lx_word l) +:+ w)) mode.

Lemma extend_push w c mode mode' l : extend w mode (push c mode' l) = extend (String c w) mode l.
Proof. unfold extend, push. cbn. f_equal. f_equal. by rewrite <- str_app_assoc. Qed.

Lemma extend_open w mode mode' l : extend w mode (open_quote mode' l) = extend w mode l.
Proof. done. Qed.

Lemma safe_plain c : is_safe c = true →
  Ascii.eqb c " " = false ∧ Ascii.eqb c ";" || Ascii.eqb c "&" = false ∧
  Ascii.eqb c squote = false ∧ Ascii.eqb c (char 34) = false ∧ is_plain c = true.
Proof.
  intros H. unfold is_plain. rewrite H.
  split_and!; try done; try (apply orb_false_iff; split);
    match goal with |- Ascii.eqb c ?d = false => destruct (Ascii.eqb_spec c d) as [->|] end;
    done || by vm_compute in H.
Qed.

Lemma lex_safe s : ∀ l, lx_mode l = Unquoted → s ≠ "" → str_forallb is_safe s = true →
  lex l s = Some (extend s Unquoted l).
Proof.
  induction s as [|c s IH]; intros l Hm Hne Hs; [done|]. cbn in Hs.
  apply andb_true_iff in Hs as [Hc Hs]. destruct (safe_plain c Hc) as (H1 & H2 & H3 & H4 & H5).
  cbn [lex]. unfold lex_char. rewrite Hm, H1, H2, H3, H4, H5. cbn.
  destruct s as [|c' s]; [done|]. rewrite IH by done. by rewrite extend_push.
Qed.

Lemma lex_single s : ∀ l, lx_mode l = Single →
  lex l (replace_char squote escaped_squote s +:+ String squote "") = Some (extend s Unquoted l).
Proof.
  induction s as [|c s IH]; intros l Hm.
  - destruct l as [cs ws w m]. cbn in Hm. subst m. cbn. unfold open_quote, extend. cbn.
    by rewrite str_app_nil_r.
  - cbn [replace_char]. destruct (Ascii.eqb_spec c squote) as [->|Hne].
    + rewrite <- str_app_assoc, lex_app. destruct l as [cs ws w m]. cbn in Hm. subst m.
      replace (lex _ escaped_squote) with (Some (push squote Single (mkLexer cs ws w Single))) by done.
      cbn [mbind option_bind]. rewrite IH by done. by rewrite extend_push.
    + rewrite <- str_app_assoc, str_app_cons, str_app_nil_l. cbn [lex]. unfold lex_char. rewrite Hm.
      destruct (Ascii.eqb_spec c squote); [done|]. cbn. rewrite IH by done. by rewrite extend_push.
Qed.

(** The shell reads a quoted string as that string, whatever it contains. *)
Lemma lex_quote s l : lx_mode l = Unquoted → lex l (quote s) = Some (extend s Unquoted l).
Proof.
  intros Hm. unfold quote. destruct (String.eqb_spec s "") as [->|Hne].
  - destruct l as [cs ws w m]. cbn in Hm. subst m. cbn. unfold extend, open_quote. cbn.
    by rewrite str_app_nil_r.
  - destruct (str_forallb is_safe s) eqn:Es; [by apply lex_safe|].
    destruct l as [cs ws w m]. cbn in Hm. subst m. cbn [lex].
    replace (lex_char _ squote) with (Some (open_quote Single (mkLexer cs ws w Unquoted))) by done.
    cbn [mbind option_bind]. by rewrite lex_single.
Qed.

(** Reads a command: literal text by computation, quoted text by [lex_quote]. *)
Ltac read_literal :=
  match goal with
  | |- context [lex ?l (String ?c ?s)] =>
      let r := eval lazy -[String.append] in (lex l (String c s)) in
      change (lex l (String c s)) with r
  end.
Ltac read_command :=
  unfold shell_commands;
  repeat (first [rewrite lex_app | read_literal | rewrite lex_quote by done; unfold extend];
          cbn [mbind option_bind]);
  cbn -[String.append]; rewrite <- ?str_app_assoc.
