(* ===== verification/Config.v ===== *)
(** Project configuration: [cli/djangoops/config.py].

    A YAML document is the value PyYAML would build ([yaml]); reading and writing
    the text is PyYAML's and an argument where it is used.  Validators keep the
    order of their checks, since the first failing one decides the error. *)

From S2P Require Import Prelude Text Regex Url.

Open Scope string_scope.
Open Scope list_scope.
Open Scope nat_scope.

(** * Python values a YAML document can hold *)

(** Floats are rational; [YOther] is a date, a byte string, a set, a float that
    is not a number, ..., none of which equals an integer. *)
Inductive yaml :=
| YNull
| YBool (b : bool)
| YInt (z : Z)
| YFloat (num : Z) (den : positive)
| YStr (s : string)
| YSeq (items : list yaml)
| YMap (items : list (yaml * yaml))
| YOther (what : string).

(** [v == n]: [True] is 1 and [False] is 0. *)
Definition equals_int (v : yaml) (n : Z) : bool :=
  match v with
  | YInt z => (z =? n)%Z
  | YBool b => ((if b then 1 else 0) =? n)%Z
  | YFloat num den => (num =? n * Z.pos den)%Z
  | _ => false
  end.

Abbreviation mapping := (list (yaml * yaml)).

Definition is_key (k : string) (v : yaml) : bool :=
  match v with YStr s => String.eqb s k | _ => false end.

Fixpoint map_get (m : mapping) (k : string) : option yaml :=
  match m with
  | [] => None
  | (k', v) :: m => if is_key k k' then Some v else map_get m k
  end.

Fixpoint map_set (m : mapping) (k : string) (v : yaml) : mapping :=
  match m with
  | [] => [(YStr k, v)]
  | (k', v') :: m => if is_key k k' then (k', v) :: m else (k', v') :: map_set m k v
  end.

Definition is_str (v : yaml) : bool := match v with YStr _ => true | _ => false end.
Definition has_key (m : mapping) (k : string) : bool :=
  match map_get m k with Some _ => true | None => false end.

(** [set(m) == set(names)]. *)
Definition keys_are (m : mapping) (names : list string) : bool :=
  forallb (λ kv : yaml * yaml, match kv.1 with YStr s => str_in s names | _ => false end) m &&
  forallb (has_key m) names.

(** * Constants and data *)

Definition SCHEMA_VERSION : Z := 3.
Definition alnum_or (chars : string) : ascii → bool := or_class is_alnum (one_of chars).
Definition PROJECT_RE : re := (Cls is_alpha ⋅ Between (Cls (alnum_or "_-")) 0 62)%re.
Definition IDENT : re := (Cls (or_class is_alpha (one_of "_")) ⋅ Star (Cls is_word))%re.
Definition MODULE_RE : re := (IDENT ⋅ Star (Chr "." ⋅ IDENT))%re.
Definition HOST_LABEL_RE : re :=
  (Cls is_alnum ⋅ Opt (Between (Cls (alnum_or "-")) 0 61 ⋅ Cls is_alnum))%re.
Definition EMAIL_PART : re := Plus (Cls (not_class (or_class is_space (one_of "@")))).
Definition EMAIL_RE : re := (EMAIL_PART ⋅ Chr "@" ⋅ EMAIL_PART ⋅ Chr "." ⋅ EMAIL_PART)%re.
Definition lower_digit : ascii → bool := or_class is_lower is_digit.
Definition BUCKET_RE : re :=
  (Cls lower_digit ⋅ Between (Cls (or_class lower_digit (one_of ".-"))) 1 61 ⋅ Cls lower_digit)%re.
Definition CRON_RE : re := Plus (Cls (or_class is_digit (one_of "*/?, -"))).
Definition REGION_RE : re := Plus (Cls (alnum_or "-")).
Definition PREFIX_RE : re := (Cls is_alnum ⋅ Star (Cls (alnum_or "/_-")))%re.
Definition LEGACY_SCHEMA_1_KEYS : list string :=
  ["schema_version"; "project"; "django"; "services"; "tls"; "storage"].
Definition SCHEMA_3_KEYS : list string := LEGACY_SCHEMA_1_KEYS ++ ["backup"].

Record ServiceConfig := mkServices {
  sv_postgres : bool; sv_redis : bool; sv_celery : bool; sv_celery_beat : bool
}.
Record TLSConfig := mkTLS { tls_hostname : string; tls_acme_email : string }.
Record StorageConfig := mkStorage {
  so_endpoint_url : string; so_region : option string;
  so_static_bucket : string; so_media_bucket : string
}.
Record BackupConfig := mkBackup { bk_schedule : string; bk_bucket : string; bk_prefix : string }.

(** [project.name] and [django.module] are the only fields of their classes. *)
Record DjangoOpsConfig := mkConfig {
  cf_schema_version : Z;
  cf_project : string;
  cf_django : string;
  cf_services : ServiceConfig;
  cf_tls : TLSConfig;
  cf_storage : StorageConfig;
  cf_backup : BackupConfig
}.

(** * Validators *)

(** [if not ok: raise ValueError(msg)], then [value]. *)
Definition accept {A} (ok : bool) (msg : string) (value : A) : result exn A :=
  if ok then Ok value else Err (ValueError msg).

Definition validate_project_name (value : string) : result exn string :=
  accept (fullmatch PROJECT_RE value)
    "project name must start with a letter and contain only letters, numbers, '-' or '_'" value.

Definition validate_django_module (value : string) : result exn string :=
  accept (fullmatch MODULE_RE value)
    "Django module must be a dotted Python identifier, for example 'config'" value.

Definition validate_hostname (value : string) : result exn string :=
  let candidate := rstrip "." value in
  let labels_valid := forallb (fullmatch HOST_LABEL_RE) (split_on "." candidate) in
  accept (negb ((253 <? String.length candidate) || negb (char_in "." candidate) || negb labels_valid))
    "hostname must be a valid public DNS hostname" (lower candidate).

Definition validate_email (value : string) : result exn string :=
  accept (negb ((254 <? String.length value) || negb (fullmatch EMAIL_RE value)))
    "ACME email must be a valid email address" value.

Definition validate_storage_endpoint (checks : UrlChecks) (value : string) : result exn string :=
  parsed ← urlsplit checks value;
  let has_forbidden_part :=
    truthy (username parsed) || truthy (password parsed) ||
    negb (String.eqb (query parsed) "") || negb (String.eqb (fragment parsed) "") in
  _ ← raise_if (negb (str_in (scheme parsed) ["http"; "https"]) || negb (truthy (hostname parsed)) ||
                has_forbidden_part)
        (ValueError "storage endpoint must be an http(s) URL without credentials, query, or fragment");
  _ ← raise_if (negb (str_in (path parsed) [""; "/"]))
        (ValueError "storage endpoint must not contain a path");
  Ok (rstrip "/" value).

Definition validate_region (value : option string) : result exn (option string) :=
  match value with
  | None => Ok None
  | Some v =>
      accept (negb (String.eqb v "" || (63 <? String.length v) || negb (fullmatch REGION_RE v)))
        "storage region must contain only letters, numbers, and '-' or be null" value
  end.

Definition validate_bucket (value field : string) : result exn string :=
  let separators_valid :=
    negb (contains ".." value) && negb (contains ".-" value) && negb (contains "-." value) in
  accept (fullmatch BUCKET_RE value && separators_valid)
    (field +:+ " must be a valid S3-compatible bucket name") value.

Definition validate_backup_schedule (value : string) : result exn string :=
  let fields := split_ws value in
  let fields_are_short := forallb (λ f, String.length f <=? 32) fields in
  accept ((length fields =? 5) && fullmatch CRON_RE value && fields_are_short)
    "backup schedule must be a five-field cron expression" (join " " fields).

Definition validate_backup_prefix (value : string) : result exn string :=
  accept (negb (String.eqb value "" || (128 <? String.length value) || startswith "/" value ||
                endswith "/" value || contains ".." value || negb (fullmatch PREFIX_RE value)))
    "backup prefix must be a safe relative object prefix" value.

(** * Building a configuration *)

Definition tls_config (hostname acme_email : string) : result exn TLSConfig :=
  hostname ← validate_hostname hostname;
  acme_email ← validate_email acme_email;
  Ok (mkTLS hostname acme_email).

Definition storage_config (checks : UrlChecks) (endpoint_url : string) (region : option string)
    (static_bucket media_bucket : string) : result exn StorageConfig :=
  endpoint_url ← validate_storage_endpoint checks endpoint_url;
  region ← validate_region region;
  static_bucket ← validate_bucket static_bucket "static bucket";
  media_bucket ← validate_bucket media_bucket "media bucket";
  Ok (mkStorage endpoint_url region static_bucket media_bucket).

Definition backup_config (schedule bucket prefix : string) : result exn BackupConfig :=
  schedule ← validate_backup_schedule schedule;
  bucket ← validate_bucket bucket "backup bucket";
  prefix ← validate_backup_prefix prefix;
  Ok (mkBackup schedule bucket prefix).

(** The constructor call both [create] and [from_mapping] end with. *)
Definition build (checks : UrlChecks) (project_name django_module : string) (services : ServiceConfig)
    (hostname acme_email endpoint_url : string) (region : option string)
    (static_bucket media_bucket schedule bucket prefix : string) : result exn DjangoOpsConfig :=
  project ← validate_project_name project_name;
  django ← validate_django_module django_module;
  tls ← tls_config hostname acme_email;
  storage ← storage_config checks endpoint_url region static_bucket media_bucket;
  backup ← backup_config schedule bucket prefix;
  Ok (mkConfig SCHEMA_VERSION project django services tls storage backup).

(** [create], with every default argument given. *)
Definition create (checks : UrlChecks) (project_name django_module hostname acme_email endpoint_url : string)
    (region : option string) (static_bucket media_bucket schedule bucket prefix : string)
    : result exn DjangoOpsConfig :=
  build checks project_name django_module (mkServices true true true true) hostname acme_email
    endpoint_url region static_bucket media_bucket schedule bucket prefix.

Definition require_mapping (value : option yaml) (field : string) : result exn mapping :=
  match value with
  | Some (YMap m) => accept (forallb (λ kv : yaml * yaml, is_str kv.1) m) (field +:+ " must be a mapping") m
  | _ => Err (ValueError (field +:+ " must be a mapping"))
  end.

Definition require_string (value : option yaml) (field : string) : result exn string :=
  match value with
  | Some (YStr s) => Ok s
  | _ => Err (ValueError (field +:+ " must be a string"))
  end.

Definition require_bool (value : option yaml) (field : string) : result exn bool :=
  match value with
  | Some (YBool b) => Ok b
  | _ => Err (ValueError (field +:+ " must be a boolean"))
  end.

Definition default_backup : yaml :=
  YMap [(YStr "schedule", YStr "17 2 * * *"); (YStr "bucket", YStr "djangoops-backups");
        (YStr "prefix", YStr "djangoops-backups")].

(** Schema 1 is read with the default backup policy, schema 2 is refused. *)
Definition upgrade_in_memory (value : mapping) (version : yaml) : result exn (mapping * yaml) :=
  if equals_int version 1 then
    if keys_are value LEGACY_SCHEMA_1_KEYS
    then Ok (map_set (map_set value "schema_version" (YInt SCHEMA_VERSION)) "backup" default_backup,
             YInt SCHEMA_VERSION)
    else Err (ValueError "djangoops.yaml uses schema_version 1; recreate or upgrade it with the required TLS and S3 storage settings before using this release")
  else if equals_int version 2
  then Err (ValueError "djangoops.yaml uses schema_version 2; run 'djangoops config-upgrade' and review the generated backup settings before continuing")
  else Ok (value, version).

Definition services_of (services : mapping) : result exn ServiceConfig :=
  postgres ← require_bool (map_get services "postgres") "services.postgres";
  redis ← require_bool (map_get services "redis") "services.redis";
  celery ← require_bool (map_get services "celery") "services.celery";
  celery_beat ← require_bool (map_get services "celery_beat") "services.celery_beat";
  Ok (mkServices postgres redis celery celery_beat).

Definition region_of (value : option yaml) : result exn (option string) :=
  match value with
  | Some YNull => Ok None
  | Some (YStr s) => Ok (Some s)
  | _ => Err (ValueError "storage.region must be a string or null")
  end.

(** The sections of a document whose top-level keys are the right ones. *)
Definition sections_of (checks : UrlChecks) (value : mapping) : result exn DjangoOpsConfig :=
  project ← require_mapping (map_get value "project") "project";
  django ← require_mapping (map_get value "django") "django";
  services ← require_mapping (map_get value "services") "services";
  tls ← require_mapping (map_get value "tls") "tls";
  storage ← require_mapping (map_get value "storage") "storage";
  backup ← require_mapping (map_get value "backup") "backup";
  _ ← raise_if (negb (keys_are project ["name"]) || negb (keys_are django ["module"]))
        (ValueError "project or django configuration keys are invalid");
  _ ← raise_if (negb (keys_are services ["postgres"; "redis"; "celery"; "celery_beat"]))
        (ValueError "service configuration keys are invalid");
  _ ← raise_if (negb (keys_are tls ["hostname"; "acme_email"]))
        (ValueError "TLS configuration keys are invalid");
  _ ← raise_if (negb (keys_are storage ["endpoint_url"; "region"; "static_bucket"; "media_bucket"]))
        (ValueError "storage configuration keys are invalid");
  _ ← raise_if (negb (keys_are backup ["schedule"; "bucket"; "prefix"]))
        (ValueError "backup configuration keys are invalid");
  service_values ← services_of services;
  region_value ← region_of (map_get storage "region");
  project_name ← require_string (map_get project "name") "project.name";
  django_module ← require_string (map_get django "module") "django.module";
  hostname ← require_string (map_get tls "hostname") "tls.hostname";
  acme_email ← require_string (map_get tls "acme_email") "tls.acme_email";
  endpoint_url ← require_string (map_get storage "endpoint_url") "storage.endpoint_url";
  static_bucket ← require_string (map_get storage "static_bucket") "storage.static_bucket";
  media_bucket ← require_string (map_get storage "media_bucket") "storage.media_bucket";
  backup_schedule ← require_string (map_get backup "schedule") "backup.schedule";
  backup_bucket ← require_string (map_get backup "bucket") "backup.bucket";
  backup_prefix ← require_string (map_get backup "prefix") "backup.prefix";
  build checks project_name django_module service_values hostname acme_email endpoint_url region_value
    static_bucket media_bucket backup_schedule backup_bucket backup_prefix.

(** [from_mapping]; [repr] is Python's, for one error message. *)
Definition from_mapping (checks : UrlChecks) (repr : yaml → string) (value : yaml)
    : result exn DjangoOpsConfig :=
  match value with
  | YMap value =>
      match map_get value "schema_version" with
      | None => Err (ValueError "configuration is missing schema_version")
      | Some version =>
          '(value, version) ← upgrade_in_memory value version;
          _ ← raise_if (negb (equals_int version SCHEMA_VERSION))
                (ValueError ("unsupported schema_version: " +:+ repr version));
          _ ← raise_if (negb (keys_are value SCHEMA_3_KEYS))
                (ValueError "configuration keys do not match schema_version 3");
          sections_of checks value
      end
  | _ => Err (ValueError "configuration root must be a mapping")
  end.

(** [to_mapping]: the dataclass as nested dictionaries. *)
Definition to_mapping (c : DjangoOpsConfig) : yaml :=
  let obj fields := YMap ((λ kv : string * yaml, (YStr kv.1, kv.2)) <$> fields) in
  obj [("schema_version", YInt (cf_schema_version c));
       ("project", obj [("name", YStr (cf_project c))]);
       ("django", obj [("module", YStr (cf_django c))]);
       ("services", obj [("postgres", YBool (sv_postgres (cf_services c)));
                         ("redis", YBool (sv_redis (cf_services c)));
                         ("celery", YBool (sv_celery (cf_services c)));
                         ("celery_beat", YBool (sv_celery_beat (cf_services c)))]);
       ("tls", obj [("hostname", YStr (tls_hostname (cf_tls c)));
                    ("acme_email", YStr (tls_acme_email (cf_tls c)))]);
       ("storage", obj [("endpoint_url", YStr (so_endpoint_url (cf_storage c)));
                        ("region", match so_region (cf_storage c) with Some r => YStr r | None => YNull end);
                        ("static_bucket", YStr (so_static_bucket (cf_storage c)));
                        ("media_bucket", YStr (so_media_bucket (cf_storage c)))]);
       ("backup", obj [("schedule", YStr (bk_schedule (cf_backup c)));
                       ("bucket", YStr (bk_bucket (cf_backup c)));
                       ("prefix", YStr (bk_prefix (cf_backup c)))])].

(** * Text *)

(** PyYAML: [safe_load] (a YAML error is [None]) and [safe_dump]. *)
Record Yaml := mkYaml { safe_load : string → option yaml; safe_dump : yaml → string }.

Section text.
Context (py : Yaml) (checks : UrlChecks) (repr : yaml → string).

Definition render_config (c : DjangoOpsConfig) : string := safe_dump py (to_mapping c).

Definition parse_config (text : string) : result exn DjangoOpsConfig :=
  match safe_load py text with
  | None => Err (ValueError "invalid YAML configuration")
  | Some loaded => from_mapping checks repr loaded
  end.

Definition upgrade_config (text backup_bucket backup_schedule : string) : result exn string :=
  match safe_load py text with
  | None => Err (ValueError "invalid YAML configuration")
  | Some (YMap loaded) =>
      if equals_int (default YNull (map_get loaded "schema_version")) 2 then
        _ ← raise_if (negb (keys_are loaded LEGACY_SCHEMA_1_KEYS))
              (ValueError "schema_version 2 configuration contains unknown or missing keys");
        schedule ← validate_backup_schedule backup_schedule;
        bucket ← validate_bucket backup_bucket "backup bucket";
        let backup := YMap [(YStr "schedule", YStr schedule); (YStr "bucket", YStr bucket);
                            (YStr "prefix", YStr "djangoops-backups")] in
        c ← from_mapping checks repr
              (YMap (map_set (map_set loaded "schema_version" (YInt SCHEMA_VERSION)) "backup" backup));
        Ok (render_config c)
      else Err (ValueError "config-upgrade currently requires an exact schema_version 2 document")
  | Some _ => Err (ValueError "config-upgrade currently requires an exact schema_version 2 document")
  end.
End text.
