(* ===== verification/ConfigProps.v ===== *)
(** Properties of [Config]: what a configuration accepts it keeps. *)

From stdpp Require Import list.
From S2P Require Import Prelude Text Regex Redaction Json Url Config.

Open Scope string_scope.
Open Scope list_scope.
Open Scope nat_scope.

(** * Lower case *)

(** A statement about all characters is a computation. *)
Lemma by_chars (p : ascii → bool) : forallb p all_chars = true → ∀ c, p c = true.
Proof. rewrite forallb_forall. intros H c. apply H, list_elem_of_In, all_chars_elem. Qed.

Fixpoint closed_under (f : ascii → ascii) (r : re) : Prop :=
  match r with
  | Eps => True
  | Cls p => ∀ c, p c = true → p (f c) = true
  | Seq r1 r2 | Alt r1 r2 => closed_under f r1 ∧ closed_under f r2
  | Rep r _ _ => closed_under f r
  end.

Lemma lang_map f r s : closed_under f r → lang r s → lang r (f <$> s).
Proof.
  revert s. induction r as [|p|r1 IH1 r2 IH2|r1 IH1 r2 IH2|r IH lo hi]; cbn [lang closed_under]; intros s Hc.
  - by intros ->.
  - intros (c & -> & Hp). exists (f c). auto.
  - intros (s1 & s2 & -> & H1 & H2). destruct Hc. exists (f <$> s1), (f <$> s2).
    rewrite fmap_app. auto.
  - destruct Hc as [H1 H2]. intros [Hl|Hl]; auto.
  - intros (ss & -> & Hss & Hlo & Hhi). exists (fmap (M:=list) (fmap (M:=list) f) ss). rewrite length_fmap.
    split_and!; [|by apply Forall_fmap; eapply Forall_impl; [exact Hss|]; auto|done|done].
    clear. induction ss as [|s ss IH]; [done|]. cbn. by rewrite fmap_app, IH.
Qed.

Lemma chars_str_map f s : chars (str_map f s) = f <$> chars s.
Proof. induction s as [|c s IH]; [done|]. cbn. by rewrite IH. Qed.

Lemma fullmatch_lower r s : closed_under lower_char r → fullmatch r s = true → fullmatch r (lower s) = true.
Proof.
  intros Hc. rewrite !fullmatch_spec. unfold lang_str, lower. rewrite chars_str_map. by apply lang_map.
Qed.

Lemma str_map_length f s : String.length (str_map f s) = String.length s.
Proof. induction s as [|c s IH]; [done|]. cbn. by rewrite IH. Qed.

Lemma str_map_idemp f s : (∀ c, f (f c) = f c) → str_map f (str_map f s) = str_map f s.
Proof. intros Hf. induction s as [|c s IH]; [done|]. cbn. by rewrite Hf, IH. Qed.

Lemma rstrip_by_map p f s : (∀ c, p (f c) = p c) → rstrip_by p (str_map f s) = str_map f (rstrip_by p s).
Proof.
  intros Hf. induction s as [|c s IH]; [done|]. cbn. rewrite IH, Hf.
  destruct (rstrip_by p s); cbn; [by destruct (p c)|done].
Qed.

Lemma rstrip_by_idemp p s : rstrip_by p (rstrip_by p s) = rstrip_by p s.
Proof.
  induction s as [|c s IH]; [done|]. cbn [rstrip_by].
  destruct (rstrip_by p s) as [|c' s'] eqn:E.
  - destruct (p c) eqn:Ec; [done|]. cbn. by rewrite Ec.
  - cbn [rstrip_by] in *. by rewrite IH.
Qed.

Lemma split_on_map sep f s : (∀ c, Ascii.eqb (f c) sep = Ascii.eqb c sep) →
  split_on sep (str_map f s) = str_map f <$> split_on sep s.
Proof.
  intros Hf. induction s as [|c s IH]; [done|]. cbn. rewrite Hf, IH.
  destruct (Ascii.eqb c sep); [done|]. by destruct (split_on sep s).
Qed.

Lemma char_in_map d f s : (∀ c, Ascii.eqb d (f c) = Ascii.eqb d c) → char_in d (str_map f s) = char_in d s.
Proof. intros Hf. induction s as [|c s IH]; [done|]. cbn. by rewrite Hf, IH. Qed.

Lemma lower_idemp c : lower_char (lower_char c) = lower_char c.
Proof. apply Ascii.eqb_eq. revert c. apply by_chars. by vm_compute. Qed.

Lemma lower_dot c : Ascii.eqb (lower_char c) "." = Ascii.eqb c ".".
Proof. apply eqb_prop. revert c. apply by_chars. by vm_compute. Qed.

Lemma validate_hostname_idemp v h : validate_hostname v = Ok h → validate_hostname h = Ok h.
Proof.
  unfold validate_hostname, accept. intros H.
  set (cand := rstrip "." v) in H. destruct (negb _) eqn:E; [|done]. injection H as <-.
  assert (Hr : rstrip "." (lower cand) = lower cand).
  { unfold rstrip, lower. rewrite rstrip_by_map; [by unfold cand, rstrip; rewrite rstrip_by_idemp|].
    intros c. cbn. by rewrite lower_dot. }
  rewrite Hr.
  replace (lower (lower cand)) with (lower cand) by (symmetry; apply str_map_idemp, lower_idemp).
  assert (Hl : String.length (lower cand) = String.length cand) by apply str_map_length.
  assert (Hd : char_in "." (lower cand) = char_in "." cand).
  { apply char_in_map. intros c. rewrite !(Ascii.eqb_sym "."). apply lower_dot. }
  rewrite Hl, Hd. unfold lower at 1. rewrite split_on_map by apply lower_dot.
  revert E. rewrite !negb_true_iff, !orb_false_iff, !negb_false_iff. intros [[-> ->] Hlab].
  rewrite forallb_forall in Hlab.
  replace (forallb _ _) with true; [done|]. symmetry. apply forallb_forall.
  intros l (l' & -> & Hin)%list_elem_of_In%list_elem_of_fmap.
  apply fullmatch_lower; [|by apply Hlab, list_elem_of_In].
  cbn. split_and!; try done; intros c; cbn; rewrite <- implb_true_iff; revert c; apply by_chars; by vm_compute.
Qed.

(** * Schedules *)

Definition is_word_of (p : ascii → bool) (w : string) : bool :=
  negb (String.eqb w "") && str_forallb (λ c, p c && negb (is_space c)) w.

Lemma split_ws_from_words p word s :
  str_forallb (λ c, p c && negb (is_space c)) word = true → str_forallb p s = true →
  Forall (λ w, is_word_of p w = true) (split_ws_from word s).
Proof.
  revert word. induction s as [|c s IH]; cbn [split_ws_from str_forallb]; intros word Hw Hs.
  - destruct (String.eqb word "") eqn:E; [constructor|]. repeat constructor. unfold is_word_of. by rewrite E.
  - apply andb_true_iff in Hs as [Hc Hs]. destruct (is_space c) eqn:Ec.
    + apply Forall_app. split; [|by apply IH].
      destruct (String.eqb word "") eqn:E; [constructor|]. repeat constructor. unfold is_word_of. by rewrite E.
    + apply IH; [|done]. rewrite str_forallb_app, Hw. cbn. by rewrite Hc, Ec.
Qed.

Lemma split_ws_word p word s rest :
  str_forallb (λ c, p c && negb (is_space c)) s = true →
  split_ws_from word (s +:+ rest) = split_ws_from (word +:+ s) rest.
Proof.
  revert word. induction s as [|c s IH]; cbn [str_forallb]; intros word Hs.
  - by rewrite str_app_nil_r, str_app_nil_l.
  - apply andb_true_iff in Hs as [[Hc Hn]%andb_true_iff Hs]. apply negb_true_iff in Hn.
    rewrite str_app_cons. cbn [split_ws_from]. rewrite Hn, IH by done. by rewrite <- str_app_assoc.
Qed.

Lemma split_ws_join p ws : Forall (λ w, is_word_of p w = true) ws → split_ws (join " " ws) = ws.
Proof.
  unfold split_ws. induction 1 as [|w ws Hw Hws IH]; [done|].
  apply andb_true_iff in Hw as [Hne Hw]. apply negb_true_iff in Hne.
  destruct ws as [|w' ws].
  - cbn [join]. rewrite <- (str_app_nil_r w) at 1. rewrite (split_ws_word p) by done. cbn.
    by rewrite str_app_nil_l, Hne.
  - rewrite join_cons, (split_ws_word p) by done. rewrite str_app_nil_l, str_app_cons.
    cbn [split_ws_from]. rewrite Hne. rewrite str_app_nil_l, IH. done.
Qed.

Lemma str_forallb_join p sep ws :
  str_forallb p sep = true → Forall (λ w, is_word_of p w = true) ws → str_forallb p (join sep ws) = true.
Proof.
  intros Hsep. induction 1 as [|w ws Hw Hws IH]; [done|].
  assert (Hp : str_forallb p w = true).
  { apply andb_true_iff in Hw as [_ Hw]. clear -Hw. induction w as [|c w IH]; [done|]. cbn in *.
    apply andb_true_iff in Hw as [[-> _]%andb_true_iff Hw]. by apply IH. }
  destruct ws as [|w' ws]; [done|]. rewrite join_cons by done. by rewrite !str_forallb_app, Hp, Hsep.
Qed.

Lemma validate_backup_schedule_idemp v s :
  validate_backup_schedule v = Ok s → validate_backup_schedule s = Ok s.
Proof.
  unfold validate_backup_schedule, accept. destruct (_ && _ && _) eqn:E; [|done]. intros [= <-].
  apply andb_true_iff in E as [[Hlen Hcron]%andb_true_iff Hshort].
  set (p := or_class is_digit (one_of "*/?, -")).
  assert (Hp : str_forallb p v = true).
  { unfold CRON_RE, Plus in Hcron. rewrite fullmatch_cls_rep in Hcron.
    by apply andb_true_iff in Hcron as [[??]%andb_true_iff _]. }
  assert (Hws : Forall (λ w, is_word_of p w = true) (split_ws v)) by (by apply split_ws_from_words).
  rewrite (split_ws_join p) by done. rewrite Hlen, Hshort.
  unfold CRON_RE, Plus. rewrite fullmatch_cls_rep, (str_forallb_join p) by done.
  destruct (split_ws v) as [|w ws]; [done|]. inversion Hws as [|?? Hw]; subst.
  destruct w as [|c w]; [done|]. by destruct ws.
Qed.

(** * Endpoints *)

Lemma snoc_inj a b c d : a +:+ String c "" = b +:+ String d "" → a = b ∧ c = d.
Proof.
  revert b. induction a as [|x a IH]; intros [|y b]; rewrite ?str_app_cons, ?str_app_nil_l; intros H.
  - by injection H as ->.
  - injection H as _ H. by destruct b.
  - injection H as _ H. by destruct a.
  - injection H as -> H. by apply IH in H as [-> ->].
Qed.

Lemma snoc_cases s : s = "" ∨ ∃ t c, s = t +:+ String c "".
Proof.
  induction s as [|c s IH]; [by left|]. right. destruct IH as [->|(t & d & ->)].
  - by exists "", c.
  - by exists (String c t), d.
Qed.

Lemma rstrip_by_snoc p t c : rstrip_by p (t +:+ String c "") = if p c then rstrip_by p t else t +:+ String c "".
Proof.
  induction t as [|x t IH]; [done|]. rewrite str_app_cons. cbn [rstrip_by]. rewrite IH.
  destruct (p c); [done|]. by destruct t.
Qed.

Lemma lstrip_by_app p a b : lstrip_by p b = b → lstrip_by p (a +:+ b) = lstrip_by p a +:+ b.
Proof.
  intros Hb. induction a as [|x a IH]; [by rewrite !str_app_nil_l|]. rewrite str_app_cons. cbn.
  by destruct (p x).
Qed.

Lemma replace_char_app c by_ a b :
  replace_char c by_ (a +:+ b) = replace_char c by_ a +:+ replace_char c by_ b.
Proof.
  induction a as [|x a IH]; [done|]. rewrite str_app_cons. cbn [replace_char].
  by rewrite IH, str_app_assoc.
Qed.

Lemma partition_app sep a b : char_in sep a = false → partition sep (a +:+ String sep b) = Some (a, b).
Proof.
  induction a as [|x a IH].
  - intros _. rewrite str_app_nil_l. cbn [partition]. by destruct (Ascii.eqb_spec sep sep).
  - cbn [char_in]. rewrite str_app_cons. cbn [partition].
    rewrite (Ascii.eqb_sym x sep). intros [-> Ha]%orb_false_iff. by rewrite IH.
Qed.

Definition no_stop (stops s : string) : bool := str_forallb (λ c, negb (char_in c stops)) s.

Lemma span_until_spec stops s a b : span_until stops s = (a, b) → s = a +:+ b ∧ no_stop stops a = true.
Proof.
  revert a b. induction s as [|c s IH]; cbn; intros a b.
  - by intros [= <- <-].
  - destruct (char_in c stops) eqn:Ec; [by intros [= <- <-]|].
    destruct (span_until stops s) as [a' b']. intros [= <- <-]. destruct (IH a' b' eq_refl) as [-> Ha].
    rewrite str_app_cons. split; [done|]. unfold no_stop. cbn. by rewrite Ec.
Qed.

Lemma span_until_all stops s : no_stop stops s = true → span_until stops s = (s, "").
Proof.
  unfold no_stop. induction s as [|c s IH]; cbn; [done|]. intros [Hc Hs]%andb_true_iff.
  apply negb_true_iff in Hc. by rewrite Hc, IH.
Qed.

Lemma no_stop_last stops t c : no_stop stops (t +:+ String c "") = true → char_in c stops = false.
Proof. unfold no_stop. rewrite str_forallb_app. cbn. intros [_ [H _]%andb_true_iff]%andb_true_iff. by apply negb_true_iff in H. Qed.

(** A partition that leaves nothing after a separator ends the string with it. *)
Lemma partition_nil sep s a t c : partition sep s = Some (a, "") → s = t +:+ String c "" → c = sep.
Proof. intros [-> _]%partition_spec H. by apply snoc_inj in H as [_ ->]. Qed.

Definition normalise (url : string) : string := remove_unsafe (lstrip_by (in_range 0 32) url).

Lemma normalise_slash t : normalise (t +:+ "/") = normalise t +:+ "/".
Proof.
  unfold normalise. rewrite lstrip_by_app by done. unfold remove_unsafe. by rewrite !replace_char_app.
Qed.

(** What the validator learns of an endpoint that ends with a slash: before it is
    exactly a scheme, a colon, two slashes and the network location. *)
(** A path of nothing or a slash, in a text that ends with one. *)
Lemma final_slash w front loc p0 p1 p2 frag q :
  w +:+ "/" = front +:+ (loc +:+ p0) → loc ≠ "" → no_stop "/?#" loc = true →
  match partition "#" p0 with Some p => p | None => (p0, "") end = (p1, frag) → frag = "" →
  match partition "?" p1 with Some p => p | None => (p1, "") end = (p2, q) → q = "" →
  str_in p2 [""; "/"] = true → p0 = "/".
Proof.
  intros Hw Hloc Hstop Ef -> Eq -> Hpath. destruct (snoc_cases p0) as [->|(p & c & ->)].
  - destruct (snoc_cases loc) as [->|(l & d & ->)]; [done|]. exfalso.
    rewrite str_app_nil_r, str_app_assoc in Hw. apply snoc_inj in Hw as [_ <-]. by apply no_stop_last in Hstop.
  - assert (c = "/"%char) as -> by (rewrite !str_app_assoc in Hw; by apply snoc_inj in Hw as [_ <-]).
    destruct (partition "#" (p +:+ "/")) as [[??]|] eqn:Eh.
    { injection Ef as -> ->. by apply (partition_nil _ _ _ p "/") in Eh. }
    injection Ef as <-. destruct (partition "?" (p +:+ "/")) as [[??]|] eqn:Eh'.
    { injection Eq as -> ->. by apply (partition_nil _ _ _ p "/") in Eh'. }
    injection Eq as <-. apply str_in_spec in Hpath.
    repeat (apply elem_of_cons in Hpath as [Hpath|Hpath]; [|]); try by apply elem_of_nil in Hpath.
    + by destruct p.
    + done.
Qed.

Lemma endpoint_with_slash checks t r :
  urlsplit checks (t +:+ "/") = Ok r → scheme r ≠ "" → netloc r ≠ "" →
  query r = "" → fragment r = "" → str_in (path r) [""; "/"] = true →
  urlsplit checks t = Ok (mkSplit (scheme r) (netloc r) "" "" "") ∧
  ∃ pre c, normalise t = pre +:+ String c "" ∧ c ≠ "/"%char.
Proof.
  unfold urlsplit. change (remove_unsafe (lstrip_by (in_range 0 32) ?s)) with (normalise s).
  rewrite normalise_slash. generalize (normalise t) as w. intros w.
  destruct (split_scheme (w +:+ "/")) as [sch rest] eqn:Es.
  destruct (if startswith "//" rest then _ else _) as [loc p0] eqn:El.
  destruct (raise_if (xorb _ _) _) as [[]|] eqn:Ex; [|done]. cbn [mbind result_bind].
  destruct (raise_if (_ && _ && _) _) as [[]|] eqn:Eb; [|done]. cbn [mbind result_bind].
  destruct (match partition "#" p0 with Some p => p | None => (p0, "") end) as [p1 frag] eqn:Ef.
  destruct (match partition "?" p1 with Some p => p | None => (p1, "") end) as [p2 q] eqn:Eq.
  destruct (raise_if (negb _) _) as [[]|] eqn:En; [|done]. cbn [mbind result_bind].
  intros [= <-]. cbn. intros Hsch Hloc -> -> Hpath.
  (* the parts of the text *)
  unfold split_scheme in Es. destruct (partition ":" (w +:+ "/")) as [[[|c0 name] rest']|] eqn:Ep;
    try (by injection Es as <-).
  destruct (is_alpha c0 && _) eqn:Ec; [|by injection Es as <-]. injection Es as <- ->.
  apply partition_spec in Ep as [Hw Hcolon].
  destruct (startswith "//" rest) eqn:Er; [|by injection El as <-].
  apply startswith_spec in Er as (rest' & ->). change (str_drop 2 ("//" +:+ rest')) with rest' in El.
  apply span_until_spec in El as [-> Hstop].
  assert (p0 = "/") as ->.
  { change (String "/" (String "/" ?x)) with ("//" +:+ x) in Hw. change (String ":" ?x) with (":" +:+ x) in Hw.
    rewrite !str_app_assoc in Hw. rewrite <- (str_app_assoc _ loc p0) in Hw. by eapply final_slash. }
  clear Ef Eq Hpath p1 p2.
  assert (Ht : w = String c0 name +:+ String ":" (String "/" (String "/" loc))).
  { change (String "/" (String "/" (loc +:+ "/"))) with (("//" +:+ loc) +:+ "/") in Hw.
    change (String ":" ?x) with (":" +:+ x) in Hw.
    rewrite !str_app_assoc in Hw. apply snoc_inj in Hw as [-> _]. by rewrite <- !str_app_assoc. }
  split.
  - rewrite Ht. unfold split_scheme. rewrite partition_app by done. rewrite Ec.
    cbn iota beta. cbn [startswith Ascii.eqb Bool.eqb andb].
    change (str_drop 2 (String "/" (String "/" loc))) with loc. rewrite span_until_all by done.
    rewrite Ex. cbn [mbind result_bind]. rewrite Eb. cbn [mbind result_bind]. cbn [partition].
    rewrite En. done.
  - destruct (snoc_cases loc) as [->|(l & d & ->)]; [done|].
    exists (String c0 name +:+ ":" +:+ "//" +:+ l), d. split.
    + rewrite Ht. rewrite <- !str_app_assoc. done.
    + intros ->. by apply no_stop_last in Hstop.
Qed.

(** An origin, a URL with nothing after its network location but slashes, is read
    the same way without them. *)
Lemma origin_stripped checks v r :
  urlsplit checks v = Ok r → scheme r ≠ "" → truthy (hostname r) = true →
  query r = "" → fragment r = "" → str_in (path r) [""; "/"] = true →
  ∃ p, urlsplit checks (rstrip "/" v) = Ok (mkSplit (scheme r) (netloc r) p "" "") ∧
       str_in p [""; "/"] = true ∧ rstrip "/" (rstrip "/" v) = rstrip "/" v.
Proof.
  intros Eu Hs Hh Hq Hf Hp.
  assert (Hn : netloc r ≠ "").
  { intros Hn. unfold hostname, hostinfo in Hh. rewrite Hn in Hh. by vm_compute in Hh. }
  destruct (snoc_cases v) as [->|(t & c & ->)].
  { exfalso. apply Hn. clear -Eu. vm_compute in Eu. destruct (nfkc_ok checks ""); by injection Eu as <-. }
  assert (Hr : rstrip "/" (t +:+ String c "") = if Ascii.eqb c "/" then rstrip "/" t else t +:+ String c "").
  { unfold rstrip. rewrite rstrip_by_snoc. cbn. by rewrite orb_false_r. }
  rewrite Hr. destruct (Ascii.eqb_spec c "/") as [->|Hc].
  - destruct (endpoint_with_slash checks t r Eu Hs Hn) as (Eu' & pre & d & Ht & Hd); [done..|].
    assert (Hrt : rstrip "/" t = t).
    { destruct (snoc_cases t) as [->|(t' & e & ->)]; [done|]. unfold rstrip. rewrite rstrip_by_snoc. cbn.
      destruct (Ascii.eqb_spec e "/") as [->|]; [|done]. rewrite normalise_slash in Ht.
      by apply snoc_inj in Ht as [_ <-]. }
    rewrite !Hrt. by exists "".
  - exists (path r). rewrite Eu, Hr. destruct (Ascii.eqb_spec c "/") as [->|]; [done|].
    split_and!; [|done..]. destruct r. cbn in *. by subst.
Qed.

Lemma validate_storage_endpoint_idemp checks v s :
  validate_storage_endpoint checks v = Ok s → validate_storage_endpoint checks s = Ok s.
Proof.
  unfold validate_storage_endpoint at 1. intros (r & Eu & H)%bind_ok. binds H. injection H as <-.
  repeat match goal with E : raise_if _ _ = Ok _ |- _ => apply raise_if_ok in E end.
  match goal with E : _ || _ || _ = false |- _ =>
    apply orb_false_iff in E as [[Hs Hh]%orb_false_iff [[Hu Hq]%orb_false_iff Hf]%orb_false_iff] end.
  match goal with E : negb (str_in (path r) _) = false |- _ => apply negb_false_iff in E as Hp end.
  apply negb_false_iff in Hs, Hh. apply negb_false_iff, String.eqb_eq in Hq, Hf.
  destruct (origin_stripped checks v r) as (p & Eu' & Hp' & Hr); [done| |done..|].
  { intros E. rewrite E in Hs. by vm_compute in Hs. }
  unfold validate_storage_endpoint. rewrite Eu'. cbn [mbind result_bind]. cbn [scheme query fragment path].
  rewrite Hs, Hp', Hr. revert Hh Hu. unfold hostname, username, password, userinfo, hostinfo. cbn [netloc].
  intros -> ->. done.
Qed.

(** * Building twice *)

Lemma accept_ok {A} ok msg (a b : A) : accept ok msg a = Ok b → a = b ∧ ok = true.
Proof. unfold accept. destruct ok; [|done]. by intros [= ->]. Qed.

Lemma validate_region_idemp v r : validate_region v = Ok r → validate_region r = Ok r.
Proof. destruct v as [v|]; cbn; [|by intros [= <-]]. intros H. by apply accept_ok in H as [<- H]; cbn; rewrite H. Qed.

(** A validator that returns its argument accepts its result. *)
Ltac revalidate H :=
  let H' := fresh in pose proof H as H'; apply accept_ok in H' as [<- _]; rewrite H; clear H.

Lemma build_idemp checks name module sv host mail url region static media sched bucket prefix c :
  build checks name module sv host mail url region static media sched bucket prefix = Ok c →
  cf_schema_version c = SCHEMA_VERSION ∧
  build checks (cf_project c) (cf_django c) (cf_services c) (tls_hostname (cf_tls c))
    (tls_acme_email (cf_tls c)) (so_endpoint_url (cf_storage c)) (so_region (cf_storage c))
    (so_static_bucket (cf_storage c)) (so_media_bucket (cf_storage c)) (bk_schedule (cf_backup c))
    (bk_bucket (cf_backup c)) (bk_prefix (cf_backup c)) = Ok c.
Proof.
  unfold build, tls_config, storage_config, backup_config. intros H. binds H.
  repeat match goal with H : _ ≫= _ = Ok _ |- _ => binds H end.
  repeat match goal with H : Ok _ = Ok _ |- _ => injection H as <- end. cbn. split; [done|].
  repeat match goal with
  | H : validate_hostname _ = Ok _ |- _ => apply validate_hostname_idemp in H; rewrite H; clear H
  | H : validate_storage_endpoint _ _ = Ok _ |- _ => apply validate_storage_endpoint_idemp in H; rewrite H; clear H
  | H : validate_region _ = Ok _ |- _ => apply validate_region_idemp in H; rewrite H; clear H
  | H : validate_backup_schedule _ = Ok _ |- _ => apply validate_backup_schedule_idemp in H; rewrite H; clear H
  | H : validate_bucket _ _ = Ok _ |- _ => revalidate H
  | H : validate_project_name _ = Ok _ |- _ => revalidate H
  | H : validate_django_module _ = Ok _ |- _ => revalidate H
  | H : validate_email _ = Ok _ |- _ => revalidate H
  | H : validate_backup_prefix _ = Ok _ |- _ => revalidate H
  end.
  done.
Qed.

Lemma sections_built checks m c : sections_of checks m = Ok c →
  ∃ name module sv host mail url region static media sched bucket prefix,
    build checks name module sv host mail url region static media sched bucket prefix = Ok c.
Proof. unfold sections_of. intros H. binds H. eauto 20. Qed.

Lemma mapping_built checks repr v c : from_mapping checks repr v = Ok c →
  ∃ m, sections_of checks m = Ok c.
Proof.
  destruct v as [| | | | | |m|]; try done. cbn.
  destruct (map_get m "schema_version"); [|done]. intros H. apply bind_ok in H as ([m' v'] & _ & H).
  binds H. eauto.
Qed.

Lemma from_to_mapping checks repr c : cf_schema_version c = SCHEMA_VERSION →
  from_mapping checks repr (to_mapping c) =
  build checks (cf_project c) (cf_django c) (cf_services c) (tls_hostname (cf_tls c))
    (tls_acme_email (cf_tls c)) (so_endpoint_url (cf_storage c)) (so_region (cf_storage c))
    (so_static_bucket (cf_storage c)) (so_media_bucket (cf_storage c)) (bk_schedule (cf_backup c))
    (bk_bucket (cf_backup c)) (bk_prefix (cf_backup c)).
Proof.
  destruct c as [v p d [a1 a2 a3 a4] [h e] [u [r|] s m] [k b x]]; cbn [cf_schema_version]; intros ->; done.
Qed.

Lemma from_mapping_again checks repr v c :
  from_mapping checks repr v = Ok c → from_mapping checks repr (to_mapping c) = Ok c ∧ cf_schema_version c = SCHEMA_VERSION.
Proof.
  intros (m & H)%mapping_built. apply sections_built in H as (? & ? & ? & ? & ? & ? & ? & ? & ? & ? & ? & ? & H).
  apply build_idemp in H as [Hv Hb]. by rewrite from_to_mapping.
Qed.

Lemma create_again checks repr name module host mail url region static media sched bucket prefix c :
  create checks name module host mail url region static media sched bucket prefix = Ok c →
  from_mapping checks repr (to_mapping c) = Ok c ∧ cf_schema_version c = SCHEMA_VERSION.
Proof. intros [Hv Hb]%build_idemp. by rewrite from_to_mapping. Qed.

(** C33: the configuration round-trips: whatever [create] or [from_mapping]
    accepts, the mapping [to_mapping] writes is accepted again and gives exactly
    the same configuration, although host names, endpoints and schedules are
    normalised on the way in. *)
Theorem config_round_trip checks repr c :
  (∃ v, from_mapping checks repr v = Ok c) ∨
  (∃ name module host mail url region static media sched bucket prefix,
     create checks name module host mail url region static media sched bucket prefix = Ok c) →
  from_mapping checks repr (to_mapping c) = Ok c ∧ cf_schema_version c = SCHEMA_VERSION.
Proof.
  intros [(v & H)|(? & ? & ? & ? & ? & ? & ? & ? & ? & ? & ? & H)].
  - by eapply from_mapping_again.
  - by eapply create_again.
Qed.

(** * Upgrading *)

Lemma equals_int_inj v a b : equals_int v a = true → equals_int v b = true → a = b.
Proof.
  destruct v as [|x|z|n d| | | |]; cbn; try done; rewrite ?Z.eqb_eq; intros H1 H2; [by rewrite <- H1|congruence|].
  rewrite H1 in H2. apply Z.mul_reg_r in H2; lia.
Qed.

Lemma map_get_set_ne m k k' v : k ≠ k' → map_get (map_set m k v) k' = map_get m k'.
Proof.
  intros Hne. assert (Hk : ∀ x, is_key k x = true → is_key k' x = false).
  { intros [| | | |s| | |]; cbn; try done. intros ->%String.eqb_eq. by apply String.eqb_neq. }
  induction m as [|[x w] m IH]; cbn.
  - destruct (String.eqb_spec k k'); [done|]. done.
  - destruct (is_key k x) eqn:E; cbn; [by rewrite (Hk x E)|]. by rewrite IH.
Qed.

Lemma map_get_set_eq m k v : map_get (map_set m k v) k = Some v.
Proof.
  induction m as [|[x w] m IH]; cbn.
  - by rewrite String.eqb_refl.
  - destruct (is_key k x) eqn:E; cbn; by rewrite E.
Qed.

Lemma require_mapping_ok v f m : require_mapping v f = Ok m → v = Some (YMap m).
Proof. destruct v as [[]|]; cbn; try done. by intros [-> _]%accept_ok. Qed.

Lemma require_string_ok v f s : require_string v f = Ok s → v = Some (YStr s).
Proof. destruct v as [[]|]; cbn; try done. by intros [= ->]. Qed.

(** What a configuration takes over from its document as it is, and the backup
    policy it reads there. *)
Definition taken_from (m : mapping) (c : DjangoOpsConfig) : Prop :=
  ∃ project django services,
    map_get m "project" = Some (YMap project) ∧ map_get project "name" = Some (YStr (cf_project c)) ∧
    map_get m "django" = Some (YMap django) ∧ map_get django "module" = Some (YStr (cf_django c)) ∧
    map_get m "services" = Some (YMap services) ∧ services_of services = Ok (cf_services c).

Definition policy_from (m : mapping) (c : DjangoOpsConfig) : Prop :=
  ∃ backup s, map_get m "backup" = Some (YMap backup) ∧ map_get backup "schedule" = Some (YStr s) ∧
    validate_backup_schedule s = Ok (bk_schedule (cf_backup c)) ∧
    map_get backup "bucket" = Some (YStr (bk_bucket (cf_backup c))) ∧
    map_get backup "prefix" = Some (YStr (bk_prefix (cf_backup c))).

Lemma sections_taken checks m c : sections_of checks m = Ok c → taken_from m c ∧ policy_from m c.
Proof.
  unfold sections_of, build, backup_config. intros H. binds H.
  repeat match goal with H : _ ≫= _ = Ok _ |- _ => binds H end.
  repeat match goal with H : Ok _ = Ok _ |- _ => injection H as <- end.
  repeat match goal with
  | H : require_mapping _ _ = Ok _ |- _ => apply require_mapping_ok in H
  | H : require_string _ _ = Ok _ |- _ => apply require_string_ok in H
  | H : validate_bucket _ _ = Ok _ |- _ => apply accept_ok in H as [<- _]
  | H : validate_project_name _ = Ok _ |- _ => apply accept_ok in H as [<- _]
  | H : validate_django_module _ = Ok _ |- _ => apply accept_ok in H as [<- _]
  | H : validate_backup_prefix _ = Ok _ |- _ => apply accept_ok in H as [<- _]
  end.
  unfold taken_from, policy_from. cbn. split; eauto 15.
Qed.

(** A mapping of schema 3 is read section by section. *)
Lemma from_schema_3 checks repr m c :
  map_get m "schema_version" = Some (YInt SCHEMA_VERSION) → from_mapping checks repr (YMap m) = Ok c →
  sections_of checks m = Ok c.
Proof. intros Hv. unfold from_mapping. rewrite Hv. cbn -[keys_are]. intros H. by binds H. Qed.

(** [config-upgrade] accepts only documents every command refuses until
    then, takes project, module and services over unchanged, sets the backup
    policy the operator chose, and writes a text that reads back as the
    configuration it announced. *)
Theorem upgrade_makes_schema_3 py checks repr text bucket schedule out :
  upgrade_config py checks repr text bucket schedule = Ok out →
  is_ok (parse_config py checks repr text) = false ∧
  ∃ m c, safe_load py text = Some (YMap m) ∧ out = render_config py c ∧ taken_from m c ∧
    validate_backup_schedule schedule = Ok (bk_schedule (cf_backup c)) ∧
    bk_bucket (cf_backup c) = bucket ∧ bk_prefix (cf_backup c) = "djangoops-backups" ∧
    (safe_load py out = Some (to_mapping c) → parse_config py checks repr out = Ok c).
Proof.
  unfold upgrade_config, parse_config. destruct (safe_load py text) as [[| | | | | |m|]|] eqn:El; try done.
  destruct (equals_int _ 2) eqn:E2; [|done]. intros H. binds H. injection H as <-.
  split.
  - cbn. destruct (map_get m "schema_version") as [v|]; [|done]. cbn in E2.
    unfold upgrade_in_memory. destruct (equals_int v 1) eqn:E1; [by pose proof (equals_int_inj v 1 2 E1 E2)|].
    by rewrite E2.
  - match goal with H : from_mapping _ _ _ = Ok ?c |- _ => rename c into cfg; rename H into Hc end.
    match goal with H : validate_bucket _ _ = Ok _ |- _ => apply accept_ok in H as [<- _] end.
    match goal with H : validate_backup_schedule _ = Ok _ |- _ => rename H into Hs end.
    apply from_schema_3 in Hc as Hm; [|rewrite map_get_set_ne by done; apply map_get_set_eq].
    assert (Hround : from_mapping checks repr (to_mapping cfg) = Ok cfg).
    { apply sections_built in Hm as (? & ? & ? & ? & ? & ? & ? & ? & ? & ? & ? & ? & Hm).
      apply build_idemp in Hm as [??]. by rewrite from_to_mapping. }
    apply sections_taken in Hm as [(p & d & sv & Ht) (backup & s & Hb & Hs' & Hv & Hk & Hp)].
    rewrite map_get_set_eq in Hb. injection Hb as <-. cbn in Hs', Hk, Hp.
    rewrite !map_get_set_ne in Ht by done.
    injection Hs' as <-. injection Hk as Hk. injection Hp as Hp.
    rewrite (validate_backup_schedule_idemp _ _ Hs) in Hv. injection Hv as Hv. rewrite Hv in Hs.
    exists m, cfg. split_and!; try done; [by exists p, d, sv|].
    intros ->. done.
Qed.

(** * Concrete runs *)

Definition config_checks : UrlChecks := mkChecks (λ _, true) (λ _, true).
Definition config_repr (v : yaml) : string := "?".

Definition demo_config : DjangoOpsConfig :=
  mkConfig 3 "shop" "config.settings" (mkServices true true true true)
    (mkTLS "shop.example.com" "ops@example.com")
    (mkStorage "https://s3.example.com:9000" (Some "eu-1") "shop-static" "shop-media")
    (mkBackup "17 2 * * *" "shop-backups" "djangoops-backups").

Lemma config_round_trip_witness :
  let v := to_mapping demo_config in
  create config_checks "shop" "config.settings" "Shop.Example.COM." "ops@example.com"
    "https://s3.example.com:9000/" (Some "eu-1") "shop-static" "shop-media" " 17 2  * * *"
    "shop-backups" "djangoops-backups" = Ok demo_config ∧
  from_mapping config_checks config_repr v = Ok demo_config.
Proof.
  split; [by vm_compute|].
  apply (config_round_trip config_checks config_repr demo_config). right.
  exists "shop", "config.settings", "Shop.Example.COM.", "ops@example.com", "https://s3.example.com:9000/",
    (Some "eu-1"), "shop-static", "shop-media", " 17 2  * * *", "shop-backups", "djangoops-backups".
  by vm_compute.
Defined.

Definition without_backup (version : yaml) : mapping :=
  match to_mapping demo_config with
  | YMap m => map_set (filter (λ kv : yaml * yaml, is_key "backup" kv.1 = false) m) "schema_version" version
  | _ => []
  end.

Definition demo_yaml : Yaml :=
  mkYaml (λ text, if String.eqb text "old" then Some (YMap (without_backup (YInt 2)))
                  else Some (to_mapping demo_config))
    (λ _, "new").

Lemma upgrade_makes_schema_3_witness :
  upgrade_config demo_yaml config_checks config_repr "old" "shop-backups" "17 2 * * *" = Ok "new" ∧
  is_ok (parse_config demo_yaml config_checks config_repr "old") = false.
Proof.
  split; [by vm_compute|].
  apply (upgrade_makes_schema_3 demo_yaml config_checks config_repr "old" "shop-backups" "17 2 * * *" "new").
  by vm_compute.
Defined.

(** [schema_version: true] compares equal to 1 and is read as a legacy document. *)
Lemma schema_version_true_is_accepted :
  is_ok (from_mapping config_checks config_repr (YMap (without_backup (YBool true)))) = true.
Proof. by vm_compute. Qed.
