(* ===== verification/Deploy.v ===== *)
(** Direct-SSH deployment: [cli/djangoops/deploy.py].

    The remote host is an oracle: what [ssh] returns for a call may depend on
    every call made before.  The deployment threads that history, so that a run is
    the list of commands it sent and the release id or error it ended with. *)

From S2P Require Import Prelude Text Regex Telemetry Config Shell.

Open Scope string_scope.
Open Scope list_scope.
Open Scope nat_scope.

(** * Constants *)

Definition HOST_RE : re :=
  (Cls is_alnum ⋅ Opt (Between (Cls (alnum_or ".-")) 0 251 ⋅ Cls is_alnum))%re.
Definition USER_RE : re :=
  (Cls (or_class is_alpha (one_of "_")) ⋅ Between (Cls (alnum_or "_.-")) 0 31)%re.
Definition RELEASE_RE : re :=
  (Chr "r" ⋅ Between (Cls is_digit) 8 8 ⋅ Chr "T" ⋅ Between (Cls is_digit) 6 6 ⋅ Lit "Z-"
   ⋅ Plus (Cls is_digit))%re.
Definition EXCLUDED_DIRS : list string :=
  [".git"; ".hg"; ".svn"; ".mypy_cache"; ".pytest_cache"; ".ruff_cache"; ".tox"; ".venv";
   "__pycache__"; "node_modules"; "venv"].
Definition EXCLUDED_NAMES : list string := [".env"; ".secrets"; "id_ed25519"; "id_rsa"].
Definition EXCLUDED_SUFFIXES : list string := [".key"; ".pem"; ".p12"; ".pfx"].

(** * Target and plan *)

Definition is_control (c : ascii) : bool := (code c <? 32) || (code c =? 127).

Definition validate_remote_base (value : string) : result exn () :=
  _ ← raise_if (String.eqb value "" || str_existsb is_control value)
        (ValueError "remote base directory contains control characters");
  _ ← raise_if (negb (path_is_absolute value))
        (ValueError "remote base directory must be an absolute POSIX path");
  _ ← raise_if (existsb (λ part, str_in part ["."; ".."]) (path_parts value))
        (ValueError "remote base directory must not contain '.' or '..' segments");
  raise_if (String.eqb value "/")
    (ValueError "remote base directory must not be the filesystem root").

Record DeploymentTarget := mkDeployTarget {
  dt_host : string;
  dt_user : string;
  dt_port : Z;
  dt_remote_base : string;
  dt_identity_file : option string
}.

(** [DeploymentTarget.create]; [is_file] is [Path.is_file]. *)
Definition create_target (is_file : string → bool) (host user : string) (port : Z)
    (remote_base : string) (identity_file : option string) : result exn DeploymentTarget :=
  _ ← raise_if (negb (fullmatch HOST_RE host) || contains ".." host || startswith "-" host)
        (ValueError "SSH host must be a DNS name or IPv4-style host without shell syntax");
  _ ← raise_if (negb (fullmatch USER_RE user) || startswith "-" user)
        (ValueError "SSH user contains unsupported characters");
  _ ← raise_if (negb ((1 <=? port)%Z && (port <=? 65535)%Z))
        (ValueError "SSH port must be between 1 and 65535");
  _ ← validate_remote_base remote_base;
  _ ← raise_if (match identity_file with Some f => negb (is_file f) | None => false end)
        (ValueError ("SSH identity file does not exist: " +:+ default "" identity_file));
  Ok (mkDeployTarget host user port remote_base identity_file).

Record DeploymentPlan := mkPlan {
  pl_project_root : string;
  pl_project_name : string;
  pl_target : DeploymentTarget;
  pl_release_id : string;
  pl_compose_file : string
}.

Definition under (plan : DeploymentPlan) (suffix : string) : string :=
  dt_remote_base (pl_target plan) +:+ suffix.
Definition release_dir (plan : DeploymentPlan) : string := under plan ("/releases/" +:+ pl_release_id plan).
Definition current_path (plan : DeploymentPlan) : string := under plan "/current".
Definition shared_env_path (plan : DeploymentPlan) : string := under plan "/shared/.env".
Definition previous_path (plan : DeploymentPlan) : string := under plan ("/.previous-" +:+ pl_release_id plan).
Definition pending_path (plan : DeploymentPlan) : string := under plan ("/.current-" +:+ pl_release_id plan).
Definition restore_path (plan : DeploymentPlan) : string := under plan ("/.restore-" +:+ pl_release_id plan).

(** A [datetime] converted to UTC; [None] for a naive one. *)
Record utc_time := mkTime { tm_year : Z; tm_month : Z; tm_day : Z; tm_hour : Z; tm_minute : Z; tm_second : Z }.

(** [%m], [%d], ...: two digits. *)
Definition two_digits (z : Z) : string := if (z <? 10)%Z then "0" +:+ str_of_Z z else str_of_Z z.

Definition stamp (t : utc_time) : string :=
  str_of_Z (tm_year t) +:+ two_digits (tm_month t) +:+ two_digits (tm_day t) +:+ "T" +:+
  two_digits (tm_hour t) +:+ two_digits (tm_minute t) +:+ two_digits (tm_second t) +:+ "Z".

Definition release_id (now : option utc_time) (pid : Z) : result exn string :=
  match now with
  | None => Err (ValueError "release timestamp must be timezone-aware")
  | Some t => Ok ("r" +:+ stamp t +:+ "-" +:+ str_of_Z pid)
  end.

(** * The files of a release *)

(** What a directory holds: a regular file, a directory, a symbolic link (to a
    directory or not), anything else. *)
Inductive node :=
| File
| Dir (entries : list (string * node))
| LinkToDir
| Link
| Special.

(** [Path(name).suffix]: from the last dot, unless it begins or ends the name. *)
Definition suffix_of (name : string) : string :=
  match Url.rpartition "." name with
  | Some (stem, ext) => if String.eqb stem "" || String.eqb ext "" then "" else "." +:+ ext
  | None => ""
  end.

Definition is_secret_or_local_only (name : string) : bool :=
  if str_in name EXCLUDED_NAMES then true
  else if startswith ".env." name && negb (String.eqb name ".env.example") then true
  else str_in (lower (suffix_of name)) EXCLUDED_SUFFIXES.

(** [sorted] by name. *)
Definition by_name {A} (l : list (string * A)) : list (string * A) :=
  sort_by (λ x y, Json.str_leb x.1 y.1) l.

Definition is_regular (n : node) : bool := match n with File => true | _ => false end.
Definition is_dir (n : node) : bool := match n with Dir _ => true | _ => false end.
Definition is_kept_dir (e : string * list (list string)) : bool := negb (str_in e.1 EXCLUDED_DIRS).

(** [_iter_deploy_files]: paths below the root, segment by segment; [os.walk]
    visits a directory's files, then its subdirectories. *)
Fixpoint iter_deploy_files (n : node) : list (list string) :=
  match n with
  | Dir entries =>
      let files := filter (λ e : string * node, is_regular e.2 = true ∧ is_secret_or_local_only e.1 = false)
                     entries in
      let dirs := (fix walk (es : list (string * node)) : list (string * list (list string)) :=
        match es with
        | [] => []
        | (name, d) :: es =>
            if is_dir d then (name, iter_deploy_files d) :: walk es else walk es
        end) entries in
      ((λ e : string * node, [e.1]) <$> by_name files) ++
      (by_name (filter (λ e, is_kept_dir e = true) dirs) ≫= λ e, cons e.1 <$> e.2)
  | _ => []
  end.

(** * Remote calls *)

(** An archive is the list of the paths it packs. *)
Abbreviation archive := (list string).
Definition build_archive (root : node) : archive := join "/" <$> iter_deploy_files root.

Record call := mkCall { c_argv : list string; c_input : option archive }.
Inductive ssh_result := NotStarted | Exited (code : Z).

Definition ssh_argv (target : DeploymentTarget) (remote_command : string) : list string :=
  ["ssh"; "-o"; "BatchMode=yes"; "-p"; str_of_Z (dt_port target)]
  ++ match dt_identity_file target with Some f => ["-i"; f] | None => [] end
  ++ [dt_user target +:+ "@" +:+ dt_host target; remote_command].

Section remote.
Context (remote : list call → call → ssh_result).

(** A computation that makes remote calls: from the calls made before to those
    made after it, and its outcome. *)
Definition M (A : Type) : Type := list call → list call * result exn A.

Definition ret {A} (a : A) : M A := λ log, (log, Ok a).
Definition raise {A} (e : exn) : M A := λ log, (log, Err e).
Definition seq {A B} (m : M A) (f : A → M B) : M B := λ log,
  match m log with
  | (log, Ok a) => f a log
  | (log, Err e) => (log, Err e)
  end.
(** [try: m  except DeployError as exc: handler(exc)]; every error these calls
    raise is a [DeployError], a [RuntimeError]. *)
Definition catch {A} (m : M A) (handler : exn → M A) : M A := λ log,
  match m log with
  | (log, Err e) => handler e log
  | (log, Ok a) => (log, Ok a)
  end.

Definition run_ssh (target : DeploymentTarget) (command : string) (input : option archive) : M () := λ log,
  let c := mkCall (ssh_argv target command) input in
  (log ++ [c],
   match remote log c with
   | NotStarted => Err (RuntimeError "unable to execute the system OpenSSH client")
   | Exited 0 => Ok ()
   | Exited _ => Err (RuntimeError "remote SSH command failed")
   end).

(** [except DeployError as exc: raise DeployError(msg) from exc]. *)
Definition rewrap {A} (m : M A) (msg : string) : M A := catch m (λ _, raise (RuntimeError msg)).
(** [except DeployError: return]. *)
Definition ignore_errors (m : M ()) : M () := catch m (λ _, ret ()).

Section plan.
Context (plan : DeploymentPlan).

Definition q_release : string := quote (release_dir plan).
Definition q_current : string := quote (current_path plan).
Definition q_previous : string := quote (previous_path plan).
Definition q_pending : string := quote (pending_path plan).
Definition q_restore : string := quote (restore_path plan).

Definition ssh (command : string) (input : option archive) : M () :=
  run_ssh (pl_target plan) command input.

Definition upload_command : string :=
  "umask 077; mkdir -p " +:+ q_release +:+ " && tar -xzf - -C " +:+ q_release.

Definition upload_release (archive : archive) : M () :=
  rewrap (ssh upload_command (Some archive)) "release upload failed over SSH".

Definition dq (s : string) : string := dquote +:+ s +:+ dquote.

Definition capture_command : string :=
  "set -eu; if test -L " +:+ q_current +:+ " || test -d " +:+ q_current +:+ "; then " +:+
  "previous_target=$(readlink -f -- " +:+ q_current +:+ "); " +:+
  "test -n " +:+ dq "$previous_target" +:+ "; " +:+
  "ln -sfn -- " +:+ dq "$previous_target" +:+ " " +:+ q_previous +:+ "; " +:+
  "else rm -f -- " +:+ q_previous +:+ "; fi".

Definition capture_previous_current : M () :=
  rewrap (ssh capture_command None) "unable to preserve the pre-deployment current release".

Definition compose_prefix : string :=
  "docker compose -p " +:+ quote (pl_project_name plan) +:+ " -f " +:+ quote (pl_compose_file plan).

Definition start_command : string :=
  let shared_env := quote (shared_env_path plan) in
  "set -eu; test -f " +:+ shared_env +:+ "; ln -sfn " +:+ shared_env +:+ " " +:+ q_release +:+ "/.env; " +:+
  "cd " +:+ q_release +:+ "; " +:+ compose_prefix +:+ " up -d --build".

Definition start_release : M () :=
  rewrap (ssh start_command None)
    "remote Docker Compose startup failed; previous release restoration was attempted".

Definition preflight_command : string :=
  "set -eu; cd " +:+ q_release +:+ "; " +:+ compose_prefix +:+
  " exec -T web python manage.py migrate --plan --noinput".

Definition migration_preflight : M () :=
  rewrap (ssh preflight_command None)
    "Django migration pre-flight failed; staged release rollback was attempted".

Definition migrate_command : string :=
  "set -eu; cd " +:+ q_release +:+ "; " +:+ compose_prefix +:+
  " exec -T web python manage.py migrate --noinput".

Definition run_migrations : M () :=
  rewrap (ssh migrate_command None)
    "Django migration failed; previous application release restoration was attempted. Database schema changes may have been partially applied and require operator inspection".

Definition activate_command : string :=
  let base := quote (dt_remote_base (pl_target plan)) in
  "set -eu; mkdir -p " +:+ base +:+ "/releases " +:+ base +:+ "/shared; " +:+
  "ln -sfn " +:+ q_release +:+ " " +:+ q_pending +:+ "; mv -Tf " +:+ q_pending +:+ " " +:+ q_current.

Definition activate_release : M () :=
  rewrap (ssh activate_command None) "release started but current pointer activation failed".

Definition restore_command : string :=
  "set -eu; if test -L " +:+ q_previous +:+ "; then previous_target=$(readlink -- " +:+ q_previous +:+ "); " +:+
  "test -n " +:+ dq "$previous_target" +:+ "; " +:+
  "ln -sfn -- " +:+ dq "$previous_target" +:+ " " +:+ q_restore +:+ "; mv -Tf " +:+ q_restore +:+ " " +:+
  q_current +:+ "; " +:+
  "cd " +:+ dq "$previous_target" +:+ "; " +:+ compose_prefix +:+ " up -d --build; " +:+
  "else if test -L " +:+ q_current +:+ "; then current_target=$(readlink -- " +:+ q_current +:+ "); " +:+
  "if test " +:+ dq "$current_target" +:+ " = " +:+ q_release +:+ "; then rm -f -- " +:+ q_current +:+
  "; fi; fi; " +:+
  "cd " +:+ q_release +:+ "; " +:+ compose_prefix +:+ " down; fi".

Definition restore_or_stop_failed_release : M () := ignore_errors (ssh restore_command None).

(** The cleanups refuse to run on a release id they do not recognise. *)
Definition guarded_cleanup (command : string) : M () :=
  if fullmatch RELEASE_RE (pl_release_id plan) then ignore_errors (ssh command None) else ret ().

Definition pending_cleanup_command : string := "rm -f -- " +:+ q_pending.
Definition previous_cleanup_command : string := "rm -f -- " +:+ q_previous +:+ " " +:+ q_restore.
Definition release_cleanup_command : string := "rm -rf -- " +:+ q_release.

Definition cleanup_pending_pointer : M () := guarded_cleanup pending_cleanup_command.
Definition cleanup_previous_pointer : M () := guarded_cleanup previous_cleanup_command.
Definition cleanup_release : M () := guarded_cleanup release_cleanup_command.

Definition rollback_failed_staged_release : M () :=
  seq restore_or_stop_failed_release (λ _, seq cleanup_previous_pointer (λ _, cleanup_release)).

(** [except DeployError: cleanup; raise]. *)
Definition on_failure (m cleanup : M ()) : M () := catch m (λ e, seq cleanup (λ _, raise e)).

(** [deploy_project] from the upload on. *)
Definition deploy_plan (archive : archive) : M string :=
  seq (on_failure (upload_release archive) cleanup_release) (λ _,
  seq (on_failure capture_previous_current cleanup_release) (λ _,
  seq (on_failure start_release rollback_failed_staged_release) (λ _,
  seq (on_failure migration_preflight rollback_failed_staged_release) (λ _,
  seq (on_failure run_migrations rollback_failed_staged_release) (λ _,
  seq (catch activate_release (λ _,
         seq restore_or_stop_failed_release (λ _,
         seq cleanup_pending_pointer (λ _,
         seq cleanup_previous_pointer (λ _,
         seq cleanup_release (λ _,
         raise (RuntimeError "release activation failed after Django migrations completed; previous application release restoration was attempted. The database schema may no longer be compatible with the restored release and requires operator inspection"))))))) (λ _,
  seq cleanup_previous_pointer (λ _, ret (pl_release_id plan)))))))).
End plan.

(** [deploy_project].  [config] is what [load_config] returns or raises; of the
    file system it sees whether the Compose file exists, the two paths relative to
    the project root ([None] outside it), and the tree under the root. *)
Definition deploy_project (config : result exn DjangoOpsConfig) (compose_name : string)
    (compose_is_file : bool) (compose_relative config_relative : option string)
    (root_path : string) (root : node) (target : DeploymentTarget) (now : option utc_time) (pid : Z)
    : M string :=
  match config with
  | Err e => raise e
  | Ok config =>
      if negb compose_is_file
      then raise (RuntimeError (compose_name +:+ " does not exist; run 'djangoops compose' first"))
      else
        match compose_relative, config_relative with
        | Some compose_file, Some _ =>
            match release_id now pid with
            | Err e => raise e
            | Ok id =>
                deploy_plan (mkPlan root_path (cf_project config) target id (path_as_posix compose_file))
                  (build_archive root)
            end
        | _, _ => raise (RuntimeError "config and Compose files must be inside the project directory")
        end
  end.
End remote.
