(* ===== verification/DeployProps.v ===== *)
(** Properties of [Deploy]. *)

From S2P Require Import Prelude Text Regex Redaction Json Url Telemetry TelemetryProps Config Shell Deploy.

Open Scope string_scope.
Open Scope list_scope.
Open Scope nat_scope.

(** * What the remote shell reads *)

(** C12: whatever characters the remote base directory, the project name and the
    Compose file hold, the remote shell reads each command below as exactly these
    simple commands, every path being one word: nothing is expanded, split or
    run besides them. *)
Theorem commands_are_read_as_meant plan :
  let base := dt_remote_base (pl_target plan) in
  let release := base +:+ "/releases/" +:+ pl_release_id plan in
  let compose := ["docker"; "compose"; "-p"; pl_project_name plan; "-f"; pl_compose_file plan] in
  shell_commands (upload_command plan) =
    Some [["umask"; "077"]; ["mkdir"; "-p"; release]; ["tar"; "-xzf"; "-"; "-C"; release]] ∧
  shell_commands (start_command plan) =
    Some [["set"; "-eu"]; ["test"; "-f"; base +:+ "/shared/.env"];
          ["ln"; "-sfn"; base +:+ "/shared/.env"; release +:+ "/.env"]; ["cd"; release];
          compose ++ ["up"; "-d"; "--build"]] ∧
  shell_commands (migrate_command plan) =
    Some [["set"; "-eu"]; ["cd"; release];
          compose ++ ["exec"; "-T"; "web"; "python"; "manage.py"; "migrate"; "--noinput"]] ∧
  shell_commands (activate_command plan) =
    Some [["set"; "-eu"]; ["mkdir"; "-p"; base +:+ "/releases"; base +:+ "/shared"];
          ["ln"; "-sfn"; release; base +:+ "/.current-" +:+ pl_release_id plan];
          ["mv"; "-Tf"; base +:+ "/.current-" +:+ pl_release_id plan; base +:+ "/current"]] ∧
  shell_commands (release_cleanup_command plan) = Some [["rm"; "-rf"; "--"; release]].
Proof.
  cbn zeta. unfold upload_command, start_command, migrate_command, activate_command,
    release_cleanup_command, compose_prefix, q_release, q_pending, q_current.
  split_and!; read_command; done.
Qed.

(** * The order of a deployment *)

Section orchestration.
Context (remote : list call → call → ssh_result) (plan : DeploymentPlan).

Definition call_of (command : string) (input : option archive) : call :=
  mkCall (ssh_argv (pl_target plan) command) input.

Definition succeeds (log : list call) (c : call) : bool :=
  match remote log c with Exited 0 => true | _ => false end.

(** The six stages, and what is made of them: the calls up to and including the
    first one that fails, and how many succeeded. *)
Definition stages (archive : archive) : list call :=
  [call_of (upload_command plan) (Some archive); call_of (capture_command plan) None;
   call_of (start_command plan) None; call_of (preflight_command plan) None;
   call_of (migrate_command plan) None; call_of (activate_command plan) None].

Fixpoint attempt (log : list call) (cs : list call) : list call * nat :=
  match cs with
  | [] => ([], 0)
  | c :: cs =>
      if succeeds log c then let '(made, n) := attempt (log ++ [c]) cs in (c :: made, S n)
      else ([c], 0)
  end.

(** The calls that follow when [n] stages succeeded. *)
Definition aftermath (n : nat) : list call :=
  let restore := call_of (restore_command plan) None in
  let remove_pending := call_of (pending_cleanup_command plan) None in
  let remove_previous := call_of (previous_cleanup_command plan) None in
  let remove_release := call_of (release_cleanup_command plan) None in
  match n with
  | 0 | 1 => [remove_release]
  | 2 | 3 | 4 => [restore; remove_previous; remove_release]
  | 5 => [restore; remove_pending; remove_previous; remove_release]
  | _ => [remove_previous]
  end.

Lemma ssh_spec command input log :
  ssh remote plan command input log =
  (log ++ [call_of command input],
   if succeeds log (call_of command input) then Ok ()
   else Err (match remote log (call_of command input) with
             | NotStarted => RuntimeError "unable to execute the system OpenSSH client"
             | _ => RuntimeError "remote SSH command failed"
             end)).
Proof. unfold ssh, run_ssh, succeeds, call_of. by destruct (remote _ _) as [|[]]. Qed.

Lemma rewrap_spec command input msg log :
  rewrap (ssh remote plan command input) msg log =
  (log ++ [call_of command input],
   if succeeds log (call_of command input) then Ok () else Err (RuntimeError msg)).
Proof. unfold rewrap, catch. rewrite ssh_spec. by destruct (succeeds _ _). Qed.

Lemma ignore_spec command log :
  ignore_errors (ssh remote plan command None) log = (log ++ [call_of command None], Ok ()).
Proof. unfold ignore_errors, catch. rewrite ssh_spec. by destruct (succeeds _ _). Qed.

Lemma cleanup_spec command log : fullmatch RELEASE_RE (pl_release_id plan) = true →
  guarded_cleanup remote plan command log = (log ++ [call_of command None], Ok ()).
Proof. intros H. unfold guarded_cleanup. rewrite H. apply ignore_spec. Qed.

Lemma rollback_spec log : fullmatch RELEASE_RE (pl_release_id plan) = true →
  rollback_failed_staged_release remote plan log = (log ++ aftermath 2, Ok ()).
Proof.
  intros H. unfold rollback_failed_staged_release, seq, restore_or_stop_failed_release,
    cleanup_previous_pointer, cleanup_release.
  rewrite ignore_spec, !cleanup_spec by done. by rewrite <- !app_assoc.
Qed.

(** One stage: it succeeds and the rest follows, or its clean-up does. *)
Lemma stage_spec {A} (m cleanup : M ()) (k : M A) command input msg after log :
  (∀ log, m log = rewrap (ssh remote plan command input) msg log) →
  (∀ log, cleanup log = (log ++ after, Ok ())) →
  seq (on_failure m cleanup) (λ _, k) log =
  if succeeds log (call_of command input) then k (log ++ [call_of command input])
  else (log ++ [call_of command input] ++ after, Err (RuntimeError msg)).
Proof.
  intros Hm Hc. unfold seq, on_failure, catch. rewrite Hm, rewrap_spec.
  destruct (succeeds _ _); [done|]. cbn. unfold seq. rewrite Hc. cbn. by rewrite <- app_assoc.
Qed.

Ltac stage H :=
  erewrite stage_spec; [|by intros|apply H]; cbn [attempt];
  destruct (succeeds _ _); [|cbn; rewrite <- ?app_assoc; eauto].

(** C7: whatever the remote host answers, a deployment sends the six stages in
    order up to the first that fails, then exactly the clean-up that failure
    calls for (nothing is activated before the migrations have succeeded, and
    the staged release is removed on every failure), and succeeds exactly when
    all six do. *)
Theorem deployment_order archive log :
  fullmatch RELEASE_RE (pl_release_id plan) = true →
  let '(made, n) := attempt log (stages archive) in
  let '(log', outcome) := deploy_plan remote plan archive log in
  log' = log ++ made ++ aftermath n ∧
  (if n =? 6 then outcome = Ok (pl_release_id plan) else ∃ msg, outcome = Err (RuntimeError msg)).
Proof.
  intros Hid. unfold deploy_plan, stages.
  assert (Hc : ∀ log, cleanup_release remote plan log = (log ++ aftermath 1, Ok ()))
    by (intros; by apply cleanup_spec).
  assert (Hr : ∀ log, rollback_failed_staged_release remote plan log = (log ++ aftermath 2, Ok ()))
    by (intros; by apply rollback_spec).
  stage Hc. stage Hc. stage Hr. stage Hr. stage Hr.
  unfold seq, catch, activate_release, restore_or_stop_failed_release, cleanup_pending_pointer,
    cleanup_previous_pointer, cleanup_release.
  rewrite rewrap_spec. destruct (succeeds _ _); rewrite ?ignore_spec, !cleanup_spec by done;
    cbn; rewrite <- ?app_assoc; eauto.
Qed.
End orchestration.

(** * The files of a release *)

(** A regular file that is not secret, below directories none of which is
    excluded or a symbolic link. *)
Inductive deployable : node → list string → Prop :=
| deployable_file entries name :
    (name, File) ∈ entries → is_secret_or_local_only name = false → deployable (Dir entries) [name]
| deployable_below entries name n path :
    (name, n) ∈ entries → is_dir n = true → name ∉ EXCLUDED_DIRS → deployable n path →
    deployable (Dir entries) (name :: path).

Lemma node_ind' (P : node → Prop) :
  (∀ n, is_dir n = false → P n) → (∀ es, Forall (λ e : string * node, P e.2) es → P (Dir es)) → ∀ n, P n.
Proof.
  intros Hleaf Hdir. refine (fix IH (n : node) : P n := _). destruct n as [|es| | |]; try by apply Hleaf.
  apply Hdir. refine ((fix all (es : list (string * node)) : Forall (λ e, P e.2) es :=
    match es with [] => Forall_nil_2 _ | e :: es => Forall_cons_2 _ _ _ (IH e.2) (all es) end) es).
Qed.

Definition subdirs (es : list (string * node)) : list (string * list (list string)) :=
  (λ e : string * node, (e.1, iter_deploy_files e.2)) <$> filter (λ e, is_dir e.2 = true) es.

Lemma iter_dir es : iter_deploy_files (Dir es) =
  ((λ e : string * node, [e.1]) <$> by_name
     (filter (λ e : string * node, is_regular e.2 = true ∧ is_secret_or_local_only e.1 = false) es)) ++
  (by_name (filter (λ e, is_kept_dir e = true) (subdirs es)) ≫= λ e, cons e.1 <$> e.2).
Proof.
  cbn [iter_deploy_files]. do 4 f_equal. unfold subdirs. induction es as [|[name n] es IH]; [done|].
  rewrite filter_cons. cbn. rewrite IH. by destruct n.
Qed.

Lemma by_name_elem {A} (x : string * A) l : x ∈ by_name l ↔ x ∈ l.
Proof. unfold by_name. by rewrite sort_by_elem. Qed.

(** C37: the archive holds exactly the deployable files: regular files without a
    secret-like name, reached without following a symbolic link and without
    entering a version-control, cache or environment directory. *)
Theorem archive_holds_deployable_files root path :
  path ∈ iter_deploy_files root ↔ deployable root path.
Proof.
  revert path. induction root as [n Hn|es IH] using node_ind'; intros path.
  - split; [by destruct n; try intros ?%elem_of_nil|]. inversion 1; by subst.
  - rewrite iter_dir, elem_of_app, list_elem_of_fmap, list_elem_of_bind. setoid_rewrite by_name_elem.
    setoid_rewrite list_elem_of_filter. rewrite Forall_forall in IH. split.
    + intros [([name n] & -> & [[Hf Hs] Hin])|([name ps] & Hp & [Hk Hin])].
      * destruct n; try done. by apply deployable_file.
      * apply list_elem_of_fmap in Hp as (p & -> & Hp). unfold subdirs in Hin.
        apply list_elem_of_fmap in Hin as ([name' n] & [= -> ->] & [Hd Hin]%list_elem_of_filter).
        eapply deployable_below; [exact Hin|done| |by apply (IH _ Hin)].
        intros Hex. unfold is_kept_dir in Hk. apply negb_true_iff in Hk. cbn in Hk.
        by apply bool_decide_eq_false in Hk.
    + inversion 1 as [? name Hin Hs|? name n p Hin Hd Hex Hp]; subst.
      * left. exists (name, File). done.
      * right. exists (name, iter_deploy_files n). cbn. split.
        -- apply list_elem_of_fmap. exists p. split; [done|]. by apply (IH (name, n)).
        -- split; [unfold is_kept_dir; cbn; by apply negb_true_iff, bool_decide_eq_false|].
           unfold subdirs. apply list_elem_of_fmap. exists (name, n). split; [done|].
           by apply list_elem_of_filter.
Qed.

(** * A concrete run *)

Definition demo_target : DeploymentTarget := mkDeployTarget "app.example.com" "deploy" 22 "/srv/my app" None.
Definition demo_time : utc_time := mkTime 2026 3 9 7 5 0.
Definition demo_plan : DeploymentPlan :=
  mkPlan "/work/shop" "shop" demo_target "r20260309T070500Z-77" "docker-compose.yml".

Example demo_release_id : release_id (Some demo_time) 77 = Ok (pl_release_id demo_plan).
Proof. by vm_compute. Qed.

Example demo_files :
  iter_deploy_files (Dir [("src", Dir [("b.py", File); ("a.py", File); ("x.PEM", File)]); (".git", Dir [("HEAD", File)]);
    (".env.example", File); (".env.local", File); ("data", LinkToDir)]) =
  [[".env.example"]; ["src"; "a.py"]; ["src"; "b.py"]].
Proof. by vm_compute. Qed.

(** The host runs out of disk during the migrations. *)
Definition demo_remote (log : list call) (c : call) : ssh_result := if length log =? 4 then Exited 1 else Exited 0.

Lemma deployment_order_witness :
  let '(log', outcome) := deploy_plan demo_remote demo_plan ["manage.py"] [] in
  log' = take 5 (stages demo_plan ["manage.py"]) ++ aftermath demo_plan 4 ∧
  ∃ msg, outcome = Err (RuntimeError msg).
Proof.
  assert (Hid : fullmatch RELEASE_RE (pl_release_id demo_plan) = true) by by vm_compute.
  exact (deployment_order demo_remote demo_plan ["manage.py"] [] Hid).
Defined.
