(* ===== verification/Health.v ===== *)
(** Health diagnostics over SSH: [cli/djangoops/health.py]. *)

From S2P Require Import Prelude Text Dict Json Config Shell Deploy.

Open Scope string_scope.
Open Scope list_scope.
Open Scope nat_scope.

Definition HEALTH_SCHEMA_VERSION : Z := 1.
Definition CHECK_NAMES : list string :=
  ["active_release"; "compose_services"; "django_deploy_check"; "database_connectivity";
   "pending_migrations"].

Record HealthCheck := mkHealthCheck { hc_name : string; hc_status : string }.
Definition check_healthy (c : HealthCheck) : bool := String.eqb (hc_status c) "pass".

(** A report is its checks. *)
Abbreviation HealthReport := (list HealthCheck).
Definition healthy (r : HealthReport) : bool := forallb check_healthy r.
Definition overall_status (r : HealthReport) : string := if healthy r then "healthy" else "unhealthy".

Definition report_json (r : HealthReport) : string :=
  dumps (JObj
    [("checks", JArr ((λ c, JObj [("name", JStr (hc_name c)); ("status", JStr (hc_status c))]) <$> r));
     ("overall_status", JStr (overall_status r));
     ("schema_version", JInt HEALTH_SCHEMA_VERSION)]).

Definition validate_compose_file (value : string) : result exn string :=
  _ ← raise_if (String.eqb value "" || str_existsb is_control value)
        (ValueError "Compose file path contains control characters");
  _ ← raise_if (path_is_absolute value) (ValueError "Compose file path must be project-relative");
  _ ← raise_if (existsb (λ part, str_in part ["."; ".."]) (path_parts value))
        (ValueError "Compose file path must not contain '.' or '..' segments");
  Ok (path_as_posix value).

(** One line of the remote output: what it does to the results so far. *)
Definition report_line (results : list (string * string)) (line : string) : list (string * string) :=
  match split_on (char 9) line with
  | [mark; name; remote_status] =>
      if negb (String.eqb mark "DJANGOOPS_HEALTH") then results
      else if str_in name CHECK_NAMES && negb (dict_has results name) && str_in remote_status ["PASS"; "FAIL"]
      then dict_set results name (if String.eqb remote_status "PASS" then "pass" else "fail")
      else results
  | _ => results
  end.

Definition parse_report (output : string) : result exn HealthReport :=
  let results := fold_left report_line (splitlines output) [] in
  if bool_decide (results.*1 = CHECK_NAMES)
  then Ok ((λ name, mkHealthCheck name (default "" (dict_get results name))) <$> CHECK_NAMES)
  else Err (RuntimeError "remote health response was incomplete or invalid").

(** ** The remote command *)

Definition emit (name status : string) : string := "emit " +:+ name +:+ " " +:+ status.

(** [if (cd "$release" && docker compose -f F exec -T web ARGS >/dev/null 2>&1); then emit ...]. *)
Definition web_check (compose args name : string) : string :=
  "if (cd " +:+ dq "$release" +:+ " && docker compose -f " +:+ compose +:+ " exec -T web " +:+ args +:+
  " >/dev/null 2>&1); then " +:+ emit name "PASS" +:+ "; else " +:+ emit name "FAIL" +:+ "; fi; ".

Definition health_remote_command (remote_base compose_file : string) : string :=
  let base := quote remote_base in
  let current := quote (remote_base +:+ "/current") in
  let compose := quote compose_file in
  let db_probe := quote "from django.db import connection; connection.ensure_connection()" in
  "set -u; " +:+
  "emit() { printf 'DJANGOOPS_HEALTH\t%s\t%s\n' " +:+ dq "$1" +:+ " " +:+ dq "$2" +:+ "; }; " +:+
  "release=$(readlink -f -- " +:+ current +:+ " 2>/dev/null || true); " +:+
  "case " +:+ dq "$release" +:+ " in " +:+ base +:+ "/releases/*) " +:+
  "if test -d " +:+ dq "$release" +:+ "; then active=1; emit active_release PASS; " +:+
  "else active=0; emit active_release FAIL; fi ;; " +:+
  "*) active=0; emit active_release FAIL ;; esac; " +:+
  "if test " +:+ dq "$active" +:+ " -eq 1; then " +:+
  "if (cd " +:+ dq "$release" +:+ " && declared=$(docker compose -f " +:+ compose +:+
  " config --services 2>/dev/null) && " +:+
  "running=$(docker compose -f " +:+ compose +:+ " ps --services " +:+
  "--filter status=running 2>/dev/null) && " +:+
  "test -n " +:+ dq "$declared" +:+ " && test -n " +:+ dq "$running" +:+ " && ok=1; " +:+
  "for service in $declared; do " +:+
  "if printf " +:+ dq "%s\n" +:+ " " +:+ dq "$running" +:+ " | grep -Fx " +:+ dq "$service" +:+ " >/dev/null; " +:+
  "then :; else ok=0; fi; done; " +:+
  "test " +:+ dq "$ok" +:+ " -eq 1); then emit compose_services PASS; " +:+
  "else emit compose_services FAIL; fi; " +:+
  web_check compose "python manage.py check --deploy" "django_deploy_check" +:+
  web_check compose ("python manage.py shell -c " +:+ db_probe) "database_connectivity" +:+
  web_check compose "python manage.py migrate --check --noinput" "pending_migrations" +:+
  "else emit compose_services FAIL; emit django_deploy_check FAIL; " +:+
  "emit database_connectivity FAIL; emit pending_migrations FAIL; fi".

(** [subprocess.run] with captured text: not started, or exit code and output. *)
Inductive completed := RunNotStarted | Completed (returncode : Z) (stdout : string).

Definition health_project (run : list string → completed) (target : DeploymentTarget) (compose_file : string)
    : result exn HealthReport :=
  compose_file ← validate_compose_file compose_file;
  match run (ssh_argv target (health_remote_command (dt_remote_base target) compose_file)) with
  | RunNotStarted => Err (RuntimeError "unable to execute the system OpenSSH client")
  | Completed 0 stdout => parse_report stdout
  | Completed _ _ => Err (RuntimeError "health evaluation failed over SSH")
  end.
