(* ===== verification/HealthProps.v ===== *)
(** Properties of [Health]. *)

From S2P Require Import Prelude Text Dict Json Config Shell Deploy Health.

Open Scope string_scope.
Open Scope list_scope.
Open Scope nat_scope.

(** * Specification: the first valid line of each check counts *)

Definition reported (line : string) : option (string * string) :=
  match split_on (char 9) line with
  | [mark; name; status] =>
      if String.eqb mark "DJANGOOPS_HEALTH" && str_in name CHECK_NAMES && str_in status ["PASS"; "FAIL"]
      then Some (name, if String.eqb status "PASS" then "pass" else "fail") else None
  | _ => None
  end.

Fixpoint firsts (seen : list string) (l : list (string * string)) : list (string * string) :=
  match l with
  | [] => []
  | (name, status) :: l =>
      if str_in name seen then firsts seen l else (name, status) :: firsts (name :: seen) l
  end.

Lemma firsts_ext seen seen' l : (∀ x, x ∈ seen ↔ x ∈ seen') → firsts seen l = firsts seen' l.
Proof.
  revert seen seen'. induction l as [|[name status] l IH]; intros seen seen' Hs; [done|]. cbn.
  replace (str_in name seen') with (str_in name seen); [|by apply bool_decide_ext].
  destruct (str_in name seen); [by apply IH|]. f_equal. apply IH. intros x. rewrite !elem_of_cons, Hs. done.
Qed.

Lemma fold_report_line lines results :
  fold_left report_line lines results = results ++ firsts results.*1 (omap reported lines).
Proof.
  revert results. induction lines as [|line lines IH]; intros results; cbn [fold_left omap list_omap].
  - by rewrite app_nil_r.
  - rewrite IH. unfold report_line, reported.
    destruct (split_on (char 9) line) as [|mark [|name [|status [|]]]]; try done.
    destruct (String.eqb mark "DJANGOOPS_HEALTH"); [|done]. cbn [negb andb].
    destruct (str_in name CHECK_NAMES); [|done]. cbn [andb].
    destruct (str_in status ["PASS"; "FAIL"]); [|by rewrite andb_false_r]. rewrite andb_true_r.
    unfold dict_has. cbn [firsts]. change (bool_decide (name ∈ results.*1)) with (str_in name results.*1).
    destruct (str_in name results.*1) eqn:E; [done|]. cbn [negb].
    apply bool_decide_eq_false in E.
    rewrite dict_set_fresh by (by apply dict_get_None). rewrite <- app_assoc. cbn. do 2 f_equal.
    apply firsts_ext. intros x. rewrite fmap_app, elem_of_app, !elem_of_cons. cbn. rewrite list_elem_of_singleton. tauto.
Qed.

(** ** Lines *)

Definition one_line (s : string) : Prop := str_forallb (λ c, negb (is_line_break c)) s = true.
Definition terminated (lines : list string) : string := foldr (λ l out, l +:+ newline +:+ out) "" lines.

Lemma splitlines_line word line rest : one_line line →
  splitlines_from word (line +:+ newline +:+ rest) = (word +:+ line) :: splitlines_from "" rest.
Proof.
  unfold one_line. revert word. induction line as [|c line IH]; intros word Hl.
  - rewrite str_app_nil_l, str_app_nil_r. cbn. by destruct rest.
  - cbn in Hl. apply andb_true_iff in Hl as [Hc%negb_true_iff Hl].
    rewrite str_app_cons. cbn [splitlines_from]. rewrite Hc, IH by done. by rewrite <- str_app_assoc.
Qed.

Lemma splitlines_terminated lines : Forall one_line lines → splitlines (terminated lines) = lines.
Proof.
  unfold splitlines. induction 1 as [|line lines Hl _ IH]; [done|]. cbn [terminated foldr].
  rewrite splitlines_line by done. by f_equal.
Qed.

Definition status_of (ok : bool) : string := if ok then "pass" else "fail".

Lemma map_keys d : dict_wf d →
  (λ name, mkHealthCheck name (default "" (dict_get d name))) <$> d.*1 =
  (λ kv : string * string, mkHealthCheck kv.1 kv.2) <$> d.
Proof.
  intros Hwf. rewrite <- list_fmap_compose. apply list_fmap_ext. intros i [k v] Hi. cbn.
  by rewrite (dict_get_elem d k v Hwf) by (by eapply list_elem_of_lookup_2).
Qed.

Lemma parse_report_spec output :
  parse_report output =
    let valid := firsts [] (omap reported (splitlines output)) in
    if bool_decide (valid.*1 = CHECK_NAMES)
    then Ok ((λ kv, mkHealthCheck kv.1 kv.2) <$> valid)
    else Err (RuntimeError "remote health response was incomplete or invalid").
Proof.
  unfold parse_report. rewrite fold_report_line. cbn zeta. rewrite app_nil_l. cbn [fmap list_fmap].
  set (valid := firsts _ _). case_bool_decide as Hv; [|done]. f_equal. rewrite <- Hv. apply map_keys.
  unfold dict_wf. rewrite Hv. by apply (bool_decide_unpack _).
Qed.

(** C39: the report is exact.  The output of a remote run is accepted precisely
    when the first valid lines of the checks come once each in the expected
    order, and each check then has the status of its first valid line; so when
    the remote script emitted its five lines, whatever other lines are mixed in,
    the report says healthy exactly when all five passed. *)
Theorem health_report_is_exact :
  (∀ output, parse_report output =
     let valid := firsts [] (omap reported (splitlines output)) in
     if bool_decide (valid.*1 = CHECK_NAMES)
     then Ok ((λ kv, mkHealthCheck kv.1 kv.2) <$> valid)
     else Err (RuntimeError "remote health response was incomplete or invalid")) ∧
  (∀ lines a b c d e, Forall one_line lines →
     omap reported lines = zip CHECK_NAMES (status_of <$> [a; b; c; d; e]) →
     ∃ r, parse_report (terminated lines) = Ok r ∧ healthy r = a && b && c && d && e).
Proof.
  split; [exact parse_report_spec|]. intros lines a b c d e Hl Ho.
  eexists. rewrite parse_report_spec, splitlines_terminated, Ho by done.
  cbn zeta. cbn [zip zip_with CHECK_NAMES fmap list_fmap].
  split; [by vm_compute|]. by destruct a, b, c, d, e.
Qed.

(** * A concrete run *)

Definition demo_lines : list string :=
  ["Warning: Permanently added the host"; "DJANGOOPS_HEALTH" +:+ tab +:+ "active_release" +:+ tab +:+ "PASS";
   "DJANGOOPS_HEALTH" +:+ tab +:+ "compose_services" +:+ tab +:+ "PASS"; "";
   "DJANGOOPS_HEALTH" +:+ tab +:+ "django_deploy_check" +:+ tab +:+ "FAIL";
   "DJANGOOPS_HEALTH" +:+ tab +:+ "database_connectivity" +:+ tab +:+ "PASS";
   "DJANGOOPS_HEALTH" +:+ tab +:+ "pending_migrations" +:+ tab +:+ "PASS"].

Lemma health_report_is_exact_witness :
  ∃ r, parse_report (terminated demo_lines) = Ok r ∧ healthy r = false.
Proof.
  apply (proj2 health_report_is_exact demo_lines true true false true true).
  - unfold demo_lines. repeat (apply Forall_cons_2; [by vm_compute|]). apply Forall_nil_2.
  - by vm_compute.
Defined.
