(* ===== verification/Observability.v ===== *)
(** What the control plane observes of its own rows: [controlplane/observability.py].

    The handlers run on Django's [post_save] signal, one after the other. *)

From S2P Require Import Prelude Text Url Json Dict Gateway Store Models Services Telemetry Kubernetes.

Open Scope list_scope.
Open Scope nat_scope.

Definition MAX_SEEN : nat := 2048.
#[global] Arguments MAX_SEEN : simpl never.

(** [_seen] and [_seen_order]. *)
Record seen_state := mkSeen { seen : gset string; seen_order : list string }.
Definition nothing_seen : seen_state := mkSeen ∅ [].

Definition remember (key : string) (st : seen_state) : seen_state * bool :=
  if bool_decide (key ∈ seen st) then (st, false)
  else
    let '(s, order) :=
      match seen_order st with
      | oldest :: rest =>
          if MAX_SEEN <=? length (seen_order st) then (seen st ∖ {[oldest]}, rest)
          else (seen st, seen_order st)
      | [] => (seen st, [])
      end in
    (mkSeen ({[key]} ∪ s) (order ++ [key]), true).

(** A saved row, as the handlers see it: its kind, identifier, status, project
    and the milliseconds between its creation and its last update. *)
Record saved := mkSaved {
  sd_kind : string;
  sd_id : string;
  sd_status : string;
  sd_project : nat;
  sd_created_at : Z;
  sd_updated_at : Z
}.

Definition saved_diagnostic (op : DiagnosticOperation) : saved :=
  mkSaved "diagnostic" (op_public_id op) (op_status op) (project_id (op_project op))
    (op_created_at op) (op_updated_at op).
Definition saved_release (updated_at : Z) (r : KubernetesRelease) : saved :=
  mkSaved "kubernetes_release" (rl_operation_id r) (rl_status r) (rl_project r) (rl_created_at r) updated_at.

Definition seen_key (prefix : string) (s : saved) : string :=
  prefix +:+ ":" +:+ sd_id s +:+ ":" +:+ sd_status s.

Section handlers.
(** The tokens [telemetry.observe] draws. *)
Context (random trace span : string).

(** The body the two handlers share. *)
Definition row_saved (statuses : list string) (prefix : string) (s : saved)
    (st : seen_state * Telemetry) : seen_state * Telemetry :=
  if negb (str_in (sd_status s) statuses) then st
  else
    match remember (seen_key prefix s) st.1 with
    | (seen', false) => (seen', st.2)
    | (seen', true) =>
        (seen', observe random trace span "controlplane" (sd_kind s) (sd_status s)
                  (Z.max 0 (sd_updated_at s - sd_created_at s)) (Some (sd_id s))
                  (Some (Z.of_nat (sd_project s))) false st.2)
    end.

Definition diagnostic_saved (op : DiagnosticOperation) : seen_state * Telemetry → seen_state * Telemetry :=
  row_saved TERMINAL "diagnostic" (saved_diagnostic op).
Definition release_saved (updated_at : Z) (r : KubernetesRelease)
    : seen_state * Telemetry → seen_state * Telemetry :=
  row_saved K8S_TERMINAL "release" (saved_release updated_at r).

(** A run of signals. *)
Inductive signal :=
| DiagnosticSaved (op : DiagnosticOperation)
| ReleaseSaved (updated_at : Z) (r : KubernetesRelease).

Definition on_signal (st : seen_state * Telemetry) (s : signal) : seen_state * Telemetry :=
  match s with
  | DiagnosticSaved op => diagnostic_saved op st
  | ReleaseSaved updated_at r => release_saved updated_at r st
  end.
End handlers.

(** * Summaries *)

Definition FAILED_STATUSES : list string :=
  ["failed"; "offline"; "overloaded"; "disconnected"; "timeout"; "rollback_blocked"].

Record ObservabilitySummary := mkSummary {
  su_total_agents : nat;
  su_connected_agents : nat;
  su_recent_operations : nat;
  su_recent_releases : nat;
  su_recent_failures : nat;
  su_otlp_configured : bool;
  su_telemetry_status : string
}.

Definition count {A} (p : A → bool) (l : list A) : nat := length (filter (λ x, p x = true) l).

Section summaries.
Context {TO TR : Type} `{Table DiagnosticOperation TO} `{Table KubernetesRelease TR}.

(** The statuses of the newest [n] rows of a project. *)
Definition recent_operations (n project : nat) (t : TO) : list string :=
  omap (λ k, op_status <$> tb_get t k)
    (take n (tb_select (λ _ op, project_id (op_project op) =? project) op_created_at t)).
Definition recent_releases (n project : nat) (t : TR) : list string :=
  omap (λ k, rl_status <$> tb_get t k)
    (take n (tb_select (λ _ r, rl_project r =? project) rl_created_at t)).

Definition connected_agents (be : OperationsBackend) (agents : list AgentRegistration) : nat :=
  count (λ a, st_connected (agent_state be a)) agents.

Definition summary_for_project (be : OperationsBackend) (projects : list Project)
    (agents : list AgentRegistration) (ops : TO) (rels : TR) (t : Telemetry) (user project : nat)
    : result exn ObservabilitySummary :=
  match filter (λ p, user ∈ members p ∧ project_id p = project) projects with
  | p :: _ =>
      let agents := filter (λ a, project_id (agent_project a) = project_id p) agents in
      let operations := recent_operations 50 (project_id p) ops in
      let releases := recent_releases 50 (project_id p) rels in
      let failed s := str_in s FAILED_STATUSES in
      let configured := negb (String.eqb (t_endpoint t) "") in
      Ok (mkSummary (length agents) (connected_agents be agents) (length operations) (length releases)
            (count failed operations + count failed releases) configured
            (if configured then "configured" else "disabled"))
  | [] => Err (OtherError "Project.DoesNotExist")
  end.

Definition prometheus_extra (be : OperationsBackend) (agents : list AgentRegistration) (ops : TO) (rels : TR)
    : list (string * Z) :=
  [("djangoops_agents_registered", Z.of_nat (length agents));
   ("djangoops_agents_connected", Z.of_nat (connected_agents be agents));
   ("djangoops_diagnostics_inflight",
     Z.of_nat (length (tb_select (λ _ op, str_in (op_status op) ["pending"; "running"]) op_created_at ops)));
   ("djangoops_kubernetes_releases_inflight",
     Z.of_nat (length (tb_select (λ _ r, str_in (rl_status r) K8S_ACTIVE) rl_created_at rels)))]%string.
End summaries.

(** * Helm values of a GraphQL release request

    [_release_values] ([controlplane/graphql/schema.py]) and the wrapper
    [install_graphql_field] puts around it.  An input object is a dictionary of
    JSON values; GraphQL has already checked their types. *)

Definition present (raw : values) (key : string) : option json :=
  match dict_get raw key with Some JNull | None => None | v => v end.

(** [bool(raw.get(key))]. *)
Definition truthy_json (v : option json) : bool :=
  match v with
  | None | Some JNull | Some (JBool false) | Some (JInt 0) | Some (JArr []) | Some (JObj []) => false
  | Some (JStr s) => negb (String.eqb s "")
  | Some _ => true
  end.

Definition set_present (raw : values) (key : string) (wrap : json → json) (name : string) (vs : values) : values :=
  match present raw key with Some v => dict_set vs name (wrap v) | None => vs end.

Definition base_release_values (raw : values) : values :=
  let enabled v := JObj [("enabled"%string, v)] in
  let vs := set_present raw "webReplicas" id "webReplicas" [] in
  let vs := set_present raw "environmentSecretName" id "environmentSecretName" vs in
  let vs := set_present raw "migrationCompatibility" id "migrationCompatibility" vs in
  let vs := set_present raw "celeryWorkerEnabled" enabled "celeryWorker" vs in
  let vs := set_present raw "celeryBeatEnabled" enabled "celeryBeat" vs in
  if truthy_json (dict_get raw "ingressHost") then
    dict_set vs "ingress"%string
      (JObj [("enabled", JBool true); ("host", default JNull (dict_get raw "ingressHost"));
             ("className", default (JStr "") (dict_get raw "ingressClass"));
             ("tlsSecretName", default (JStr "") (dict_get raw "tlsSecretName"))]%string)
  else vs.

Definition str_default (raw : values) (key default_ : string) : string :=
  default ""%string (scalar_str (default (JStr default_) (dict_get raw key))).

Definition release_values (checks : UrlChecks) (raw : values) : result exn values :=
  let vs := base_release_values raw in
  if truthy_json (dict_get raw "observabilityEnabled") then
    endpoint ← validate_otlp_endpoint checks (str_default raw "otlpEndpoint" "");
    let namespace := str_take 63 (str_default raw "otelServiceNamespace" "djangoops") in
    Ok (dict_set vs "observability"%string
          (JObj [("enabled", JBool true); ("otlpEndpoint", JStr endpoint);
                 ("serviceNamespace", JStr namespace)]%string))
  else Ok vs.
