(* ===== verification/ObservabilityProps.v ===== *)
(** Properties of [Observability]. *)

From S2P Require Import Prelude Text Url Json Gateway Store Models Services Telemetry Kubernetes Observability.

Open Scope list_scope.
Open Scope nat_scope.

(** * Keys determine kind and status *)

Lemma rpartition_app sep a b : char_in sep b = false → rpartition sep (a +:+ String sep b) = Some (a, b).
Proof.
  intros Hb. induction a as [|x a IH].
  - rewrite str_app_nil_l. cbn [rpartition]. rewrite (proj2 (rpartition_none sep b) Hb).
    by destruct (Ascii.eqb_spec sep sep).
  - rewrite str_app_cons. cbn [rpartition]. by rewrite IH.
Qed.

(** What a signal is about, when it is observed at all. *)
Definition observed (s : signal) : option (string * label) :=
  match s with
  | DiagnosticSaved op =>
      if str_in (op_status op) TERMINAL
      then Some (seen_key "diagnostic" (saved_diagnostic op), ("controlplane", "diagnostic", op_status op)%string)
      else None
  | ReleaseSaved at_ r =>
      if str_in (rl_status r) K8S_TERMINAL
      then Some (seen_key "release" (saved_release at_ r), ("controlplane", "kubernetes_release", rl_status r)%string)
      else None
  end.

Lemma terminal_no_colon s : str_in s (TERMINAL ++ K8S_TERMINAL) = true → char_in ":" s = false.
Proof.
  intros H%str_in_spec. assert (Hall : Forall (λ s, char_in ":" s = false) (TERMINAL ++ K8S_TERMINAL)).
  { repeat (apply Forall_cons_2; [done|]). apply Forall_nil_2. }
  rewrite Forall_forall in Hall. by apply Hall.
Qed.

Lemma seen_key_status p s : char_in ":" (sd_status s) = false →
  rpartition ":" (seen_key p s) = Some (p +:+ ":" +:+ sd_id s, sd_status s).
Proof.
  intros H. unfold seen_key. rewrite <- (rpartition_app ":" _ _ H). f_equal.
  change (String ":" (sd_status s)) with (":" +:+ sd_status s)%string. by rewrite !str_app_assoc.
Qed.

(** Two observed signals with the same key have the same label. *)
Lemma observed_label s1 s2 k l1 l2 : observed s1 = Some (k, l1) → observed s2 = Some (k, l2) → l1 = l2.
Proof.
  assert (Hk : ∀ p1 p2 x1 x2, str_in (sd_status x1) (TERMINAL ++ K8S_TERMINAL) = true →
    str_in (sd_status x2) (TERMINAL ++ K8S_TERMINAL) = true → seen_key p1 x1 = seen_key p2 x2 →
    sd_status x1 = sd_status x2).
  { intros p1 p2 x1 x2 H1%terminal_no_colon H2%terminal_no_colon He.
    pose proof (seen_key_status p1 x1 H1) as E1. rewrite He, seen_key_status in E1 by done.
    by injection E1. }
  assert (Hin : ∀ s, str_in s TERMINAL = true ∨ str_in s K8S_TERMINAL = true →
    str_in s (TERMINAL ++ K8S_TERMINAL) = true).
  { intros s. rewrite !str_in_spec, elem_of_app. done. }
  destruct s1 as [o1|a1 r1], s2 as [o2|a2 r2]; cbn [observed]; intros H1 H2;
    destruct (str_in (_ _) _) eqn:E1 in H1; try done;
    destruct (str_in (_ _) _) eqn:E2 in H2; try done;
    apply (inj Some), pair_equal_spec in H1 as [<- <-];
    apply (inj Some), pair_equal_spec in H2 as [He <-]; try (exfalso; by unfold seen_key in He).
  - apply Hk in He; [|by apply Hin; left..]. cbn in He. by rewrite He.
  - apply Hk in He; [|by apply Hin; right..]. cbn in He. by rewrite He.
Qed.

(** * The window of seen keys *)

Record seen_wf (st : seen_state) : Prop := {
  se_set : seen st = list_to_set (seen_order st);
  se_nodup : NoDup (seen_order st);
  se_bound : length (seen_order st) ≤ MAX_SEEN
}.

Lemma max_seen_pos : 1 ≤ MAX_SEEN.
Proof. apply Nat.leb_le. by vm_compute. Qed.

Lemma remember_wf k st : seen_wf st → seen_wf (remember k st).1.
Proof.
  intros [Hs Hn Hb]. unfold remember. case_bool_decide as Hk; [by split|].
  assert (Hk' : k ∉ seen_order st) by (rewrite Hs, elem_of_list_to_set in Hk; done).
  pose proof max_seen_pos. destruct (seen_order st) as [|o rest] eqn:Eo.
  - split; cbn; [rewrite Hs; set_solver|apply NoDup_singleton|lia].
  - destruct (MAX_SEEN <=? _) eqn:El; split; cbn in *.
    + apply NoDup_cons in Hn as [Ho _]. rewrite Hs, list_to_set_app_L. cbn. set_solver.
    + apply NoDup_cons in Hn as [_ Hn]. apply NoDup_app. set_solver by apply NoDup_singleton.
    + rewrite length_app. cbn. lia.
    + rewrite Hs, list_to_set_app_L. cbn. set_solver.
    + change (o :: rest ++ [k]) with ((o :: rest) ++ [k]). apply NoDup_app.
      split_and!; [done|set_solver|apply NoDup_singleton].
    + apply Nat.leb_gt in El. rewrite length_app. cbn. lia.
Qed.

Lemma seen_size st : seen_wf st → size (seen st) = length (seen_order st).
Proof. intros [-> Hn _]. by apply size_list_to_set. Qed.

(** Below the bound nothing is forgotten. *)
Lemma remember_new k st : seen_wf st → k ∉ seen st → size (seen st) < MAX_SEEN →
  (remember k st).2 = true ∧ seen (remember k st).1 = {[k]} ∪ seen st.
Proof.
  intros Hwf Hk Hlt. rewrite (seen_size _ Hwf) in Hlt. unfold remember.
  rewrite bool_decide_eq_false_2 by done.
  destruct (seen_order st) as [|o rest]; [done|]. by rewrite (proj2 (Nat.leb_gt _ _) Hlt).
Qed.

Lemma remember_sub k st : seen (remember k st).1 ⊆ {[k]} ∪ seen st.
Proof.
  unfold remember. case_bool_decide; [set_solver|]. destruct (seen_order st); [set_solver|].
  destruct (MAX_SEEN <=? _); cbn; set_solver.
Qed.

Lemma remember_old k st : k ∈ seen st → remember k st = (st, false).
Proof. intros Hk. unfold remember. by rewrite bool_decide_eq_true_2. Qed.

(** * Counting *)

Definition counted (l : label) (t : Telemetry) : Z := default 0%Z (t_counts t !! l).

Definition all_keys (signals : list signal) : gset string :=
  list_to_set (omap (λ s, fst <$> observed s) signals).
Definition keys_of (l : label) (signals : list signal) : gset string :=
  list_to_set (omap (λ s, '(k, l') ← observed s; if decide (l' = l) then Some k else None) signals).

Lemma observe_counted random trace span kind outcome ms c p l t :
  counted l (observe random trace span "controlplane" kind outcome ms c p false t) =
  (counted l t + if decide (labels "controlplane" kind outcome = l) then 1 else 0)%Z.
Proof.
  unfold observe, event_of_args. destruct (labels "controlplane" kind outcome) as [[c' k'] o'].
  assert (He : ∀ x t, t_counts (enqueue x t) = t_counts t).
  { intros x t'. unfold enqueue. destruct (String.eqb _ _); [done|]. by destruct (has_room _ _). }
  unfold counted. rewrite He. cbn. unfold counter_add.
  destruct (decide _) as [<-|Hne]; [by rewrite lookup_insert_eq|]. rewrite lookup_insert_ne by done. lia.
Qed.

Section counting.
Context (random trace span : string).

(** One signal: a key seen before changes nothing, a new one counts once. *)
Lemma on_signal_spec st s : seen_wf st.1 →
  match observed s with
  | None => on_signal random trace span st s = st
  | Some (k, l) =>
      if bool_decide (k ∈ seen st.1) then on_signal random trace span st s = st
      else
        let st' := on_signal random trace span st s in
        seen_wf st'.1 ∧ seen st'.1 ⊆ {[k]} ∪ seen st.1 ∧
        (size (seen st.1) < MAX_SEEN → seen st'.1 = {[k]} ∪ seen st.1) ∧
        ∀ l', counted l' st'.2 = (counted l' st.2 + if decide (l = l') then 1 else 0)%Z
  end.
Proof.
  intros Hwf. destruct st as [seen0 t]. cbn in Hwf.
  assert (Hbody : ∀ statuses p x, (∀ s, str_in s statuses = true → str_in s (TERMINAL ++ K8S_TERMINAL) = true) →
    str_in (sd_kind x) ALLOWED_KINDS = true → str_in (sd_status x) statuses = true →
    if bool_decide (seen_key p x ∈ seen seen0) then row_saved random trace span statuses p x (seen0, t) = (seen0, t)
    else let st' := row_saved random trace span statuses p x (seen0, t) in
      seen_wf st'.1 ∧ seen st'.1 ⊆ {[seen_key p x]} ∪ seen seen0 ∧
      (size (seen seen0) < MAX_SEEN → seen st'.1 = {[seen_key p x]} ∪ seen seen0) ∧
      ∀ l', counted l' st'.2 =
        (counted l' t + if decide (("controlplane"%string, sd_kind x, sd_status x) = l') then 1 else 0)%Z).
  { intros statuses p x Hall Hkind Hst. unfold row_saved. rewrite Hst. cbn [negb fst snd].
    case_bool_decide as Hk; [by rewrite remember_old|].
    pose proof (remember_wf (seen_key p x) seen0 Hwf) as Hwf'.
    assert (Htrue : (remember (seen_key p x) seen0).2 = true).
    { unfold remember. rewrite bool_decide_eq_false_2 by done. by destruct (match seen_order _ with [] => _ | _ => _ end). }
    assert (Hset : size (seen seen0) < MAX_SEEN → seen (remember (seen_key p x) seen0).1 = {[seen_key p x]} ∪ seen seen0)
      by (intros; by apply remember_new).
    assert (Hin : seen (remember (seen_key p x) seen0).1 ⊆ {[seen_key p x]} ∪ seen seen0) by apply remember_sub.
    destruct (remember (seen_key p x) seen0) as [seen' b]. cbn in Htrue, Hset, Hin, Hwf'. subst b. cbn -[observe].
    split_and!; [done..|]. intros l'. rewrite observe_counted. unfold labels. cbn [str_in].
    rewrite Hkind. assert (Hout : str_in (sd_status x) ALLOWED_OUTCOMES = true).
    { apply Hall, str_in_spec in Hst.
      assert (Hsub : Forall (λ s, str_in s ALLOWED_OUTCOMES = true) (TERMINAL ++ K8S_TERMINAL)).
      { repeat (apply Forall_cons_2; [done|]). apply Forall_nil_2. }
      rewrite Forall_forall in Hsub. by apply Hsub. }
    by rewrite Hout. }
  destruct s as [op|a r]; cbn [observed on_signal]; unfold diagnostic_saved, release_saved.
  - destruct (str_in (op_status op) TERMINAL) eqn:E; [|unfold row_saved; cbn; by rewrite E].
    apply (Hbody TERMINAL "diagnostic"%string (saved_diagnostic op)); [|done|done].
    intros s. rewrite !str_in_spec, elem_of_app. auto.
  - destruct (str_in (rl_status r) K8S_TERMINAL) eqn:E; [|unfold row_saved; cbn; by rewrite E].
    apply (Hbody K8S_TERMINAL "release"%string (saved_release a r)); [|done|done].
    intros s. rewrite !str_in_spec, elem_of_app. auto.
Qed.

Lemma keys_of_cons l s signals : keys_of l (s :: signals) =
  match observed s with
  | Some (k, l') => if decide (l' = l) then {[k]} ∪ keys_of l signals else keys_of l signals
  | None => keys_of l signals
  end.
Proof.
  unfold keys_of. cbn [omap list_omap]. destruct (observed s) as [[k l']|]; cbn; [|done].
  by destruct (decide (l' = l)).
Qed.

Lemma all_keys_cons s signals : all_keys (s :: signals) =
  match observed s with Some (k, _) => {[k]} ∪ all_keys signals | None => all_keys signals end.
Proof. unfold all_keys. cbn [omap list_omap]. by destruct (observed s) as [[k l']|]. Qed.

Lemma keys_of_elem k l signals :
  k ∈ keys_of l signals ↔ ∃ s, s ∈ signals ∧ observed s = Some (k, l).
Proof.
  unfold keys_of. rewrite elem_of_list_to_set, list_elem_of_omap. split.
  - intros (s & Hin & H). exists s. split; [done|]. destruct (observed s) as [[k' l']|]; [|done].
    cbn in H. destruct (decide (l' = l)); [|done]. by simplify_eq.
  - intros (s & Hin & H). exists s. split; [done|]. rewrite H. cbn. by rewrite decide_True.
Qed.

Lemma counting_spec l signals st : seen_wf st.1 →
  size (seen st.1 ∪ all_keys signals) ≤ MAX_SEEN →
  counted l (fold_left (on_signal random trace span) signals st).2 =
  (counted l st.2 + Z.of_nat (size (keys_of l signals ∖ seen st.1)))%Z.
Proof.
  revert st. induction signals as [|s signals IH]; intros st Hwf Hb; cbn [fold_left].
  - change (keys_of l []) with (∅ : gset string). rewrite subseteq_empty_difference_L by set_solver.
    rewrite size_empty. lia.
  - pose proof (on_signal_spec st s Hwf) as Hs. rewrite keys_of_cons. rewrite all_keys_cons in Hb.
    destruct (observed s) as [[k l']|] eqn:Eo; [|rewrite Hs; by apply IH].
    case_bool_decide as Hk.
    { rewrite Hs, IH; [|done|etrans; [apply subseteq_size|exact Hb]; set_solver].
      destruct (decide (l' = l)); [|done].
      replace (({[k]} ∪ keys_of l signals) ∖ seen st.1) with (keys_of l signals ∖ seen st.1); [done|].
      apply set_eq. set_solver. }
    destruct Hs as (Hwf' & _ & Hseen & Hc).
    assert (Hlt : size (seen st.1) < MAX_SEEN).
    { assert (Hu : size (seen st.1 ∪ {[k]}) ≤ MAX_SEEN) by (etrans; [apply subseteq_size|exact Hb]; set_solver).
      rewrite size_union, size_singleton in Hu; [lia|]. clear -Hk. set_solver. }
    specialize (Hseen Hlt). rewrite IH; [|done|rewrite Hseen; etrans; [apply subseteq_size|exact Hb]; set_solver].
    rewrite Hc, Hseen. destruct (decide (l' = l)) as [->|Hne].
    + replace (({[k]} ∪ keys_of l signals) ∖ seen st.1)
        with ({[k]} ∪ keys_of l signals ∖ ({[k]} ∪ seen st.1)).
      { pose proof (size_union ({[k]} : gset string) (keys_of l signals ∖ ({[k]} ∪ seen st.1))) as Hu.
        rewrite Hu, size_singleton by set_solver. lia. }
      apply set_eq. intros x. destruct (decide (x = k)); set_solver.
    + assert (Hnk : k ∉ keys_of l signals).
      { intros (s' & _ & Ho)%keys_of_elem. apply Hne. by eapply observed_label. }
      replace (keys_of l signals ∖ ({[k]} ∪ seen st.1)) with (keys_of l signals ∖ seen st.1) by (apply set_eq; set_solver). lia.
Qed.

Lemma signals_wf signals st : seen_wf st.1 → seen_wf (fold_left (on_signal random trace span) signals st).1.
Proof.
  revert st. induction signals as [|s signals IH]; intros st Hwf; [done|]. apply IH.
  pose proof (on_signal_spec st s Hwf) as Hs. destruct (observed s) as [[k l]|]; [|by rewrite Hs].
  case_bool_decide; [by rewrite Hs|]. by destruct Hs.
Qed.

Lemma nothing_seen_wf : seen_wf nothing_seen.
Proof. split; [done|apply NoDup_nil_2|cbn; lia]. Qed.

(** Whatever has been forgotten, a new outcome is counted, and a save counts once
    at most. *)
Definition saves_of (l : label) (signals : list signal) : nat :=
  length (filter (λ s, snd <$> observed s = Some l) signals).

Lemma counting_bounds l signals st : seen_wf st.1 →
  (counted l st.2 + Z.of_nat (size (keys_of l signals ∖ seen st.1)) ≤
     counted l (fold_left (on_signal random trace span) signals st).2 ≤
     counted l st.2 + Z.of_nat (saves_of l signals))%Z.
Proof.
  unfold saves_of. revert st. induction signals as [|s signals IH]; intros st Hwf; cbn [fold_left].
  - change (keys_of l []) with (∅ : gset string). rewrite subseteq_empty_difference_L by set_solver.
    rewrite size_empty. cbn. lia.
  - pose proof (on_signal_spec st s Hwf) as Hs. rewrite keys_of_cons, filter_cons.
    destruct (observed s) as [[k l']|] eqn:Eo; cbn [fmap option_fmap option_map snd];
      [|rewrite Hs; rewrite decide_False by done; by apply IH].
    case_bool_decide as Hk.
    { rewrite Hs. specialize (IH st Hwf). split; [|case_decide; cbn [length]; lia]. etrans; [|apply IH].
      destruct (decide (l' = l)); [|done]. apply Z.add_le_mono_l, inj_le, subseteq_size. set_solver. }
    destruct Hs as (Hwf' & Hseen & _ & Hc). specialize (IH _ Hwf'). rewrite (Hc l) in IH.
    destruct (decide (l' = l)) as [->|Hne].
    + rewrite decide_True by done. cbn [length]. split; [|lia]. etrans; [|apply IH].
      assert (Hsub : (({[k]} ∪ keys_of l signals) ∖ seen st.1 : gset string) ⊆
        {[k]} ∪ keys_of l signals ∖ seen (on_signal random trace span st s).1).
      { intros x. rewrite elem_of_union, !elem_of_difference, !elem_of_union. specialize (Hseen x).
        rewrite elem_of_union in Hseen. destruct (decide (x ∈ ({[k]} : gset string))); tauto. }
      apply subseteq_size in Hsub.
      pose proof (size_union_alt ({[k]} : gset string) (keys_of l signals ∖ seen (on_signal random trace span st s).1)) as Hu.
      rewrite size_singleton in Hu.
      assert (size ((keys_of l signals ∖ seen (on_signal random trace span st s).1) ∖ ({[k]} : gset string)) ≤
        size (keys_of l signals ∖ seen (on_signal random trace span st s).1)) by (apply subseteq_size; set_solver).
      lia.
    + rewrite decide_False by congruence. split; [|lia]. etrans; [|apply IH].
      assert (Hnk : k ∉ keys_of l signals).
      { intros (s' & _ & Ho)%keys_of_elem. apply Hne. by eapply observed_label. }
      rewrite Z.add_0_r. apply Z.add_le_mono_l, inj_le, subseteq_size. set_solver.
Qed.

(** C36: outcomes are counted at least once each and, while they are remembered,
    once only.  However often and in whatever order rows are saved, the counter of
    a label grows by at least the number of distinct (row, status) pairs saved with
    it and by at most the number of these saves; it grows by exactly the number of
    distinct pairs as long as no more than [_MAX_SEEN] of them occur in all.  The
    memory of what was seen always stays within [_MAX_SEEN] entries, set and queue
    agreeing. *)
Theorem outcomes_are_counted_once signals t :
  let st := fold_left (on_signal random trace span) signals (nothing_seen, t) in
  seen_wf st.1 ∧
  ∀ l, (counted l t + Z.of_nat (size (keys_of l signals)) ≤ counted l st.2 ≤
          counted l t + Z.of_nat (saves_of l signals))%Z ∧
    (size (all_keys signals) ≤ MAX_SEEN → counted l st.2 = (counted l t + Z.of_nat (size (keys_of l signals)))%Z).
Proof.
  cbn zeta. split; [apply signals_wf, nothing_seen_wf|]. intros l. split; [|intros Hb].
  - pose proof (counting_bounds l signals (nothing_seen, t) nothing_seen_wf) as H.
    cbn [fst snd nothing_seen seen] in H. by rewrite difference_empty_L in H.
  - rewrite counting_spec; [|exact nothing_seen_wf|].
    + cbn [fst snd nothing_seen seen]. by rewrite difference_empty_L.
    + cbn [fst snd nothing_seen seen]. by rewrite union_empty_l_L.
Qed.
End counting.

(** * A concrete run *)

Definition seen_project : Project := mkProject 7 "shop" "Shop" "current" [1].
Definition seen_agent : AgentRegistration := mkAgent 3 seen_project "edge" [].
Definition seen_operation (id status : string) : DiagnosticOperation :=
  mkOperation id seen_project seen_agent 1 "django_health" status NoSummary "" 10 25.
Definition seen_signals : list signal :=
  [DiagnosticSaved (seen_operation "op-1" "running"); DiagnosticSaved (seen_operation "op-1" "failed");
   DiagnosticSaved (seen_operation "op-1" "failed"); DiagnosticSaved (seen_operation "op-2" "failed")].
Definition seen_telemetry : Telemetry := mkTelemetry "" 8 ∅ ∅ ∅ [] [] 0 0 false.

Lemma outcomes_are_counted_once_witness :
  counted ("controlplane", "diagnostic", "failed")%string
    (fold_left (on_signal "r" "t" "s") seen_signals (nothing_seen, seen_telemetry)).2 = 2%Z.
Proof.
  destruct (outcomes_are_counted_once "r" "t" "s" seen_signals seen_telemetry) as [_ H].
  destruct (H ("controlplane", "diagnostic", "failed")%string) as [_ E].
  rewrite E; [by vm_compute|]. apply Nat.leb_le. by vm_compute.
Defined.
