(* ===== verification/Graphql.v ===== *)
(** The GraphQL endpoint: [controlplane/graphql/views.py].

    Parsing and execution are graphql-core's: the parsed document and the outcome
    of the execution are arguments.  What is modelled is the resource check that
    stands before the execution, and what the view answers. *)

From S2P Require Import Prelude Text Dict Json.

Open Scope string_scope.
Open Scope list_scope.
Open Scope nat_scope.

(** * Documents *)

(** A selection: a field with or without a selection set, a fragment spread, an
    inline fragment. *)
Inductive selection :=
| Field (selection_set : option (list selection))
| FragmentSpread (name : string)
| InlineFragment (selection_set : list selection).

(** A definition: a fragment, an operation, or a type-system definition, which
    has no selection set. *)
Inductive definition :=
| FragmentDefinition (name : string) (selection_set : list selection)
| OperationDefinition (selection_set : list selection)
| TypeDefinition.

(** The dictionary of fragments: of two with one name the later counts. *)
Definition fragments_of (document : list definition) : list (string * list selection) :=
  fold_left (λ d def, match def with
                      | FragmentDefinition name sels => dict_set d name sels
                      | _ => d
                      end) document [].

(** * The resource check *)

(** [max_depth] and [fields]. *)
Record usage := mkUsage { us_max_depth : nat; us_fields : nat }.

Definition enter (depth : nat) (u : usage) : usage := mkUsage (us_max_depth u `max` depth) (us_fields u).
Definition count_field (u : usage) : usage := mkUsage (us_max_depth u) (S (us_fields u)).

(** A walk at a depth, inside the fragments [active]; [None]: [RecursionError]. *)
Abbreviation walker := (nat → list string → usage → option usage).

Section walk.
Context (fragments : list (string * list selection)).

(** The loop body; [call] is the recursive call of [walk]. *)
Definition walk_selection (call : option (list selection) → walker) (s : selection) : walker :=
  λ depth active u,
    match s with
    | Field selection_set => call selection_set (S depth) active (count_field u)
    | FragmentSpread name =>
        if str_in name active then Some u
        else match dict_get fragments name with
             | Some sels => call (Some sels) depth (name :: active) u
             | None => Some u
             end
    | InlineFragment sels => call (Some sels) depth active u
    end.

Fixpoint walk_selections (call : option (list selection) → walker) (sels : list selection) : walker :=
  λ depth active u,
    match sels with
    | [] => Some u
    | s :: sels => u ← walk_selection call s depth active u; walk_selections call sels depth active u
    end.

(** [walk], with [frames] nested calls left before Python's recursion limit. *)
Fixpoint walk (frames : nat) (selection_set : option (list selection)) : walker := λ depth active u,
  match frames with
  | 0 => None
  | S frames =>
      match selection_set with
      | None => Some u
      | Some sels => walk_selections (walk frames) sels depth active (enter depth u)
      end
  end.
End walk.

(** The settings the check reads, and how many nested calls the interpreter's
    recursion limit leaves to it. *)
Record limits := mkLimits { max_depth : Z; max_fields : Z; introspection : bool; walk_frames : nat }.

(** The loop over the definitions; a type-system definition has no selection set. *)
Definition document_usage (frames : nat) (document : list definition) : option usage :=
  let fragments := fragments_of document in
  fold_left (λ u def,
    match def with
    | OperationDefinition sels => u ← u; walk fragments frames (Some sels) 1 [] u
    | TypeDefinition => u ← u; walk fragments frames None 1 [] u
    | FragmentDefinition _ _ => u
    end) document (Some (mkUsage 0 0)).

Definition verdict (l : limits) (query : string) (u : usage) : option string :=
  if (max_depth l <? Z.of_nat (us_max_depth u))%Z then Some "QUERY_TOO_DEEP"
  else if (max_fields l <? Z.of_nat (us_fields u))%Z then Some "QUERY_TOO_COMPLEX"
  else if negb (introspection l) && (contains "__schema" query || contains "__type" query)
  then Some "INTROSPECTION_DISABLED"
  else None.

(** [_resource_error]; [parse] raises on a syntax error. *)
Definition resource_error (parse : string → result exn (list definition)) (l : limits) (query : string)
    : result exn (option string) :=
  document ← parse query;
  match document_usage (walk_frames l) document with
  | Some u => Ok (verdict l query u)
  | None => Err (OtherError "RecursionError")
  end.

(** * The view *)

(** [ExecutionResult]: the data, and how many errors. *)
Record execution_result := mkExecution { ex_data : option json; ex_errors : nat }.

Record response := mkResponse { rs_status : nat; rs_body : json }.

Definition error_response (status : nat) (messages : list string) : response :=
  mkResponse status (JObj [("errors", JArr ((λ m, JObj [("message", JStr m)]) <$> messages))]).

(** Exceptions the view turns into a 400: [GraphQLError] and [JSONDecodeError]
    are value errors here, as is [TypeError]. *)
Definition is_request_error (e : exn) : bool := match e with ValueError _ => true | _ => false end.

(** The body of the view: the response or the exception that escapes, with the
    outcome reported to telemetry; [body] is the decoded request body, an error if
    it is not JSON. *)
Definition graphql_body (parse : string → result exn (list definition)) (l : limits)
    (execute : string → json → result exn execution_result) (body : result exn json)
    : result exn (response * string) :=
  payload ← body;
  match payload with
  | JObj payload =>
      match default (JStr "") (dict_get payload "query") with
      | JStr query =>
          if String.eqb (strip query) "" then Ok (error_response 400 ["query is required"], "failed")
          else
            resource ← resource_error parse l query;
            match resource with
            | Some code => Ok (error_response 400 [code], "failed")
            | None =>
                r ← execute query (default JNull (dict_get payload "variables"));
                let data := match ex_data r with Some d => [("data", d)] | None => [] end in
                let failed := negb (ex_errors r =? 0) in
                let errors :=
                  if failed
                  then [("errors", JArr (replicate (ex_errors r)
                           (JObj [("message", JStr "request could not be completed")])))]
                  else [] in
                Ok (mkResponse (if failed then 400 else 200) (JObj (data ++ errors)),
                    if failed then "failed" else "succeeded")
            end
      | _ => Ok (error_response 400 ["query is required"], "failed")
      end
  | _ => Err (OtherError "AttributeError")
  end.

(** [graphql_view] for a logged-in [POST]: the answer, and the outcome that is
    reported whatever happens. *)
Definition graphql_view (parse : string → result exn (list definition)) (l : limits)
    (execute : string → json → result exn execution_result) (body : result exn json)
    : result exn response * string :=
  match graphql_body parse l execute body with
  | Ok (r, outcome) => (Ok r, outcome)
  | Err e =>
      (if is_request_error e then Ok (error_response 400 ["invalid GraphQL request"]) else Err e, "failed")
  end.
