(* ===== verification/GraphqlProps.v ===== *)
(** Properties of [Graphql]: the resource check measures the expanded query. *)

From S2P Require Import Prelude Text Dict Json Graphql.

Open Scope string_scope.
Open Scope list_scope.
Open Scope nat_scope.

(** * Specification: the expanded query

    Every fragment spread is replaced by the fields of its fragment; a spread
    inside its own expansion, or of an unknown fragment, is dropped.  The number is
    that of the calls inside one another that visiting the expansion takes. *)
Inductive tree := Leaf | Node (children : list tree).

Section expansion.
Context (fragments : list (string * list selection)).

Inductive sel_expands : list string → selection → list tree → nat → Prop :=
| ex_leaf active : sel_expands active (Field None) [Leaf] 1
| ex_field active sels ts n :
    sels_expand active sels ts n → sel_expands active (Field (Some sels)) [Node ts] (S n)
| ex_inline active sels ts n : sels_expand active sels ts n → sel_expands active (InlineFragment sels) ts (S n)
| ex_spread active name sels ts n :
    name ∉ active → dict_get fragments name = Some sels → sels_expand (name :: active) sels ts n →
    sel_expands active (FragmentSpread name) ts (S n)
| ex_active active name : name ∈ active → sel_expands active (FragmentSpread name) [] 0
| ex_unknown active name :
    name ∉ active → dict_get fragments name = None → sel_expands active (FragmentSpread name) [] 0
with sels_expand : list string → list selection → list tree → nat → Prop :=
| ex_nil active : sels_expand active [] [] 0
| ex_cons active s sels ts1 ts2 n1 n2 :
    sel_expands active s ts1 n1 → sels_expand active sels ts2 n2 →
    sels_expand active (s :: sels) (ts1 ++ ts2) (n1 `max` n2).
End expansion.

Scheme sel_expands_min := Minimality for sel_expands Sort Prop
  with sels_expand_min := Minimality for sels_expand Sort Prop.
Combined Scheme expands_ind from sel_expands_min, sels_expand_min.

Lemma expands_unique fragments :
  (∀ active s ts n, sel_expands fragments active s ts n →
     ∀ ts' n', sel_expands fragments active s ts' n' → (ts', n') = (ts, n)) ∧
  (∀ active sels ts n, sels_expand fragments active sels ts n →
     ∀ ts' n', sels_expand fragments active sels ts' n' → (ts', n') = (ts, n)).
Proof.
  apply expands_ind.
  - intros active ts' n' H. by inversion H.
  - intros active sels ts n _ IH ts' n' H. inversion H as [|? ? ts1 n1 H1| | | |]; subst.
    by injection (IH _ _ H1) as -> ->.
  - intros active sels ts n _ IH ts' n' H. inversion H as [| |? ? ts1 n1 H1| | |]; subst.
    by injection (IH _ _ H1) as -> ->.
  - intros active name sels ts n Hn Hg _ IH ts' n' H.
    inversion H as [| | |? ? sels1 ts1 n1 _ Hg1 H1| |]; subst; [|done|congruence].
    rewrite Hg in Hg1. injection Hg1 as <-. by injection (IH _ _ H1) as -> ->.
  - intros active name Ha ts' n' H. by inversion H.
  - intros active name Ha Hg ts' n' H. inversion H; subst; [congruence|done|done].
  - intros active ts' n' H. by inversion H.
  - intros active s sels ts1 ts2 n1 n2 _ IH1 _ IH2 ts' n' H. inversion H as [|? ? ? u1 u2 m1 m2 H1 H2]; subst.
    injection (IH1 _ _ H1) as -> ->. by injection (IH2 _ _ H2) as -> ->.
Qed.

(** Levels of nesting, and fields. *)
Fixpoint height (t : tree) : nat :=
  match t with Leaf => 0 | Node ts => S (foldr Nat.max 0 (map height ts)) end.
Fixpoint fields (t : tree) : nat :=
  match t with Leaf => 1 | Node ts => S (foldr Nat.add 0 (map fields ts)) end.
Definition forest_height (ts : list tree) : nat := foldr Nat.max 0 (map height ts).
Definition forest_fields (ts : list tree) : nat := foldr Nat.add 0 (map fields ts).

Lemma forest_height_app a b : forest_height (a ++ b) = forest_height a `max` forest_height b.
Proof. unfold forest_height. induction a as [|t a IH]; cbn; [done|]. rewrite IH. lia. Qed.
Lemma forest_fields_app a b : forest_fields (a ++ b) = forest_fields a + forest_fields b.
Proof. unfold forest_fields. induction a as [|t a IH]; cbn; [done|]. rewrite IH. lia. Qed.

(** What walking a forest at a depth adds. *)
Definition add_forest (depth : nat) (ts : list tree) (u : usage) : usage :=
  mkUsage (us_max_depth u `max` (depth + forest_height ts)) (us_fields u + forest_fields ts).

Lemma add_forest_nil depth u : depth ≤ us_max_depth u → add_forest depth [] u = u.
Proof. intros. destruct u. unfold add_forest. cbn in *. f_equal; lia. Qed.

Lemma add_forest_app depth a b u : add_forest depth (a ++ b) u = add_forest depth b (add_forest depth a u).
Proof.
  unfold add_forest. cbn. rewrite forest_height_app, forest_fields_app. f_equal; lia.
Qed.

Lemma selection_ind' (P : selection → Prop) :
  P (Field None) → (∀ sels, Forall P sels → P (Field (Some sels))) →
  (∀ name, P (FragmentSpread name)) → (∀ sels, Forall P sels → P (InlineFragment sels)) → ∀ s, P s.
Proof.
  intros H1 H2 H3 H4. refine (fix IH (s : selection) : P s := _).
  pose (all := fix all (sels : list selection) : Forall P sels :=
    match sels with [] => Forall_nil_2 _ | s :: sels => Forall_cons_2 _ _ _ (IH s) (all sels) end).
  destruct s as [[sels|]|name|sels]; [by apply H2|done|done|by apply H4].
Qed.

Section walk.
Context (fragments : list (string * list selection)).

(** Every selection has an expansion: fragments that contain themselves are cut. *)
Lemma selections_expand active sels :
  Forall (λ s, ∃ ts n, sel_expands fragments active s ts n) sels →
  ∃ ts n, sels_expand fragments active sels ts n.
Proof.
  induction 1 as [|s sels (ts1 & n1 & H1) _ (ts2 & n2 & H2)]; [by exists [], 0; constructor|].
  exists (ts1 ++ ts2), (n1 `max` n2). by constructor.
Qed.

Lemma expansion_exists budget active sels :
  NoDup active → active ⊆ fragments.*1 → length fragments < budget + length active →
  ∃ ts n, sels_expand fragments active sels ts n.
Proof.
  revert active sels. induction budget as [|budget IH]; intros active sels Hn Hs Hl.
  - exfalso. assert (length active ≤ length fragments.*1) by (by apply submseteq_length, NoDup_submseteq).
    rewrite length_fmap in *. cbn in Hl. lia.
  - apply selections_expand, Forall_forall. intros s _.
    induction s as [|sels' H|name|sels' H] using selection_ind'.
    + eexists _, _. constructor.
    + destruct (selections_expand _ _ H) as (ts & m & ?). eexists _, _. by constructor.
    + destruct (decide (name ∈ active)) as [Ha|Ha]; [eexists _, _; by apply ex_active|].
      destruct (dict_get fragments name) as [body|] eqn:Eg; [|eexists _, _; by apply ex_unknown].
      destruct (IH (name :: active) body) as (ts & m & ?); [by constructor| |cbn; lia|].
      * intros x [->|Hx]%elem_of_cons; [|by apply Hs].
        apply dict_get_Some_elem in Eg. apply list_elem_of_fmap. by exists (name, body).
      * eexists _, _. by eapply ex_spread.
    + destruct (selections_expand _ _ H) as (ts & m & ?). eexists _, _. by constructor.
Qed.

(** Walking adds the expansion, when there are frames enough. *)
Definition within (needed frames : nat) (u : usage) : option usage := if needed <=? frames then Some u else None.

Lemma walk_call frames sels depth active u ts n :
  (∀ frames depth u, depth ≤ us_max_depth u →
     walk_selections fragments (walk fragments frames) sels depth active u = within n frames (add_forest depth ts u)) →
  walk fragments frames (Some sels) depth active u = within (S n) frames (add_forest depth ts (enter depth u)).
Proof. intros Hw. destruct frames as [|frames]; [done|]. cbn [walk]. rewrite Hw by (cbn; lia). done. Qed.

Lemma walk_adds :
  (∀ active s ts n, sel_expands fragments active s ts n → ∀ frames depth u, depth ≤ us_max_depth u →
     walk_selection fragments (walk fragments frames) s depth active u = within n frames (add_forest depth ts u)) ∧
  (∀ active sels ts n, sels_expand fragments active sels ts n → ∀ frames depth u, depth ≤ us_max_depth u →
     walk_selections fragments (walk fragments frames) sels depth active u =
       within n frames (add_forest depth ts u)).
Proof.
  assert (Hu : ∀ depth u, depth ≤ us_max_depth u → enter depth u = u).
  { intros depth u Hd. destruct u. unfold enter. cbn in *. f_equal. lia. }
  apply expands_ind.
  - intros active [|frames] depth u Hd; [done|]. cbn. unfold within, add_forest, count_field, forest_height, forest_fields.
    cbn. do 2 f_equal; lia.
  - intros active sels ts n _ IH frames depth u Hd. cbn [walk_selection]. rewrite (walk_call _ _ _ _ _ _ _ IH).
    f_equal. unfold add_forest, enter, count_field, forest_height, forest_fields. cbn. f_equal; lia.
  - intros active sels ts n _ IH frames depth u Hd. cbn [walk_selection].
    by rewrite (walk_call _ _ _ _ _ _ _ IH), Hu.
  - intros active name sels ts n Ha Hg _ IH frames depth u Hd. cbn [walk_selection].
    rewrite (bool_decide_eq_false_2 _ Ha : str_in name active = false), Hg.
    by rewrite (walk_call _ _ _ _ _ _ _ IH), Hu.
  - intros active name Ha frames depth u Hd. cbn [walk_selection]. apply str_in_spec in Ha. rewrite Ha.
    by rewrite add_forest_nil.
  - intros active name Ha Hg frames depth u Hd. cbn [walk_selection].
    rewrite (bool_decide_eq_false_2 _ Ha : str_in name active = false), Hg. by rewrite add_forest_nil.
  - intros active frames depth u Hd. cbn. by rewrite add_forest_nil.
  - intros active s sels ts1 ts2 n1 n2 _ IH1 _ IH2 frames depth u Hd. cbn [walk_selections].
    rewrite IH1, add_forest_app by done. unfold within.
    destruct (Nat.leb_spec n1 frames), (Nat.leb_spec (n1 `max` n2) frames); cbn; try done; try lia.
    + rewrite IH2 by (cbn; lia). unfold within. by rewrite (proj2 (Nat.leb_le n2 frames)) by lia.
    + rewrite IH2 by (cbn; lia). unfold within. by rewrite (proj2 (Nat.leb_gt n2 frames)) by lia.
Qed.
End walk.

(** * Documents *)

Definition selections_of (def : definition) : option (option (list selection)) :=
  match def with
  | OperationDefinition sels => Some (Some sels)
  | TypeDefinition => Some None
  | FragmentDefinition _ _ => None
  end.

(** The selection sets the check starts from: one for each operation, none for a
    type-system definition. *)
Definition roots (document : list definition) : list (option (list selection)) := omap selections_of document.

Definition root_expands (fragments : list (string * list selection)) (root : option (list selection))
    (x : list tree * nat) : Prop :=
  match root with
  | Some sels => ∃ n, sels_expand fragments [] sels x.1 n ∧ x.2 = S n
  | None => x = ([], 1)
  end.

(** Every operation of the document expanded, and the calls inside one another that
    visiting it takes. *)
Definition document_expands (document : list definition) (forests : list (list tree * nat)) : Prop :=
  Forall2 (root_expands (fragments_of document)) (roots document) forests.

Definition calls_of (forests : list (list tree * nat)) : nat := foldr (λ x n, x.2 `max` n) 0 forests.

(** The usage of a document: its deepest selection set and all its fields. *)
Definition usage_of (roots : list (option (list selection))) (forests : list (list tree * nat)) : usage :=
  foldr (λ x v, match x with
                | (Some _, (ts, _)) =>
                    mkUsage (S (forest_height ts) `max` us_max_depth v) (forest_fields ts + us_fields v)
                | (None, _) => v
                end) (mkUsage 0 0) (zip roots forests).

Definition combine_usage (u v : usage) : usage :=
  mkUsage (us_max_depth u `max` us_max_depth v) (us_fields u + us_fields v).

Lemma root_exists fragments root : ∃ x, root_expands fragments root x.
Proof.
  destruct root as [sels|]; [|by exists ([], 1)].
  destruct (expansion_exists fragments (S (length fragments)) [] sels) as (ts & n & H);
    [constructor|by intros ? ?%elem_of_nil|cbn; lia|]. exists (ts, S n). by exists n.
Qed.

Lemma root_walk fragments frames root x u :
  root_expands fragments root x →
  walk fragments frames root 1 [] u =
    within x.2 frames (match root with Some _ => add_forest 1 x.1 (enter 1 u) | None => u end).
Proof.
  destruct root as [sels|], x as [ts m]; cbn [root_expands fst snd].
  - intros (n & H & ->). apply walk_call. intros frames' depth v Hd. by eapply walk_adds.
  - intros [= -> ->]. by destruct frames.
Qed.

Lemma fold_failed fragments frames defs :
  fold_left (λ u def,
    match def with
    | OperationDefinition sels => u ← u; walk fragments frames (Some sels) 1 [] u
    | TypeDefinition => u ← u; walk fragments frames None 1 [] u
    | FragmentDefinition _ _ => u
    end) defs None = None.
Proof. by induction defs as [|[] defs IH]. Qed.

Lemma fold_document fragments frames defs forests u :
  Forall2 (root_expands fragments) (roots defs) forests →
  fold_left (λ u def,
    match def with
    | OperationDefinition sels => u ← u; walk fragments frames (Some sels) 1 [] u
    | TypeDefinition => u ← u; walk fragments frames None 1 [] u
    | FragmentDefinition _ _ => u
    end) defs (Some u) = within (calls_of forests) frames (combine_usage u (usage_of (roots defs) forests)).
Proof.
  revert forests u. induction defs as [|def defs IH]; intros forests u Hf.
  - inversion Hf; subst. cbn. unfold combine_usage. cbn. destruct u. cbn. do 2 f_equal; lia.
  - destruct (selections_of def) as [root|] eqn:Ed; unfold roots in Hf; cbn [omap list_omap] in Hf; rewrite Ed in Hf.
    + inversion Hf as [|? [ts m] ? fs Hx Hfs]; subst.
      assert (fold_left (λ u def,
        match def with
        | OperationDefinition sels => u ← u; walk fragments frames (Some sels) 1 [] u
        | TypeDefinition => u ← u; walk fragments frames None 1 [] u
        | FragmentDefinition _ _ => u
        end) (def :: defs) (Some u) = fold_left (λ u def,
        match def with
        | OperationDefinition sels => u ← u; walk fragments frames (Some sels) 1 [] u
        | TypeDefinition => u ← u; walk fragments frames None 1 [] u
        | FragmentDefinition _ _ => u
        end) defs (walk fragments frames root 1 [] u)) as -> by (destruct def; simplify_eq/=; done).
      rewrite (root_walk _ _ _ _ _ Hx). unfold within at 1. unfold roots. cbn [omap list_omap fst snd].
      rewrite Ed. cbn [zip zip_with calls_of foldr usage_of snd].
      destruct (Nat.leb_spec m frames).
      * rewrite (IH fs) by done. unfold within. fold (calls_of fs).
        assert ((m `max` calls_of fs <=? frames) = (calls_of fs <=? frames)) as ->.
        { destruct (Nat.leb_spec (calls_of fs) frames); [apply Nat.leb_le|apply Nat.leb_gt]; lia. }
        destruct (_ <=? _); [|done]. f_equal. unfold combine_usage, roots. fold (usage_of (omap selections_of defs) fs).
        destruct root; unfold add_forest, enter; cbn; f_equal; lia.
      * rewrite fold_failed. unfold within. by rewrite (proj2 (Nat.leb_gt _ _)) by lia.
    + destruct def; try discriminate Ed. unfold roots. cbn [fold_left omap list_omap]. by apply IH.
Qed.

Lemma document_expands_unique document fs fs' :
  document_expands document fs → document_expands document fs' → fs' = fs.
Proof.
  unfold document_expands. intros H. revert fs'. induction H as [|root x l fs Hx _ IH]; intros fs' H'.
  - by inversion H'.
  - inversion H' as [|? x' ? fs1 Hx' Hl']; subst. f_equal; [|by apply IH].
    destruct root as [sels|], x as [ts m], x' as [ts' m']; cbn in Hx, Hx'; [|congruence].
    destruct Hx as (n & Hx & ->), Hx' as (n' & Hx' & ->).
    by destruct (expands_unique (fragments_of document)) as [_ Hu]; injection (Hu _ _ _ _ Hx _ _ Hx') as -> ->.
Qed.

(** C23: the resource check always terminates, also on fragments that contain
    themselves, and decides by the query as it would be executed: the document has
    exactly one expansion, and the verdict is that of its deepest selection set
    and of the number of its fields; only when visiting the expansion takes more
    calls inside one another than the interpreter's recursion limit leaves does the
    check raise [RecursionError] instead. *)
Theorem resource_check_measures_expansion parse l query document :
  parse query = Ok document →
  ∃ forests, document_expands document forests ∧
    (∀ forests', document_expands document forests' → forests' = forests) ∧
    resource_error parse l query =
      if calls_of forests <=? walk_frames l then Ok (verdict l query (usage_of (roots document) forests))
      else Err (OtherError "RecursionError").
Proof.
  intros Hp. unfold resource_error. rewrite Hp. cbn [mbind result_bind]. unfold document_usage.
  assert (∃ forests, document_expands document forests) as [fs Hf].
  { unfold document_expands. induction (roots document) as [|root l' [fs IH]]; [by exists []|].
    destruct (root_exists (fragments_of document) root) as [x Hx]. exists (x :: fs). by constructor. }
  exists fs. split; [done|]. split; [intros fs' H'; exact (document_expands_unique _ _ _ Hf H')|].
  rewrite (fold_document _ _ _ _ _ Hf). unfold within. destruct (_ <=? _); [|done].
  unfold combine_usage. cbn -[usage_of]. by destruct (usage_of _ fs).
Qed.

(** * The cost of expanding before checking

    [chain n]: fragments [0..n-1] that each spread the next one twice, and one
    field at the end; the walk visits 2^n fields of a query of linear size. *)
Fixpoint chain (n : nat) : list definition :=
  match n with
  | 0 => [FragmentDefinition (str_of_Z 0) [Field None]]
  | S m => FragmentDefinition (str_of_Z (Z.of_nat n))
             [FragmentSpread (str_of_Z (Z.of_nat m)); FragmentSpread (str_of_Z (Z.of_nat m))] :: chain m
  end.

Lemma fragment_chain_explodes :
  document_usage 20 (OperationDefinition [FragmentSpread (str_of_Z 12)] :: chain 12) = Some (mkUsage 1 (2 ^ 12)).
Proof. by vm_compute. Qed.

(** With fewer frames the check does not get to its verdict. *)
Example fragment_chain_recursion :
  document_usage 10 (OperationDefinition [FragmentSpread (str_of_Z 12)] :: chain 12) = None.
Proof. by vm_compute. Qed.

(** * A concrete run *)

(** [query { projects { ...P } } fragment P on Project { id operations { ...P checks } }] *)
Definition demo_document : list definition :=
  [OperationDefinition [Field (Some [FragmentSpread "P"])];
   FragmentDefinition "P" [Field None; Field (Some [FragmentSpread "P"; Field None])]].
Definition demo_limits : limits := mkLimits 2 80 false 900.

Lemma resource_check_measures_expansion_witness :
  ∃ forests, document_expands demo_document forests ∧
    resource_error (λ _, Ok demo_document) demo_limits "q" =
      (if calls_of forests <=? 900 then Ok (verdict demo_limits "q" (usage_of (roots demo_document) forests))
       else Err (OtherError "RecursionError")) ∧
    verdict demo_limits "q" (usage_of (roots demo_document) forests) = Some "QUERY_TOO_DEEP".
Proof.
  destruct (resource_check_measures_expansion (λ _, Ok demo_document) demo_limits "q" demo_document)
    as (fs & He & _ & Hr); [done|].
  exists fs. split_and!; [done|done|]. assert (Hv : resource_error (λ _, Ok demo_document) demo_limits "q" =
    Ok (Some "QUERY_TOO_DEEP")) by by vm_compute.
  rewrite Hv in Hr. destruct (_ <=? _) in Hr; congruence.
Defined.
