(* ===== verification/Spans.v ===== *)
(** Concurrent clients of [controlplane/telemetry.py]: requests of [graphql_view]
    ([controlplane/graphql/views.py]), which start and finish a span, and signal
    handlers, which observe, interleaved at the lock of [Telemetry]. *)

From S2P Require Import Prelude Text Url Json Telemetry TelemetryProps Graphql.

Open Scope list_scope.
Open Scope nat_scope.

(** * Clients *)

(** What one method does while it holds the lock, or the queue's own. *)
Inductive tel_call :=
| CallStart (component kind : string)
| CallRecord (random component kind outcome : string) (ms : Z) (correlation : option string)
    (project : option Z) (decrement : bool)
| CallEnqueue (trace span : string) (e : TelemetryEvent).

Definition tel_do (c : tel_call) (t : Telemetry) : Telemetry :=
  match c with
  | CallStart component kind => start component kind t
  | CallRecord random component kind outcome ms correlation project decrement =>
      record_event (event_of_args random component kind outcome ms correlation project) decrement t
  | CallEnqueue trace span e => enqueue (otlp_payload trace span e) t
  end.

(** The tokens a call draws. *)
Record tokens := mkTokens { tk_random : string; tk_trace : string; tk_span : string }.

Definition observe_calls (tk : tokens) (component kind outcome : string) (ms : Z)
    (correlation : option string) (project : option Z) (decrement : bool) : list tel_call :=
  [CallRecord (tk_random tk) component kind outcome ms correlation project decrement;
   CallEnqueue (tk_trace tk) (tk_span tk)
     (event_of_args (tk_random tk) component kind outcome ms correlation project)].

Definition finish_calls (tk : tokens) (component kind outcome correlation : string) (elapsed_ms : Z)
    (project : option Z) : list tel_call :=
  observe_calls tk component kind outcome (finish_duration elapsed_ms) (Some correlation) project true.

(** [graphql_view] as telemetry sees it: [start] first, [finish] whatever the body does. *)
Definition view_calls (tk : tokens) (outcome correlation : string) (elapsed_ms : Z) : list tel_call :=
  CallStart "controlplane" "graphql" ::
  finish_calls tk "controlplane" "graphql" outcome correlation elapsed_ms None.

Definition run_calls (calls : list tel_call) (t : Telemetry) : Telemetry :=
  fold_left (λ t c, tel_do c t) calls t.

(** Undisturbed, the calls of a method are the method. *)
Lemma run_observe_calls tk component kind outcome ms correlation project decrement t :
  run_calls (observe_calls tk component kind outcome ms correlation project decrement) t =
  observe (tk_random tk) (tk_trace tk) (tk_span tk) component kind outcome ms correlation project decrement t.
Proof. done. Qed.

Lemma run_finish_calls tk component kind outcome correlation ms project t :
  run_calls (finish_calls tk component kind outcome correlation ms project) t =
  finish (tk_random tk) (tk_trace tk) (tk_span tk) component kind outcome correlation ms project t.
Proof. done. Qed.

Inductive client : list tel_call → Prop :=
| cl_request tk parse l execute body correlation elapsed :
    client (view_calls tk (graphql_view parse l execute body).2 correlation elapsed)
| cl_signal tk kind outcome ms correlation project :
    client (observe_calls tk "controlplane" kind outcome ms correlation project false).

(** * Interleavings *)

Inductive clients_step : Telemetry * list (list tel_call) → Telemetry * list (list tel_call) → Prop :=
| cs_call t cs i c rest : cs !! i = Some (c :: rest) → clients_step (t, cs) (tel_do c t, <[i := rest]> cs)
| cs_export t t' cs ok : export_one ok t = Some t' → clients_step (t, cs) (t', cs).

Lemma clients_tel_step s s' : clients_step s s' → tel_step s.1 s'.1.
Proof. destruct 1 as [t cs i [] rest Hi|t t' cs ok Ht]; cbn; econstructor; done. Qed.

(** ** Sums over the clients *)

Fixpoint zsum {A} (f : A → Z) (l : list A) : Z :=
  match l with [] => 0%Z | x :: l => (f x + zsum f l)%Z end.

Lemma zsum_insert {A} (f : A → Z) l i x y :
  l !! i = Some x → zsum f (<[i := y]> l) = (zsum f l - f x + f y)%Z.
Proof.
  revert i. induction l as [|z l IH]; intros [|i] Hi; try discriminate Hi.
  - injection Hi as ->. cbn. lia.
  - change (<[S i:=y]> (z :: l)) with (z :: <[i:=y]> l). cbn [zsum]. rewrite (IH i Hi). lia.
Qed.

Lemma zsum_zero {A} (f : A → Z) l : (∀ x, x ∈ l → f x = 0%Z) → zsum f l = 0%Z.
Proof.
  induction l as [|x l IH]; intros Hf; cbn; [done|]. rewrite Hf, IH; [done| |by left].
  intros y Hy. apply Hf. by right.
Qed.

Lemma zsum_nonneg {A} (f : A → Z) l : (∀ x, x ∈ l → 0 <= f x)%Z → (0 <= zsum f l)%Z.
Proof.
  induction l as [|x l IH]; intros Hf; cbn; [done|].
  pose proof (Hf x ltac:(by left)). pose proof (IH ltac:(intros y Hy; apply Hf; by right)). lia.
Qed.

Lemma zsum_ge {A} (f : A → Z) l x : (∀ x, x ∈ l → 0 <= f x)%Z → x ∈ l → (f x <= zsum f l)%Z.
Proof.
  intros Hf Hx. apply list_elem_of_split in Hx as (l1 & l2 & ->).
  assert (E : ∀ a b, zsum f (a ++ b) = (zsum f a + zsum f b)%Z) by (intros a b; induction a; cbn; lia).
  rewrite E. cbn. pose proof (zsum_nonneg f l1 ltac:(intros; apply Hf; set_solver)).
  pose proof (zsum_nonneg f l2 ltac:(intros; apply Hf; set_solver)). lia.
Qed.

(** ** Spans still open *)

Definition key_of (component kind : string) : string * string := (labels component kind "pending").1.
Definition label_of (component kind outcome : string) : label := labels component kind outcome.

(** The finishes of [key] that remain in a client, less the starts that remain. *)
Definition opens_call (key : string * string) (c : tel_call) : Z :=
  match c with
  | CallStart component kind => if decide (key_of component kind = key) then (-1)%Z else 0%Z
  | CallRecord _ component kind _ _ _ _ true => if decide (key_of component kind = key) then 1%Z else 0%Z
  | _ => 0%Z
  end.
Definition opens (key : string * string) : list tel_call → Z := zsum (opens_call key).

(** At any point a client has no start without a finish after it. *)
Definition bracketed (calls : list tel_call) : Prop := ∀ key n, (0 <= opens key (drop n calls))%Z.

(** The observations under [l] that remain. *)
Definition pending_call (l : label) (c : tel_call) : Z :=
  match c with
  | CallRecord _ component kind outcome _ _ _ _ => if decide (label_of component kind outcome = l) then 1%Z else 0%Z
  | _ => 0%Z
  end.
Definition pending (l : label) : list tel_call → Z := zsum (pending_call l).

Definition gauge (key : string * string) (t : Telemetry) : Z := default 0%Z (t_inflight t !! key).
Definition total (l : label) (t : Telemetry) : Z := default 0%Z (t_counts t !! l).

(** A request between its [start] and its [finish]. *)
Definition in_flight (calls : list tel_call) : bool :=
  match calls with CallRecord _ _ _ _ _ _ _ true :: _ => true | _ => false end.
