(* ===== verification/SpansProps.v ===== *)
(** Concurrent telemetry: the gauge counts the requests that run. *)

From S2P Require Import Prelude Text Url Json Telemetry TelemetryProps ObservabilityProps Graphql Spans.

Open Scope string_scope.
Open Scope list_scope.
Open Scope nat_scope.

(** * One call *)

Lemma enqueue_inflight p t : t_inflight (enqueue p t) = t_inflight t.
Proof. unfold enqueue. by repeat case_match. Qed.
Lemma enqueue_counts p t : t_counts (enqueue p t) = t_counts t.
Proof. unfold enqueue. by repeat case_match. Qed.

Lemma export_counters ok t t' :
  export_one ok t = Some t' → t_inflight t' = t_inflight t ∧ t_counts t' = t_counts t.
Proof. unfold export_one. destruct (t_exports t); [done|]. by intros [= <-]. Qed.

Lemma lookup_counter {K} `{Countable K} (c : gmap K Z) k k' v :
  default 0%Z (<[k := v]> c !! k') = if decide (k = k') then v else default 0%Z (c !! k').
Proof. rewrite lookup_insert. by case_decide. Qed.

Lemma key_outcome component kind o1 o2 : (labels component kind o1).1 = (labels component kind o2).1.
Proof. done. Qed.

Lemma gauge_do key c t :
  (opens_call key c <= gauge key t)%Z → gauge key (tel_do c t) = (gauge key t - opens_call key c)%Z.
Proof.
  destruct c as [component kind|random component kind outcome ms correlation project []|trace span e];
    cbn [opens_call tel_do]; unfold gauge.
  - intros _. unfold start, key_of. destruct (labels component kind "pending") as [[c k] o]. cbn -[lookup insert].
    unfold counter_add. rewrite lookup_counter. case_decide as E; [subst; lia|lia].
  - unfold event_of_args, key_of. rewrite (key_outcome component kind "pending" outcome).
    destruct (labels component kind outcome) as [[c k] o]. cbn -[lookup insert].
    rewrite lookup_counter. case_decide as E; [subst; lia|lia].
  - intros _. unfold event_of_args. destruct (labels component kind outcome) as [[c k] o]. cbn -[lookup]. lia.
  - intros _. rewrite enqueue_inflight. lia.
Qed.

Lemma total_do l c t : total l (tel_do c t) = (total l t + pending_call l c)%Z.
Proof.
  destruct c as [component kind|random component kind outcome ms correlation project dec|trace span e];
    cbn [pending_call tel_do]; unfold total.
  - unfold start. destruct (labels component kind "pending") as [[c k] o]. cbn -[lookup]. lia.
  - unfold event_of_args, label_of. destruct (labels component kind outcome) as [[c k] o]. cbn -[lookup insert].
    unfold counter_add. rewrite lookup_counter. case_decide as E; [subst; lia|lia].
  - rewrite enqueue_counts. lia.
Qed.

(** * Runs *)

Lemma bracketed_tail c rest : bracketed (c :: rest) → bracketed rest.
Proof. intros Hb key n. apply (Hb key (S n)). Qed.

(** What is left of the clients. *)
Definition remains (cs : list (list tel_call)) : Prop :=
  ∀ calls, calls ∈ cs → ∃ n whole, client whole ∧ calls = drop n whole.

Definition GRAPHQL : string * string := ("controlplane", "graphql").

Lemma client_drop whole n :
  client whole → ∀ key, opens key (drop n whole) =
    if decide (key = GRAPHQL) then Z.b2z (in_flight (drop n whole)) else 0%Z.
Proof.
  intros Hc key. assert (Hk : key_of "controlplane" "graphql" = GRAPHQL) by reflexivity.
  destruct Hc as [tk parse l execute body correlation elapsed|tk kind outcome ms correlation project].
  - destruct n as [|[|[|n]]]; cbn -[decide GRAPHQL key_of]; rewrite ?drop_nil, ?Hk;
      repeat case_decide; subst; try done; congruence.
  - destruct n as [|[|n]]; cbn -[decide GRAPHQL key_of]; rewrite ?drop_nil; by case_decide.
Qed.

Lemma remains_bracketed cs calls : remains cs → calls ∈ cs → bracketed calls.
Proof.
  intros Hr Hin key n. destruct (Hr _ Hin) as (m & whole & Hc & ->).
  rewrite drop_drop, (client_drop whole _ Hc). case_decide; [|done].
  by destruct (in_flight _).
Qed.

Lemma remains_insert cs i c rest :
  remains cs → cs !! i = Some (c :: rest) → remains (<[i := rest]> cs).
Proof.
  intros Hr Hi calls Hin. apply list_elem_of_lookup_1 in Hin as [j Hj].
  destruct (decide (i = j)) as [<-|Hne].
  - rewrite list_lookup_insert_eq in Hj by (by eapply lookup_lt_Some). injection Hj as <-.
    destruct (Hr (c :: rest)) as (n & whole & Hc & E); [by eapply list_elem_of_lookup_2|].
    exists (n + 1), whole. split; [done|]. by rewrite <- drop_drop, <- E.
  - rewrite list_lookup_insert_ne in Hj by done. apply Hr. by eapply list_elem_of_lookup_2.
Qed.

Definition balanced (s : Telemetry * list (list tel_call)) : Prop :=
  remains s.2 ∧ ∀ key, gauge key s.1 = zsum (opens key) s.2.

Lemma balanced_step s s' : clients_step s s' → balanced s → balanced s'.
Proof.
  destruct 1 as [t cs i c rest Hi|t t' cs ok Ht]; intros [Hr Hg]; cbn in *.
  - split; [by eapply remains_insert|]. intros key. cbn.
    assert (Hb : ∀ calls, calls ∈ cs → (0 <= opens key calls)%Z)
      by (intros calls Hin; apply (remains_bracketed _ _ Hr Hin key 0)).
    pose proof (list_elem_of_lookup_2 _ _ _ Hi) as Hin.
    pose proof (zsum_ge _ _ _ Hb Hin) as Hge.
    pose proof (bracketed_tail _ _ (remains_bracketed _ _ Hr Hin) key 0) as Hrest.
    assert (Ho : opens key (c :: rest) = (opens_call key c + opens key rest)%Z) by done.
    rewrite (zsum_insert (opens key) _ _ _ rest Hi). rewrite drop_0 in Hrest. rewrite gauge_do; rewrite Hg; lia.
  - destruct (export_counters _ _ _ Ht) as [Hi _]. split; [done|]. intros key. cbn.
    rewrite <- Hg. unfold gauge. by rewrite Hi.
Qed.

Lemma conserved_step l s s' :
  clients_step s s' → (total l s'.1 + zsum (pending l) s'.2 = total l s.1 + zsum (pending l) s.2)%Z.
Proof.
  destruct 1 as [t cs i c rest Hi|t t' cs ok Ht]; cbn [fst snd].
  - rewrite total_do, (zsum_insert (pending l) _ _ _ rest Hi). 
    assert (Ho : pending l (c :: rest) = (pending_call l c + pending l rest)%Z) by done. lia.
  - destruct (export_counters _ _ _ Ht) as [_ Hc]. unfold total. by rewrite Hc.
Qed.

Lemma balanced_run s s' :
  rtc clients_step s s' → balanced s →
  balanced s' ∧ ∀ l, (total l s'.1 + zsum (pending l) s'.2 = total l s.1 + zsum (pending l) s.2)%Z.
Proof.
  induction 1 as [s|s1 s2 s3 H1 _ IH]; intros Hb; [done|].
  destruct (IH (balanced_step _ _ H1 Hb)) as [Hb' Hc]. split; [done|]. intros l.
  rewrite Hc. by apply conserved_step.
Qed.

Lemma in_flight_sum cs :
  zsum (λ calls, Z.b2z (in_flight calls)) cs = Z.of_nat (length (filter (λ calls, in_flight calls = true) cs)).
Proof.
  induction cs as [|calls cs IH]; [done|]. cbn [zsum]. rewrite IH, filter_cons.
  destruct (in_flight calls); [rewrite decide_True by done|rewrite decide_False by done]; cbn [length Z.b2z]; lia.
Qed.

Lemma zsum_ext {A} (f g : A → Z) l : (∀ x, x ∈ l → f x = g x) → zsum f l = zsum g l.
Proof.
  induction l as [|x l IH]; intros H; cbn; [done|]. rewrite H by (by left).
  rewrite IH; [done|]. intros y Hy. apply H. by right.
Qed.

Lemma init_gauges checks env mb ep t :
  telemetry_init checks env mb ep = Ok t → (∀ key, gauge key t = 0%Z) ∧ (∀ l, total l t = 0%Z).
Proof.
  unfold telemetry_init. destruct (validate_otlp_endpoint _ _); [|done]. cbn. intros [= <-].
  split; intros; unfold gauge, total; cbn -[lookup]; by rewrite lookup_empty.
Qed.

(** C18: however GraphQL requests, signal handlers and the exporter interleave, the
    gauge of GraphQL operations is the number of requests that have started and not
    finished, every other gauge is zero, and every observation that was made is
    counted once under its label. *)
Theorem gauge_counts_running_requests checks env mb ep t0 cs t cs' :
  telemetry_init checks env mb ep = Ok t0 → Forall client cs → rtc clients_step (t0, cs) (t, cs') →
  gauge GRAPHQL t = Z.of_nat (length (filter (λ calls, in_flight calls = true) cs')) ∧
  (∀ key, key ≠ GRAPHQL → gauge key t = 0%Z) ∧
  (∀ l, (total l t + zsum (pending l) cs' = zsum (pending l) cs)%Z).
Proof.
  intros Hi Hcs Hrun. destruct (init_gauges _ _ _ _ _ Hi) as [Hg0 Ht0]. rewrite Forall_forall in Hcs.
  assert (Hb0 : balanced (t0, cs)).
  { split; [intros calls Hin; exists 0, calls; split; [by apply Hcs|done]|]. intros key. cbn.
    rewrite Hg0, zsum_zero; [done|]. intros calls Hin. pose proof (client_drop calls 0 (Hcs _ Hin) key) as Ho.
    rewrite drop_0 in Ho. rewrite Ho. case_decide; [|done]. by destruct (Hcs _ Hin). }
  pose proof (balanced_run _ _ Hrun Hb0) as Hinv.
  destruct Hinv as [[Hr Hg] Hc]. cbn [fst snd] in *.
  assert (Ho : ∀ key calls, calls ∈ cs' →
    opens key calls = if decide (key = GRAPHQL) then Z.b2z (in_flight calls) else 0%Z).
  { intros key calls Hin. destruct (Hr _ Hin) as (n & whole & Hw & ->). by apply client_drop. }
  split_and!.
  - rewrite Hg, <- in_flight_sum. apply zsum_ext. intros calls Hin. by rewrite (Ho _ _ Hin), decide_True.
  - intros key Hne. rewrite Hg. apply zsum_zero. intros calls Hin. by rewrite (Ho _ _ Hin), decide_False.
  - intros l. rewrite Hc, Ht0. lia.
Qed.

(** * A concrete run *)

Definition demo_tokens : tokens := mkTokens "r" "t" "s".
Definition demo_clients : list (list tel_call) :=
  [view_calls demo_tokens "failed" "c1" 5; view_calls demo_tokens "failed" "c2" 7;
   observe_calls demo_tokens "controlplane" "diagnostic" "timeout" 3 None (Some 7%Z) false].

(** The clients in the order of a schedule. *)
Fixpoint run_clients (sched : list nat) (s : Telemetry * list (list tel_call))
    : option (Telemetry * list (list tel_call)) :=
  match sched with
  | [] => Some s
  | i :: sched =>
      match s.2 !! i with
      | Some (c :: rest) => run_clients sched (tel_do c s.1, <[i := rest]> s.2)
      | _ => None
      end
  end.

Lemma run_clients_steps sched s s' : run_clients sched s = Some s' → rtc clients_step s s'.
Proof.
  revert s. induction sched as [|i sched IH]; intros [t cs] H; cbn in H; [by injection H as <-|].
  destruct (cs !! i) as [[|c rest]|] eqn:Hi; try discriminate H.
  eapply rtc_l; [by apply cs_call|by apply IH].
Qed.

(** Two requests and a signal: the second request and the signal are done, the first
    one still runs. *)
Lemma gauge_counts_running_requests_witness :
  ∃ t cs', run_clients [0; 1; 2; 1; 2; 1] (seen_telemetry, demo_clients) = Some (t, cs') ∧
    gauge GRAPHQL t = 1%Z ∧ total ("controlplane", "graphql", "failed") t = 1%Z.
Proof.
  set (l := ("controlplane", "graphql", "failed")).
  assert (Hs : (λ s : Telemetry * list (list tel_call),
      (length (filter (λ calls, in_flight calls = true) s.2), zsum (pending l) s.2))
      <$> run_clients [0; 1; 2; 1; 2; 1] (seen_telemetry, demo_clients) = Some (1, 1%Z))
    by (vm_compute; reflexivity).
  destruct (run_clients _ _) as [[t cs']|] eqn:E; [|discriminate Hs].
  cbn [fmap option_fmap option_map snd] in Hs. injection Hs as Hl1 Hl2.
  exists t, cs'. split; [done|].
  destruct (gauge_counts_running_requests (mkChecks (λ _, true) (λ _, true)) "" 8 None seen_telemetry
    demo_clients t cs') as (Hg & _ & Ht).
  - reflexivity.
  - assert (Hv : ∀ tk c ms, client (view_calls tk "failed" c ms)).
    { intros tk c ms. exact (cl_request tk (λ _, Ok []) (mkLimits 1 1 false 900) (λ _ _, Err (ValueError ""))
        (Err (ValueError "")) c ms). }
    repeat constructor; apply Hv.
  - by eapply run_clients_steps.
  - specialize (Ht l). rewrite Hl1 in Hg. rewrite Hl2 in Ht. split; [exact Hg|].
    assert (Hp : zsum (pending l) demo_clients = 2%Z) by reflexivity. lia.
Defined.
