(* ===== verification/Integrations.v ===== *)
(** Ecosystem integrations: [cli/djangoops/integrations.py] and the optional
    section they have in the project configuration, [cli/djangoops/ecosystem_config.py].

    The registry is compiled in: a configuration can only select its entries.
    Evaluation reads the monotonic clock twice; both readings are arguments. *)

From S2P Require Import Prelude Text Regex Dict Json Url Telemetry Config.

Open Scope string_scope.
Open Scope list_scope.
Open Scope nat_scope.

(** * Constants *)

Definition MAX_INTEGRATIONS : nat := 8.
Definition MAX_CONFIG_FIELDS : nat := 16.
Definition MAX_CONFIG_VALUE_CHARS : nat := 256.
Definition MAX_RESULT_FIELDS : nat := 16.
Definition MAX_RESULT_VALUE_CHARS : nat := 256.
Definition DEFAULT_BUDGET_MS : Z := 100.
Definition MAX_BUDGET_MS : Z := 1000.

Definition SECRET_KEY_RE : re :=
  (ILit "secret" ∥ ILit "token" ∥ ILit "password" ∥ ILit "authorization" ∥
   (ILit "api" ⋅ Opt (Cls (one_of "_-")) ⋅ ILit "key") ∥
   (ILit "access" ⋅ Opt (Cls (one_of "_-")) ⋅ ILit "key") ∥ ILit "credential")%re.
Definition SAFE_NAME_RE : re :=
  (Cls is_lower ⋅ Between (Cls (or_class lower_digit (one_of "-"))) 0 47)%re.
Definition SAFE_NAMESPACE_RE : re := (Cls is_alnum ⋅ Between (Cls (alnum_or "_.-")) 0 62)%re.
Definition SAFE_HEALTH_PATH_RE : re :=
  (Cls (one_of "/") ⋅ Between (Cls (alnum_or "/_-")) 0 127)%re.

(** * Data *)

Inductive IntegrationCapability := METADATA | HEALTH | TELEMETRY | DEPLOYMENT_CONFIG.

Definition capability_value (c : IntegrationCapability) : string :=
  match c with
  | METADATA => "metadata"
  | HEALTH => "health"
  | TELEMETRY => "telemetry"
  | DEPLOYMENT_CONFIG => "deployment_config"
  end.

(** [IntegrationError(code, message)], or an error of the Python code it calls. *)
Inductive eco_error := IntegrationError (code message : string) | PyError (e : exn).

#[export] Instance eco_error_eq_dec : EqDecision eco_error.
Proof. solve_decision. Defined.

Record IntegrationDefinition := mkDefinition {
  df_name : string;
  df_versions : list string;
  df_capabilities : list IntegrationCapability;
  df_config_keys : list string
}.

Record IntegrationConfig := mkIntegration {
  ic_name : string;
  ic_version : string;
  ic_enabled : bool;
  ic_capabilities : list string;
  ic_config : list (string * string)
}.

Record IntegrationResult := mkIntegrationResult {
  ir_name : string;
  ir_version : string;
  ir_status : string;
  ir_capabilities : list string;
  ir_summary : list (string * string)
}.

(** [IntegrationConfig.to_mapping]. *)
Definition integration_to_mapping (i : IntegrationConfig) : yaml :=
  YMap [(YStr "name", YStr (ic_name i));
        (YStr "version", YStr (ic_version i));
        (YStr "enabled", YBool (ic_enabled i));
        (YStr "capabilities", YSeq (YStr <$> ic_capabilities i));
        (YStr "config", YMap ((λ kv : string * string, (YStr kv.1, YStr kv.2)) <$> ic_config i))].

(** * The registry *)

Definition registry : Type := list (string * IntegrationDefinition).

(** [IntegrationRegistry.__init__]. *)
Fixpoint register (registered : registry) (definitions : list IntegrationDefinition)
    : result eco_error registry :=
  match definitions with
  | [] => Ok registered
  | definition :: rest =>
      _ ← raise_if (dict_has registered (df_name definition))
            (IntegrationError "DUPLICATE_REGISTRATION"
               ("duplicate integration registration: " +:+ df_name definition));
      _ ← raise_if (negb (fullmatch SAFE_NAME_RE (df_name definition)))
            (IntegrationError "INVALID_REGISTRATION" "integration name is invalid");
      register (dict_set registered (df_name definition) definition) rest
  end.

Definition resolve (r : registry) (name version : string) : result eco_error IntegrationDefinition :=
  match dict_get r name with
  | None => Err (IntegrationError "UNKNOWN_INTEGRATION" ("unknown integration: " +:+ name))
  | Some definition =>
      if str_in version (df_versions definition) then Ok definition
      else Err (IntegrationError "UNSUPPORTED_VERSION"
                  ("unsupported " +:+ name +:+ " integration version: " +:+ version))
  end.

Definition BUILTIN_DEFINITIONS : list IntegrationDefinition :=
  [mkDefinition "django-runtime" ["v1"] [METADATA; HEALTH] ["health_path"; "metadata_label"];
   mkDefinition "otlp-export" ["v1"] [TELEMETRY; DEPLOYMENT_CONFIG] ["endpoint"; "service_namespace"]].

(** Importing the module registers them; [builtins_register] shows that it succeeds. *)
Definition BUILTIN_REGISTRY : registry :=
  match register [] BUILTIN_DEFINITIONS with Ok r => r | Err _ => [] end.

Definition definitions (r : registry) : list IntegrationDefinition :=
  omap (dict_get r) (sort_by str_leb r.*1).

Definition supported_capabilities (definition : IntegrationDefinition) : list string :=
  capability_value <$> df_capabilities definition.

(** * Parsing a configuration *)

(** [sorted(set(l))]. *)
Definition sorted_set (l : list string) : list string := sort_by str_leb (remove_dups l).

Definition eco_string (value : option yaml) (field : string) : result eco_error string :=
  match value with
  | Some (YStr s) => Ok s
  | _ => Err (IntegrationError "INVALID_CONFIG" (field +:+ " must be a string"))
  end.

Definition key_names (m : mapping) : list string :=
  omap (λ kv : yaml * yaml, match kv.1 with YStr s => Some s | _ => None end) m.

Definition all_strings (items : list yaml) : option (list string) :=
  mapM (λ v, match v with YStr s => Some s | _ => None end) items.

Section integrations.
Context (checks : UrlChecks).

Definition validate_endpoint (value : string) : result eco_error string :=
  match urlsplit checks value with
  | Err e => Err (PyError e)
  | Ok parsed =>
      if negb (str_in (scheme parsed) ["http"; "https"]) || negb (truthy (hostname parsed)) ||
         bool_decide (username parsed ≠ None) || bool_decide (password parsed ≠ None) ||
         negb (String.eqb (query parsed) "") || negb (String.eqb (fragment parsed) "") ||
         negb (str_in (path parsed) [""; "/"])
      then Err (IntegrationError "SECRET_REJECTED"
                  "OTLP endpoint must be a credential-free http(s) origin without query or fragment")
      else Ok (rstrip "/" value)
  end.

(** The loop of [_validate_config]; the keys are strings by then. *)
Fixpoint validate_fields (validated : list (string * string)) (items : mapping)
    : result eco_error (list (string * string)) :=
  match items with
  | (YStr key, raw_value) :: rest =>
      _ ← raise_if (search SECRET_KEY_RE key)
            (IntegrationError "SECRET_REJECTED" ("secret-bearing config key is forbidden: " +:+ key));
      text ← eco_string (Some raw_value) ("integration config " +:+ key);
      _ ← raise_if (MAX_CONFIG_VALUE_CHARS <? String.length text)
            (IntegrationError "LIMIT_EXCEEDED" ("integration config " +:+ key +:+ " is too long"));
      validate_fields (dict_set validated key text) rest
  | _ :: rest => validate_fields validated rest
  | [] => Ok validated
  end.

(** What the two integrations require of their fields, defaults filled in. *)
Definition django_runtime_config (validated : list (string * string))
    : result eco_error (list (string * string)) :=
  let health_path := default "/healthz" (dict_get validated "health_path") in
  _ ← raise_if (negb (fullmatch SAFE_HEALTH_PATH_RE health_path) || contains ".." health_path)
        (IntegrationError "INVALID_CONFIG" "django-runtime health_path is invalid");
  let validated := dict_set validated "health_path" health_path in
  let metadata_label := default "django" (dict_get validated "metadata_label") in
  _ ← raise_if (negb (fullmatch SAFE_NAMESPACE_RE metadata_label))
        (IntegrationError "INVALID_CONFIG" "django-runtime metadata_label is invalid");
  Ok (dict_set validated "metadata_label" metadata_label).

Definition otlp_export_config (validated : list (string * string))
    : result eco_error (list (string * string)) :=
  match dict_get validated "endpoint" with
  | None => Err (IntegrationError "INVALID_CONFIG" "otlp-export requires endpoint")
  | Some endpoint =>
      endpoint ← validate_endpoint endpoint;
      let validated := dict_set validated "endpoint" endpoint in
      let namespace := default "djangoops" (dict_get validated "service_namespace") in
      _ ← raise_if (negb (fullmatch SAFE_NAMESPACE_RE namespace))
            (IntegrationError "INVALID_CONFIG" "otlp-export service_namespace is invalid");
      Ok (dict_set validated "service_namespace" namespace)
  end.

Definition validate_config (definition : IntegrationDefinition) (value : option yaml) (index : nat)
    : result eco_error (list (string * string)) :=
  match value with
  | Some (YMap m) =>
      _ ← raise_if (negb (forallb (λ kv : yaml * yaml, is_str kv.1) m))
            (IntegrationError "INVALID_CONFIG" ("integrations[" +:+ str_of_Z (Z.of_nat index) +:+ "].config must be a mapping"));
      _ ← raise_if (MAX_CONFIG_FIELDS <? length m)
            (IntegrationError "LIMIT_EXCEEDED" "integration config has too many fields");
      let unknown := sorted_set (filter (λ k, k ∉ df_config_keys definition) (key_names m)) in
      _ ← raise_if (negb (bool_decide (unknown = [])))
            (IntegrationError "SCHEMA_DRIFT"
               ("unknown " +:+ df_name definition +:+ " config keys: " +:+ join ", " unknown));
      validated ← validate_fields [] m;
      if String.eqb (df_name definition) "django-runtime" then django_runtime_config validated
      else if String.eqb (df_name definition) "otlp-export" then otlp_export_config validated
      else Ok validated
  | _ => Err (IntegrationError "INVALID_CONFIG"
                ("integrations[" +:+ str_of_Z (Z.of_nat index) +:+ "].config must be a mapping"))
  end.

Definition requested_capabilities (definition : IntegrationDefinition) (name at_index : string)
    (value : option yaml) : result eco_error (list string) :=
  match value with
  | Some (YSeq items) =>
      match all_strings items with
      | Some requested =>
          _ ← raise_if (negb (bool_decide (NoDup requested)))
                (IntegrationError "INVALID_CONFIG" (name +:+ " capabilities must not contain duplicates"));
          let unsupported :=
            sorted_set (filter (λ c, c ∉ supported_capabilities definition) requested) in
          _ ← raise_if (negb (bool_decide (unsupported = [])))
                (IntegrationError "UNSUPPORTED_CAPABILITY"
                   (name +:+ " does not support: " +:+ join ", " unsupported));
          Ok requested
      | None => Err (IntegrationError "INVALID_CONFIG" (at_index +:+ ".capabilities must be a list of strings"))
      end
  | _ => Err (IntegrationError "INVALID_CONFIG" (at_index +:+ ".capabilities must be a list of strings"))
  end.

(** One round of the loop of [parse_integrations]; [seen] is the set of names
    before it. *)
Definition parse_one (index : nat) (seen : list string) (raw : yaml)
    : result eco_error IntegrationConfig :=
  let at_index := "integrations[" +:+ str_of_Z (Z.of_nat index) +:+ "]" in
  match raw with
  | YMap raw =>
      _ ← raise_if (negb (forallb (λ kv : yaml * yaml, is_str kv.1) raw))
            (IntegrationError "INVALID_CONFIG" (at_index +:+ " must be a mapping"));
      _ ← raise_if (negb (keys_are raw ["name"; "version"; "enabled"; "capabilities"; "config"]))
            (IntegrationError "SCHEMA_DRIFT" (at_index +:+ " keys do not match ecosystem contract v1"));
      name ← eco_string (map_get raw "name") (at_index +:+ ".name");
      version ← eco_string (map_get raw "version") (at_index +:+ ".version");
      match map_get raw "enabled" with
      | Some (YBool enabled) =>
          _ ← raise_if (str_in name seen)
                (IntegrationError "DUPLICATE_INTEGRATION" ("integration configured more than once: " +:+ name));
          definition ← resolve BUILTIN_REGISTRY name version;
          requested ← requested_capabilities definition name at_index (map_get raw "capabilities");
          config ← validate_config definition (map_get raw "config") index;
          Ok (mkIntegration name version enabled requested config)
      | _ => Err (IntegrationError "INVALID_CONFIG" (at_index +:+ ".enabled must be boolean"))
      end
  | _ => Err (IntegrationError "INVALID_CONFIG" (at_index +:+ " must be a mapping"))
  end.

Fixpoint parse_from (index : nat) (seen : list string) (value : list yaml)
    : result eco_error (list IntegrationConfig) :=
  match value with
  | [] => Ok []
  | raw :: rest =>
      integration ← parse_one index seen raw;
      parsed ← parse_from (S index) (ic_name integration :: seen) rest;
      Ok (integration :: parsed)
  end.

Definition parse_integrations (value : yaml) : result eco_error (list IntegrationConfig) :=
  match value with
  | YNull => Ok []
  | YSeq items =>
      _ ← raise_if (MAX_INTEGRATIONS <? length items)
            (IntegrationError "LIMIT_EXCEEDED" "at most 8 integrations are allowed");
      parse_from 0 [] items
  | _ => Err (IntegrationError "INVALID_CONFIG" "integrations must be a list")
  end.
End integrations.

(** * Evaluation *)

Fixpoint validate_context_from (result_ : list (string * string)) (context : list (string * string))
    : result eco_error (list (string * string)) :=
  match context with
  | [] => Ok result_
  | (key, value) :: rest =>
      _ ← raise_if (search SECRET_KEY_RE key)
            (IntegrationError "SECRET_REJECTED" "secret-bearing integration context is forbidden");
      _ ← raise_if ((64 <? String.length key) || (MAX_CONFIG_VALUE_CHARS <? String.length value))
            (IntegrationError "LIMIT_EXCEEDED" "integration context field exceeds bounds");
      validate_context_from (dict_set result_ key value) rest
  end.

Definition validate_context (context : list (string * string))
    : result eco_error (list (string * string)) :=
  _ ← raise_if (MAX_CONFIG_FIELDS <? length context)
        (IntegrationError "LIMIT_EXCEEDED" "integration context has too many fields");
  validate_context_from [] context.

(** [d[key]]. *)
Definition subscript (d : list (string * string)) (key : string) : result eco_error string :=
  match dict_get d key with Some v => Ok v | None => Err (PyError (LookupError key)) end.

Definition django_runtime_summary (config context : list (string * string))
    : result eco_error (list (string * string)) :=
  health_path ← subscript config "health_path";
  metadata_label ← subscript config "metadata_label";
  Ok [("kind", "django-runtime"); ("health_path", health_path); ("metadata_label", metadata_label);
      ("project", default "unknown" (dict_get context "project"))].

Definition otlp_export_summary (config context : list (string * string))
    : result eco_error (list (string * string)) :=
  endpoint ← subscript config "endpoint";
  service_namespace ← subscript config "service_namespace";
  Ok [("kind", "otlp-export"); ("endpoint", endpoint); ("service_namespace", service_namespace);
      ("project", default "unknown" (dict_get context "project"))].

Fixpoint bounded_from (result_ : list (string * string)) (value : list (string * string))
    : result eco_error (list (string * string)) :=
  match value with
  | [] => Ok result_
  | (key, item) :: rest =>
      _ ← raise_if (search SECRET_KEY_RE key || (64 <? String.length key) ||
                    (MAX_RESULT_VALUE_CHARS <? String.length item))
            (IntegrationError "RESULT_REJECTED" "integration result violates safety bounds");
      bounded_from (dict_set result_ key item) rest
  end.

Definition bounded_result (value : list (string * string)) : result eco_error (list (string * string)) :=
  _ ← raise_if (MAX_RESULT_FIELDS <? length value)
        (IntegrationError "LIMIT_EXCEEDED" "integration result has too many fields");
  bounded_from [] value.

(** [evaluate_integration]; [started] and [finished] are the two readings of
    [time.monotonic_ns].  The budget comparison is exact: an integer quotient by
    a million is far from rounding to the budget. *)
Definition evaluate_integration (i : IntegrationConfig) (context : option (list (string * string)))
    (budget_ms started finished : Z) : result eco_error IntegrationResult :=
  _ ← raise_if ((budget_ms <? 1)%Z || (MAX_BUDGET_MS <? budget_ms)%Z)
        (IntegrationError "INVALID_BUDGET" "budget_ms must be between 1 and 1000");
  if negb (ic_enabled i)
  then Ok (mkIntegrationResult (ic_name i) (ic_version i) "disabled" (ic_capabilities i) [])
  else
    definition ← resolve BUILTIN_REGISTRY (ic_name i) (ic_version i);
    _ ← raise_if (negb (forallb (λ c, str_in c (supported_capabilities definition)) (ic_capabilities i)))
          (IntegrationError "UNSUPPORTED_CAPABILITY" "configured capabilities no longer match registry");
    safe_context ← validate_context (default [] context);
    summary ←
      (if String.eqb (ic_name i) "django-runtime" then django_runtime_summary (ic_config i) safe_context
       else if String.eqb (ic_name i) "otlp-export" then otlp_export_summary (ic_config i) safe_context
       else Err (IntegrationError "UNKNOWN_INTEGRATION" ("unknown integration: " +:+ ic_name i)));
    _ ← raise_if (budget_ms * 1000000 <? finished - started)%Z
          (IntegrationError "TIMEOUT" (ic_name i +:+ " integration exceeded its execution budget"));
    bounded ← bounded_result summary;
    Ok (mkIntegrationResult (ic_name i) (ic_version i) "ready" (ic_capabilities i) bounded).

(** * The project configuration with its integrations *)

(** [m.pop(k, None)]. *)
Fixpoint map_pop (m : mapping) (k : string) : mapping :=
  match m with
  | [] => []
  | (k', v) :: m => if is_key k k' then m else (k', v) :: map_pop m k
  end.

Definition as_eco {A} (m : result exn A) : result eco_error A :=
  match m with Ok a => Ok a | Err e => Err (PyError e) end.

Section project.
Context (py : Yaml) (checks : UrlChecks) (repr : yaml → string).

Definition parse_project_config (text : string)
    : result eco_error (DjangoOpsConfig * list IntegrationConfig) :=
  match safe_load py text with
  | None => Err (PyError (ValueError "invalid YAML configuration"))
  | Some (YMap loaded) =>
      _ ← raise_if (negb (forallb (λ kv : yaml * yaml, is_str kv.1) loaded))
            (PyError (ValueError "configuration root must be a mapping"));
      integrations ← parse_integrations checks (default YNull (map_get loaded "integrations"));
      let core_text := safe_dump py (YMap (map_pop loaded "integrations")) in
      c ← as_eco (parse_config py checks repr core_text);
      Ok (c, integrations)
  | Some _ => Err (PyError (ValueError "configuration root must be a mapping"))
  end.

(** [mapping["integrations"] = ...] on the mapping of the core configuration. *)
Definition project_mapping (c : DjangoOpsConfig) (integrations : list IntegrationConfig) : yaml :=
  match to_mapping c, integrations with
  | YMap m, _ :: _ => YMap (map_set m "integrations" (YSeq (integration_to_mapping <$> integrations)))
  | doc, _ => doc
  end.

Definition render_project_config (c : DjangoOpsConfig) (integrations : list IntegrationConfig) : string :=
  safe_dump py (project_mapping c integrations).
End project.
