(* ===== verification/IntegrationsProps.v ===== *)
(** Properties of [Integrations]: what parsing accepts evaluates within its
    bounds, and a project configuration reads back as it was rendered. *)

From S2P Require Import Prelude Text Regex Dict Json Url Telemetry Config ConfigProps Integrations.

Open Scope string_scope.
Open Scope list_scope.
Open Scope nat_scope.

(** * The registry *)

Lemma builtins_register : is_ok (register [] BUILTIN_DEFINITIONS) = true.
Proof. by vm_compute. Qed.

Definition django_runtime : IntegrationDefinition :=
  mkDefinition "django-runtime" ["v1"] [METADATA; HEALTH] ["health_path"; "metadata_label"].
Definition otlp_export : IntegrationDefinition :=
  mkDefinition "otlp-export" ["v1"] [TELEMETRY; DEPLOYMENT_CONFIG] ["endpoint"; "service_namespace"].

Lemma builtin_registry : BUILTIN_REGISTRY = [("django-runtime", django_runtime); ("otlp-export", otlp_export)].
Proof. by vm_compute. Qed.

Lemma resolve_builtin name version def :
  resolve BUILTIN_REGISTRY name version = Ok def →
  (name = "django-runtime" ∧ def = django_runtime) ∨ (name = "otlp-export" ∧ def = otlp_export).
Proof.
  rewrite builtin_registry. unfold resolve. cbn [dict_get]. repeat case_decide; subst; try done;
    destruct (str_in _ _); try done; intros [= <-]; auto.
Qed.

(** * Fields *)

Lemma dict_set_same {K V} `{EqDecision K} (d : list (K * V)) k v : dict_get d k = Some v → dict_set d k v = d.
Proof.
  induction d as [|[k' v'] d IH]; cbn; [done|]. case_decide as E; [by intros [= ->]|]. intros H. by rewrite IH.
Qed.

Lemma dict_set_elem {K V} `{EqDecision K} (d : list (K * V)) k v kv :
  kv ∈ dict_set d k v → kv = (k, v) ∨ kv ∈ d.
Proof.
  induction d as [|[k' v'] d IH]; cbn; [by intros ->%list_elem_of_singleton; left|].
  case_decide as E; rewrite !elem_of_cons; [subst|]; naive_solver.
Qed.

(** A field a configuration may hold: a name the definition allows, a value
    within bounds. *)
Definition field_ok (keys : list string) (kv : string * string) : Prop :=
  kv.1 ∈ keys ∧ search SECRET_KEY_RE kv.1 = false ∧ String.length kv.2 ≤ MAX_CONFIG_VALUE_CHARS.
Ltac field_literal :=
  split_and!; [apply str_in_spec|idtac|apply Nat.leb_le]; vm_compute; reflexivity.

Definition fields_ok (keys : list string) (d : list (string * string)) : Prop :=
  dict_wf d ∧ Forall (field_ok keys) d.

Lemma fields_ok_set keys d k v :
  fields_ok keys d → field_ok keys (k, v) → fields_ok keys (dict_set d k v).
Proof.
  intros [Hwf Hd] Hk. split; [by apply dict_set_wf|]. rewrite Forall_forall in Hd |- *.
  intros kv [->|]%dict_set_elem; auto.
Qed.

Lemma fields_ok_get keys d k v : fields_ok keys d → dict_get d k = Some v → field_ok keys (k, v).
Proof. intros [_ Hd] H%dict_get_Some_elem. rewrite Forall_forall in Hd. by apply Hd. Qed.

Lemma validate_fields_ok keys validated m d :
  fields_ok keys validated → (∀ k, k ∈ key_names m → k ∈ keys) →
  validate_fields validated m = Ok d → fields_ok keys d.
Proof.
  revert validated. induction m as [|[[| | | |k| | |] raw] m IH]; intros validated Hv Hk; cbn [validate_fields];
    try (apply IH; [done|]; intros k' Hk'; by apply Hk).
  - by intros [= <-].
  - intros H. binds H. apply IH in H; [done| |intros k' Hk'; apply Hk; by apply list_elem_of_further].
    repeat match goal with E : raise_if _ _ = Ok _ |- _ => apply raise_if_ok in E end.
    match goal with E : eco_string _ _ = Ok _ |- _ => destruct raw; try discriminate E; injection E as <- end.
    apply fields_ok_set; [done|]. split_and!; [apply Hk, list_elem_of_here|done|].
    by apply Nat.ltb_ge.
Qed.

Definition as_items (d : list (string * string)) : mapping := (λ kv : string * string, (YStr kv.1, YStr kv.2)) <$> d.

Lemma validate_fields_again keys acc d :
  NoDup (acc ++ d).*1 → Forall (field_ok keys) d → validate_fields acc (as_items d) = Ok (acc ++ d).
Proof.
  revert acc. induction d as [|[k v] d IH]; intros acc Hn Hd; cbn; [by rewrite app_nil_r|].
  inversion Hd as [|?? (Hk & Hs & Hl) Hd']; subst. cbn in Hs, Hl. rewrite Hs. cbn.
  apply Nat.ltb_ge in Hl. cbn in Hl. rewrite Hl. cbn.
  rewrite dict_set_fresh, IH, <- app_assoc; [done|by rewrite <- app_assoc|done|].
  apply dict_get_None. intros Hin. rewrite fmap_app in Hn. apply NoDup_app in Hn as (_ & Hn & _).
  apply (Hn _ Hin), list_elem_of_here.
Qed.

Lemma key_names_items d : key_names (as_items d) = d.*1.
Proof. induction d as [|[k v] d IH]; [done|]. cbn. by rewrite <- IH. Qed.

Lemma keys_are_strings d : forallb (λ kv : yaml * yaml, is_str kv.1) (as_items d) = true.
Proof. by induction d as [|[k v] d IH]. Qed.

Lemma sorted_set_nil l : sorted_set l = [] ↔ l = [].
Proof.
  unfold sorted_set. split; [|by intros ->]. destruct l as [|x l]; [done|]. intros H.
  assert (Hx : x ∈ remove_dups (x :: l)) by (apply elem_of_remove_dups, list_elem_of_here).
  destruct (remove_dups (x :: l)) as [|y r]; [by apply elem_of_nil in Hx|]. cbn in H.
  destruct (foldr _ _ r); cbn in H; [done|]. by destruct (str_leb _ _) in H.
Qed.

Lemma filter_none {A} (P : A → Prop) `{!∀ x, Decision (P x)} l : filter P l = [] ↔ Forall (λ x, ¬ P x) l.
Proof.
  induction l as [|x l IH]; [done|]. rewrite filter_cons, Forall_cons. case_decide; naive_solver.
Qed.

Lemma no_unknown (l keys : list string) :
  bool_decide (sorted_set (filter (λ k, k ∉ keys) l) = []) = true ↔ ∀ k, k ∈ l → k ∈ keys.
Proof.
  rewrite bool_decide_eq_true, sorted_set_nil, filter_none, Forall_forall.
  apply forall_proper. intros k. destruct (decide (k ∈ keys)); naive_solver.
Qed.

Lemma all_strings_fmap l : all_strings (YStr <$> l) = Some l.
Proof. unfold all_strings. induction l as [|x l IH]; [done|]. rewrite fmap_cons. cbn [mapM]. by rewrite IH. Qed.

(** * What parsing establishes *)

Section props.
Context (checks : UrlChecks).

Lemma validate_endpoint_idemp v s :
  validate_endpoint checks v = Ok s → validate_endpoint checks s = Ok s ∧ String.length s ≤ String.length v.
Proof.
  unfold validate_endpoint at 1. destruct (urlsplit checks v) as [r|e] eqn:Eu; [|done].
  destruct (_ || _ || _ || _ || _ || _ || _) eqn:E; [done|]. intros [= <-].
  apply orb_false_iff in E as [[[[[[Hs Hh]%orb_false_iff Hu]%orb_false_iff Hw]%orb_false_iff Hq]%orb_false_iff
    Hf]%orb_false_iff Hp].
  apply negb_false_iff in Hs, Hh, Hp. apply negb_false_iff, String.eqb_eq in Hq, Hf.
  destruct (origin_stripped checks v r) as (p & Eu' & Hp' & Hr); [done| |done..|].
  { intros E. rewrite E in Hs. by vm_compute in Hs. }
  split; [|clear; unfold rstrip; induction v as [|c v IH]; [done|]; cbn; destruct (rstrip_by _ v);
           [destruct (_ || _); cbn; lia|cbn in *; lia]].
  unfold validate_endpoint. rewrite Eu'. cbn [scheme query fragment path]. rewrite Hs, Hp', Hr.
  revert Hh Hu Hw. unfold hostname, username, password, userinfo, hostinfo. cbn [netloc]. intros -> -> ->. done.
Qed.

(** A configuration that is complete for its definition. *)
Definition complete (def : IntegrationDefinition) (d : list (string * string)) : Prop :=
  fields_ok (df_config_keys def) d ∧
  if String.eqb (df_name def) "django-runtime" then
    ∃ health_path metadata_label,
      dict_get d "health_path" = Some health_path ∧ fullmatch SAFE_HEALTH_PATH_RE health_path = true ∧
      contains ".." health_path = false ∧
      dict_get d "metadata_label" = Some metadata_label ∧ fullmatch SAFE_NAMESPACE_RE metadata_label = true
  else
    ∃ endpoint namespace,
      dict_get d "endpoint" = Some endpoint ∧ validate_endpoint checks endpoint = Ok endpoint ∧
      dict_get d "service_namespace" = Some namespace ∧ fullmatch SAFE_NAMESPACE_RE namespace = true.

Lemma default_ok keys d k v :
  fields_ok keys d → field_ok keys (k, v) → field_ok keys (k, default v (dict_get d k)).
Proof. intros Hd Hv. destruct (dict_get d k) eqn:E; [by eapply fields_ok_get|done]. Qed.

Lemma django_runtime_complete d d' :
  fields_ok (df_config_keys django_runtime) d → django_runtime_config d = Ok d' → complete django_runtime d'.
Proof.
  unfold django_runtime_config, complete. intros Hd H. binds H. injection H as <-.
  repeat match goal with E : raise_if _ _ = Ok _ |- _ => apply raise_if_ok in E end.
  match goal with E : _ || _ = false |- _ => apply orb_false_iff in E as [E1%negb_false_iff E2] end.
  match goal with E : negb (fullmatch SAFE_NAMESPACE_RE _) = false |- _ => apply negb_false_iff in E; rename E into E3 end.
  split.
  - assert (Hd1 : fields_ok (df_config_keys django_runtime)
                    (dict_set d "health_path" (default "/healthz" (dict_get d "health_path")))).
    { apply fields_ok_set; [done|]. apply default_ok; [done|]. field_literal. }
    apply fields_ok_set; [exact Hd1|]. apply default_ok; [exact Hd1|]. field_literal.
  - cbn -[dict_get dict_set contains fullmatch]. eexists _, _. rewrite (dict_get_set_ne _ "metadata_label") by done.
    rewrite !dict_get_set_eq. rewrite dict_get_set_ne in E3 by done. rewrite dict_get_set_ne by done.
    split_and!; first [reflexivity|assumption].
Qed.

Lemma otlp_export_complete d d' :
  fields_ok (df_config_keys otlp_export) d → otlp_export_config checks d = Ok d' → complete otlp_export d'.
Proof.
  unfold otlp_export_config, complete. intros Hd. destruct (dict_get d "endpoint") as [e|] eqn:Ee; [|done].
  intros H. binds H. injection H as <-.
  match goal with E : validate_endpoint _ _ = Ok ?x |- _ => rename x into e'; apply validate_endpoint_idemp in E as [He Hlen] end.
  match goal with E : raise_if _ _ = Ok _ |- _ => apply raise_if_ok, negb_false_iff in E as Hns end.
  apply fields_ok_get with (keys := df_config_keys otlp_export) in Ee as (? & ? & ?); [|done].
  assert (Hd1 : fields_ok (df_config_keys otlp_export) (dict_set d "endpoint" e')).
  { apply fields_ok_set; [done|]. split_and!; [done|done|]. cbn [snd] in *. lia. }
  split.
  - apply fields_ok_set; [exact Hd1|]. apply default_ok; [exact Hd1|]. field_literal.
  - cbn -[dict_get dict_set fullmatch]. eexists _, _. rewrite (dict_get_set_ne _ "service_namespace") by done.
    rewrite !dict_get_set_eq. rewrite dict_get_set_ne in Hns by done. rewrite dict_get_set_ne by done.
    split_and!; first [reflexivity|assumption].
Qed.
(** ** Integrations *)

Definition integration_ok (i : IntegrationConfig) : Prop :=
  ∃ def, resolve BUILTIN_REGISTRY (ic_name i) (ic_version i) = Ok def ∧ df_name def = ic_name i ∧
    NoDup (ic_capabilities i) ∧ (∀ c, c ∈ ic_capabilities i → c ∈ supported_capabilities def) ∧
    complete def (ic_config i).

Lemma fields_start def : fields_ok (df_config_keys def) [].
Proof using. split; [by apply NoDup_nil|constructor]. Qed.

Lemma validate_config_complete name version def v index d :
  resolve BUILTIN_REGISTRY name version = Ok def → validate_config checks def v index = Ok d → complete def d.
Proof using.
  intros Hr%resolve_builtin. unfold validate_config. destruct v as [[]|]; try done. intros H.
  apply bind_ok in H as (? & _ & H). apply bind_ok in H as (? & _ & H).
  apply bind_ok in H as (? & Hk%raise_if_ok%negb_false_iff & H).
  pose proof (proj1 (no_unknown _ (df_config_keys def)) Hk) as Hkeys.
  apply bind_ok in H as (d0 & Hf & H).
  apply (validate_fields_ok (df_config_keys def)) in Hf; [|apply fields_start|done].
  destruct Hr as [(-> & ->)|(-> & ->)]; cbn -[django_runtime_config otlp_export_config] in H.
  - by eapply django_runtime_complete.
  - by eapply otlp_export_complete.
Qed.

Lemma requested_ok def name at_index v l :
  requested_capabilities def name at_index v = Ok l →
  NoDup l ∧ ∀ c, c ∈ l → c ∈ supported_capabilities def.
Proof using.
  unfold requested_capabilities. destruct v as [[]|]; try done. destruct (all_strings items); [|done].
  intros H. binds H. injection H as <-.
  repeat match goal with E : raise_if _ _ = Ok _ |- _ => apply raise_if_ok, negb_false_iff in E end.
  split; [by eapply bool_decide_eq_true|by apply (no_unknown _ (supported_capabilities def))].
Qed.

Lemma parse_one_ok index seen raw i :
  parse_one checks index seen raw = Ok i → (ic_name i ∉ seen) ∧ integration_ok i.
Proof using.
  unfold parse_one. destruct raw as [| | | | | |raw|]; try done. intros H.
  apply bind_ok in H as (? & _ & H). apply bind_ok in H as (? & _ & H).
  apply bind_ok in H as (name & _ & H). apply bind_ok in H as (version & _ & H).
  destruct (map_get raw "enabled") as [[]|]; try done. binds H. injection H as <-. cbn.
  match goal with E : raise_if (str_in _ _) _ = Ok _ |- _ => apply raise_if_ok in E; rename E into Hs end.
  match goal with E : resolve _ _ _ = Ok ?d |- _ => rename E into Hr; rename d into def end.
  match goal with E : requested_capabilities _ _ _ _ = Ok _ |- _ => apply requested_ok in E as [Hn Hc] end.
  match goal with E : validate_config _ _ _ _ = Ok _ |- _ => apply (validate_config_complete _ _ _ _ _ _ Hr) in E as Hd end.
  split; [by rewrite <- str_in_spec, Hs|]. exists def. split_and!; try done.
  by apply resolve_builtin in Hr as [(-> & ->)|(-> & ->)].
Qed.

Lemma parse_from_ok index seen items l :
  parse_from checks index seen items = Ok l →
  NoDup (ic_name <$> l) ∧ (∀ i, i ∈ l → (ic_name i ∉ seen) ∧ integration_ok i) ∧ length l = length items.
Proof using.
  revert index seen l. induction items as [|raw items IH]; cbn; intros index seen l H.
  - injection H as <-. split_and!; [apply NoDup_nil; done|by intros i ?%elem_of_nil|done].
  - apply bind_ok in H as (i & Hi%parse_one_ok & H). apply bind_ok in H as (rest & Hrest%IH & H).
    injection H as <-. destruct Hrest as (Hn & Hl & Hlen). split_and!.
    + apply NoDup_cons. split; [|done]. intros (j & Heq & Hj)%list_elem_of_fmap.
      apply Hl in Hj as [Hj _]. apply Hj. rewrite <- Heq. apply list_elem_of_here.
    + intros j [->|Hj]%elem_of_cons; [done|]. apply Hl in Hj as [Hj ?]. split; [|done].
      by apply not_elem_of_cons in Hj as [_ ?].
    + cbn. by rewrite Hlen.
Qed.

Lemma parse_integrations_ok v l :
  parse_integrations checks v = Ok l →
  length l ≤ MAX_INTEGRATIONS ∧ NoDup (ic_name <$> l) ∧ ∀ i, i ∈ l → integration_ok i.
Proof using.
  destruct v as [| | | | |items| |]; try done; cbn -[MAX_INTEGRATIONS Nat.ltb].
  - intros [= <-]. split_and!; [cbn; lia|by apply NoDup_nil|by intros i ?%elem_of_nil].
  - intros H. apply bind_ok in H as (? & Hlen%raise_if_ok%Nat.ltb_ge & (Hn & Hl & Hlen')%parse_from_ok).
    split_and!; [lia|done|]. intros i Hi. by apply Hl.
Qed.

(** ** Parsing what was rendered *)

Lemma validate_config_again name version def d index :
  resolve BUILTIN_REGISTRY name version = Ok def → complete def d →
  validate_config checks def (Some (YMap (as_items d))) index = Ok d.
Proof using.
  intros Hr%resolve_builtin [[Hwf Hd] Hc]. unfold validate_config.
  rewrite keys_are_strings. cbn [negb raise_if mbind result_bind].
  assert (Hkeys : ∀ k, k ∈ d.*1 → k ∈ df_config_keys def).
  { intros k ([k' v] & -> & Hin)%list_elem_of_fmap. rewrite Forall_forall in Hd. by apply Hd in Hin as [? _]. }
  assert (Hlen : length (as_items d) ≤ MAX_CONFIG_FIELDS).
  { unfold as_items. rewrite length_fmap, <- (length_fmap fst). etrans.
    - apply submseteq_length, NoDup_submseteq; [exact Hwf|exact Hkeys].
    - destruct Hr as [(_ & ->)|(_ & ->)]; cbn; unfold MAX_CONFIG_FIELDS; lia. }
  apply Nat.ltb_ge in Hlen. rewrite Hlen. cbn [negb raise_if mbind result_bind].
  rewrite key_names_items. rewrite (proj2 (no_unknown _ _) Hkeys). cbn [negb raise_if mbind result_bind].
  rewrite (validate_fields_again (df_config_keys def) []) by done. cbn [mbind result_bind app].
  destruct Hr as [(_ & ->)|(_ & ->)]; cbn -[django_runtime_config otlp_export_config dict_get fullmatch contains] in Hc |- *.
  - destruct Hc as (hp & ml & H1 & H2 & H3 & H4 & H5). unfold django_runtime_config.
    rewrite H1. cbn [default from_option id]. rewrite H2, H3, (dict_set_same _ _ _ H1), H4.
    cbn [default from_option id]. rewrite H5. cbn. by rewrite (dict_set_same _ _ _ H4).
  - destruct Hc as (e & ns & H1 & H2 & H3 & H4). unfold otlp_export_config.
    rewrite H1, H2. cbn [mbind result_bind]. rewrite (dict_set_same _ _ _ H1), H3.
    cbn [default from_option id]. rewrite H4. cbn. by rewrite (dict_set_same _ _ _ H3).
Qed.

Lemma parse_one_again index seen i :
  integration_ok i → ic_name i ∉ seen → parse_one checks index seen (integration_to_mapping i) = Ok i.
Proof using.
  intros (def & Hr & _ & Hn & Hc & Hd) Hs. destruct i as [name version enabled caps d].
  cbn -[validate_config requested_capabilities resolve str_in complete] in *.
  assert (Hs' : str_in name seen = false) by (apply not_true_iff_false; by rewrite str_in_spec).
  rewrite Hs'. cbn [raise_if mbind result_bind]. rewrite Hr. cbn [mbind result_bind].
  unfold requested_capabilities. rewrite all_strings_fmap, (bool_decide_eq_true_2 _ Hn).
  cbn [negb raise_if mbind result_bind]. rewrite (proj2 (no_unknown _ _) Hc). cbn [negb raise_if mbind result_bind].
  match goal with |- context [validate_config _ _ ?v _] => change v with (Some (YMap (as_items d))) end.
  by rewrite (validate_config_again _ _ _ _ _ Hr Hd).
Qed.

Lemma parse_from_again index seen l :
  NoDup (ic_name <$> l) → (∀ i, i ∈ l → (ic_name i ∉ seen) ∧ integration_ok i) →
  parse_from checks index seen (integration_to_mapping <$> l) = Ok l.
Proof using.
  revert index seen. induction l as [|i l IH]; intros index seen Hn Hl; [done|].
  apply NoDup_cons in Hn as [Hi Hn]. rewrite fmap_cons. cbn [parse_from].
  destruct (Hl i) as [Hs Hok]; [apply list_elem_of_here|].
  rewrite parse_one_again by done. cbn [mbind result_bind]. rewrite IH; [done|done|].
  intros j Hj. destruct (Hl j) as [Hsj Hokj]; [by apply list_elem_of_further|]. split; [|done].
  apply not_elem_of_cons. split; [|done]. intros Heq. apply Hi. rewrite <- Heq. by apply list_elem_of_fmap_2.
Qed.

Lemma parse_integrations_again v l :
  parse_integrations checks v = Ok l →
  parse_integrations checks (YSeq (integration_to_mapping <$> l)) = Ok l.
Proof using.
  intros (Hlen & Hn & Hl)%parse_integrations_ok. unfold parse_integrations. rewrite length_fmap.
  apply Nat.ltb_ge in Hlen. rewrite Hlen. cbn [negb raise_if mbind result_bind].
  apply parse_from_again; [done|]. intros i Hi. split; [by intros ?%elem_of_nil|by apply Hl].
Qed.
End props.

(** * Evaluating what was parsed *)

Definition entry_ok (kv : string * string) : Prop :=
  search SECRET_KEY_RE kv.1 = false ∧ String.length kv.1 ≤ 64 ∧
  String.length kv.2 ≤ MAX_RESULT_VALUE_CHARS.

Lemma validate_context_ok acc context safe :
  Forall entry_ok acc → validate_context_from acc context = Ok safe → Forall entry_ok safe.
Proof.
  revert acc. induction context as [|[k v] context IH]; intros acc Hacc; cbn -[Nat.ltb]; [by intros [= <-]|].
  intros H. apply bind_ok in H as (? & Hs%raise_if_ok & H).
  apply bind_ok in H as (? & [Hk%Nat.ltb_ge Hv%Nat.ltb_ge]%raise_if_ok%orb_false_iff & H).
  apply IH in H; [done|]. rewrite Forall_forall in Hacc |- *. intros kv [->|]%dict_set_elem; [done|auto].
Qed.

Lemma project_ok context safe :
  validate_context context = Ok safe → entry_ok ("project", default "unknown" (dict_get safe "project")).
Proof.
  unfold validate_context. intros H. apply bind_ok in H as (? & _ & H%validate_context_ok); [|constructor].
  rewrite Forall_forall in H.
  assert (Hp : ∀ v, String.length v ≤ MAX_RESULT_VALUE_CHARS → entry_ok ("project", v)).
  { intros v Hv. split_and!; [by vm_compute|apply Nat.leb_le; by vm_compute|done]. }
  apply Hp. destruct (dict_get safe "project") as [v|] eqn:E; [|apply Nat.leb_le; by vm_compute].
  apply dict_get_Some_elem, H in E as (_ & _ & ?). done.
Qed.

Lemma bounded_ok d :
  length d ≤ MAX_RESULT_FIELDS → NoDup d.*1 → Forall entry_ok d → bounded_result d = Ok d.
Proof.
  intros Hlen Hn Hd. unfold bounded_result. apply Nat.ltb_ge in Hlen. rewrite Hlen. cbn [raise_if mbind result_bind].
  assert (H : ∀ acc, NoDup (acc ++ d).*1 → bounded_from acc d = Ok (acc ++ d)); [|by apply (H [])].
  clear Hlen Hn. induction Hd as [|[k v] d (Hs & Hk & Hv) Hd IH]; intros acc Hn; cbn -[Nat.ltb].
  { by rewrite app_nil_r. }
  cbn [fst snd] in Hs, Hk, Hv. apply Nat.ltb_ge in Hk, Hv. rewrite Hs, Hk, Hv. cbn.
  rewrite dict_set_fresh, IH, <- app_assoc; [done|by rewrite <- app_assoc|].
  apply dict_get_None. intros Hin. rewrite fmap_app in Hn. apply NoDup_app in Hn as (_ & Hn & _).
  apply (Hn _ Hin), list_elem_of_here.
Qed.

(** The summary of an enabled integration: its kind, its two fields, the project. *)
Definition summary_of (i : IntegrationConfig) (context : list (string * string)) (s : list (string * string)) : Prop :=
  (∀ kv, kv ∈ s ↔ kv = ("kind", ic_name i) ∨ kv ∈ ic_config i ∨
                  kv = ("project", default "unknown" (dict_get context "project"))) ∧
  Forall entry_ok s ∧ NoDup s.*1.

Lemma entry_value k v :
  search SECRET_KEY_RE k = false → (String.length k <=? 64) = true → String.length v ≤ MAX_CONFIG_VALUE_CHARS → entry_ok (k, v).
Proof. intros Hs Hk%Nat.leb_le Hv. done. Qed.

Lemma two_fields keys d k1 k2 v1 v2 :
  fields_ok keys d → keys = [k1; k2] → dict_get d k1 = Some v1 → dict_get d k2 = Some v2 →
  ∀ kv, kv ∈ d ↔ kv = (k1, v1) ∨ kv = (k2, v2).
Proof.
  intros [Hwf Hd] -> H1 H2 [k v]. split.
  - intros Hin. rewrite Forall_forall in Hd. destruct (Hd _ Hin) as [Hk _]. cbn in Hk.
    apply dict_get_elem in Hin; [|done].
    apply elem_of_cons in Hk as [->|[->|[]%elem_of_nil]%elem_of_cons]; [left|right]; congruence.
  - intros [[= -> ->]|[= -> ->]]; by apply dict_get_Some_elem.
Qed.

Lemma four_entries kind k1 v1 k2 v2 p :
  entry_ok ("kind", kind) → entry_ok (k1, v1) → entry_ok (k2, v2) → entry_ok ("project", p) →
  bool_decide (NoDup ["kind"; k1; k2; "project"]) = true →
  let s := [("kind", kind); (k1, v1); (k2, v2); ("project", p)] in
  bounded_result s = Ok s ∧ Forall entry_ok s ∧ NoDup s.*1.
Proof.
  intros H1 H2 H3 H4 Hn%bool_decide_eq_true s.
  assert (Hs : Forall entry_ok s) by (repeat apply Forall_cons_2; done).
  split_and!; [|done|done]. apply bounded_ok; [apply Nat.leb_le; by vm_compute|done|done].
Qed.

Ltac entry_literal := split_and!; [idtac|apply Nat.leb_le..]; vm_compute; reflexivity.

Lemma summary_ready checks i context safe :
  integration_ok checks i → validate_context context = Ok safe →
  ∃ s,
    (if String.eqb (ic_name i) "django-runtime" then django_runtime_summary (ic_config i) safe
     else if String.eqb (ic_name i) "otlp-export" then otlp_export_summary (ic_config i) safe
     else Err (IntegrationError "UNKNOWN_INTEGRATION" ("unknown integration: " +:+ ic_name i))) = Ok s ∧
    bounded_result s = Ok s ∧ summary_of i safe s.
Proof.
  intros (def & Hr & Hname & _ & _ & Hf & Hc) Hctx%project_ok.
  assert (Hget : ∀ k v, dict_get (ic_config i) k = Some v → (String.length k <=? 64) = true → entry_ok (k, v)).
  { intros k v (_ & Hs & Hv)%(fields_ok_get _ _ _ _ Hf) Hk%Nat.leb_le. done. }
  unfold summary_of.
  apply resolve_builtin in Hr as [(Hn & ->)|(Hn & ->)]; rewrite Hn in *;
    cbn -[fullmatch dict_get contains SECRET_KEY_RE validate_endpoint] in Hc, Hf |- *.
  - destruct Hc as (hp & ml & H1 & _ & _ & H2 & _). unfold django_runtime_summary, subscript. rewrite H1, H2.
    eexists. split; [reflexivity|].
    edestruct (four_entries "django-runtime" "health_path" hp "metadata_label" ml) as (Hb & Hs & Hnd);
      [entry_literal|by apply Hget|by apply Hget|exact Hctx|by vm_compute|].
    split_and!; [exact Hb| |exact Hs|exact Hnd].
    intros kv. rewrite (two_fields _ _ _ _ _ _ Hf eq_refl H1 H2). set_solver.
  - destruct Hc as (ep & ns & H1 & _ & H2 & _). unfold otlp_export_summary, subscript. rewrite H1, H2.
    eexists. split; [reflexivity|].
    edestruct (four_entries "otlp-export" "endpoint" ep "service_namespace" ns) as (Hb & Hs & Hnd);
      [entry_literal|by apply Hget|by apply Hget|exact Hctx|by vm_compute|].
    split_and!; [exact Hb| |exact Hs|exact Hnd].
    intros kv. rewrite (two_fields _ _ _ _ _ _ Hf eq_refl H1 H2). set_solver.
Qed.

(** Evaluating a well-formed integration with a valid budget. *)
Lemma evaluation checks i context budget t0 t1 :
  integration_ok checks i → (1 ≤ budget ≤ MAX_BUDGET_MS)%Z →
  (ic_enabled i = false → evaluate_integration i context budget t0 t1 =
     Ok (mkIntegrationResult (ic_name i) (ic_version i) "disabled" (ic_capabilities i) [])) ∧
  (∀ safe, ic_enabled i = true → validate_context (default [] context) = Ok safe →
     ∃ s, summary_of i safe s ∧
       evaluate_integration i context budget t0 t1 =
         if (budget * 1000000 <? t1 - t0)%Z
         then Err (IntegrationError "TIMEOUT" (ic_name i +:+ " integration exceeded its execution budget"))
         else Ok (mkIntegrationResult (ic_name i) (ic_version i) "ready" (ic_capabilities i) s)).
Proof.
  intros Hi [Hb1 Hb2]. unfold evaluate_integration.
  assert (Hb : ((budget <? 1)%Z || (MAX_BUDGET_MS <? budget)%Z) = false).
  { apply orb_false_iff. split; apply Z.ltb_ge; lia. }
  rewrite Hb. cbn [raise_if mbind result_bind]. split; [by intros ->|].
  intros safe Hen Hctx. rewrite Hen. cbn [negb].
  destruct (summary_ready _ _ _ _ Hi Hctx) as (s & Hs & Hbd & Hsum).
  destruct Hi as (def & Hr & _ & _ & Hc & _). rewrite Hr. cbn [mbind result_bind].
  assert (Hcaps : forallb (λ c, str_in c (supported_capabilities def)) (ic_capabilities i) = true).
  { apply forallb_forall. intros c Hin%list_elem_of_In. apply str_in_spec. by apply Hc. }
  rewrite Hcaps. cbn [negb raise_if mbind result_bind]. rewrite Hctx. cbn [mbind result_bind].
  rewrite Hs. cbn [mbind result_bind]. exists s. split; [done|].
  destruct (budget * 1000000 <? t1 - t0)%Z; [done|]. cbn [raise_if mbind result_bind]. by rewrite Hbd.
Qed.

(** C27: what parsing accepts, evaluation can run.  At most eight integrations,
    each once, come out of [parse_integrations]; evaluating an enabled one with a
    valid budget and context never fails unless it overruns its budget, and gives
    exactly its kind, its configured fields and the project, none of them named
    like a secret or longer than the bounds; a disabled one gives an empty
    summary. *)
Theorem parsed_integrations_evaluate checks v l :
  parse_integrations checks v = Ok l →
  length l ≤ MAX_INTEGRATIONS ∧ NoDup (ic_name <$> l) ∧
  ∀ i context budget t0 t1, i ∈ l → (1 ≤ budget ≤ MAX_BUDGET_MS)%Z →
    (ic_enabled i = false → evaluate_integration i context budget t0 t1 =
       Ok (mkIntegrationResult (ic_name i) (ic_version i) "disabled" (ic_capabilities i) [])) ∧
    (∀ safe, ic_enabled i = true → validate_context (default [] context) = Ok safe →
       ∃ s, summary_of i safe s ∧
         evaluate_integration i context budget t0 t1 =
           if (budget * 1000000 <? t1 - t0)%Z
           then Err (IntegrationError "TIMEOUT" (ic_name i +:+ " integration exceeded its execution budget"))
           else Ok (mkIntegrationResult (ic_name i) (ic_version i) "ready" (ic_capabilities i) s)).
Proof.
  intros (Hlen & Hn & Hl)%parse_integrations_ok. split_and!; [done|done|].
  intros i context budget t0 t1 Hi Hb. by apply (evaluation checks), Hb; apply Hl.
Qed.

(** * The round trip *)

(** Documents made of plain data, as [safe_dump] can represent them: no floats or
    other objects, mappings with distinct string keys. *)
Fixpoint plain (v : yaml) : bool :=
  match v with
  | YNull | YBool _ | YInt _ | YStr _ => true
  | YSeq items => forallb plain items
  | YMap items =>
      bool_decide (NoDup (key_names items)) && forallb (λ kv : yaml * yaml, is_str kv.1 && plain kv.2) items
  | YFloat _ _ | YOther _ => false
  end.

(** What PyYAML promises: loading what it dumped gives the document back. *)
Class YamlLaws (py : Yaml) : Prop :=
  { load_dump v : plain v = true → safe_load py (safe_dump py v) = Some v }.

Lemma plain_core c : plain (to_mapping c) = true.
Proof. destruct c as [v p d [] [] [u [r|] s m] []]; by vm_compute. Qed.

Lemma plain_items d : dict_wf d → plain (YMap (as_items d)) = true.
Proof.
  intros Hwf. cbn [plain]. rewrite key_names_items, (bool_decide_eq_true_2 _ Hwf). cbn.
  induction d as [|[k v] d IH]; [done|]. cbn. apply IH. by apply NoDup_cons in Hwf as [_ ?].
Qed.

Lemma plain_strings l : forallb plain (YStr <$> l) = true.
Proof. by induction l as [|c l IH]. Qed.

Lemma plain_integration i : dict_wf (ic_config i) → plain (integration_to_mapping i) = true.
Proof.
  intros Hwf%plain_items. apply andb_true_iff. split; [by vm_compute|].
  cbn [forallb fst snd is_str andb]. change (plain (YSeq ?l)) with (forallb plain l).
  rewrite plain_strings, andb_true_r. exact Hwf.
Qed.

(** Adding a fresh key to a document, and taking it out again. *)
Lemma map_get_fresh m k : map_get m k = None →
  (∀ v, map_set m k v = m ++ [(YStr k, v)]) ∧ map_pop m k = m ∧
  (∀ v, map_pop (m ++ [(YStr k, v)]) k = m) ∧ k ∉ key_names m.
Proof.
  induction m as [|[k' v'] m IH]; cbn.
  - intros _. split_and!; [done|done| |by intros ?%elem_of_nil]. intros ?. by rewrite String.eqb_refl.
  - destruct (is_key k k') eqn:E; [done|]. intros (H1 & H2 & H3 & H4)%IH. split_and!.
    + intros v. by rewrite H1.
    + by rewrite H2.
    + intros v. by rewrite H3.
    + destruct k'; try done. apply not_elem_of_cons. split; [|done]. intros ->.
      cbn in E. by rewrite String.eqb_refl in E.
Qed.

Lemma plain_snoc m k v :
  k ∉ key_names m → plain (YMap m) = true → plain v = true → plain (YMap (m ++ [(YStr k, v)])) = true.
Proof.
  intros Hk [Hn Hm]%andb_true_iff Hv. apply bool_decide_eq_true in Hn. apply andb_true_iff. split.
  - apply bool_decide_eq_true. unfold key_names in *. rewrite omap_app. cbn. apply NoDup_app.
    split_and!; [done| |apply NoDup_singleton]. intros x Hx ->%list_elem_of_singleton. done.
  - rewrite forallb_app, Hm. cbn. rewrite andb_true_r. exact Hv.
Qed.

Lemma core_mapping c :
  ∃ m, to_mapping c = YMap m ∧ map_get m "integrations" = None ∧ forallb (λ kv : yaml * yaml, is_str kv.1) m = true.
Proof. eexists. split; [reflexivity|]. split; reflexivity. Qed.

Lemma project_mapping_parts c l :
  ∃ m, project_mapping c l = YMap m ∧ forallb (λ kv : yaml * yaml, is_str kv.1) m = true ∧
       YMap (map_pop m "integrations") = to_mapping c ∧
       default YNull (map_get m "integrations") =
         match l with [] => YNull | _ => YSeq (integration_to_mapping <$> l) end ∧
       (forallb plain (integration_to_mapping <$> l) = true → plain (YMap m) = true).
Proof.
  pose proof (plain_core c) as Hc. destruct (core_mapping c) as (m & Hm & Hnone & Hstr).
  unfold project_mapping. rewrite Hm in *. destruct (map_get_fresh _ _ Hnone) as (Hset & Hpop & Hsnoc & Hk).
  destruct l as [|i l].
  - exists m. rewrite Hnone, Hpop. done.
  - rewrite Hset. eexists. split; [reflexivity|]. split_and!.
    + by rewrite forallb_app, Hstr.
    + by rewrite Hsnoc.
    + rewrite <- Hset, map_get_set_eq. done.
    + intros Hl. by apply plain_snoc.
Qed.

(** A rendered configuration parses, if the two parts of it do. *)
Lemma rendered_parses py `{!YamlLaws py} checks repr c l :
  from_mapping checks repr (to_mapping c) = Ok c →
  parse_integrations checks match l with [] => YNull | _ => YSeq (integration_to_mapping <$> l) end = Ok l →
  (∀ i, i ∈ l → dict_wf (ic_config i)) →
  parse_project_config py checks repr (render_project_config py c l) = Ok (c, l).
Proof.
  intros Hcore Hl Hwf. destruct (project_mapping_parts c l) as (m & Hm & Hstr & Hpop & Hget & Hplain).
  unfold parse_project_config, render_project_config. rewrite Hm, load_dump.
  - rewrite Hstr. cbn [negb raise_if mbind result_bind]. rewrite Hget, Hl.
    cbn [mbind result_bind]. rewrite Hpop. unfold parse_config. rewrite load_dump by apply plain_core.
    by rewrite Hcore.
  - apply Hplain, forallb_forall. intros v (i & -> & Hi)%list_elem_of_In%list_elem_of_fmap.
    by apply plain_integration, Hwf.
Qed.

(** C24: a project configuration reads back as it was rendered: whatever
    [parse_project_config] accepts, [render_project_config] writes as a document
    that gives the same core configuration and the same integrations, fields
    normalised and defaults filled in. *)
Theorem project_config_round_trip py `{!YamlLaws py} checks repr text c l :
  parse_project_config py checks repr text = Ok (c, l) →
  parse_project_config py checks repr (render_project_config py c l) = Ok (c, l).
Proof.
  unfold parse_project_config at 1. destruct (safe_load py text) as [[| | | | | |loaded|]|]; try done.
  intros H. apply bind_ok in H as (? & _ & H). apply bind_ok in H as (l' & Hl & H).
  apply bind_ok in H as (c' & Hc & H). injection H as -> ->.
  assert (Hcore : from_mapping checks repr (to_mapping c) = Ok c).
  { unfold as_eco, parse_config in Hc. destruct (safe_load py _) as [core|]; [|done].
    destruct (from_mapping checks repr core) as [c'|] eqn:E; [|done]. injection Hc as ->.
    by apply from_mapping_again in E as [? _]. }
  apply rendered_parses; [done|done| |].
  - destruct l as [|i l]; [done|]. by eapply parse_integrations_again.
  - intros i Hi. apply parse_integrations_ok in Hl as (_ & _ & Hok).
    by destruct (Hok i Hi) as (def & _ & _ & _ & _ & [Hwf _] & _).
Qed.

(** * A concrete YAML, and concrete runs *)

Section yaml_ind.
Variable P : yaml → Prop.
Hypothesis Hleaf : ∀ v, (match v with YSeq _ | YMap _ => False | _ => True end) → P v.
Hypothesis Hseq : ∀ l, Forall P l → P (YSeq l).
Hypothesis Hmap : ∀ m, Forall (λ kv : yaml * yaml, P kv.1 ∧ P kv.2) m → P (YMap m).

Fixpoint yaml_ind' (v : yaml) : P v :=
  match v with
  | YSeq l => Hseq l ((fix go l : Forall P l :=
      match l with [] => Forall_nil_2 P | x :: l => Forall_cons_2 P x l (yaml_ind' x) (go l) end) l)
  | YMap m => Hmap m ((fix go m : Forall (λ kv : yaml * yaml, P kv.1 ∧ P kv.2) m :=
      match m with
      | [] => Forall_nil_2 _
      | (k, x) :: m => Forall_cons_2 _ (k, x) m (conj (yaml_ind' k) (yaml_ind' x)) (go m)
      end) m)
  | v => Hleaf v I
  end.
End yaml_ind.

(** A document as JSON text: mappings as lists of pairs, so that order and keys
    are kept. *)
Fixpoint to_json (v : yaml) : json :=
  match v with
  | YNull => JNull
  | YBool b => JBool b
  | YInt z => JInt z
  | YStr s => JStr s
  | YSeq l => JArr (map to_json l)
  | YMap m => JObj [("map", JArr (map (λ kv : yaml * yaml, JArr [to_json kv.1; to_json kv.2]) m))]
  | YFloat n d => JObj [("float", JArr [JInt n; JInt (Z.pos d)])]
  | YOther w => JObj [("other", JStr w)]
  end.

Fixpoint of_json (v : json) : yaml :=
  match v with
  | JNull => YNull
  | JBool b => YBool b
  | JInt z => YInt z
  | JStr s => YStr s
  | JArr l => YSeq (map of_json l)
  | JObj [("map", JArr m)] =>
      YMap (map (λ p, match p with JArr [k; x] => (of_json k, of_json x) | _ => (YNull, YNull) end) m)
  | JObj [("float", JArr [JInt n; JInt (Z.pos d)])] => YFloat n d
  | JObj [("other", JStr w)] => YOther w
  | JObj _ => YNull
  end.

Lemma map_id_Forall {A B} (f : A → B) (g : B → A) l : Forall (λ x, g (f x) = x) l → map g (map f l) = l.
Proof. induction 1 as [|x l Hx Hl IH]; [done|]. cbn. by rewrite Hx, IH. Qed.

Lemma of_to_json v : of_json (to_json v) = v.
Proof.
  induction v as [v Hv|l IH|m IH] using yaml_ind'; [by destruct v| |]; cbn.
  - f_equal. by apply map_id_Forall.
  - f_equal. apply map_id_Forall. eapply Forall_impl; [exact IH|]. intros [k x] [Hk Hx]. cbn in *. by rewrite Hk, Hx.
Qed.

Lemma to_json_wf v : json_wf (to_json v) = true ∧ json_sort (to_json v) = to_json v.
Proof.
  induction v as [v Hv|l IH|m IH] using yaml_ind'; [by destruct v| |].
  - cbn. split.
    + apply forallb_forall. intros x (y & <- & Hy)%in_map_iff. rewrite Forall_forall in IH.
      apply IH. by apply list_elem_of_In.
    + f_equal. rewrite map_map. apply map_ext_in. intros y Hy. rewrite Forall_forall in IH.
      apply IH. by apply list_elem_of_In.
  - cbn. split.
    + rewrite andb_true_r. apply forallb_forall. intros x (y & <- & Hy)%in_map_iff. rewrite Forall_forall in IH.
      apply list_elem_of_In, IH in Hy as [[H1 _] [H2 _]]. cbn. by rewrite H1, H2.
    + do 4 f_equal. rewrite map_map. apply map_ext_in. intros y Hy. rewrite Forall_forall in IH.
      apply list_elem_of_In, IH in Hy as [[_ H1] [_ H2]]. cbn. by rewrite H1, H2.
Qed.

Definition json_yaml : Yaml := mkYaml (λ text, of_json <$> loads text) (λ v, dumps (to_json v)).

#[export] Instance json_yaml_laws : YamlLaws json_yaml.
Proof.
  constructor. intros v _. cbn. destruct (to_json_wf v) as [Hwf Hs].
  rewrite loads_dumps by done. cbn. by rewrite Hs, of_to_json.
Qed.

Definition demo_integrations : list IntegrationConfig :=
  [mkIntegration "otlp-export" "v1" true ["telemetry"]
     [("endpoint", "https://otel.example.com:4318"); ("service_namespace", "shop")];
   mkIntegration "django-runtime" "v1" true ["health"; "metadata"]
     [("health_path", "/healthz"); ("metadata_label", "django")]].

(** The same with an endpoint and a configuration to normalise. *)
Definition demo_raw : yaml :=
  YSeq [integration_to_mapping (mkIntegration "otlp-export" "v1" true ["telemetry"]
          [("endpoint", "https://otel.example.com:4318/"); ("service_namespace", "shop")]);
        integration_to_mapping (mkIntegration "django-runtime" "v1" true ["health"; "metadata"] [])].

Lemma parsed_integrations_evaluate_witness :
  parse_integrations config_checks demo_raw = Ok demo_integrations ∧ NoDup (ic_name <$> demo_integrations).
Proof.
  split; [by vm_compute|].
  apply (parsed_integrations_evaluate config_checks demo_raw demo_integrations). by vm_compute.
Defined.

Definition demo_text : string :=
  match to_mapping demo_config with
  | YMap m => safe_dump json_yaml (YMap (map_set m "integrations" demo_raw))
  | _ => ""
  end.

Lemma project_config_round_trip_witness :
  parse_project_config json_yaml config_checks config_repr demo_text = Ok (demo_config, demo_integrations) ∧
  parse_project_config json_yaml config_checks config_repr
    (render_project_config json_yaml demo_config demo_integrations) = Ok (demo_config, demo_integrations).
Proof.
  split; [by vm_compute|].
  apply (project_config_round_trip json_yaml config_checks config_repr demo_text). by vm_compute.
Defined.
