(* ===== verification/Compose.v ===== *)
(** The generated Docker Compose stack: [cli/djangoops/compose.py].

    The document is the value handed to [yaml.safe_dump]. *)

From S2P Require Import Prelude Text Dict Url Config Integrations.

Open Scope string_scope.
Open Scope list_scope.
Open Scope nat_scope.

(** * Constants *)

Definition COMPOSE_FILENAME : string := "docker-compose.yml".
Definition POSTGRES_IMAGE : string := "postgres:16".
Definition REDIS_IMAGE : string := "redis:7-alpine".
Definition TRAEFIK_IMAGE : string := "traefik:v3.7.1".
Definition RESTART_POLICY : string := "unless-stopped".

(** Dictionary and list displays. *)
Definition obj (fields : list (string * yaml)) : yaml :=
  YMap ((λ kv : string * yaml, (YStr kv.1, kv.2)) <$> fields).
Definition strings (items : list string) : yaml := YSeq (YStr <$> items).
Definition str_obj (fields : list (string * string)) : yaml :=
  obj ((λ kv : string * string, (kv.1, YStr kv.2)) <$> fields).

Definition APP_ENV_FILE : yaml := strings [".env"].
Definition APP_BUILD : yaml := str_obj [("context", ".")].

(** * Reading the configuration *)

(** [next((item for item in integrations if item.name == name), None)]. *)
Definition find_integration (integrations : list IntegrationConfig) (name : string) : option IntegrationConfig :=
  List.find (λ i, String.eqb (ic_name i) name) integrations.

Definition django_project_module (c : DjangoOpsConfig) : string :=
  if endswith ".settings" (cf_django c) then removesuffix ".settings" (cf_django c) else cf_django c.

Definition storage_environment (c : DjangoOpsConfig) : list (string * string) :=
  [("DJANGOOPS_S3_ENDPOINT_URL", so_endpoint_url (cf_storage c));
   ("DJANGOOPS_S3_STATIC_BUCKET", so_static_bucket (cf_storage c));
   ("DJANGOOPS_S3_MEDIA_BUCKET", so_media_bucket (cf_storage c));
   ("AWS_ACCESS_KEY_ID", "${AWS_ACCESS_KEY_ID:?AWS_ACCESS_KEY_ID must be set}");
   ("AWS_SECRET_ACCESS_KEY", "${AWS_SECRET_ACCESS_KEY:?AWS_SECRET_ACCESS_KEY must be set}")]
  ++ match so_region (cf_storage c) with Some region => [("AWS_REGION", region)] | None => [] end.

(** What the OpenTelemetry variables are set to: sdk_disabled, endpoint, namespace. *)
Definition otlp_settings (integrations : list IntegrationConfig) : result eco_error (string * string * string) :=
  match find_integration integrations "otlp-export" with
  | None => Ok ("${OTEL_SDK_DISABLED:-true}", "${OTEL_EXPORTER_OTLP_ENDPOINT:-}", "djangoops")
  | Some otlp =>
      if ic_enabled otlp then
        endpoint ← subscript (ic_config otlp) "endpoint";
        namespace ← subscript (ic_config otlp) "service_namespace";
        Ok ("false", endpoint, namespace)
      else Ok ("true", "", "djangoops")
  end.

Definition application_environment (c : DjangoOpsConfig) (component : string)
    (integrations : list IntegrationConfig) : result eco_error (list (string * string)) :=
  '(sdk_disabled, endpoint, namespace) ← otlp_settings integrations;
  Ok (storage_environment c ++
      [("OTEL_SDK_DISABLED", sdk_disabled);
       ("OTEL_EXPORTER_OTLP_ENDPOINT", endpoint);
       ("OTEL_SERVICE_NAME", cf_project c +:+ "-" +:+ component);
       ("OTEL_RESOURCE_ATTRIBUTES",
        "service.namespace=" +:+ namespace +:+ ",djangoops.project=" +:+ cf_project c +:+
        ",djangoops.component=" +:+ component);
       ("DJANGOOPS_CORRELATION_ID", "${DJANGOOPS_CORRELATION_ID:-}")]).

Definition infrastructure_dependencies (c : DjangoOpsConfig) : list (string * yaml) :=
  (if sv_postgres (cf_services c) then [("postgres", str_obj [("condition", "service_healthy")])] else []) ++
  (if sv_redis (cf_services c) then [("redis", str_obj [("condition", "service_healthy")])] else []).

(** [if dependencies: service["depends_on"] = dependencies]. *)
Definition depends_on (c : DjangoOpsConfig) : list (string * yaml) :=
  match infrastructure_dependencies c with
  | [] => []
  | dependencies => [("depends_on", obj dependencies)]
  end.

(** * Services *)

Definition traefik_service (c : DjangoOpsConfig) : yaml :=
  obj [("image", YStr TRAEFIK_IMAGE);
       ("restart", YStr RESTART_POLICY);
       ("command", strings
          ["--providers.docker=true";
           "--providers.docker.exposedbydefault=false";
           "--entrypoints.web.address=:80";
           "--entrypoints.web.http.redirections.entrypoint.to=websecure";
           "--entrypoints.web.http.redirections.entrypoint.scheme=https";
           "--entrypoints.websecure.address=:443";
           "--certificatesresolvers.letsencrypt.acme.email=" +:+ tls_acme_email (cf_tls c);
           "--certificatesresolvers.letsencrypt.acme.storage=/letsencrypt/acme.json";
           "--certificatesresolvers.letsencrypt.acme.httpchallenge=true";
           "--certificatesresolvers.letsencrypt.acme.httpchallenge.entrypoint=web"]);
       ("ports", strings ["80:80"; "443:443"]);
       ("volumes", strings ["/var/run/docker.sock:/var/run/docker.sock:ro"; "traefik_acme:/letsencrypt"])].

(** The health check of an enabled django-runtime integration. *)
Definition web_healthcheck (integrations : list IntegrationConfig) : result eco_error (list (string * yaml)) :=
  match find_integration integrations "django-runtime" with
  | Some runtime =>
      if ic_enabled runtime then
        health_path ← subscript (ic_config runtime) "health_path";
        let probe := "import urllib.request; urllib.request.urlopen('http://127.0.0.1:8000" +:+ health_path +:+
                     "', timeout=2).read(1)" in
        Ok [("healthcheck",
             obj [("test", strings ["CMD"; "python"; "-c"; probe]);
                  ("interval", YStr "15s"); ("timeout", YStr "3s"); ("retries", YInt 3)])]
      else Ok []
  | None => Ok []
  end.

Definition web_service (c : DjangoOpsConfig) (integrations : list IntegrationConfig) : result eco_error yaml :=
  environment ← application_environment c "web" integrations;
  healthcheck ← web_healthcheck integrations;
  Ok (obj ([("build", APP_BUILD);
            ("command", strings ["gunicorn"; django_project_module c +:+ ".wsgi:application"; "--bind"; "0.0.0.0:8000"]);
            ("env_file", APP_ENV_FILE);
            ("environment", str_obj environment);
            ("restart", YStr RESTART_POLICY);
            ("expose", strings ["8000"]);
            ("labels", strings
               ["traefik.enable=true";
                "traefik.http.routers.web.rule=Host(`" +:+ tls_hostname (cf_tls c) +:+ "`)";
                "traefik.http.routers.web.entrypoints=websecure";
                "traefik.http.routers.web.tls=true";
                "traefik.http.routers.web.tls.certresolver=letsencrypt";
                "traefik.http.services.web.loadbalancer.server.port=8000"])]
           ++ healthcheck ++ depends_on c)).

Definition postgres_service : yaml :=
  obj [("image", YStr POSTGRES_IMAGE);
       ("restart", YStr RESTART_POLICY);
       ("environment", str_obj
          [("POSTGRES_DB", "${POSTGRES_DB:-djangoops}");
           ("POSTGRES_USER", "${POSTGRES_USER:-djangoops}");
           ("POSTGRES_PASSWORD", "${POSTGRES_PASSWORD:?POSTGRES_PASSWORD must be set}")]);
       ("volumes", strings ["postgres_data:/var/lib/postgresql/data"]);
       ("healthcheck", obj
          [("test", strings ["CMD-SHELL"; "pg_isready -U $${POSTGRES_USER:-djangoops} -d $${POSTGRES_DB:-djangoops}"]);
           ("interval", YStr "10s"); ("timeout", YStr "5s"); ("retries", YInt 5)])].

Definition redis_service : yaml :=
  obj [("image", YStr REDIS_IMAGE);
       ("restart", YStr RESTART_POLICY);
       ("command", strings ["redis-server"; "--appendonly"; "yes"]);
       ("volumes", strings ["redis_data:/data"]);
       ("healthcheck", obj
          [("test", strings ["CMD"; "redis-cli"; "ping"]);
           ("interval", YStr "10s"); ("timeout", YStr "5s"); ("retries", YInt 5)])].

Definition celery_service (c : DjangoOpsConfig) (action : list string) (component : string)
    (integrations : list IntegrationConfig) : result eco_error yaml :=
  environment ← application_environment c component integrations;
  Ok (obj ([("build", APP_BUILD);
            ("command", strings (["celery"; "-A"; django_project_module c] ++ action));
            ("env_file", APP_ENV_FILE);
            ("environment", str_obj environment);
            ("restart", YStr RESTART_POLICY)] ++ depends_on c)).

(** [if enabled: services[name] = make()]. *)
Definition optional (enabled : bool) (name : string) (make : result eco_error yaml)
    : result eco_error (list (string * yaml)) :=
  if enabled then service ← make; Ok [(name, service)] else Ok [].

(** * The document *)

Definition compose_document (c : DjangoOpsConfig) (integrations : list IntegrationConfig) : result eco_error yaml :=
  web ← web_service c integrations;
  let sv := cf_services c in
  celery ← optional (sv_celery sv) "celery" (celery_service c ["worker"; "--loglevel=INFO"] "worker" integrations);
  celery_beat ← optional (sv_celery_beat sv) "celery_beat" (celery_service c ["beat"; "--loglevel=INFO"] "beat" integrations);
  let services :=
    [("traefik", traefik_service c); ("web", web)]
    ++ (if sv_postgres sv then [("postgres", postgres_service)] else [])
    ++ (if sv_redis sv then [("redis", redis_service)] else [])
    ++ celery ++ celery_beat in
  let volumes :=
    [("traefik_acme", obj [])]
    ++ (if sv_postgres sv then [("postgres_data", obj [])] else [])
    ++ (if sv_redis sv then [("redis_data", obj [])] else []) in
  Ok (obj [("name", YStr (cf_project c)); ("services", obj services); ("volumes", obj volumes)]).

Section text.
Context (py : Yaml) (checks : UrlChecks) (repr : yaml → string).

Definition render_compose (c : DjangoOpsConfig) (integrations : list IntegrationConfig) : result eco_error string :=
  document ← compose_document c integrations;
  Ok (safe_dump py document).

(** [load_project_config]: [text] is what the file holds, [None] when there is
    none; [name] is the last part of its path. *)
Definition load_project_config (name : string) (text : option string)
    : result eco_error (DjangoOpsConfig * list IntegrationConfig) :=
  match text with
  | None => Err (PyError (ValueError (name +:+ " does not exist")))
  | Some text => parse_project_config py checks repr text
  end.

Definition load_config (name : string) (text : option string) : result eco_error DjangoOpsConfig :=
  '(c, _) ← load_project_config name text; Ok c.
End text.
