(* ===== verification/ComposeProps.v ===== *)
(** Properties of [Compose]: the generated document refers only to what it
    declares, and Docker Compose substitutes only the variables of its templates. *)

From S2P Require Import Prelude Text Regex Dict Redaction Json Url Config ConfigProps Integrations IntegrationsProps Compose.

Open Scope string_scope.
Open Scope list_scope.
Open Scope nat_scope.

(** * Reading a document *)

Definition field (v : yaml) (k : string) : option yaml :=
  match v with YMap m => map_get m k | _ => None end.
Definition names_of (v : option yaml) : list string :=
  match v with Some (YMap m) => key_names m | _ => [] end.
Definition values_of (v : option yaml) : list yaml :=
  match v with Some (YMap m) => snd <$> m | _ => [] end.
Definition strings_of (v : option yaml) : list string :=
  match v with Some (YSeq l) => omap (λ x, match x with YStr s => Some s | _ => None end) l | _ => [] end.

Definition service_names (doc : yaml) : list string := names_of (field doc "services").
Definition declared_volumes (doc : yaml) : list string := names_of (field doc "volumes").
Definition depended_on (doc : yaml) : list string :=
  flat_map (λ s, names_of (field s "depends_on")) (values_of (field doc "services")).

(** A mount whose source is not a path names a volume. *)
Definition named_volume (mount : string) : list string :=
  match partition ":" mount with
  | Some (source, _) => if startswith "/" source then [] else [source]
  | None => []
  end.
Definition mounted_volumes (doc : yaml) : list string :=
  flat_map (λ s, flat_map named_volume (strings_of (field s "volumes"))) (values_of (field doc "services")).

(** The services that publish ports on the host. *)
Definition published (doc : yaml) : list string :=
  match field doc "services" with
  | Some (YMap m) =>
      key_names (List.filter (λ kv : yaml * yaml, match field kv.2 "ports" with Some _ => true | None => false end) m)
  | _ => []
  end.

(** * Rendering succeeds *)

Lemma find_integration_ok checks v l name i :
  parse_integrations checks v = Ok l → find_integration l name = Some i →
  ic_name i = name ∧ integration_ok checks i.
Proof.
  intros (_ & _ & Hl)%parse_integrations_ok (Hin & Hn%String.eqb_eq)%List.find_some. split; [done|].
  apply Hl. by apply list_elem_of_In.
Qed.

Lemma otlp_settings_total checks v l :
  parse_integrations checks v = Ok l → ∃ disabled endpoint namespace, otlp_settings l = Ok (disabled, endpoint, namespace).
Proof.
  intros Hl. unfold otlp_settings. destruct (find_integration l "otlp-export") as [i|] eqn:Ef; [|eauto].
  destruct (ic_enabled i); [|eauto].
  apply (find_integration_ok _ _ _ _ _ Hl) in Ef as (Hn & def & Hr & _ & _ & _ & _ & Hc).
  apply resolve_builtin in Hr as [(Hn' & ->)|(_ & ->)]; [by rewrite Hn in Hn'|].
  cbn -[fullmatch dict_get] in Hc. destruct Hc as (e & ns & He & _ & Hns & _).
  unfold subscript. rewrite He, Hns. cbn. eauto.
Qed.

(** No health check, or one on the configured path. *)
Definition healthcheck_of (path : string) : list (string * yaml) :=
  [("healthcheck",
    obj [("test", strings ["CMD"; "python"; "-c";
           "import urllib.request; urllib.request.urlopen('http://127.0.0.1:8000" +:+ path +:+ "', timeout=2).read(1)"]);
         ("interval", YStr "15s"); ("timeout", YStr "3s"); ("retries", YInt 3)])].

Lemma web_healthcheck_total checks v l :
  parse_integrations checks v = Ok l →
  web_healthcheck l = Ok [] ∨
  ∃ path, fullmatch SAFE_HEALTH_PATH_RE path = true ∧ web_healthcheck l = Ok (healthcheck_of path).
Proof.
  intros Hl. unfold web_healthcheck. destruct (find_integration l "django-runtime") as [i|] eqn:Ef; [|by left].
  destruct (ic_enabled i); [|by left].
  apply (find_integration_ok _ _ _ _ _ Hl) in Ef as (Hn & def & Hr & _ & _ & _ & _ & Hc).
  apply resolve_builtin in Hr as [(_ & ->)|(Hn' & _)]; [|by rewrite Hn in Hn'].
  cbn -[fullmatch dict_get contains] in Hc. destruct Hc as (hp & ml & H1 & H2 & _).
  right. exists hp. unfold subscript. rewrite H1. done.
Qed.

(** The services of a configuration. *)
Definition wanted_services (c : DjangoOpsConfig) : list string :=
  let sv := cf_services c in
  ["traefik"; "web"] ++ (if sv_postgres sv then ["postgres"] else []) ++ (if sv_redis sv then ["redis"] else []) ++
  (if sv_celery sv then ["celery"] else []) ++ (if sv_celery_beat sv then ["celery_beat"] else []).

Definition closed (c : DjangoOpsConfig) (doc : yaml) : Prop :=
  service_names doc = wanted_services c ∧
  forallb (λ s, str_in s (service_names doc)) (depended_on doc) = true ∧
  mounted_volumes doc = declared_volumes doc ∧
  published doc = ["traefik"].

Lemma compose_closed c l env hc :
  (∀ component, application_environment c component l = Ok (env component)) →
  web_healthcheck l = Ok hc → hc = [] ∨ (∃ path, hc = healthcheck_of path) →
  ∃ doc, compose_document c l = Ok doc ∧ closed c doc.
Proof.
  intros Henv Hhc Hcase. unfold compose_document, web_service, celery_service. rewrite !Henv, Hhc.
  cbn [mbind result_bind]. destruct c as [? ? ? [[] [] [] []] ? ? ?]; cbn [optional sv_celery sv_celery_beat cf_services];
    (eexists; split; [reflexivity|]); unfold closed;
    destruct Hcase as [->|(path & ->)]; split_and!; vm_compute; reflexivity.
Qed.

Lemma compose_total checks c v l :
  parse_integrations checks v = Ok l → ∃ doc, compose_document c l = Ok doc ∧ closed c doc.
Proof.
  intros Hl. destruct (otlp_settings_total _ _ _ Hl) as (disabled & endpoint & namespace & Ho).
  pose proof (web_healthcheck_total _ _ _ Hl) as Hhc.
  assert (∃ env, ∀ component, application_environment c component l = Ok (env component)) as [env Henv].
  { unfold application_environment. rewrite Ho. eexists (λ component, _). intros component. reflexivity. }
  destruct Hhc as [Hhc|(path & _ & Hhc)]; by eapply compose_closed; eauto.
Qed.

(** For every configuration and every parsed list of integrations the Compose
    document is produced, and it is closed: its services are those enabled, each
    service only waits for a declared one, the named volumes mounted are exactly
    those declared, and only the reverse proxy publishes ports on the host. *)
Theorem compose_document_is_closed checks c v l :
  parse_integrations checks v = Ok l → ∃ doc, compose_document c l = Ok doc ∧ closed c doc.
Proof. apply compose_total. Qed.

(** * What Docker Compose substitutes *)

(** The strings of a document, keys included. *)
Fixpoint scalars (v : yaml) : list string :=
  match v with
  | YStr s => [s]
  | YSeq l => flat_map scalars l
  | YMap m => flat_map (λ kv : yaml * yaml, scalars kv.1 ++ scalars kv.2) m
  | _ => []
  end.

(** The strings of the templates with a dollar sign: the variables the operator's
    environment provides, and two escaped ones. *)
Definition TEMPLATES : list string :=
  ["${AWS_ACCESS_KEY_ID:?AWS_ACCESS_KEY_ID must be set}";
   "${AWS_SECRET_ACCESS_KEY:?AWS_SECRET_ACCESS_KEY must be set}";
   "${OTEL_SDK_DISABLED:-true}"; "${OTEL_EXPORTER_OTLP_ENDPOINT:-}"; "${DJANGOOPS_CORRELATION_ID:-}";
   "${POSTGRES_DB:-djangoops}"; "${POSTGRES_USER:-djangoops}";
   "${POSTGRES_PASSWORD:?POSTGRES_PASSWORD must be set}";
   "pg_isready -U $${POSTGRES_USER:-djangoops} -d $${POSTGRES_DB:-djangoops}"].

Definition no_dollar (s : string) : bool := negb (char_in "$" s).
Definition reference_ok (s : string) : bool := no_dollar s || str_in s TEMPLATES.

Lemma no_dollar_app a b : no_dollar (a +:+ b) = no_dollar a && no_dollar b.
Proof.
  unfold no_dollar. rewrite <- negb_orb. f_equal.
  induction a as [|x a IH]; [done|]. rewrite str_app_cons. cbn. by rewrite IH, orb_assoc.
Qed.

(** A pattern without a dollar sign matches no string with one. *)
Lemma fullmatch_no_dollar r s : may_contain r "$" = false → fullmatch r s = true → no_dollar s = true.
Proof.
  intros Hr Hs%fullmatch_spec. unfold no_dollar. apply negb_true_iff, not_true_iff_false.
  intros Hin%char_in_chars. by rewrite (may_contain_lang _ _ _ Hs Hin) in Hr.
Qed.

Lemma no_dollar_lower s : no_dollar s = true → no_dollar (lower s) = true.
Proof.
  unfold no_dollar, lower. rewrite !negb_true_iff. intros H. rewrite char_in_map; [done|].
  intros d. apply eqb_prop. revert d. apply by_chars. by vm_compute.
Qed.

Lemma no_dollar_forall s : no_dollar s = str_forallb (λ c, negb (Ascii.eqb "$" c)) s.
Proof. unfold no_dollar. induction s as [|c s IH]; [done|]. cbn [char_in str_forallb]. by rewrite negb_orb, IH. Qed.

Lemma str_forallb_take p n s : str_forallb p s = true → str_forallb p (str_take n s) = true.
Proof.
  revert s. induction n as [|n IH]; intros [|c s]; try done.
  change (str_take (S n) (String c s)) with (String c (str_take n s)). cbn [str_forallb].
  rewrite !andb_true_iff. intros [-> H]. auto.
Qed.

Lemma no_dollar_take n s : no_dollar s = true → no_dollar (str_take n s) = true.
Proof. rewrite !no_dollar_forall. apply str_forallb_take. Qed.

(** What the validators leave of dollar signs in a configuration: none, but in
    the two values they accept almost anything in. *)
Record free_of_dollars (c : DjangoOpsConfig) : Prop := mkFree {
  fd_project : no_dollar (cf_project c) = true;
  fd_django : no_dollar (cf_django c) = true;
  fd_hostname : no_dollar (tls_hostname (cf_tls c)) = true;
  fd_region : no_dollar (default "" (so_region (cf_storage c))) = true;
  fd_static : no_dollar (so_static_bucket (cf_storage c)) = true;
  fd_media : no_dollar (so_media_bucket (cf_storage c)) = true
}.

Lemma no_dollar_join ws : Forall (λ w, no_dollar w = true) ws → no_dollar (join "." ws) = true.
Proof.
  induction 1 as [|w ws Hw Hws IH]; [done|]. destruct ws as [|w' ws]; [done|].
  rewrite join_cons by done. by rewrite !no_dollar_app, Hw, IH.
Qed.

Lemma hostname_no_dollar v h : validate_hostname v = Ok h → no_dollar h = true.
Proof.
  unfold validate_hostname. set (cand := rstrip "." v).
  intros [<- H]%accept_ok. apply negb_true_iff, orb_false_iff in H as [_ H]. apply negb_false_iff in H.
  apply no_dollar_lower. rewrite <- (join_split_on "." cand).
  apply no_dollar_join, Forall_forall. rewrite forallb_forall in H. intros w Hw%list_elem_of_In%H.
  by eapply fullmatch_no_dollar; [|exact Hw].
Qed.

Lemma build_free checks name module sv host mail url region static media sched bucket prefix c :
  build checks name module sv host mail url region static media sched bucket prefix = Ok c → free_of_dollars c.
Proof.
  unfold build, tls_config, storage_config, backup_config. intros H. binds H.
  repeat match goal with H : _ ≫= _ = Ok _ |- _ => binds H end.
  repeat match goal with H : Ok _ = Ok _ |- _ => injection H as <- end. constructor; cbn [cf_project cf_django cf_tls
    cf_storage tls_hostname so_region so_static_bucket so_media_bucket].
  - match goal with H : validate_project_name _ = Ok _ |- _ => apply accept_ok in H as [<- H] end.
    by eapply fullmatch_no_dollar; [|eassumption].
  - match goal with H : validate_django_module _ = Ok _ |- _ => apply accept_ok in H as [<- H] end.
    by eapply fullmatch_no_dollar; [|eassumption].
  - by eapply hostname_no_dollar.
  - match goal with H : validate_region _ = Ok _ |- _ => rename H into Hr end.
    destruct region as [r|]; cbn in Hr; [|by injection Hr as <-]. apply accept_ok in Hr as [<- Hr].
    apply negb_true_iff, orb_false_iff in Hr as [_ Hr]. apply negb_false_iff in Hr.
    by eapply fullmatch_no_dollar; [|eassumption].
  - match goal with H : validate_bucket _ "static bucket" = Ok _ |- _ => apply accept_ok in H as [<- [H _]%andb_true_iff] end.
    by eapply fullmatch_no_dollar; [|eassumption].
  - match goal with H : validate_bucket _ "media bucket" = Ok _ |- _ => apply accept_ok in H as [<- [H _]%andb_true_iff] end.
    by eapply fullmatch_no_dollar; [|eassumption].
Qed.

(** ** References of a document *)

Definition refs (v : yaml) : bool := forallb reference_ok (scalars v).

Lemma forallb_flat_map {A B} (p : B → bool) (f : A → list B) l :
  forallb p (flat_map f l) = forallb (λ x, forallb p (f x)) l.
Proof. induction l as [|x l IH]; [done|]. cbn. by rewrite forallb_app, IH. Qed.

Lemma refs_obj fields : refs (obj fields) = forallb (λ kv : string * yaml, reference_ok kv.1 && refs kv.2) fields.
Proof.
  unfold refs, obj. cbn [scalars]. rewrite forallb_flat_map.
  induction fields as [|[k v] fields IH]; [done|]. cbn -[reference_ok]. by rewrite IH.
Qed.

Lemma refs_strings l : refs (strings l) = forallb reference_ok l.
Proof.
  unfold refs, strings. cbn [scalars]. rewrite forallb_flat_map.
  induction l as [|s l IH]; [done|]. cbn -[reference_ok]. by rewrite IH, andb_true_r.
Qed.

Lemma refs_str s : refs (YStr s) = reference_ok s.
Proof. unfold refs. cbn. apply andb_true_r. Qed.

Lemma refs_str_obj fields :
  refs (str_obj fields) = forallb (λ kv : string * string, reference_ok kv.1 && reference_ok kv.2) fields.
Proof.
  unfold str_obj. rewrite refs_obj. induction fields as [|[k v] fields IH]; [done|].
  cbn -[refs reference_ok]. by rewrite IH, refs_str.
Qed.

Lemma reference_no_dollar s : no_dollar s = true → reference_ok s = true.
Proof. unfold reference_ok. by intros ->. Qed.

(** Leaves: literals are computed, others have no dollar sign by the hypotheses. *)
Ltac leaf :=
  solve [ vm_compute; reflexivity
        | apply reference_no_dollar; rewrite ?no_dollar_app;
          repeat match goal with H : no_dollar _ = true |- _ => rewrite H; clear H end; vm_compute; reflexivity ].

Ltac references :=
  rewrite ?refs_obj, ?refs_strings, ?refs_str_obj;
  repeat (cbn [forallb fst snd app];
          first [ reflexivity
                | match goal with |- andb _ _ = true => apply andb_true_iff; split end
                | rewrite refs_obj | rewrite refs_strings | rewrite refs_str_obj | rewrite refs_str
                | leaf ]).

(** What the telemetry variables are set to. *)
Lemma otlp_refs checks v l :
  parse_integrations checks v = Ok l →
  (∀ i e, i ∈ l → dict_get (ic_config i) "endpoint" = Some e → no_dollar e = true) →
  ∃ disabled endpoint namespace, otlp_settings l = Ok (disabled, endpoint, namespace) ∧
    reference_ok disabled = true ∧ reference_ok endpoint = true ∧ no_dollar namespace = true.
Proof.
  intros Hl Hep. unfold otlp_settings.
  destruct (find_integration l "otlp-export") as [i|] eqn:Ef;
    [|eexists _, _, _; split; [reflexivity|]; by vm_compute].
  destruct (ic_enabled i); [|eexists _, _, _; split; [reflexivity|]; by vm_compute].
  assert (Hi : i ∈ l) by (apply List.find_some in Ef as [? _]; by apply list_elem_of_In).
  apply (find_integration_ok _ _ _ _ _ Hl) in Ef as (Hn & def & Hr & _ & _ & _ & _ & Hc).
  apply resolve_builtin in Hr as [(Hn' & ->)|(_ & ->)]; [by rewrite Hn in Hn'|].
  cbn -[fullmatch dict_get] in Hc. destruct Hc as (e & ns & He & _ & Hns & Hre).
  unfold subscript. rewrite He, Hns. cbn [mbind result_bind]. eexists _, _, _. split; [reflexivity|].
  split_and!; [by vm_compute|apply reference_no_dollar; by eapply Hep|].
  by eapply fullmatch_no_dollar; [|exact Hre].
Qed.

Section references.
Context (c : DjangoOpsConfig) (Hc : free_of_dollars c).
Context (Hmail : no_dollar (tls_acme_email (cf_tls c)) = true).
Context (Hurl : no_dollar (so_endpoint_url (cf_storage c)) = true).

Lemma traefik_refs : refs (traefik_service c) = true.
Proof using Hmail. unfold traefik_service. references. Qed.

Lemma module_no_dollar : no_dollar (django_project_module c) = true.
Proof using Hc.
  destruct Hc as [_ Hm _ _ _ _]. unfold django_project_module, removesuffix.
  destruct (endswith _ _); [|done]. by apply no_dollar_take.
Qed.

Lemma environment_refs component endpoint namespace disabled :
  no_dollar component = true → no_dollar namespace = true →
  reference_ok endpoint = true → reference_ok disabled = true →
  refs (str_obj (storage_environment c ++
      [("OTEL_SDK_DISABLED", disabled);
       ("OTEL_EXPORTER_OTLP_ENDPOINT", endpoint);
       ("OTEL_SERVICE_NAME", cf_project c +:+ "-" +:+ component);
       ("OTEL_RESOURCE_ATTRIBUTES",
        "service.namespace=" +:+ namespace +:+ ",djangoops.project=" +:+ cf_project c +:+
        ",djangoops.component=" +:+ component);
       ("DJANGOOPS_CORRELATION_ID", "${DJANGOOPS_CORRELATION_ID:-}")])) = true.
Proof using Hc Hurl.
  destruct Hc as [Hp _ _ Hr Hs Hm]. intros Hcomp Hns Hep Hdis.
  rewrite refs_str_obj. unfold storage_environment. rewrite !forallb_app.
  rewrite !andb_true_iff. split_and!.
  - references.
  - destruct (so_region _) as [r|]; [|done]. cbn [default from_option id] in Hr. references.
  - cbn [forallb fst snd]. rewrite Hep, Hdis. references.
Qed.

Lemma depends_refs : forallb (λ kv : string * yaml, reference_ok kv.1 && refs kv.2) (depends_on c) = true.
Proof using.
  unfold depends_on, infrastructure_dependencies. destruct (sv_postgres _), (sv_redis _); vm_compute; reflexivity.
Qed.

Lemma web_refs l env hc web :
  application_environment c "web" l = Ok env → refs (str_obj env) = true →
  web_healthcheck l = Ok hc → hc = [] ∨ (∃ path, no_dollar path = true ∧ hc = healthcheck_of path) →
  web_service c l = Ok web → refs web = true.
Proof using Hc.
  intros He Henv Hh Hhc. unfold web_service. rewrite He, Hh. cbn [mbind result_bind]. intros [= <-].
  pose proof module_no_dollar as Hmod. destruct Hc as [_ _ Hhost _ _ _].
  assert (Hhcr : forallb (λ kv : string * yaml, reference_ok kv.1 && refs kv.2) hc = true).
  { destruct Hhc as [->|(path & Hp & ->)]; [done|]. unfold healthcheck_of. references. }
  rewrite refs_obj. cbn [app forallb fst snd]. rewrite forallb_app, Hhcr, depends_refs, Henv.
  unfold APP_BUILD, APP_ENV_FILE. references.
Qed.

Lemma celery_refs l action component env service :
  application_environment c component l = Ok env → refs (str_obj env) = true →
  forallb reference_ok action = true →
  celery_service c action component l = Ok service → refs service = true.
Proof using Hc.
  intros He Henv Ha. unfold celery_service. rewrite He. cbn [mbind result_bind]. intros [= <-].
  pose proof module_no_dollar as Hmod.
  rewrite refs_obj. cbn [app forallb fst snd]. rewrite refs_strings. cbn [app forallb].
  rewrite depends_refs, Henv, Ha. unfold APP_BUILD, APP_ENV_FILE. references.
Qed.

Lemma optional_refs enabled name make services :
  reference_ok name = true → (∀ s, make = Ok s → refs s = true) → optional enabled name make = Ok services →
  forallb (λ kv : string * yaml, reference_ok kv.1 && refs kv.2) services = true.
Proof using.
  intros Hn Hm. unfold optional. destruct enabled; [|by intros [= <-]].
  intros (s & Hs%Hm & [= <-])%bind_ok. cbn -[reference_ok refs]. by rewrite Hn, Hs.
Qed.
End references.

(** Docker Compose substitutes variables only where the templates ask for
    it: in the document of a configuration whose e-mail address and endpoints
    have no dollar sign, every string with one is a template, and the secrets
    among them are references to the environment, never values. *)
Theorem compose_references_are_templates checks repr doc0 c v l doc :
  from_mapping checks repr doc0 = Ok c → parse_integrations checks v = Ok l →
  no_dollar (tls_acme_email (cf_tls c)) = true → no_dollar (so_endpoint_url (cf_storage c)) = true →
  (∀ i e, i ∈ l → dict_get (ic_config i) "endpoint" = Some e → no_dollar e = true) →
  compose_document c l = Ok doc → Forall (λ s, s ∈ TEMPLATES ∨ char_in "$" s = false) (scalars doc).
Proof.
  intros (m & Hc)%mapping_built Hl Hmail Hurl Hep Hdoc.
  apply sections_built in Hc as (? & ? & ? & ? & ? & ? & ? & ? & ? & ? & ? & ? & Hc%build_free).
  assert (Hrefs : refs doc = true).
  { assert (Henv : ∀ component, no_dollar component = true →
      ∃ env, application_environment c component l = Ok env ∧ refs (str_obj env) = true).
    { intros component Hcomp. destruct (otlp_refs _ _ _ Hl Hep) as (dis & ep & ns & Ho & Hd & He & Hn).
      unfold application_environment. rewrite Ho. eexists. split; [reflexivity|]. by apply environment_refs. }
    revert Hdoc. unfold compose_document. intros (web & Hweb & Hdoc)%bind_ok.
    apply bind_ok in Hdoc as (celery & Hcelery & Hdoc). apply bind_ok in Hdoc as (beat & Hbeat & [= <-]).
    destruct (Henv "web" eq_refl) as (env1 & He1 & Hr1). destruct (Henv "worker" eq_refl) as (env2 & He2 & Hr2).
    destruct (Henv "beat" eq_refl) as (env3 & He3 & Hr3).
    apply (optional_refs _ "celery") in Hcelery;
      [|reflexivity|intros s; apply (celery_refs c Hc _ _ _ _ _ He2 Hr2); reflexivity].
    apply (optional_refs _ "celery_beat") in Hbeat;
      [|reflexivity|intros s; apply (celery_refs c Hc _ _ _ _ _ He3 Hr3); reflexivity].
    assert (Hw : refs web = true).
    { destruct (web_healthcheck_total _ _ _ Hl) as [Hh|(path & Hp & Hh)].
      - by apply (web_refs c Hc _ _ _ _ He1 Hr1 Hh); [left|].
      - apply (web_refs c Hc _ _ _ _ He1 Hr1 Hh); [right|done]. exists path. split; [|done].
        by eapply fullmatch_no_dollar; [|exact Hp]. }
    pose proof (fd_project _ Hc) as Hproj. pose proof (traefik_refs c Hmail) as Ht.
    rewrite refs_obj. cbn [forallb fst snd]. rewrite !refs_obj, refs_str. cbn [app forallb fst snd].
    rewrite !forallb_app, Hcelery, Hbeat, Hw, Ht, (reference_no_dollar _ Hproj).
    destruct (sv_postgres _), (sv_redis _); vm_compute; reflexivity. }
  unfold refs in Hrefs. rewrite forallb_forall in Hrefs. apply Forall_forall. intros s Hs%list_elem_of_In%Hrefs.
  apply orb_true_iff in Hs as [Hs|Hs]; [right; by apply negb_true_iff in Hs|left; by apply str_in_spec].
Qed.

(** * Concrete runs *)

Definition demo_document : result eco_error yaml := compose_document demo_config demo_integrations.

Lemma compose_document_is_closed_witness :
  parse_integrations config_checks demo_raw = Ok demo_integrations ∧
  ∃ doc, compose_document demo_config demo_integrations = Ok doc ∧ closed demo_config doc.
Proof.
  split; [by vm_compute|].
  apply (compose_document_is_closed config_checks demo_config demo_raw demo_integrations). by vm_compute.
Defined.

Lemma compose_references_are_templates_witness :
  ∃ doc, compose_document demo_config demo_integrations = Ok doc ∧
    Forall (λ s, s ∈ TEMPLATES ∨ char_in "$" s = false) (scalars doc).
Proof.
  eexists. split; [vm_compute; reflexivity|].
  apply (compose_references_are_templates config_checks config_repr (to_mapping demo_config) demo_config
           demo_raw demo_integrations).
  - vm_compute; reflexivity.
  - vm_compute; reflexivity.
  - vm_compute; reflexivity.
  - vm_compute; reflexivity.
  - intros i e Hi. unfold demo_integrations in Hi.
    repeat (apply elem_of_cons in Hi as [->|Hi]; [cbn; intros H; try discriminate H; injection H as <-; by vm_compute|]).
    by apply elem_of_nil in Hi.
  - vm_compute; reflexivity.
Defined.

(** An e-mail address is free to hold a dollar sign, and Docker Compose will
    substitute what follows it. *)
Definition dollar_config : result exn DjangoOpsConfig :=
  create config_checks "shop" "config.settings" "shop.example.com" "ops$HOME@example.com"
    "https://s3.example.com" None "shop-static" "shop-media" "17 2 * * *" "shop-backups" "djangoops-backups".

Lemma email_is_substituted :
  ∃ c doc, dollar_config = Ok c ∧ compose_document c [] = Ok doc ∧
    existsb (contains "$HOME") (scalars doc) = true.
Proof. eexists _, _. split_and!; vm_compute; reflexivity. Qed.
