(* ===== verification/Script.v ===== *)
(** Shell scripts of pipelines: how the commands of [cli/djangoops/backup.py] are
    put together, how a shell takes them apart and runs them.

    A script is a list of pipelines, a pipeline a list of commands, a command its
    text.  [statements] is the reader: it splits at the [;] and [|] outside quotes
    and [$( )], and gives up on everything else that would change the structure
    ([&], comments, backslashes, backquotes, braces, line breaks).
    [statements_render] proves that it inverts [render]. *)

From S2P Require Import Prelude Text ConfigProps Shell.

Open Scope string_scope.
Open Scope list_scope.
Open Scope nat_scope.

Abbreviation pipeline := (list string).
Abbreviation script := (list pipeline).

Definition render_pipeline (p : pipeline) : string := join " | " p.
Definition render (s : script) : string := join "; " (render_pipeline <$> s).

(** * Reading a script *)

Inductive context := Bare | SingleQuoted | DoubleQuoted | Substitution.

(** The context after a character; [None] where the reader gives up.  Separators
    are not characters of a command. *)
Definition next (m : context) (c : ascii) : option context :=
  match m with
  | Bare =>
      if Ascii.eqb c squote then Some SingleQuoted
      else if Ascii.eqb c (char 34) then Some DoubleQuoted
      else if Ascii.eqb c "(" then Some Substitution
      else if char_in c ";|&#\`{})" || is_line_break c then None
      else Some Bare
  | SingleQuoted => Some (if Ascii.eqb c squote then Bare else SingleQuoted)
  | DoubleQuoted =>
      if Ascii.eqb c (char 34) then Some Bare
      else if char_in c "\`(" then None else Some DoubleQuoted
  | Substitution =>
      if Ascii.eqb c ")" then Some Bare
      else if char_in c ";|&#\`{}(" || Ascii.eqb c squote || Ascii.eqb c (char 34) || is_line_break c then None
      else Some Substitution
  end.

(** Without the blanks around it. *)
Definition trim (s : string) : string := rstrip " " (lstrip " " s).

Fixpoint statements (m : context) (pipe : list string) (cur s : string) : option script :=
  match s with
  | EmptyString => match m with Bare => Some [rev (trim cur :: pipe)] | _ => None end
  | String c rest =>
      match m with
      | Bare =>
          if Ascii.eqb c ";" then
            later ← statements Bare [] "" rest; Some (rev (trim cur :: pipe) :: later)
          else if Ascii.eqb c "|" then statements Bare (trim cur :: pipe) "" rest
          else m' ← next m c; statements m' pipe (cur +:+ String c "") rest
      | _ => m' ← next m c; statements m' pipe (cur +:+ String c "") rest
      end
  end.

Definition read_script (s : string) : option script := statements Bare [] "" s.

Fixpoint scan (m : context) (s : string) : option context :=
  match s with
  | EmptyString => Some m
  | String c rest => m' ← next m c; scan m' rest
  end.

Lemma scan_app m a b : scan m (a +:+ b) = m' ← scan m a; scan m' b.
Proof.
  revert m. induction a as [|c a IH]; intros m; [done|]. rewrite str_app_cons. cbn [scan].
  destruct (next m c); [|done]. apply IH.
Qed.

(** The text of one command. *)
Definition command_ok (s : string) : Prop := scan Bare s = Some Bare ∧ trim s = s.

Lemma statements_scan m m' pipe cur s rest :
  scan m s = Some m' → statements m pipe cur (s +:+ rest) = statements m' pipe (cur +:+ s) rest.
Proof.
  revert m cur. induction s as [|c s IH]; intros m cur H.
  - injection H as ->. by rewrite str_app_nil_r.
  - cbn [scan] in H. rewrite str_app_cons. cbn [statements].
    destruct (next m c) as [m1|] eqn:E; [|done]. cbn [mbind option_bind] in H |- *.
    assert (Hsep : m = Bare → Ascii.eqb c ";" = false ∧ Ascii.eqb c "|" = false).
    { intros ->. split; apply not_true_iff_false; intros ->%Ascii.eqb_eq; by vm_compute in E. }
    specialize (IH m1 (cur +:+ String c "") H). rewrite <- str_app_assoc in IH.
    destruct m; [destruct Hsep as [-> ->]; [done|]|..]; exact IH.
Qed.

Lemma lstrip_by_snoc p s t : lstrip_by p s ≠ "" → lstrip_by p (s +:+ t) = lstrip_by p s +:+ t.
Proof. induction s as [|d s IH]; [done|]. rewrite str_app_cons. cbn. destruct (p d); [exact IH|done]. Qed.

Lemma trim_blanks s : trim s = s → trim (" " +:+ s) = s ∧ trim (s +:+ " ") = s ∧ trim (" " +:+ s +:+ " ") = s.
Proof.
  intros H.
  assert (Hr : ∀ t, rstrip " " (t +:+ " ") = rstrip " " t).
  { intros t. unfold rstrip. by rewrite rstrip_by_snoc. }
  assert (Hl : trim (s +:+ " ") = s).
  { unfold trim in *. unfold lstrip in *. destruct (lstrip_by _ s) as [|c t] eqn:E.
    - destruct s as [|c s]; [done|]. by rewrite <- H.
    - rewrite (lstrip_by_snoc _ s " ") by congruence. rewrite Hr, E. exact H. }
  assert (Hb : ∀ t, trim (" " +:+ t) = trim t) by done.
  split_and!; [by rewrite Hb|done|by rewrite Hb].
Qed.

(** What follows a pipeline: nothing, or a semicolon and the rest. *)
Definition finish (p : pipeline) (rest : string) : option script :=
  match rest with
  | EmptyString => Some [p]
  | String _ rest => later ← statements Bare [] "" rest; Some (p :: later)
  end.
Definition ends (rest : string) : Prop := rest = "" ∨ ∃ r, rest = String ";" r.

Lemma statements_end pipe cur s rest :
  ends rest → trim cur = s → statements Bare pipe cur rest = finish (rev pipe ++ [s]) rest.
Proof. by intros [->|(r & ->)] <-. Qed.

Lemma read_pipeline p rest pipe lead :
  p ≠ [] → Forall command_ok p → lead = "" ∨ lead = " " → ends rest →
  statements Bare pipe lead (render_pipeline p +:+ rest) = finish (rev pipe ++ p) rest.
Proof.
  intros Hne Hp. revert pipe lead. induction Hp as [|s p [Hs Ht] Hp IH]; intros pipe lead Hlead Hrest; [done|].
  destruct (trim_blanks s Ht) as (T1 & T2 & T3). unfold render_pipeline in *. destruct p as [|s' p].
  - cbn [join]. rewrite (statements_scan _ _ _ _ _ _ Hs). apply statements_end; [done|].
    by destruct Hlead as [->| ->]; rewrite ?str_app_nil_l.
  - rewrite join_cons, <- !str_app_assoc by done. rewrite (statements_scan _ _ _ _ _ _ Hs).
    change (" | " +:+ ?x) with (String " " (String "|" (String " " x))).
    replace (statements Bare pipe (lead +:+ s) _) with
      (statements Bare (trim ((lead +:+ s) +:+ " ") :: pipe) " " (join " | " (s' :: p) +:+ rest)) by done.
    rewrite IH by (done || by right). f_equal. cbn [rev]. rewrite <- app_assoc. cbn [app]. do 2 f_equal.
    destruct Hlead as [->| ->]; [by rewrite str_app_nil_l|by rewrite <- str_app_assoc].
Qed.

(** Reading inverts rendering. *)
Lemma statements_render s :
  s ≠ [] → Forall (λ p, p ≠ [] ∧ Forall command_ok p) s → read_script (render s) = Some s.
Proof.
  intros Hne Hs.
  assert (H : ∀ lead, lead = "" ∨ lead = " " → statements Bare [] lead (render s) = Some s); [|by apply H; left].
  induction Hs as [|p s [Hp Hok] Hs IH]; intros lead Hlead; [done|]. unfold render in *. destruct s as [|p' s].
  - cbn [fmap list_fmap join]. rewrite <- (str_app_nil_r (render_pipeline p)).
    rewrite read_pipeline by (done || by left). done.
  - rewrite fmap_cons, join_cons by done. rewrite read_pipeline; [|done|done|done|right; by eexists].
    cbn [finish rev app]. change ("; " +:+ ?x) with (String ";" (String " " x)).
    specialize (IH ltac:(done) " " (or_intror eq_refl)).
    cbn [finish]. change (statements Bare [] "" (String " " ?x)) with (statements Bare [] " " x). by rewrite IH.
Qed.

(** ** Commands built from literals and quoted words *)

Lemma scan_single s : scan SingleQuoted (replace_char squote escaped_squote s +:+ String squote "") = Some Bare.
Proof.
  induction s as [|c s IH]; [done|]. cbn [replace_char]. rewrite <- str_app_assoc, scan_app.
  destruct (Ascii.eqb_spec c squote) as [->|Hne]; [exact IH|]. cbn [scan next].
  destruct (Ascii.eqb_spec c squote); [done|]. exact IH.
Qed.

Lemma next_safe c : is_safe c = true → next Bare c = Some Bare.
Proof.
  intros H. assert (Hc : implb (is_safe c) (match next Bare c with Some Bare => true | _ => false end) = true).
  { revert c H. intros c _. revert c. apply by_chars. by vm_compute. }
  rewrite H in Hc. cbn [implb] in Hc. by destruct (next Bare c) as [[]|].
Qed.

Lemma scan_safe s : str_forallb is_safe s = true → scan Bare s = Some Bare.
Proof.
  induction s as [|c s IH]; [done|]. cbn [str_forallb scan]. intros [Hc Hs]%andb_true_iff.
  rewrite (next_safe c Hc). cbn [mbind option_bind]. auto.
Qed.

Lemma scan_quote s : scan Bare (quote s) = Some Bare.
Proof.
  unfold quote. destruct (String.eqb s ""); [done|]. destruct (str_forallb is_safe s) eqn:E; [by apply scan_safe|].
  change (scan Bare (String squote ?x)) with (scan SingleQuoted x). apply scan_single.
Qed.

(** A text that ends in no blank. *)
Definition ends_dark (s : string) : Prop := s ≠ "" ∧ rstrip " " s = s.

Lemma rstrip_dark a b : ends_dark b → ends_dark (a +:+ b).
Proof.
  intros [Hne Hb]. split; [by destruct a|]. unfold rstrip in *.
  induction a as [|c a IH]; [done|]. rewrite str_app_cons. cbn [rstrip_by]. rewrite IH.
  by destruct (a +:+ b) eqn:E; [destruct a|].
Qed.

Lemma safe_dark s : s ≠ "" → str_forallb is_safe s = true → ends_dark s.
Proof.
  intros Hne Hs. split; [done|]. destruct (snoc_cases s) as [->|(t & c & ->)]; [done|].
  unfold rstrip. rewrite rstrip_by_snoc. rewrite str_forallb_app in Hs. apply andb_true_iff in Hs as [_ Hs].
  cbn in Hs. apply andb_true_iff in Hs as [Hc _]. cbn. destruct (Ascii.eqb_spec c " ") as [->|]; [done|]. done.
Qed.

Lemma quote_dark s : ends_dark (quote s).
Proof.
  unfold quote. destruct (String.eqb_spec s "") as [|Hne]; [by split|].
  destruct (str_forallb is_safe s) eqn:E; [by apply safe_dark|].
  change (String squote ?x) with (String squote "" +:+ x). by apply rstrip_dark, rstrip_dark.
Qed.

Lemma trim_dark c s : c ≠ " "%char → ends_dark (String c s) → trim (String c s) = String c s.
Proof.
  intros Hc [_ Hs]. unfold trim. replace (lstrip " " (String c s)) with (String c s); [done|].
  unfold lstrip. cbn. by destruct (Ascii.eqb_spec c " ").
Qed.

(** * Running a script *)

Section run.
(** Whether a command succeeds may depend on every command run before it. *)
Context (status : list string → string → bool).

(** The commands of a pipeline all run; its status is that of the last one. *)
Fixpoint run_pipeline (log : list string) (p : pipeline) : list string * bool :=
  match p with
  | [] => (log, true)
  | [c] => (log ++ [c], status log c)
  | c :: p => run_pipeline (log ++ [c]) p
  end.

(** Whether a pipeline is the command that makes the shell stop at the next failure. *)
Definition sets_errexit (p : pipeline) : bool := bool_decide (p = ["set -eu"]).

(** A pipeline that fails stops the script only once [set -eu] has run ([e]); the
    status of a script that runs to its end is that of its last pipeline. *)
Fixpoint run_script (e : bool) (log : list string) (s : script) : list string * bool :=
  match s with
  | [] => (log, true)
  | p :: rest =>
      let '(log, ok) := run_pipeline log p in
      if negb ok && e then (log, false)
      else match rest with
           | [] => (log, ok)
           | _ => run_script (e || sets_errexit p) log rest
           end
  end.

Lemma run_pipeline_log log p : (run_pipeline log p).1 = log ++ p.
Proof.
  revert log. induction p as [|c p IH]; intros log; cbn; [by rewrite app_nil_r|].
  destruct p as [|c' p]; [done|]. rewrite IH. by rewrite <- app_assoc.
Qed.

Lemma run_script_cons e log p rest :
  rest ≠ [] →
  run_script e log (p :: rest) =
    if negb (run_pipeline log p).2 && e then (log ++ p, false)
    else run_script (e || sets_errexit p) (log ++ p) rest.
Proof.
  intros Hne. pose proof (run_pipeline_log log p) as Hl. cbn [run_script].
  destruct (run_pipeline log p) as [log' ok]. cbn in Hl |- *. subst log'. by destruct rest.
Qed.

(** Whatever fails, a script runs its commands in order, up to some point. *)
Lemma run_script_in_order e log s : ∃ n, (run_script e log s).1 = log ++ concat (take n s).
Proof.
  revert e log. induction s as [|p rest IH]; intros e log; [exists 0; cbn; by rewrite app_nil_r|].
  assert (Hstop : ∀ r : list string * bool, r.1 = log ++ p → ∃ n, r.1 = log ++ concat (take n (p :: rest))).
  { intros r ->. exists 1. cbn. by rewrite take_0, app_nil_r. }
  destruct rest as [|p' rest].
  - apply Hstop. pose proof (run_pipeline_log log p) as Hl. cbn [run_script].
    destruct (run_pipeline log p) as [log' []]; cbn in Hl; subst; by destruct e.
  - rewrite run_script_cons by done. destruct (negb _ && e); [by apply Hstop|].
    destruct (IH (e || sets_errexit p) (log ++ p)) as [n Hn]. exists (S n). rewrite Hn.
    cbn. by rewrite <- app_assoc.
Qed.

(** Under [set -e] the pipelines before the point reached have all succeeded. *)
Lemma run_script_succeeds log s1 p s2 c :
  (run_script true log (s1 ++ p :: s2)).1 = log ++ concat s1 ++ c →
  c ≠ [] → Forall (λ q, q ≠ []) s1 →
  ∀ s1a q s1b, s1 = s1a ++ q :: s1b → (run_pipeline (log ++ concat s1a) q).2 = true.
Proof.
  revert log. induction s1 as [|q s1 IH]; intros log Hlog Hc Hs s1a q' s1b Heq; [by destruct s1a|].
  apply Forall_cons in Hs as [Hq Hs].
  change ((q :: s1) ++ p :: s2) with (q :: (s1 ++ p :: s2)) in Hlog.
  rewrite run_script_cons in Hlog by (by destruct s1).
  destruct (run_pipeline log q).2 eqn:E; cbn in Hlog.
  - destruct s1a as [|q1 s1a]; injection Heq as <- ->; cbn; [by rewrite app_nil_r|].
    rewrite app_assoc. apply (IH (log ++ q)) with (s1b := s1b); try done.
    by rewrite Hlog, <- !app_assoc.
  - exfalso. apply (f_equal length) in Hlog. rewrite !length_app in Hlog. cbn in Hlog.
    rewrite ?length_app in Hlog. destruct c; cbn in *; [done|lia].
Qed.
End run.
