(* ===== verification/Backup.v ===== *)
(** Backups over SSH: [cli/djangoops/backup.py].

    Each operation makes at most one remote call; it returns the calls it made
    besides its outcome.  [BackupError] is a [RuntimeError]. *)

From S2P Require Import Prelude Text Regex Json Url Telemetry Config Integrations Shell Script Deploy Health Compose.

Open Scope string_scope.
Open Scope list_scope.
Open Scope nat_scope.

Definition BACKUP_ID_RE : re :=
  (Chr "b" ⋅ Between (Cls is_digit) 8 8 ⋅ Chr "T" ⋅ Between (Cls is_digit) 6 6 ⋅ Chr "Z")%re.

(** [BackupRecord]: its identifier. *)
Record BackupRecord := mkBackupRecord { backup_id : string }.

Definition validate_backup_id (value : string) : result exn string :=
  accept (fullmatch BACKUP_ID_RE value) "backup identifier must match bYYYYMMDDTHHMMSSZ" value.

Definition backup_identifier (now : option utc_time) : result exn string :=
  match now with
  | None => Err (ValueError "backup timestamp must be timezone-aware")
  | Some t => Ok ("b" +:+ stamp t)
  end.

(** * Pieces of the commands *)

Section commands.
Context (c : DjangoOpsConfig) (target : DeploymentTarget).

Definition writer_services : list string :=
  ["web"] ++ (if sv_celery (cf_services c) then ["celery"] else [])
          ++ (if sv_celery_beat (cf_services c) then ["celery_beat"] else []).

Definition object_prefix : string := bk_prefix (cf_backup c) +:+ "/" +:+ cf_project c.

Definition aws_env_prefix : string :=
  "AWS_ENDPOINT_URL=" +:+ quote (so_endpoint_url (cf_storage c)) +:+
  match so_region (cf_storage c) with
  | None => ""
  | Some region => " AWS_DEFAULT_REGION=" +:+ quote region
  end.

Definition remote_path (suffix : string) : string := quote (dt_remote_base target +:+ suffix).

Definition runtime_preflight : script :=
  let env_path := remote_path "/shared/.env" in
  [["command -v docker >/dev/null"]; ["command -v aws >/dev/null"];
   ["test -f " +:+ env_path]; ["set -a"]; [". " +:+ env_path]; ["set +a"];
   ["test -n " +:+ dq "${POSTGRES_PASSWORD:-}"];
   ["test -n " +:+ dq "${AWS_ACCESS_KEY_ID:-}"];
   ["test -n " +:+ dq "${AWS_SECRET_ACCESS_KEY:-}"];
   ["test -n " +:+ quote (cf_project c)]].

(** [_compose_prefix], on a Compose file that was validated before; validating it
    again changes nothing. *)
Definition backup_compose_prefix (compose_file : string) : string :=
  "docker compose -p " +:+ quote (cf_project c) +:+ " -f " +:+ quote compose_file.

Definition pg_dump : string :=
  "'pg_dump -U " +:+ dq "$POSTGRES_USER" +:+ " " +:+ dq "$POSTGRES_DB" +:+ "'".

(** * The script the schedule runs *)

Definition lines (l : list string) : string := join newline l +:+ newline.

(** The text as Python builds it: [\n] is a line break, a backslash at the end of a
    line continues it. *)
Definition backup_script (compose_file : string) : string :=
  let base := quote (dt_remote_base target) in
  let compose := backup_compose_prefix compose_file in
  let aws := aws_env_prefix in
  lines
    ["#!/bin/sh";
     "set -eu";
     "umask 077";
     "backup_id=" +:+ dq "${1:-b$(date -u +%Y%m%dT%H%M%SZ)}";
     "printf '%s" +:+ newline +:+ "' " +:+ dq "$backup_id" +:+ " | grep -Eq '^b[0-9]{8}T[0-9]{6}Z$' || exit 2";
     "command -v docker >/dev/null";
     "command -v aws >/dev/null";
     "cd " +:+ remote_path "/current";
     "set -a";
     ". " +:+ base +:+ "/shared/.env";
     "set +a";
     "test -n " +:+ dq "${POSTGRES_PASSWORD:-}";
     "test -n " +:+ dq "${AWS_ACCESS_KEY_ID:-}";
     "test -n " +:+ dq "${AWS_SECRET_ACCESS_KEY:-}";
     "work=$(mktemp -d)";
     "trap 'rm -rf " +:+ dq "$work" +:+ "' EXIT";
     compose +:+ " config --services | grep -Fx postgres >/dev/null";
     compose +:+ " exec -T postgres sh -c   " +:+ pg_dump +:+ " | gzip -c > " +:+ dq "$work/database.sql.gz";
     "printf 'backup_id=%s" +:+ newline +:+ "project=%s" +:+ newline +:+ "database=database.sql.gz" +:+ newline +:+
       "media=media/" +:+ newline +:+ "'   " +:+ dq "$backup_id" +:+ " " +:+ quote (cf_project c) +:+ " > " +:+
       dq "$work/metadata.txt";
     "dest=" +:+ dq ("s3://" +:+ bk_bucket (cf_backup c) +:+ "/" +:+ object_prefix +:+ "/$backup_id");
     aws +:+ " aws s3 cp " +:+ dq "$work/database.sql.gz" +:+ " " +:+ dq "$dest/database.sql.gz" +:+ " >/dev/null";
     aws +:+ " aws s3 sync " +:+ dq ("s3://" +:+ so_media_bucket (cf_storage c) +:+ "/") +:+ " " +:+
       dq "$dest/media/" +:+ " >/dev/null";
     ": > " +:+ dq "$work/media.ready";
     aws +:+ " aws s3 cp " +:+ dq "$work/media.ready" +:+ " " +:+ dq "$dest/media.ready" +:+ " >/dev/null";
     aws +:+ " aws s3 cp " +:+ dq "$work/metadata.txt" +:+ " " +:+ dq "$dest/metadata.txt" +:+ " >/dev/null"].

(** * The commands *)

Definition runner : string := dt_remote_base target +:+ "/shared/djangoops-backup.sh".
Definition marker : string := "# djangoops-backup:" +:+ cf_project c.
Definition cron_line : string := bk_schedule (cf_backup c) +:+ " " +:+ quote runner +:+ " " +:+ marker.

Definition schedule_command (compose_file : string) : string :=
  let runner_q := quote runner in
  "set -eu; umask 077; " +:+
  "command -v crontab >/dev/null; command -v docker >/dev/null; " +:+
  "command -v aws >/dev/null; " +:+
  "mkdir -p " +:+ quote (dt_remote_base target) +:+ "/shared; " +:+
  "cat > " +:+ runner_q +:+ " <<'DJANGOOPS_BACKUP'" +:+ newline +:+ backup_script compose_file +:+ newline +:+
  "DJANGOOPS_BACKUP" +:+ newline +:+
  "chmod 700 " +:+ runner_q +:+ "; " +:+
  "current=$(crontab -l 2>/dev/null || true); " +:+
  "filtered=$(printf '%s\n' " +:+ dq "$current" +:+ " | grep -Fv -- " +:+ quote marker +:+ " || true); " +:+
  "{ printf '%s\n' " +:+ dq "$filtered" +:+ "; printf '%s\n' " +:+ quote cron_line +:+ "; } | " +:+
  "sed '/^$/d' | crontab -".

(** What the last three commands make of the lines of the crontab: [grep -Fv] drops
    those that contain the marker, [sed] the empty ones. *)
Definition installed_crontab (current : list string) : list string :=
  filter (λ line, line ≠ "") (filter (λ line, contains marker line = false) current ++ [cron_line]).

Definition run_command (id : string) : string :=
  "test -x " +:+ quote runner +:+ " && " +:+ quote runner +:+ " " +:+ quote id.

Definition list_script : script :=
  [["set -eu"]] ++ runtime_preflight ++
  [[aws_env_prefix +:+ " aws s3 ls " +:+
      quote ("s3://" +:+ bk_bucket (cf_backup c) +:+ "/" +:+ object_prefix +:+ "/") +:+ " --recursive";
    "awk '{print $4}'"]].

(** ** Restoring: everything that is checked and saved, then the replacement *)

Definition service_checks (compose : string) : script :=
  (λ service, [compose +:+ " config --services"; "grep -Fx " +:+ quote service +:+ " >/dev/null"]) <$>
    ("postgres" :: writer_services).

Definition pre_restore (selected : string) : string :=
  quote (dt_remote_base target) +:+ "/shared/pre-restore-" +:+ selected +:+ ".sql.gz".

Definition bucket_path (selected : string) : string :=
  "s3://" +:+ bk_bucket (cf_backup c) +:+ "/" +:+ object_prefix +:+ "/" +:+ selected.
Definition media_url : string := quote ("s3://" +:+ so_media_bucket (cf_storage c) +:+ "/").

Definition restore_preparation (compose selected : string) : script :=
  let aws := aws_env_prefix in
  let recovery_root := "s3://" +:+ bk_bucket (cf_backup c) +:+ "/" +:+ object_prefix +:+ "/recovery" in
  [["set -eu"]; ["umask 077"]] ++ runtime_preflight ++
  [["command -v gzip >/dev/null"]; ["test -L " +:+ remote_path "/current"]; ["cd " +:+ remote_path "/current"]] ++
  service_checks compose ++
  [[aws +:+ " aws s3 cp " +:+ quote (bucket_path selected +:+ "/metadata.txt") +:+ " /tmp/djangoops-restore-meta >/dev/null"];
   ["grep -Fx " +:+ quote ("backup_id=" +:+ selected) +:+ " /tmp/djangoops-restore-meta >/dev/null"];
   ["grep -Fx " +:+ quote ("project=" +:+ cf_project c) +:+ " /tmp/djangoops-restore-meta >/dev/null"];
   ["grep -Fx 'database=database.sql.gz' /tmp/djangoops-restore-meta >/dev/null"];
   ["grep -Fx 'media=media/' /tmp/djangoops-restore-meta >/dev/null"];
   [aws +:+ " aws s3 cp " +:+ quote (bucket_path selected +:+ "/database.sql.gz") +:+ " /tmp/djangoops-restore-db.sql.gz >/dev/null"];
   ["gzip -t /tmp/djangoops-restore-db.sql.gz"];
   [aws +:+ " aws s3 cp " +:+ quote (bucket_path selected +:+ "/media.ready") +:+ " /tmp/djangoops-restore-media-ready >/dev/null"];
   ["recovery_id=pre-restore-$(date -u +%Y%m%dT%H%M%SZ)"];
   ["recovery=" +:+ quote recovery_root +:+ "/$recovery_id"];
   [compose +:+ " exec -T postgres sh -c " +:+ pg_dump; "gzip -c > " +:+ pre_restore selected];
   [aws +:+ " aws s3 cp " +:+ pre_restore selected +:+ " " +:+ dq "$recovery/database.sql.gz" +:+ " >/dev/null"];
   [aws +:+ " aws s3 sync " +:+ media_url +:+ " " +:+ dq "$recovery/media/" +:+ " >/dev/null"]].

Definition restore_replacement (compose selected : string) : script :=
  let writer_args := join " " (quote <$> writer_services) in
  [[compose +:+ " stop " +:+ writer_args];
   [compose +:+ " exec -T postgres sh -c 'dropdb -U " +:+ dq "$POSTGRES_USER" +:+ " --if-exists " +:+ dq "$POSTGRES_DB" +:+
    " && createdb -U " +:+ dq "$POSTGRES_USER" +:+ " " +:+ dq "$POSTGRES_DB" +:+ "'"];
   ["gzip -dc /tmp/djangoops-restore-db.sql.gz";
    compose +:+ " exec -T postgres sh -c 'psql -v ON_ERROR_STOP=1 -U " +:+ dq "$POSTGRES_USER" +:+ " " +:+
    dq "$POSTGRES_DB" +:+ "'"];
   [aws_env_prefix +:+ " aws s3 sync --delete " +:+ quote (bucket_path selected +:+ "/media/") +:+ " " +:+ media_url +:+ " >/dev/null"];
   [compose +:+ " up -d " +:+ writer_args];
   [compose +:+ " exec -T web python manage.py check --deploy"]].

Definition restore_script (compose selected : string) : script :=
  restore_preparation compose selected ++ restore_replacement compose selected.
End commands.

(** * The operations *)

(** [subprocess.run] with the output captured. *)
Inductive capture := CaptureNotStarted | Captured (code : Z) (stdout : string).

Section operations.
Context (remote : list string → capture) (c : DjangoOpsConfig) (target : DeploymentTarget).

(** The argument vectors handed to [subprocess.run], and the outcome. *)
Abbreviation calls := (list (list string)).

Definition run_ssh_capture (command : string) : calls * result exn string :=
  let argv := ssh_argv target command in
  ([argv],
   match remote argv with
   | CaptureNotStarted => Err (RuntimeError "unable to execute the system OpenSSH client")
   | Captured 0 stdout => Ok stdout
   | Captured _ _ => Err (RuntimeError "remote backup/restore command failed")
   end).

Definition install_backup_schedule (compose_file : string) : calls * result exn () :=
  match validate_compose_file compose_file with
  | Err e => ([], Err e)
  | Ok validated =>
      let '(made, r) := run_ssh_capture (schedule_command c target validated) in (made, r ≫= λ _, Ok ())
  end.

Definition run_backup (now : option utc_time) : calls * result exn string :=
  match backup_identifier now with
  | Err e => ([], Err e)
  | Ok id => let '(made, r) := run_ssh_capture (run_command target id) in (made, r ≫= λ _, Ok id)
  end.

(** The identifier a line of the listing ends with. *)
Definition listed_id (line : string) : option string :=
  match rev (split_on "/" (strip line)) with
  | last :: id :: _ =>
      if fullmatch BACKUP_ID_RE id && String.eqb last "metadata.txt" then Some id else None
  | _ => None
  end.

Definition list_backups : calls * result exn (list BackupRecord) :=
  let '(made, r) := run_ssh_capture (render (list_script c target)) in
  (made, r ≫= λ stdout, Ok (mkBackupRecord <$> rev (sorted_set (omap listed_id (splitlines stdout))))).

Definition restore_backup (id compose_file : string) : calls * result exn () :=
  match validate_backup_id id with
  | Err e => ([], Err e)
  | Ok selected =>
      match validate_compose_file compose_file with
      | Err e => ([], Err e)
      | Ok validated =>
          let '(made, r) :=
            run_ssh_capture (render (restore_script c target (backup_compose_prefix c validated) selected)) in
          (made,
           match r with
           | Ok _ => Ok ()
           | Err (RuntimeError _) => Err (RuntimeError
               "restore failed; application data may have been mutated. Pre-restore database/media artifacts were preserved for operator recovery and the selected source backup was not deleted")
           | Err e => Err e
           end)
      end
  end.
End operations.
