(* ===== verification/Stamps.v ===== *)
(** Time stamps: [strftime("%Y%m%dT%H%M%SZ")] of the identifiers of releases and
    backups.  For years of four digits they are of one width, match the
    identifiers' patterns and sort as the times do. *)

From S2P Require Import Prelude Text Regex Json ConfigProps Deploy Backup.

Open Scope string_scope.
Open Scope list_scope.
Open Scope Z_scope.

(** The fields of a time: all but the year have at most two digits. *)
Definition small (z : Z) : bool := (0 <=? z) && (z <? 100).
Definition time_ok (t : utc_time) : bool :=
  (1000 <=? tm_year t) && (tm_year t <=? 9999) && small (tm_month t) && small (tm_day t) &&
  small (tm_hour t) && small (tm_minute t) && small (tm_second t).

(** Times in chronological order: the order of these numbers. *)
Definition time_value (t : utc_time) : Z :=
  tm_second t + 100 * (tm_minute t + 100 * (tm_hour t + 100 * (tm_day t + 100 * (tm_month t + 100 * tm_year t)))).

Definition digit (z : Z) : ascii := char (48 + Z.to_nat z).

Lemma by_range (p : Z → bool) lo n :
  forallb (λ k, p (lo + Z.of_nat k)) (List.seq 0 n) = true → ∀ z, lo ≤ z < lo + Z.of_nat n → p z = true.
Proof.
  rewrite forallb_forall. intros H z Hz. replace z with (lo + Z.of_nat (Z.to_nat (z - lo))) by lia.
  apply H, in_seq. lia.
Qed.

Lemma two_digits_eq z : 0 ≤ z < 100 → two_digits z = String (digit (z / 10)) (String (digit (z mod 10)) "").
Proof.
  intros Hz. apply String.eqb_eq. revert z Hz.
  apply (by_range (λ z, String.eqb (two_digits z) (String (digit (z / 10)) (String (digit (z mod 10)) ""))) 0 100).
  by vm_compute.
Qed.

Lemma pretty_digit d : 0 ≤ d < 10 → pretty_N_char (Z.to_N d) = digit d.
Proof.
  intros Hd. apply Ascii.eqb_eq. revert d Hd.
  apply (by_range (λ d, Ascii.eqb (pretty_N_char (Z.to_N d)) (digit d)) 0 10). by vm_compute.
Qed.

(** One digit of a decimal notation. *)
Lemma pretty_step z s :
  0 < z → pretty_N_go (Z.to_N z) s = pretty_N_go (Z.to_N (z / 10)) (String (digit (z mod 10)) s).
Proof.
  intros Hz. pose proof (Z.mod_pos_bound z 10 eq_refl).
  rewrite pretty_N_go_step, Z2N.inj_div by lia. rewrite <- pretty_digit by lia.
  by rewrite Z2N.inj_mod by lia.
Qed.

Lemma year_eq y : 1000 ≤ y ≤ 9999 → str_of_Z y = two_digits (y / 100) +:+ two_digits (y mod 100).
Proof.
  intros Hy.
  assert (str_of_Z y = pretty_N_go (Z.to_N y) "") as ->.
  { destruct y as [|p|p]; [lia| |lia]. change (str_of_Z (Zpos p)) with (pretty (Npos p)). by apply pretty_pos. }
  assert (y / 10 / 10 = y / 100 ∧ y / 100 / 10 / 10 = 0 ∧ 0 < y / 10 ∧ 0 < y / 100 ∧ 0 < y / 100 / 10 ∧
    (y mod 100) mod 10 = y mod 10 ∧ (y mod 100) / 10 = (y / 10) mod 10 ∧
    0 ≤ y / 100 < 100 ∧ 0 ≤ y mod 100 < 100 ∧ (y / 100 / 10) mod 10 = y / 100 / 10)
    as (E1 & E2 & H0 & H1 & H2 & E3 & E4 & H3 & H4 & E5) by (Z.div_mod_to_equations; lia).
  rewrite !two_digits_eq by done. rewrite E3, E4.
  rewrite (pretty_step y), (pretty_step (y / 10)), E1, (pretty_step (y / 100)), (pretty_step (y / 100 / 10)), E2 by lia.
  by rewrite E5.
Qed.

Lemma digit_code d : 0 ≤ d < 10 → code (digit d) = (48 + Z.to_nat d)%nat.
Proof. intros Hd. unfold code, digit, char. rewrite nat_ascii_embedding; lia. Qed.

Lemma two_digits_leb x y s u : 0 ≤ x < 100 → 0 ≤ y < 100 →
  str_leb (two_digits x +:+ s) (two_digits y +:+ u) = if x =? y then str_leb s u else x <? y.
Proof.
  intros Hx Hy. rewrite !two_digits_eq, !str_app_cons, !str_app_nil_l by done. cbn [str_leb].
  pose proof (Z.div_mod x 10). pose proof (Z.div_mod y 10).
  pose proof (Z.mod_pos_bound x 10). pose proof (Z.mod_pos_bound y 10).
  assert (0 ≤ x / 10 < 10 ∧ 0 ≤ y / 10 < 10) as [Hx1 Hy1] by lia.
  rewrite !digit_code by lia.
  repeat match goal with
  | |- context [(?a =? ?b)%nat] => destruct (Nat.eqb_spec a b)
  | |- context [(?a =? ?b)] => destruct (Z.eqb_spec a b)
  | |- context [(?a <? ?b)%nat] => destruct (Nat.ltb_spec a b)
  | |- context [(?a <? ?b)] => destruct (Z.ltb_spec a b)
  end; done || lia.
Qed.

(** A stamp, field by field. *)
Lemma stamp_eq t : time_ok t = true →
  stamp t = two_digits (tm_year t / 100) +:+ two_digits (tm_year t mod 100) +:+ two_digits (tm_month t) +:+
            two_digits (tm_day t) +:+ "T" +:+ two_digits (tm_hour t) +:+ two_digits (tm_minute t) +:+
            two_digits (tm_second t) +:+ "Z".
Proof.
  unfold time_ok. rewrite !andb_true_iff, !Z.leb_le. intros [[[[[[H1 H2] _] _] _] _] _].
  unfold stamp. rewrite year_eq by lia. by rewrite <- str_app_assoc.
Qed.

Ltac time_fields H :=
  unfold time_ok, small in H; rewrite !andb_true_iff, !Z.leb_le, !Z.ltb_lt in H.

(** Stamps sort as the times do. *)
Lemma stamp_leb a b : time_ok a = true → time_ok b = true →
  str_leb (stamp a) (stamp b) = (time_value a <=? time_value b).
Proof.
  intros Ha Hb. rewrite !stamp_eq by done. time_fields Ha. time_fields Hb.
  pose proof (Z.div_mod (tm_year a) 100). pose proof (Z.div_mod (tm_year b) 100).
  pose proof (Z.mod_pos_bound (tm_year a) 100). pose proof (Z.mod_pos_bound (tm_year b) 100).
  assert (0 ≤ tm_year a / 100 < 100 ∧ 0 ≤ tm_year b / 100 < 100) as [Hya Hyb] by lia.
  unfold time_value.
  do 4 (rewrite two_digits_leb by lia).
  change (str_leb ("T" +:+ ?x) ("T" +:+ ?y)) with (str_leb x y).
  do 3 (rewrite two_digits_leb by lia). change (str_leb "Z" "Z") with true.
  repeat match goal with
  | |- context [(?x =? ?y)] => destruct (Z.eqb_spec x y)
  end; try (symmetry; first [apply Z.leb_le; lia | apply Z.leb_gt; lia]).
  all: match goal with
  | |- (?x <? ?y) = _ => destruct (Z.ltb_spec x y); symmetry; first [apply Z.leb_le; lia | apply Z.leb_gt; lia]
  end.
Qed.

(** ** The identifiers' patterns *)

Lemma digit_is_digit d : 0 ≤ d < 10 → is_digit (digit d) = true.
Proof.
  intros Hd. unfold is_digit, in_range. rewrite digit_code by done.
  apply andb_true_iff. rewrite !Nat.leb_le. lia.
Qed.

Lemma lang_app r1 r2 a b : lang r1 a → lang r2 b → lang (r1 ⋅ r2)%re (a ++ b).
Proof. intros Ha Hb. cbn. by exists a, b. Qed.

Lemma two_digits_text z : 0 ≤ z < 100 →
  length (chars (two_digits z)) = 2%nat ∧ forallb is_digit (chars (two_digits z)) = true.
Proof.
  intros Hz. rewrite two_digits_eq by done. split; [done|]. cbn [chars String.list_ascii_of_string forallb].
  pose proof (Z.mod_pos_bound z 10). pose proof (Z.div_mod z 10). rewrite !digit_is_digit by lia. done.
Qed.

Lemma lang_digits n s : forallb is_digit s = true → length s = n → lang (Between (Cls is_digit) n n) s.
Proof. intros Hs <-. unfold Between. apply lang_cls_rep. split_and!; [done|lia|lia]. Qed.

Lemma lang_chr c : lang (Chr c) [c].
Proof. exists c. by rewrite Ascii.eqb_refl. Qed.

Lemma chars_app a b : chars (a +:+ b) = (chars a ++ chars b)%list.
Proof. induction a as [|c a IH]; [done|]. rewrite str_app_cons. cbn. by rewrite IH. Qed.

(** Eight digits, [T], six digits, [Z]. *)
Definition STAMP_RE : re := (Between (Cls is_digit) 8 8 ⋅ Chr "T" ⋅ Between (Cls is_digit) 6 6 ⋅ Chr "Z")%re.

Lemma digits_app n m a b :
  length a = n ∧ forallb is_digit a = true → length b = m ∧ forallb is_digit b = true →
  length (a ++ b) = (n + m)%nat ∧ forallb is_digit (a ++ b) = true.
Proof. intros [<- Ha] [<- Hb]. by rewrite length_app, forallb_app, Ha, Hb. Qed.

Lemma stamp_parts t : time_ok t = true →
  ∃ date time, stamp t = date +:+ "T" +:+ time +:+ "Z" ∧
    (length (chars date) = 8%nat ∧ forallb is_digit (chars date) = true) ∧
    (length (chars time) = 6%nat ∧ forallb is_digit (chars time) = true).
Proof.
  intros Ht. rewrite stamp_eq by done. time_fields Ht.
  pose proof (Z.div_mod (tm_year t) 100). pose proof (Z.mod_pos_bound (tm_year t) 100).
  assert (0 ≤ tm_year t / 100 < 100) as Hy by lia.
  exists (two_digits (tm_year t / 100) +:+ two_digits (tm_year t mod 100) +:+ two_digits (tm_month t) +:+ two_digits (tm_day t)),
    (two_digits (tm_hour t) +:+ two_digits (tm_minute t) +:+ two_digits (tm_second t)).
  split; [by rewrite <- !str_app_assoc|]. rewrite !chars_app. split.
  - repeat apply (digits_app 2); apply two_digits_text; lia.
  - repeat apply (digits_app 2); apply two_digits_text; lia.
Qed.

Lemma stamp_lang t : time_ok t = true → lang STAMP_RE (chars (stamp t)).
Proof.
  intros (date & time & -> & [Hd1 Hd2] & [Ht1 Ht2])%stamp_parts. rewrite !chars_app.
  apply lang_app; [by apply lang_digits|]. apply lang_app; [by apply lang_chr|].
  apply lang_app; [by apply lang_digits|]. by apply lang_chr.
Qed.

Lemma lang_assoc r1 r2 r3 s : lang (r1 ⋅ r2 ⋅ r3)%re s ↔ lang ((r1 ⋅ r2) ⋅ r3)%re s.
Proof.
  cbn. split.
  - intros (a & ? & -> & Ha & b & d & -> & Hb & Hd). exists (a ++ b), d. rewrite app_assoc. eauto 10.
  - intros (? & d & -> & (a & b & -> & Ha & Hb) & Hd). exists a, (b ++ d). rewrite app_assoc. eauto 10.
Qed.

(** Identifiers of backups and releases are recognised by their validators. *)
Lemma backup_id_valid t : time_ok t = true → fullmatch BACKUP_ID_RE ("b" +:+ stamp t) = true.
Proof.
  intros Ht%stamp_lang. apply fullmatch_spec. unfold lang_str. rewrite chars_app.
  apply lang_app; [apply lang_chr|exact Ht].
Qed.

Lemma pretty_digits x s : forallb is_digit (chars s) = true → forallb is_digit (chars (pretty_N_go x s)) = true.
Proof.
  revert s. induction (N.lt_wf_0 x) as [x _ IH]; intros s Hs.
  assert (x = 0 ∨ 0 < x)%N as [->|Hx] by lia; [by rewrite pretty_N_go_0|].
  rewrite pretty_N_go_step by done. apply IH; [apply N.div_lt; lia|]. cbn [chars String.list_ascii_of_string forallb].
  destruct (digit_val_pretty (x mod 10)) as (_ & -> & _); [by apply N.mod_lt|]. done.
Qed.

Lemma release_id_valid t pid id :
  time_ok t = true → 0 < pid → release_id (Some t) pid = Ok id → fullmatch RELEASE_RE id = true.
Proof.
  intros (date & time & E & [Hd1 Hd2] & [Ht1 Ht2])%stamp_parts Hpid. cbn [release_id]. rewrite E.
  clear E. intros [= <-]. apply fullmatch_spec. unfold lang_str. rewrite <- !str_app_assoc, !chars_app.
  apply lang_app; [apply lang_chr|]. apply lang_app; [by apply lang_digits|].
  apply lang_app; [by apply lang_chr|]. apply lang_app; [by apply lang_digits|].
  rewrite app_assoc. apply lang_app.
  { cbn. exists ["Z"%char], ["-"%char]. split; [done|]. split; [by apply lang_chr|].
    exists ["-"%char], []. split; [done|]. split; [by apply lang_chr|done]. }
  destruct pid as [|p|p]; [lia| |lia]. change (str_of_Z (Z.pos p)) with (pretty (N.pos p)).
  rewrite pretty_pos by done. unfold Plus. apply lang_cls_rep.
  destruct (pretty_go_head (N.pos p) "" eq_refl) as (c & r & Ec & _).
  split_and!; [by apply pretty_digits|rewrite Ec; cbn; lia|done].
Qed.
