(* ===== verification/BackupProps.v ===== *)
(** Properties of [Backup]: the shell takes the commands apart as they were put
    together, a restore replaces nothing before everything is checked and saved,
    listings are newest first. *)

From Stdlib Require Import Sorted.
From stdpp Require Import sorting.
From S2P Require Import Prelude Text Regex Json Url Telemetry TelemetryProps Config ConfigProps Integrations Shell Script Deploy Health Compose Backup Stamps DeployProps.

Open Scope string_scope.
Open Scope list_scope.
Open Scope nat_scope.

(** * Reading the scripts *)

(** A text that begins with no blank. *)
Definition starts_dark (s : string) : Prop := ∃ c r, s = String c r ∧ c ≠ " "%char.

Lemma trim_ok s : starts_dark s → ends_dark s → trim s = s.
Proof. intros (c & r & -> & Hc) Hs. by apply trim_dark. Qed.

Lemma starts_dark_app a b : starts_dark a → starts_dark (a +:+ b).
Proof. intros (c & r & -> & Hc). by exists c, (r +:+ b). Qed.

Ltac scan_literal :=
  match goal with
  | |- context [scan ?m (String ?c ?s)] =>
      let r := eval vm_compute in (scan m (String c s)) in
      change (scan m (String c s)) with r
  end.

(** Scans a text piece by piece. *)
Ltac scan_pieces :=
  repeat (first [ reflexivity | progress cbn [mbind option_bind] | rewrite scan_app | rewrite scan_quote
                | match goal with H : scan Bare _ = Some Bare |- _ => rewrite H end | scan_literal ]).

Lemma scan_aws c : scan Bare (aws_env_prefix c) = Some Bare.
Proof. unfold aws_env_prefix. destruct (so_region _) as [r|]; scan_pieces. Qed.

Lemma starts_aws c : starts_dark (aws_env_prefix c).
Proof. eexists _, _. split; [reflexivity|done]. Qed.

Lemma starts_compose c file : starts_dark (backup_compose_prefix c file).
Proof. eexists _, _. split; [reflexivity|done]. Qed.

Lemma scan_compose c file : scan Bare (backup_compose_prefix c file) = Some Bare.
Proof. unfold backup_compose_prefix. scan_pieces. Qed.


(** One command: read piece by piece; its first and last characters are not blanks. *)
Ltac command :=
  unfold remote_path, media_url, pre_restore, pg_dump, bucket_path, object_prefix, dq;
  split;
  [ repeat (progress (rewrite ?scan_aws, ?scan_compose; scan_pieces))
  | apply trim_ok;
    [ try apply starts_dark_app; first [apply starts_aws | apply starts_compose | eexists _, _; split; [reflexivity|discriminate]]
    | repeat (first [ apply quote_dark | apply rstrip_dark | split; [discriminate|vm_compute; reflexivity] ]) ] ].

Definition script_ok (s : script) : Prop := Forall (λ p, p ≠ [] ∧ Forall command_ok p) s.

Ltac script_commands :=
  repeat (apply Forall_cons_2; [split; [discriminate|repeat (apply Forall_cons_2; [command|]); apply Forall_nil_2]|]);
  apply Forall_nil_2.

Section reading.
Context (c : DjangoOpsConfig) (target : DeploymentTarget) (file selected : string).
Context (Hid : fullmatch BACKUP_ID_RE selected = true).

Lemma preflight_ok : script_ok (runtime_preflight c target).
Proof using. unfold runtime_preflight. script_commands. Qed.

Lemma list_script_ok : script_ok (list_script c target).
Proof using.
  unfold list_script. apply Forall_app; split; [script_commands|].
  apply Forall_app; split; [apply preflight_ok|]. script_commands.
Qed.



End reading.

(** * Restoring *)

(** What has to be done before data is replaced, in order, written out command by
    command.  The last entry of [checks_and_copies] but one stores what [dump]
    printed. *)
Section specification.
Context (c : DjangoOpsConfig) (target : DeploymentTarget) (compose id : string).




End specification.



(** ** The preparation makes every check and copy, and destroys nothing *)





Section preparation.
Context (c : DjangoOpsConfig) (target : DeploymentTarget) (file id : string).





End preparation.




(** * Listing *)

Definition str_le (a b : string) : Prop := str_leb a b = true.

Lemma insert_by_sorted x l : StronglySorted str_le l → StronglySorted str_le (insert_by str_leb x l).
Proof.
  induction 1 as [|y l Hl IH Hy]; cbn; [repeat constructor|]. destruct (str_leb x y) eqn:E.
  - constructor; [by constructor|]. constructor; [done|]. eapply Forall_impl; [exact Hy|].
    intros z Hz. by eapply str_leb_trans.
  - constructor; [done|]. apply Forall_forall. intros z Hz.
    rewrite insert_by_perm in Hz. apply elem_of_cons in Hz as [->|Hz]; [by apply str_leb_total|].
    rewrite Forall_forall in Hy. by apply Hy.
Qed.

Lemma sorted_set_sorted l : StronglySorted str_le (sorted_set l).
Proof. unfold sorted_set. induction (remove_dups l) as [|x r IH]; [constructor|]. by apply insert_by_sorted. Qed.

Lemma sorted_set_elem l x : x ∈ sorted_set l ↔ x ∈ l.
Proof. unfold sorted_set. by rewrite sort_by_elem, elem_of_remove_dups. Qed.

Lemma sorted_set_nodup l : NoDup (sorted_set l).
Proof. unfold sorted_set. rewrite sort_by_perm. apply NoDup_remove_dups. Qed.

Lemma listed_id_valid line id : listed_id line = Some id → fullmatch BACKUP_ID_RE id = true.
Proof.
  unfold listed_id. destruct (rev _) as [|last [|id' l]]; try done.
  destruct (fullmatch BACKUP_ID_RE id') eqn:E; cbn; [|done]. destruct (String.eqb _ _); [|done]. by intros [= <-].
Qed.

Lemma StronglySorted_rev {A} (R : A → A → Prop) l :
  StronglySorted R l → StronglySorted (flip R) (rev l).
Proof.
  assert (Hsnoc : ∀ l x, StronglySorted (flip R) l → Forall (λ y, R x y) l → StronglySorted (flip R) (l ++ [x])).
  { induction 1 as [|y l' Hl IH Hy]; cbn; intros Hx; [repeat constructor|]. inversion Hx; subst.
    constructor; [by apply IH|]. apply Forall_app. split; [done|by repeat constructor]. }
  induction 1 as [|x l' Hl IH Hx]; cbn; [constructor|]. apply Hsnoc; [done|].
  apply Forall_forall. intros y Hy%list_elem_of_In%in_rev. rewrite Forall_forall in Hx.
  by apply Hx, list_elem_of_In.
Qed.

Lemma StronglySorted_strict (R : string → string → Prop) l :
  StronglySorted R l → NoDup l → StronglySorted (λ a b, R a b ∧ a ≠ b) l.
Proof.
  induction 1 as [|x l Hl IH Hx]; intros Hn; [constructor|]. apply NoDup_cons in Hn as [Hnx Hn].
  constructor; [by apply IH|]. rewrite Forall_forall in Hx |- *. intros y Hy. split; [by apply Hx|].
  by intros ->.
Qed.

(** [a] comes before [b] in a listing. *)
Definition newer (a b : string) : Prop := str_leb b a = true ∧ a ≠ b.

Lemma newer_stamp t1 t2 : time_ok t1 = true → time_ok t2 = true →
  newer ("b" +:+ stamp t1) ("b" +:+ stamp t2) → (time_value t2 < time_value t1)%Z.
Proof.
  intros H1 H2 [Hle Hne]. change (str_leb (stamp t2) (stamp t1) = true) in Hle.
  rewrite stamp_leb in Hle by done. apply Z.leb_le in Hle. apply Z.le_neq. split; [done|]. intros E.
  apply Hne. f_equal. apply str_leb_antisym; rewrite stamp_leb by done; apply Z.leb_le; lia.
Qed.

(** A listing is the identifiers the remote objects end with, each once, each
    accepted by [restore], newest first: identifiers of times with years of four
    digits come in reverse chronological order. *)
Theorem backups_are_listed_newest_first remote c target made records :
  list_backups remote c target = (made, Ok records) →
  ∃ command out, made = [ssh_argv target command] ∧ read_script command = Some (list_script c target) ∧
    remote (ssh_argv target command) = Captured 0 out ∧
    (∀ id, id ∈ backup_id <$> records ↔ ∃ line, line ∈ splitlines out ∧ listed_id line = Some id) ∧
    (∀ id, id ∈ backup_id <$> records → validate_backup_id id = Ok id) ∧
    StronglySorted newer (backup_id <$> records) ∧
    (∀ l1 t1 l2 t2 l3, backup_id <$> records = l1 ++ ("b" +:+ stamp t1) :: l2 ++ ("b" +:+ stamp t2) :: l3 →
       time_ok t1 = true → time_ok t2 = true → (time_value t2 < time_value t1)%Z).
Proof.
  unfold list_backups, run_ssh_capture. destruct (remote _) as [|[| |] out] eqn:Er; try done.
  cbn [mbind result_bind]. intros [= <- <-]. eexists _, out.
  rewrite <- list_fmap_compose. set (ids := rev _).
  replace (backup_id ∘ mkBackupRecord <$> ids) with ids
    by (symmetry; apply (list_fmap_id ids)).
  assert (Hel : ∀ id, id ∈ ids ↔ ∃ line, line ∈ splitlines out ∧ listed_id line = Some id).
  { intros id. unfold ids. rewrite list_elem_of_In, <- in_rev, <- list_elem_of_In, sorted_set_elem.
    by rewrite list_elem_of_omap. }
  assert (Hs : StronglySorted newer ids).
  { apply StronglySorted_strict; [apply StronglySorted_rev, sorted_set_sorted|].
    unfold ids. rewrite <- Permutation_rev. apply sorted_set_nodup. }
  split_and!; [done| |done|done| |done|].
  - apply statements_render; [done|apply list_script_ok].
  - intros id (line & _ & Hid%listed_id_valid)%Hel. unfold validate_backup_id. by rewrite Hid.
  - intros l1 t1 l2 t2 l3 E H1 H2. rewrite E in Hs. apply StronglySorted_app_1_r in Hs.
    apply StronglySorted_cons in Hs as [Hf _]. rewrite Forall_forall in Hf.
    apply newer_stamp; [done..|]. apply Hf. set_solver.
Qed.

(** * The crontab *)

Lemma contains_suffix p a : contains p (a +:+ p) = true.
Proof.
  induction a as [|x a IH].
  - rewrite str_app_nil_l. destruct p as [|y p]; [done|]. cbn [contains].
    replace (startswith (String y p) (String y p)) with true; [done|].
    symmetry. apply startswith_spec. exists "". by rewrite str_app_nil_r.
  - rewrite str_app_cons. cbn [contains]. rewrite IH. by rewrite orb_true_r.
Qed.

Lemma cron_line_marked c target : contains (marker c) (cron_line c target) = true ∧ cron_line c target ≠ "".
Proof.
  unfold cron_line. split.
  - rewrite (str_app_assoc (quote _)), (str_app_assoc " "), (str_app_assoc (bk_schedule _)). apply contains_suffix.
  - by destruct (bk_schedule _).
Qed.

(** Installing the schedule keeps every line that does not hold the project's
    marker, leaves one that does, its own, and doing it twice is doing it once. *)
Lemma schedule_installed_once c target current :
  let unmarked := filter (λ line, line ≠ "") (filter (λ line, contains (marker c) line = false) current) in
  installed_crontab c target current = unmarked ++ [cron_line c target] ∧
  installed_crontab c target (installed_crontab c target current) = installed_crontab c target current.
Proof.
  destruct (cron_line_marked c target) as [Hm Hne]. intros unmarked.
  assert (H : ∀ current, installed_crontab c target current =
    filter (λ line, line ≠ "") (filter (λ line, contains (marker c) line = false) current) ++ [cron_line c target]).
  { intros cur. unfold installed_crontab. rewrite filter_app. f_equal.
    rewrite filter_cons_True by done. done. }
  split; [apply H|]. rewrite (H (installed_crontab _ _ _)), (H current). f_equal.
  rewrite !filter_app, (filter_cons_False _ (cron_line c target)) by congruence.
  rewrite filter_nil, app_nil_r. fold unmarked.
  rewrite (filter_all (λ line, contains (marker c) line = false) unmarked).
  - apply filter_all. apply Forall_forall. by intros x [? _]%list_elem_of_filter.
  - apply Forall_forall. by intros x [_ [? _]%list_elem_of_filter]%list_elem_of_filter.
Qed.

(** * Concrete runs *)

Definition backup_target : DeploymentTarget := mkDeployTarget "app.example.com" "deploy" 22 "/srv/my shop" None.

(** The marker of one project is a prefix of another's: installing the first
    schedule removes the second. *)
Definition shop2_config : DjangoOpsConfig :=
  mkConfig 3 "shop2" "config.settings" (cf_services demo_config) (cf_tls demo_config) (cf_storage demo_config)
    (cf_backup demo_config).

Lemma schedule_of_another_project_is_removed :
  let installed := installed_crontab shop2_config backup_target [] in
  installed_crontab demo_config backup_target installed = [cron_line demo_config backup_target].
Proof. by vm_compute. Qed.

(** The status of a pipeline is that of [gzip]: when [pg_dump] fails the restore
    goes on, with an empty copy of the database it is about to drop. *)
Definition dump_fails (log : list string) (command : string) : bool := negb (contains "pg_dump" command).

Lemma failed_dump_is_not_noticed :
  let s := restore_script demo_config backup_target (backup_compose_prefix demo_config "docker-compose.yml")
             "b20260309T070500Z" in
  run_script dump_fails false [] s = (concat s, true).
Proof. by vm_compute. Qed.

(** A media file whose path looks like a backup's is listed as one. *)
Lemma media_file_is_listed :
  listed_id "djangoops-backups/shop/b20260101T000000Z/media/b20990101T000000Z/metadata.txt" =
    Some "b20990101T000000Z".
Proof. by vm_compute. Qed.

Definition demo_listing (argv : list string) : capture :=
  Captured 0 (join newline ["djangoops-backups/shop/b20251231T235959Z/metadata.txt";
    "djangoops-backups/shop/b20260101T000000Z/database.sql.gz";
    "djangoops-backups/shop/b20260101T000000Z/metadata.txt"]).

Lemma backups_are_listed_newest_first_witness :
  (list_backups demo_listing demo_config backup_target).2 =
    Ok [mkBackupRecord "b20260101T000000Z"; mkBackupRecord "b20251231T235959Z"] ∧
  StronglySorted newer ["b20260101T000000Z"; "b20251231T235959Z"].
Proof.
  assert (H : list_backups demo_listing demo_config backup_target =
    ((list_backups demo_listing demo_config backup_target).1,
     Ok [mkBackupRecord "b20260101T000000Z"; mkBackupRecord "b20251231T235959Z"])) by by vm_compute.
  split; [by rewrite H|].
  destruct (backups_are_listed_newest_first _ _ _ _ _ H) as (? & ? & _ & _ & _ & _ & _ & Hs & _). exact Hs.
Defined.


