(* ===== verification/Schema.v ===== *)
(** The GraphQL schema and the HTML views: [controlplane/graphql/schema.py] and
    [controlplane/views.py].

    Projects, memberships and agents are not changed by requests: they are two
    constant lists.  Requests are threads over the three tables of rows; the
    object types are tables of fields with the declared type and the resolver. *)

From stdpp Require Import sorting.
From S2P Require Import Prelude Text Url Json Builtins Dict Gateway Store Models Services Telemetry Kubernetes Observability.

Open Scope string_scope.
Open Scope list_scope.
Open Scope nat_scope.

(** * Types *)

(** The types the schema declares; an object type lists its fields. *)
Inductive gtype :=
| GString | GID | GInt | GBoolean
| GEnum (values : list (string * string))
| GObject (fields : list (string * gtype))
| GList (t : gtype)
| GNonNull (t : gtype).

(** [{name.upper(): GraphQLEnumValue(name) for name, _ in Status.choices}] *)
Definition enum_of (names : list string) : gtype := GEnum ((λ name, (upper name, name)) <$> names).

Definition DiagnosticStatus : gtype := enum_of operation_statuses.
Definition DiagnosticKind : gtype := GEnum [("DJANGO_HEALTH", "django_health")].
Definition KubernetesReleaseStatus : gtype := enum_of release_statuses.
Definition MigrationCompatibility : gtype := GEnum [("SAFE", "safe"); ("UNKNOWN", "unknown")].

Definition DiagnosticCheckType : gtype :=
  GObject [("name", GNonNull GString); ("status", GNonNull GString); ("detail", GNonNull GString)].

(** A field of an object type: its name, its declared type, and what its resolver
    answers for a row. *)
Definition field (Row : Type) : Type := string * gtype * (Row → json).

(** [value or None]. *)
Definition or_none (value : string) : json := if String.eqb value "" then JNull else JStr value.
Definition int_or_none (value : option Z) : json := match value with Some z => JInt z | None => JNull end.

Definition ProjectType : list (field Project) :=
  [("id", GNonNull GID, λ p, JStr (str_of_Z (Z.of_nat (project_id p))));
   ("slug", GNonNull GString, λ p, JStr (slug p));
   ("name", GNonNull GString, λ p, JStr (project_name p))].

Definition _agent_state_field {A} (be : OperationsBackend) (agent : AgentRegistration)
    (key : AgentState → A) : A := key (agent_state be agent).

Definition AgentType (be : OperationsBackend) : list (field AgentRegistration) :=
  [("id", GNonNull GID, λ a, JStr (str_of_Z (Z.of_nat (registration_id a))));
   ("agentId", GNonNull GString, λ a, JStr (agent_id a));
   ("capabilities", GNonNull (GList (GNonNull GString)),
     λ a, JArr (JStr <$> _agent_state_field be a st_capabilities));
   ("connected", GNonNull GBoolean, λ a, JBool (_agent_state_field be a st_connected));
   ("heartbeatAgeSeconds", GInt, λ a, int_or_none (_agent_state_field be a st_heartbeat_age));
   ("protocolMajor", GInt, λ a, int_or_none (_agent_state_field be a st_protocol_major));
   ("protocolMinor", GInt, λ a, int_or_none (_agent_state_field be a st_protocol_minor))].

(** [result_summary], as the JSON object the column holds. *)
Definition check_json (c : check_row) : json :=
  JObj [("name", JStr (ck_name c)); ("status", JStr (ck_status c)); ("detail", JStr (ck_detail c))].
Definition summary_json (s : operation_summary) : list (string * json) :=
  match s with
  | NoSummary => []
  | ProgressSummary phase message =>
      [("progress", JObj [("phase", JStr phase); ("message", JStr message)])]
  | ChecksSummary checks => [("checks", JArr (check_json <$> checks))]
  end.

Definition _checks (op : DiagnosticOperation) : json :=
  match default (JArr []) (dict_get (summary_json (op_result_summary op)) "checks") with
  | JArr checks => JArr checks
  | _ => JArr []
  end.

Section types.
Context (isoformat : Z → string).

Definition OperationType : list (field DiagnosticOperation) :=
  [("id", GNonNull GID, λ op, JStr (op_public_id op));
   ("diagnostic", GNonNull DiagnosticKind, λ op, JStr (op_diagnostic op));
   ("status", GNonNull DiagnosticStatus, λ op, JStr (op_status op));
   ("errorCode", GString, λ op, or_none (op_error_code op));
   ("checks", GNonNull (GList (GNonNull DiagnosticCheckType)), _checks);
   ("createdAt", GNonNull GString, λ op, JStr (isoformat (op_created_at op)))].

Definition KubernetesTargetType : list (field KubernetesTarget) :=
  [("id", GNonNull GID, λ t, JStr (kt_public_id t));
   ("name", GNonNull GString, λ t, JStr (kt_name t));
   ("apiServer", GNonNull GString, λ t, JStr (kt_api_server t));
   ("namespace", GNonNull GString, λ t, JStr (kt_namespace t));
   ("releaseName", GNonNull GString, λ t, JStr (kt_release_name t));
   ("ingressClass", GString, λ t, or_none (kt_ingress_class t));
   ("tlsSecretName", GString, λ t, or_none (kt_tls_secret_name t));
   ("validatedAt", GString,
     λ t, match kt_validated_at t with Some at_ => JStr (isoformat at_) | None => JNull end)].

Definition KubernetesReleaseType : list (field KubernetesRelease) :=
  [("id", GNonNull GID, λ r, JStr (rl_public_id r));
   ("status", GNonNull KubernetesReleaseStatus, λ r, JStr (rl_status r));
   ("image", GNonNull GString, λ r, JStr (rl_image r));
   ("chartVersion", GNonNull GString, λ r, JStr (rl_chart_version r));
   ("valuesDigest", GNonNull GString, λ r, JStr (rl_values_digest r));
   ("helmRevision", GInt, λ r, int_or_none (rl_helm_revision r));
   ("previousHelmRevision", GInt, λ r, int_or_none (rl_previous_helm_revision r));
   ("rollbackStatus", GString, λ r, or_none (rl_rollback_status r));
   ("errorCode", GString, λ r, or_none (rl_error_code r));
   ("createdAt", GNonNull GString, λ r, JStr (isoformat (rl_created_at r)))].
End types.

(** ** Conforming values

    What GraphQL accepts of a resolver: nothing null at a non-null type, integers
    of 32 bits, declared enum values, and objects whose entries conform. *)

Fixpoint conforms (t : gtype) (v : json) : bool :=
  match t with
  | GNonNull t => match v with JNull => false | _ => conforms t v end
  | _ =>
      match v with
      | JNull => true
      | _ =>
          match t, v with
          | GString, JStr _ | GID, JStr _ | GBoolean, JBool _ => true
          | GInt, JInt z => ((- 2 ^ 31 <=? z) && (z <? 2 ^ 31))%Z
          | GEnum values, JStr s => str_in s values.*2
          | GObject fields, JObj entries =>
              forallb (λ f, conforms f.2 (default JNull (dict_get entries f.1))) fields
          | GList t, JArr l => forallb (conforms t) l
          | _, _ => false
          end
      end
  end.

Definition row_conforms {Row} (fields : list (field Row)) (r : Row) : bool :=
  forallb (λ '(_, t, resolve), conforms t (resolve r)) fields.

(** * Threads over one part of the database *)

Fixpoint on_operations {TO TC A} (th : thread TO A) : thread (TO * TC) A :=
  match th with
  | Return a => Return a
  | Stmt w k => Stmt (λ d, (w d.1, d.2)) (λ d, on_operations (k d.1))
  end.

Fixpoint on_cluster {TO TC A} (th : thread TC A) : thread (TO * TC) A :=
  match th with
  | Return a => Return a
  | Stmt w k => Stmt (λ d, (d.1, w d.2)) (λ d, on_cluster (k d.2))
  end.

(** [query.get(...)], from the rows that match. *)
Definition get_one {A} (model : string) (rows : list A) : result exn A :=
  match rows with
  | [x] => Ok x
  | [] => Err (OtherError (model +:+ ".DoesNotExist"))
  | _ => Err (OtherError (model +:+ ".MultipleObjectsReturned"))
  end.

(** * Resolvers *)

(** The payload of a mutation: the row or an [ApiError]. *)
Record api_error := mkApiError { ae_code : string; ae_message : string }.
Record payload (A : Type) := mkPayload { pl_row : option A; pl_error : option api_error }.
Arguments mkPayload {A} _ _.
Arguments pl_row {A} _.
Arguments pl_error {A} _.

(** The [try] of a mutation: [handler] is its [except] clauses. *)
Definition answer {A} (handler : exn → option api_error) (r : result exn A) : result exn (payload A) :=
  match r with
  | Ok row => Ok (mkPayload (Some row) None)
  | Err e =>
      match handler e with
      | Some error => Ok (mkPayload None (Some error))
      | None => Err e
      end
  end.

Definition not_found (message : string) (models : list string) (e : exn) : option api_error :=
  match e with
  | OtherError name =>
      if str_in name ((λ m, m +:+ ".DoesNotExist") <$> models)
      then Some (mkApiError "NOT_FOUND" message) else None
  | _ => None
  end.

Definition value_or_runtime_error (code : string) (e : exn) : option api_error :=
  match e with
  | ValueError message | RuntimeError message => Some (mkApiError code message)
  | _ => None
  end.

Definition or_else (h h' : exn → option api_error) (e : exn) : option api_error :=
  match h e with Some error => Some error | None => h' e end.

(** A string-keyed [ordering]. *)
Definition by_key {A} (key : A → string) (x y : A) : Prop := str_leb (key x) (key y) = true.
#[export] Instance by_key_dec {A} (key : A → string) (x y : A) : Decision (by_key key x y).
Proof. unfold by_key. apply _. Defined.

(** [max(1, min(first, 50))]: [None] when the argument is left out, [Some None]
    when it is null. *)
Definition page (first : option (option Z)) : result exn nat :=
  match default (Some 20%Z) first with
  | Some first => Ok (Z.to_nat (Z.max 1 (Z.min first 50)))
  | None => Err (OtherError "TypeError")
  end.

Section resolvers.
Context {TO TT TR : Type} `{Table DiagnosticOperation TO} `{Table KubernetesTarget TT}
  `{Table KubernetesRelease TR}.
Context (projects : list Project) (agents : list AgentRegistration).

(** Django's conversion of a text to the value of a UUID column; a malformed one
    raises [ValidationError]. *)
Context (uuid_of : string → option string).

Abbreviation database := (TO * (TT * TR))%type.

(** [project__members=user]. *)
Definition member_of (user project : nat) : bool :=
  existsb (λ p, (project_id p =? project) && bool_decide (user ∈ members p)) projects.

Definition public_key (id : string) : result exn string :=
  match uuid_of id with Some u => Ok u | None => Err (OtherError "ValidationError") end.

Definition own_project (user : nat) (project : Z) : result exn Project :=
  get_one "Project"
    (filter (λ p, user ∈ members p ∧ Z.of_nat (project_id p) = project) projects).

Definition own_agent (project : Project) (agent : Z) : result exn AgentRegistration :=
  get_one "AgentRegistration"
    (filter (λ a, project_id (agent_project a) = project_id project ∧
                  Z.of_nat (registration_id a) = agent) agents).

Definition _project (user : nat) (project_id : string) : result exn Project :=
  pk ← int_of project_id; own_project user pk.

Definition _agent (user : nat) (projectId agentId : string) : result exn (Project * AgentRegistration) :=
  project ← _project user projectId;
  pk ← int_of agentId;
  agent ← own_agent project pk;
  Ok (project, agent).

Definition _operation (user : nat) (operation_id : string) (d : database) : result exn pk :=
  u ← public_key operation_id;
  get_one "DiagnosticOperation"
    (tb_select (λ _ op, member_of user (project_id (op_project op)) && String.eqb (op_public_id op) u)
       op_created_at d.1).

Definition _target (user : nat) (target_id : string) (d : database) : result exn pk :=
  u ← public_key target_id;
  get_one "KubernetesTarget"
    (tb_select (λ _ t, member_of user (project_id (kt_project t)) && String.eqb (kt_public_id t) u)
       (λ _, 0%Z) d.2.1).

Definition _release (user : nat) (release_id : string) (d : database) : result exn pk :=
  u ← public_key release_id;
  get_one "KubernetesRelease"
    (tb_select (λ _ r, member_of user (rl_project r) && String.eqb (rl_public_id r) u)
       rl_created_at d.2.2).

(** ** Queries *)

Definition _projects (user : nat) : list Project :=
  merge_sort (by_key slug) (filter (λ p, user ∈ members p) projects).

(** The rows of a project: [project.agents.all()], [project.operations.all()[:n]],
    [project.kubernetes_targets.all()] and [project.kubernetes_releases.all()[:n]]. *)
Definition project_agents (project : Project) : list AgentRegistration :=
  merge_sort (by_key agent_id) (filter (λ a, project_id (agent_project a) = project_id project) agents).
Definition project_operations (project : Project) (n : nat) (d : database) : list pk :=
  take n (tb_select (λ _ op, project_id (op_project op) =? project_id project) op_created_at d.1).
Definition project_targets (project : Project) (d : database) : list (pk * KubernetesTarget) :=
  merge_sort (by_key (λ kt : pk * KubernetesTarget, kt_name kt.2))
    (omap (λ k, (λ t, (k, t)) <$> tb_get d.2.1 k)
       (tb_select (λ _ t, project_id (kt_project t) =? project_id project) (λ _, 0%Z) d.2.1)).
Definition project_releases (project : Project) (n : nat) (d : database) : list pk :=
  take n (tb_select (λ _ r, rl_project r =? project_id project) rl_created_at d.2.2).

Definition _agents (user : nat) (projectId : string) : result exn (list AgentRegistration) :=
  project ← _project user projectId;
  Ok (project_agents project).

Definition _operations (user : nat) (projectId : string) (first : option (option Z)) (d : database)
    : result exn (list pk) :=
  project ← _project user projectId;
  n ← page first;
  Ok (project_operations project n d).

Definition _targets (user : nat) (projectId : string) (d : database)
    : result exn (list (pk * KubernetesTarget)) :=
  project ← _project user projectId;
  Ok (project_targets project d).

Definition _releases (user : nat) (projectId : string) (first : option (option Z)) (d : database)
    : result exn (list pk) :=
  project ← _project user projectId;
  n ← page first;
  Ok (project_releases project n d).

(** ** Mutations *)

Definition _start (be : OperationsBackend) (now : Z) (uuid : string) (user : nat)
    (projectId agentId diagnostic : string) : thread database (result exn (payload reply)) :=
  thread_map
    (answer (or_else (not_found "resource not found" ["Project"; "AgentRegistration"])
               (λ e, match e with
                     | ValueError _ => Some (mkApiError "INVALID_DIAGNOSTIC" "unsupported diagnostic")
                     | _ => None
                     end)))
    (match _agent user projectId agentId with
     | Err e => Return (Err e)
     | Ok (_, agent) => on_operations (Services.start be now uuid agent user diagnostic)
     end).

Definition _cancel (be : OperationsBackend) (user : nat) (operationId : string)
    : thread database (result exn (payload reply)) :=
  thread_map (answer (not_found "operation not found" ["DiagnosticOperation"]))
    (read_then (λ d : database,
       match _operation user operationId d with
       | Err e => Return (Err e)
       | Ok k => on_operations (cancel_operation be k)
       end)).

(** [ingressClass] and [tlsSecretName] may be left out or null. *)
Definition _register_target (be : KubernetesBackend) (checks : UrlChecks) (now : Z) (uuid : string)
    (user : nat) (projectId agentId name apiServer namespace releaseName credentialRef : string)
    (ingressClass tlsSecretName : option string) : thread database (result exn (payload pk)) :=
  thread_map
    (answer (or_else (not_found "resource not found" ["Project"; "AgentRegistration"])
               (value_or_runtime_error "TARGET_VALIDATION_FAILED")))
    (match _agent user projectId agentId with
     | Err e => Return (Err e)
     | Ok (project, agent) =>
         on_cluster (register_target be checks now uuid project agent name apiServer namespace releaseName
                       credentialRef (default "" ingressClass) (default "" tlsSecretName))
     end).

Definition _start_kubernetes_release (be : KubernetesBackend) (checks : UrlChecks) (now : Z)
    (uuid : string * string) (user : nat) (targetId image : string) (raw : values)
    : thread database (result exn (payload KubernetesRelease)) :=
  thread_map
    (answer (or_else (not_found "target not found" ["KubernetesTarget"])
               (value_or_runtime_error "RELEASE_FAILED")))
    (read_then (λ d : database,
       match
         k ← _target user targetId d;
         target ← (match tb_get d.2.1 k with
                   | Some target => Ok target
                   | None => Err (OtherError "KubernetesTarget.DoesNotExist")
                   end);
         vs ← release_values checks raw;
         Ok (k, target, vs)
       with
       | Err e => Return (Err e)
       | Ok (k, target, vs) =>
           on_cluster (start_release be checks now uuid k target user image vs "0.1.0")
       end)).

Definition _cancel_kubernetes_release (be : KubernetesBackend) (user : nat) (releaseId : string)
    : thread database (result exn (payload KubernetesRelease)) :=
  thread_map (answer (not_found "release not found" ["KubernetesRelease"]))
    (read_then (λ d : database,
       match _release user releaseId d with
       | Err e => Return (Err e)
       | Ok k => on_cluster (cancel_release be k)
       end)).

(** * Views *)

(** What a view answers; [Http404] is a value of its own, an exception that is not
    handled ends as a server error. *)
Inductive view_response :=
| NotFound
| Forbidden
| Text (body : string)
| Redirect (url : string)
| Json (body : json).

(** [reverse('dashboard')] with [?mode=live]. *)
Context (dashboard_url : string).
Definition live_dashboard : view_response := Redirect (dashboard_url +:+ "?mode=live").

Definition metrics (is_staff : bool) (be : OperationsBackend) (t : Telemetry) (d : database) : view_response :=
  if negb is_staff then Forbidden
  else Text (prometheus (prometheus_extra be agents d.1 d.2.2) t).

(** [get_object_or_404], and the [except] of the other views. *)
Definition or_404 {A} (r : result exn A) (k : A → thread database (result exn view_response))
    : thread database (result exn view_response) :=
  match r with
  | Ok a => k a
  | Err (OtherError name) =>
      if endswith ".DoesNotExist" name then Return (Ok NotFound) else Return (Err (OtherError name))
  | Err (ValueError _) => Return (Ok NotFound)
  | Err e => Return (Err e)
  end.

Definition redirect_to_dashboard {A} (r : result exn A) : result exn view_response :=
  _ ← r; Ok live_dashboard.

(** [start_diagnostic]; the URL pattern has made the two keys integers. *)
Definition start_diagnostic (be : OperationsBackend) (now : Z) (uuid : string) (user project_id agent_id : nat)
    : thread database (result exn view_response) :=
  or_404 (own_project user (Z.of_nat project_id)) (λ project,
    or_404 (own_agent project (Z.of_nat agent_id)) (λ agent,
      thread_map redirect_to_dashboard (on_operations (Services.start be now uuid agent user "django_health")))).

Definition cancel_diagnostic (be : OperationsBackend) (user : nat) (operation_id : string)
    : thread database (result exn view_response) :=
  read_then (λ d : database,
    or_404 (_operation user operation_id d) (λ k,
      thread_map redirect_to_dashboard (on_operations (cancel_operation be k)))).

Definition update_body (op : DiagnosticOperation) : json :=
  JObj [("id", JStr (op_public_id op)); ("status", JStr (op_status op));
        ("error_code", or_none (op_error_code op));
        ("result", JObj (summary_json (op_result_summary op)))].

Definition operation_update (user : nat) (operation_id : string)
    : thread database (result exn view_response) :=
  read_then (λ d : database,
    or_404 (_operation user operation_id d) (λ k,
      match tb_get d.1 k with
      | Some op => Return (Ok (Json (update_body op)))
      | None => Return (Ok NotFound)
      end)).
End resolvers.
