(* ===== verification/SchemaProps.v ===== *)
(** The properties of the GraphQL schema and the views
    ([controlplane/graphql/schema.py], [controlplane/views.py]): what is stored can
    be served, queries stay within the user's projects, and the form and the
    mutation that start a diagnosis do the same. *)

From stdpp Require Import sorting.
From S2P Require Import Prelude Text Dict Json Builtins Url Gateway Store Models Services ServicesProps Kubernetes Observability Schema.

Open Scope string_scope.
Open Scope list_scope.
Open Scope nat_scope.

(** * Lifted threads *)

Lemma run_on_operations {TO TC A} (th : thread TO A) (d : TO * TC) :
  run_thread (on_operations th) d = ((run_thread th d.1).1, d.2, (run_thread th d.1).2).
Proof. revert d. induction th as [a|w k IH]; intros [t c]; cbn; [done|]. by rewrite IH. Qed.

Lemma run_on_cluster {TO TC A} (th : thread TC A) (d : TO * TC) :
  run_thread (on_cluster th) d = (d.1, (run_thread th d.2).1, (run_thread th d.2).2).
Proof. revert d. induction th as [a|w k IH]; intros [t c]; cbn; [done|]. by rewrite IH. Qed.

Lemma maintains_on_operations {TO TC A} (P : TO → Prop) (Q : TC → Prop) (th : thread TO A) :
  maintains P th → maintains (λ d : TO * TC, P d.1 ∧ Q d.2) (on_operations th).
Proof. induction 1; cbn; constructor; intros [t c] []; cbn in *; auto. Qed.

Lemma maintains_on_cluster {TO TC A} (P : TO → Prop) (Q : TC → Prop) (th : thread TC A) :
  maintains Q th → maintains (λ d : TO * TC, P d.1 ∧ Q d.2) (on_cluster th).
Proof. induction 1; cbn; constructor; intros [t c] []; cbn in *; auto. Qed.

Section props.
Context {TO TT TR : Type} `{HO : Table DiagnosticOperation TO} `{HT : Table KubernetesTarget TT}
  `{HR : Table KubernetesRelease TR}.
Context `{!TableLaws DiagnosticOperation TO} `{!TableLaws KubernetesTarget TT} `{!TableLaws KubernetesRelease TR}.
Context (projects : list Project) (agents : list AgentRegistration) (uuid_of : string → option string).
Context (isoformat : Z → string) (dashboard_url : string).
Abbreviation database := (TO * (TT * TR))%type.
Implicit Types (d : database) (k : pk).

(** * Rows that can be served *)

Definition releases_declared (c : TT * TR) : Prop :=
  ∀ k r, tb_get c.2 k = Some r → rl_status r ∈ release_statuses.

(** ** Predicates of rows that the Kubernetes service keeps

    [Pt] of targets and [Pr] of releases, closed under what the service writes. *)

Section cluster.
Context (Pt : KubernetesTarget → Prop) (Pr : KubernetesRelease → Prop).

Definition cluster_wf (c : TT * TR) : Prop :=
  (∀ k t, tb_get c.1 k = Some t → Pt t) ∧ (∀ k r, tb_get c.2 k = Some r → Pr r).

Record release_closed (chart : string) : Prop := {
  rc_status status code r :
    (status, code) ∈ [("validating", ""); ("failed", "AGENT_UNAVAILABLE"); ("cancelled", "");
                      ("failed", "CANCEL_UNAVAILABLE")] →
    Pr r → Pr (set_release_status status code r);
  rc_result res r0 r :
    Pr r0 → Pr r →
    Pr (set_release_result res (rl_previous_helm_revision r0) r);
  rc_new now uuid user project tpk image clean snapshot compat previous :
    compatibility_of clean = Ok compat → (∀ r, previous = Some r → Pr r) →
    Pr (new_release now uuid user project (mkKey tpk image chart (values_digest clean)) snapshot compat previous)
}.

Record target_closed : Prop := {
  tc_new checks uuid project agent name api ns0 ns rel0 rel cred ing tls row :
    validate_name false ns0 = Ok ns → validate_name true rel0 = Ok rel →
    new_target checks uuid project agent name api ns rel cred ing tls = Ok row → Pt row;
  tc_validated now v t : Pt t → Pt (validated now v t)
}.

Lemma cluster_wf_update (p : pk → KubernetesRelease → bool) f c :
  (∀ r, Pr r → Pr (f r)) → cluster_wf c → cluster_wf (on_releases (tb_update p f) c).
Proof.
  intros Hf [Ht Hc]. split; [exact Ht|]. intros k r. cbn. rewrite tb_get_update.
  intros (r' & Hk & ->)%fmap_Some. apply Hc in Hk. destruct (p k r'); auto.
Qed.

Lemma cluster_wf_admit chart now uuid user tpk image clean snapshot compat c :
  release_closed chart → compatibility_of clean = Ok compat → cluster_wf c →
  cluster_wf (admit_release now uuid user (mkKey tpk image chart (values_digest clean)) snapshot compat c).1.
Proof.
  intros Hcl Hcompat [Ht Hc]. unfold admit_release. destruct (tb_get c.1 _) as [target|]; [|done].
  destruct (tb_select _ _ c.2) as [|k l].
  - set (previous := match tb_select _ _ _ with k :: _ => _ | [] => None end).
    assert (Hp : ∀ r, previous = Some r → Pr r).
    { unfold previous. intros r. destruct (tb_select _ _ _) as [|k l]; [done|]. apply Hc. }
    set (row := new_release _ _ _ _ _ _ _ _).
    destruct (tb_create row c.2) as [rs k'] eqn:Ec. split; [exact Ht|]. cbn. intros k r.
    pose proof (tb_get_create row c.2 k) as Hg. rewrite Ec in Hg. cbn in Hg. rewrite Hg.
    case_decide; [|apply Hc]. intros [= <-]. by apply (rc_new _ Hcl).
  - destruct (tb_get c.2 k) as [r|]; [|done]. destruct (rl_active r); [done|].
    apply cluster_wf_update; [|done]. intros r'. apply (rc_status _ Hcl), list_elem_of_here.
Qed.

Lemma cluster_refresh {A} k (c : KubernetesRelease → thread (TT * TR) (result exn A)) :
  (∀ r, Pr r → maintains cluster_wf (c r)) → maintains cluster_wf (refresh_release k c).
Proof.
  intros Hc. apply maintains_read. intros t [_ Ht].
  destruct (tb_get t.2 k) eqn:E; [|constructor]. by apply Hc, (Ht k).
Qed.

Lemma cluster_finish k :
  maintains (A := result exn KubernetesRelease) cluster_wf (refresh_release k (λ r, Return (Ok r))).
Proof. apply cluster_refresh. constructor. Qed.

Lemma start_release_cluster be checks now uuid tpk target user image vs chart :
  release_closed chart →
  maintains cluster_wf (start_release be checks now uuid tpk target user image vs chart).
Proof.
  intros Hcl. unfold start_release.
  destruct (checked_release _ _ _) as [[[clean image'] compat]|] eqn:Ev; [|constructor].
  assert (Hcompat : compatibility_of clean = Ok compat) by (unfold checked_release in Ev; binds Ev; by injection Ev as -> -> ->).
  constructor; [intros; by apply cluster_wf_admit|]. intros c Hc. unfold after_admission, release_tx.
  destruct (admit_release _ _ _ _ _ _ c) as [c' adm] eqn:Ea.
  assert (Hc' : cluster_wf c')
    by (by rewrite <- (eq_refl : (c', adm).1 = c'), <- Ea; apply cluster_wf_admit).
  destruct adm as [|k|k]; [constructor|destruct (tb_get c'.2 k); constructor|].
  destruct (tb_get c'.2 k) as [r|] eqn:Er; [|constructor]. unfold dispatch_release, record_outcome.
  destruct (kb_start be target _) as [res|[]] eqn:Es; try constructor; auto using cluster_finish.
  - intros t. apply cluster_wf_update. intros r'.
    apply (rc_result _ Hcl). by apply (proj2 Hc' k r).
  - intros t. apply cluster_wf_update. intros r'. apply (rc_status _ Hcl).
    apply list_elem_of_further, list_elem_of_here.
Qed.

Lemma cancel_release_cluster be k chart :
  release_closed chart → maintains cluster_wf (cancel_release be k).
Proof.
  intros Hcl. apply cluster_refresh. intros r Hr. destruct (str_in _ _); [constructor|].
  destruct (kb_cancel be _) as [accepted|]; [|constructor]. constructor; auto using cluster_finish.
  intros t. apply cluster_wf_update. intros r'. apply (rc_status _ Hcl). destruct accepted.
  - do 2 apply list_elem_of_further. apply list_elem_of_here.
  - do 3 apply list_elem_of_further. apply list_elem_of_here.
Qed.

Lemma register_target_cluster be checks now uuid project agent name api ns rel cred ing tls :
  target_closed →
  maintains cluster_wf (register_target be checks now uuid project agent name api ns rel cred ing tls).
Proof.
  intros Hcl. unfold register_target. destruct (negb _); [constructor|].
  destruct (_ ≫= _) as [[[api' ns'] rel']|] eqn:Ev; [|constructor]. binds Ev. injection Ev as -> -> ->.
  apply maintains_read. intros c Hc. destruct (identity_taken _ _ _ _ _); [constructor|].
  destruct (new_target _ _ _ _ _ _ _ _ _ _ _) as [row|] eqn:En; [|constructor].
  assert (Hrow : Pt row) by (eapply (tc_new Hcl); eauto). constructor.
  - intros c0 [Hc0 Hc1]. unfold insert_target. destruct (identity_taken _ _ _ _ _); [done|].
    destruct (tb_create row c0.1) as [t k] eqn:Ec. split; [|exact Hc1]. cbn. intros k' r.
    pose proof (tb_get_create row c0.1 k') as Hg. rewrite Ec in Hg. cbn in Hg. rewrite Hg.
    case_decide; [|apply Hc0]. by intros [= <-].
  - intros c0 _. destruct (insert_target row c0.1) as [[t k]|]; [|constructor].
    destruct (kb_validate be row) as [v|]; [|constructor].
    destruct (valid v); (constructor; [|intros; constructor]).
    + intros c1 [Hc0 Hc1]. split; [|exact Hc1]. cbn. intros k' r. rewrite tb_get_update.
      intros (r' & Hk & ->)%fmap_Some. apply Hc0 in Hk. destruct (_ =? _); [by apply (tc_validated Hcl)|done].
    + intros c1 Hc1. destruct (target_in_use k c1); [exact Hc1|]. destruct Hc1 as [Hc0 Hc1].
      split; [|exact Hc1]. cbn. intros k' r. rewrite tb_get_delete. case_decide; [done|apply Hc0].
Qed.
End cluster.

(** ** Releases have declared statuses *)

Lemma terminal_declared s : str_in s K8S_TERMINAL = true → s ∈ release_statuses.
Proof.
  intros H%str_in_spec. unfold K8S_TERMINAL in H. rewrite !elem_of_cons, elem_of_nil in H.
  apply (bool_decide_eq_true_1 _). by destruct H as [->|[->|[->|[->|[->|[]]]]]].
Qed.

(** The statuses the service itself sets. *)
Lemma written_status status code :
  (status, code) ∈ [("validating", ""); ("failed", "AGENT_UNAVAILABLE"); ("cancelled", "");
                    ("failed", "CANCEL_UNAVAILABLE")] →
  status ∈ release_statuses ∧ String.length code ≤ 48.
Proof.
  rewrite !elem_of_cons, elem_of_nil.
  intros [H|[H|[H|[H|[]]]]]; injection H as -> ->; (split; [by apply (bool_decide_eq_true_1 _)|cbn; lia]).
Qed.

Lemma result_status res previous r : rl_status (set_release_result res previous r) ∈ release_statuses.
Proof.
  cbn. destruct (str_in _ _) eqn:E; [by apply terminal_declared|]. by apply (bool_decide_eq_true_1 _).
Qed.

Lemma declared_closed chart : release_closed (λ r, rl_status r ∈ release_statuses) chart.
Proof.
  split.
  - by intros status code r [Hs _]%written_status _.
  - intros res r0 r _ _. apply result_status.
  - intros now uuid user project tpk image clean snapshot compat previous _ Hp.
    by apply (bool_decide_eq_true_1 _).
Qed.

Lemma cluster_releases c : cluster_wf (λ _, True) (λ r, rl_status r ∈ release_statuses) c ↔ releases_declared c.
Proof. split; [by intros []|]. by split. Qed.

(** ** Requests through the schema and the views *)

Definition well_stored d : Prop := table_wf d.1 ∧ releases_declared d.2.

(** Every mutation and view, and the background task of an operation. *)
Inductive web_request : thread database () → Prop :=
| wr_start be now uuid user projectId agentId diagnostic :
    web_request (forget (_start projects agents be now uuid user projectId agentId diagnostic))
| wr_cancel be user id : web_request (forget (_cancel projects uuid_of be user id))
| wr_register be checks now uuid user projectId agentId name api ns rel cred ing tls :
    web_request (forget (_register_target projects agents be checks now uuid user projectId agentId
                           name api ns rel cred ing tls))
| wr_release be checks now uuid user id image raw :
    web_request (forget (_start_kubernetes_release projects uuid_of be checks now uuid user id image raw))
| wr_cancel_release be user id :
    web_request (forget (_cancel_kubernetes_release projects uuid_of be user id))
| wr_start_view be now uuid user p a :
    web_request (forget (start_diagnostic projects agents dashboard_url be now uuid user p a))
| wr_cancel_view be user id :
    web_request (forget (cancel_diagnostic projects uuid_of dashboard_url be user id))
| wr_update user id : web_request (forget (operation_update projects uuid_of user id))
| wr_consume stream cr k : web_request (forget (on_operations (consume stream cr k))).

Lemma maintains_or_404 {A} (P : database → Prop) (r : result exn A) c :
  (∀ a, r = Ok a → maintains P (c a)) → maintains P (or_404 r c).
Proof. intros Hc. destruct r as [a|[]]; cbn; auto; try constructor. destruct (endswith _ _); constructor. Qed.

(** Predicates of the two parts of the database that the services keep are kept by
    every request. *)
Lemma web_request_maintains (P : TO → Prop) (Q : TT * TR → Prop) :
  (∀ be now uuid agent user diagnostic, maintains P (Services.start be now uuid agent user diagnostic)) →
  (∀ be k, maintains P (cancel_operation be k)) →
  (∀ stream cr k, maintains P (consume stream cr k)) →
  (∀ be checks now uuid project agent name api ns rel cred ing tls,
     maintains Q (register_target be checks now uuid project agent name api ns rel cred ing tls)) →
  (∀ be checks now uuid k target user image vs,
     maintains Q (start_release be checks now uuid k target user image vs "0.1.0")) →
  (∀ be k, maintains Q (cancel_release be k)) →
  ∀ th, web_request th → maintains (λ d : database, P d.1 ∧ Q d.2) th.
Proof.
  intros Hstart Hcancel Hconsume Hregister Hrelease Hend th [].
  all: try apply maintains_map.
  - apply maintains_map. destruct (_agent _ _ _ _ _) as [[]|]; [by apply maintains_on_operations|constructor].
  - apply maintains_map, maintains_read. intros d _.
    destruct (_operation _ _ _ _ _); [by apply maintains_on_operations|constructor].
  - apply maintains_map. destruct (_agent _ _ _ _ _) as [[]|]; [|constructor]. by apply maintains_on_cluster.
  - apply maintains_map, maintains_read. intros d _.
    destruct (_ ≫= _) as [[[k target] vs]|]; [|constructor]. by apply maintains_on_cluster, Hrelease.
  - apply maintains_map, maintains_read. intros d _.
    destruct (_release _ _ _ _ _); [|constructor]. by apply maintains_on_cluster.
  - apply maintains_or_404. intros p' _. apply maintains_or_404. intros a' _.
    by apply maintains_map, maintains_on_operations.
  - apply maintains_read. intros d _. apply maintains_or_404. intros k _.
    by apply maintains_map, maintains_on_operations.
  - apply maintains_read. intros d _. apply maintains_or_404. intros k _.
    destruct (tb_get d.1 k); constructor.
  - by apply maintains_on_operations.
Qed.

Lemma maintains_equiv {S A} (P Q : S → Prop) (th : thread S A) :
  (∀ s, P s ↔ Q s) → maintains P th → maintains Q th.
Proof. intros He. induction 1; constructor; intros s Hs%He; [apply He|]; auto. Qed.

Lemma web_request_well_stored th : web_request th → maintains well_stored th.
Proof.
  apply (web_request_maintains table_wf releases_declared); intros;
    try (apply guarded_maintains; first [apply start_wf|apply cancel_wf|apply consume_wf]);
    apply (maintains_equiv _ _ _ cluster_releases).
  - by apply register_target_cluster.
  - apply start_release_cluster, declared_closed.
  - eapply cancel_release_cluster, (declared_closed "").
Qed.

(** ** What a served row resolves to *)

Lemma or_none_conforms v : conforms GString (or_none v) = true.
Proof. unfold or_none. by destruct (String.eqb v ""). Qed.

(** The integers GraphQL can transport. *)
Definition graphql_int (z : option Z) : bool :=
  match z with Some z => (- 2 ^ 31 <=? z)%Z && (z <? 2 ^ 31)%Z | None => true end.

Lemma int_conforms z : conforms GInt (int_or_none z) = graphql_int z.
Proof.
  destruct z as [z|]; [|done]. cbn -[Z.pow]. apply eq_bool_prop_intro.
  rewrite !Is_true_true, !andb_true_iff. lia.
Qed.

Lemma enum_conforms names s : s ∈ names → conforms (GNonNull (enum_of names)) (JStr s) = true.
Proof.
  intros Hs. cbn -[str_in]. apply str_in_spec. rewrite <- list_fmap_compose.
  apply list_elem_of_fmap. by exists s.
Qed.

Lemma checks_conform op : conforms (GNonNull (GList (GNonNull DiagnosticCheckType))) (_checks op) = true.
Proof.
  unfold _checks. destruct (op_result_summary op) as [|phase message|checks]; [done..|].
  change (forallb (conforms (GNonNull DiagnosticCheckType)) (check_json <$> checks) = true).
  apply forallb_forall. intros v (c & -> & _)%list_elem_of_In%list_elem_of_fmap. reflexivity.
Qed.

Lemma operation_conforms op : operation_wf op → row_conforms (OperationType isoformat) op = true.
Proof.
  intros [Hd Hs _ _]. unfold row_conforms, OperationType. cbn -[conforms DiagnosticStatus DiagnosticCheckType].
  rewrite Hd. unfold DiagnosticStatus. rewrite (enum_conforms _ _ Hs), or_none_conforms, checks_conform. done.
Qed.

Lemma release_conforms r :
  rl_status r ∈ release_statuses →
  row_conforms (KubernetesReleaseType isoformat) r =
    graphql_int (rl_helm_revision r) && graphql_int (rl_previous_helm_revision r).
Proof.
  intros Hs. unfold row_conforms, KubernetesReleaseType. cbn -[conforms KubernetesReleaseStatus graphql_int].
  unfold KubernetesReleaseStatus.
  rewrite (enum_conforms _ _ Hs), !int_conforms, !or_none_conforms.
  by destruct (graphql_int (rl_helm_revision r)), (graphql_int (rl_previous_helm_revision r)).
Qed.

Lemma target_conforms t : row_conforms (KubernetesTargetType isoformat) t = true.
Proof.
  unfold row_conforms, KubernetesTargetType. cbn -[conforms]. rewrite !or_none_conforms.
  by destruct (kt_validated_at t).
Qed.

(** C30: however mutations, views and background tasks interleave, and whatever
    their backends answer, the rows they leave can be served: each resolver of the
    object type of an operation or a target answers a value of the declared type,
    so that no query over it fails; the resolvers of a release do exactly when both
    its revisions are integers of 32 signed bits. *)
Theorem stored_rows_can_be_served d ths sched d' ths' :
  Forall web_request ths → exec pool_step (d, ths) sched (d', ths') → well_stored d →
  (∀ k op, tb_get d'.1 k = Some op → row_conforms (OperationType isoformat) op = true) ∧
  (∀ k t, tb_get d'.2.1 k = Some t → row_conforms (KubernetesTargetType isoformat) t = true) ∧
  (∀ k r, tb_get d'.2.2 k = Some r →
     row_conforms (KubernetesReleaseType isoformat) r =
       graphql_int (rl_helm_revision r) && graphql_int (rl_previous_helm_revision r)).
Proof.
  intros Hths Hex Hd.
  destruct (pool_run_maintains well_stored _ _ _ Hex) as [Ho Hr]; [|exact Hd|].
  - eapply Forall_impl; [exact Hths|]. apply web_request_well_stored.
  - split_and!; eauto using operation_conforms, release_conforms, target_conforms.
Qed.
End props.

(** * Queries *)

Section queries.
Context {TO TT TR : Type} `{HO : Table DiagnosticOperation TO} `{HT : Table KubernetesTarget TT}
  `{HR : Table KubernetesRelease TR}.
Context `{!TableLaws DiagnosticOperation TO} `{!TableLaws KubernetesTarget TT} `{!TableLaws KubernetesRelease TR}.
Context (projects : list Project).
Abbreviation database := (TO * (TT * TR))%type.
Implicit Types (d : database) (k : pk).

Lemma get_one_ok {A} model (rows : list A) x : get_one model rows = Ok x → rows = [x].
Proof. destruct rows as [|y [|z rows]]; cbn; intros [= <-]. done. Qed.

Lemma own_project_ok user z p :
  own_project projects user z = Ok p → p ∈ projects ∧ user ∈ members p ∧ Z.of_nat (project_id p) = z.
Proof.
  intros H%get_one_ok.
  assert (Hin : p ∈ filter (λ p, user ∈ members p ∧ Z.of_nat (project_id p) = z) projects)
    by (rewrite H; apply list_elem_of_here).
  apply list_elem_of_filter in Hin. tauto.
Qed.

Lemma _project_ok user id p :
  _project projects user id = Ok p →
  p ∈ projects ∧ user ∈ members p ∧ int_of id = Ok (Z.of_nat (project_id p)).
Proof. unfold _project. intros H. binds H. by apply own_project_ok in H as (? & ? & ->). Qed.

Lemma page_bounds first n : page first = Ok n → 1 ≤ n ≤ 50.
Proof. unfold page. destruct (default _ _) as [z|]; intros [= <-]. lia. Qed.

(** The first rows of an ordered selection: as many as fit, none twice, all
    selected, and none left out that is newer. *)
Record newest {Row T} `{Table Row T} (p : Row → bool) (created : Row → Z) (n : nat) (t : T) (ks : list pk)
    : Prop := {
  nw_length : length ks ≤ n;
  nw_nodup : NoDup ks;
  nw_rows : ∀ k, k ∈ ks → ∃ r, tb_get t k = Some r ∧ p r = true;
  nw_missing : ∀ k r, tb_get t k = Some r → p r = true → k ∉ ks →
    length ks = n ∧ ∀ k' r', k' ∈ ks → tb_get t k' = Some r' → (created r ≤ created r')%Z
}.

Lemma sorted_app_before {A} (R : A → A → Prop) l1 l2 x y :
  StronglySorted R (l1 ++ l2) → x ∈ l1 → y ∈ l2 → R x y.
Proof.
  induction l1 as [|z l1 IH]; cbn; [by intros _ ?%elem_of_nil|].
  inversion 1 as [|? ? Hs Hall]; subst. intros [->|Hx]%elem_of_cons Hy; [|auto].
  rewrite Forall_forall in Hall. apply Hall, elem_of_app. auto.
Qed.

Lemma take_newest {Row T} `{TableLaws Row T} (p : Row → bool) created n (t : T) :
  newest p created n t (take n (tb_select (λ _ r, p r) created t)).
Proof.
  set (l := tb_select (λ _ r, p r) created t).
  assert (Hl : ∀ k, k ∈ l ↔ ∃ r, tb_get t k = Some r ∧ p r = true) by (intros k; apply tb_select_elem).
  pose proof (tb_select_sorted (λ _ r, p r) created t) as Hs. fold l in Hs.
  rewrite <- (take_drop n l) in Hs. split.
  - rewrite length_take. lia.
  - eapply sublist_NoDup; [apply (tb_select_nodup (λ _ r, p r) created t)|apply sublist_take].
  - intros k Hk. apply Hl. rewrite <- (take_drop n l). apply elem_of_app. auto.
  - intros k r Hk Hp Hn. assert (Hd : k ∈ drop n l).
    { assert (Hin : k ∈ l) by (apply Hl; eauto).
      rewrite <- (take_drop n l) in Hin. apply elem_of_app in Hin. tauto. }
    split.
    + rewrite length_take. apply list_elem_of_lookup_1 in Hd as [i Hi].
      rewrite lookup_drop in Hi. apply lookup_lt_Some in Hi. lia.
    + intros k' r' Hk' Hr'. pose proof (sorted_app_before _ _ _ _ _ Hs Hk' Hd) as Hle.
      unfold key_of in Hle. by rewrite Hk, Hr' in Hle.
Qed.

(** The pages of operations and releases a user may ask for: the project is one
    of the user's, and the page holds its newest rows and no others, at most fifty. *)
Theorem pages_hold_the_newest_rows user projectId first d :
  (∀ ks, _operations projects user projectId first d = Ok ks → ∃ p n,
     p ∈ projects ∧ user ∈ members p ∧ int_of projectId = Ok (Z.of_nat (project_id p)) ∧ 1 ≤ n ≤ 50 ∧
     newest (λ op, project_id (op_project op) =? project_id p) op_created_at n d.1 ks) ∧
  (∀ ks, _releases projects user projectId first d = Ok ks → ∃ p n,
     p ∈ projects ∧ user ∈ members p ∧ int_of projectId = Ok (Z.of_nat (project_id p)) ∧ 1 ≤ n ≤ 50 ∧
     newest (λ r, rl_project r =? project_id p) rl_created_at n d.2.2 ks).
Proof.
  unfold _operations, _releases. split; intros ks H; binds H; injection H as <-;
    match goal with Hp : _project _ _ _ = Ok ?p, Hn : page _ = Ok ?n |- _ =>
      exists p, n; apply _project_ok in Hp as (? & ? & ?); apply page_bounds in Hn end;
    split_and!; try done; try lia; apply take_newest.
Qed.
End queries.

(** * The form and the mutation *)

Section form.
Context {TO TT TR : Type} `{HO : Table DiagnosticOperation TO}.
Context (projects : list Project) (agents : list AgentRegistration) (dashboard_url : string).

Definition same_outcome (r : result exn (payload reply)) (v : result exn view_response) : Prop :=
  match r, v with
  | Ok (mkPayload (Some _) None), Ok (Redirect _) => True
  | Ok (mkPayload None (Some error)), Ok NotFound => ae_code error = "NOT_FOUND"
  | Err e, Err e' => e = e'
  | _, _ => False
  end.

(** An error of [start], with a backend that only raises [RuntimeError], is one
    neither the mutation nor the form handles. *)
Lemma start_error be now uuid agent user t e :
  (∀ op e, be_start be op = Err e → ∃ m, e = RuntimeError m) →
  (run_thread (Services.start be now uuid agent user "django_health") (t : TO)).2 = Err e →
  e = OtherError "save did not affect any rows".
Proof.
  intros Hbe. unfold Services.start. cbn -[trim_history tb_create].
  assert (Htrim : ∀ project (v : reply) t, (run_thread (trim_history project (λ _ : TO, Return (Ok v))) t).2
    = (Ok v : result exn reply)).
  { intros project v t'. unfold trim_history. cbn. by destruct (stale_history project t'). }
  assert (Hsave : ∀ k status code project (v : reply) t,
    (run_thread (Stmt (save_status now k status code) (λ t : TO,
       match tb_get t k with
       | Some _ => trim_history project (λ _ : TO, Return (Ok v))
       | None => Return (Err (OtherError "save did not affect any rows"))
       end)) t).2 = Err e → e = OtherError "save did not affect any rows").
  { intros k status code project v t'. cbn -[trim_history]. destruct (tb_get _ _); [|by intros [= <-]].
    by rewrite Htrim. }
  destruct (be_connected be _); cbn [negb]; [|apply Hsave].
  destruct (be_start be _) as [u|e'] eqn:E; [by rewrite Htrim|].
  apply Hbe in E as [m ->]. destruct (lower_contains _ _); apply Hsave.
Qed.

Lemma start_same_outcome r :
  (∀ e, r = Err e → e = OtherError "save did not affect any rows") →
  same_outcome
    (answer (or_else (not_found "resource not found" ["Project"; "AgentRegistration"])
       (λ e, match e with
             | ValueError _ => Some (mkApiError "INVALID_DIAGNOSTIC" "unsupported diagnostic")
             | _ => None
             end)) r) (redirect_to_dashboard dashboard_url r).
Proof. intros He. destruct r as [v|e]; [done|]. by rewrite (He e). Qed.

(** For the same project and agent the form and the mutation have the same
    effect on the database, and their answers agree: started, not found, or failed
    with one exception. *)
Theorem form_starts_like_mutation now now' registered cancelled uuid user projectId agentId (p a : nat)
    (d : TO * (TT * TR)) :
  int_of projectId = Ok (Z.of_nat p) → int_of agentId = Ok (Z.of_nat a) →
  let be := RuntimeGatewayBackend now' registered cancelled in
  let '(d1, r) := run_thread (_start projects agents be now uuid user projectId agentId "django_health") d in
  let '(d2, v) := run_thread (start_diagnostic projects agents dashboard_url be now uuid user p a) d in
  d1 = d2 ∧ same_outcome r v.
Proof.
  intros Hp Ha be. unfold _start, start_diagnostic. rewrite run_thread_map.
  unfold _agent, _project. rewrite Hp. cbn -[run_thread Services.start].
  destruct (own_project projects user (Z.of_nat p)) as [project|e] eqn:Ep.
  2: { unfold own_project, get_one in Ep. destruct (filter _ projects) as [|? []]; by simplify_eq. }
  cbn -[run_thread Services.start]. rewrite Ha. cbn -[run_thread Services.start].
  destruct (own_agent agents project (Z.of_nat a)) as [agent|e] eqn:Ea.
  2: { unfold own_agent, get_one in Ea. destruct (filter _ agents) as [|? []]; by simplify_eq. }
  cbn -[run_thread Services.start]. rewrite run_thread_map, run_on_operations. cbn [fst snd].
  split; [done|]. apply start_same_outcome. intros e. apply start_error.
  intros op e'. cbn. destruct registered; intros [= <-]. eauto.
Qed.
End form.

(** * Concrete runs *)

From S2P Require Import KubernetesProps.

Definition demo_uuid_of (s : string) : option string := if String.length s =? 36 then Some s else None.
Definition demo_public_id : string := "00000000-0000-4000-8000-000000000001".

Abbreviation demo_database := (gtable DiagnosticOperation * demo_db)%type.
Definition web_db : demo_database := (demo_table "running", k8s_db).
Definition web_target_db : demo_database :=
  (demo_table "running",
   (GTable 2 {[1 := mkTarget demo_public_id k8s_project k8s_agent "main" "https://k8s.example" "prod" "web"
                      "vault:prod/web" "" "" (Some 5%Z) []]}, GTable 1 ∅)).

(** Keys that are no numbers are reported as an unsupported diagnostic. *)
Lemma malformed_key_is_reported_as_diagnostic :
  (run_thread (_start [demo_project] [demo_agent] demo_backend 20 "op-2" 1 "shop" "3" "django_health") web_db).2
  = Ok (mkPayload None (Some (mkApiError "INVALID_DIAGNOSTIC" "unsupported diagnostic"))).
Proof. by vm_compute. Qed.

(** A malformed operation id is neither a 404 in the views nor [NOT_FOUND] in the
    mutation: the exception of the UUID column passes their [except] clauses. *)
Lemma malformed_uuid_escapes :
  (run_thread (operation_update [demo_project] demo_uuid_of 1 "latest") web_db).2
    = Err (OtherError "ValidationError") ∧
  (run_thread (_cancel [demo_project] demo_uuid_of demo_backend 1 "latest") web_db).2
    = Err (OtherError "ValidationError").
Proof. by split; vm_compute. Qed.

(** An explicit null for the optional [first] makes the query fail. *)
Lemma null_page_fails : _operations [demo_project] 1 "7" (Some None) web_db = Err (OtherError "TypeError").
Proof. by vm_compute. Qed.

Definition web_pool : list (thread demo_database ()) :=
  [forget (_start_kubernetes_release [demo_project] demo_uuid_of online k8s_checks 10 ("r-1", "aa") 1
             demo_public_id k8s_image []);
   forget (on_operations (consume (demo_stream "succeeded") None 1));
   forget (_start [demo_project] [demo_agent] demo_backend 20 "op-2" 1 "7" "3" "django_health")].

Definition web_schedule : list nat := [0; 1; 0; 2; 0; 1; 2; 1; 2; 0; 1].

(** A backend whose agent reports a revision that needs the last of its 32 bits. *)
Definition far_revision : KubernetesBackend :=
  mkK8sBackend (kb_validate online)
    (λ _ _, Ok (mkResult "succeeded" (Some (2 ^ 31)%Z) None "" "")) (kb_cancel online).

Definition far_pool : list (thread demo_database ()) :=
  forget (_start_kubernetes_release [demo_project] demo_uuid_of far_revision k8s_checks 10 ("r-1", "aa") 1
            demo_public_id k8s_image []) :: drop 1 web_pool.

Lemma stored_rows_can_be_served_witness :
  ∃ d' ths' r, exec pool_step (web_target_db, far_pool) web_schedule (d', ths') ∧
    (op_status <$> gt_rows d'.1 !! 1) = Some "succeeded" ∧
    (op_status <$> gt_rows d'.1 !! 2) = Some "overloaded" ∧
    (∀ k op, tb_get d'.1 k = Some op → row_conforms (OperationType str_of_Z) op = true) ∧
    gt_rows d'.2.2 !! 1 = Some r ∧ rl_status r = "succeeded" ∧ row_conforms (KubernetesReleaseType str_of_Z) r = false.
Proof.
  destruct (pool_exec_some web_schedule (web_target_db, far_pool)) as (d' & ths' & E & Hex); [by vm_compute|].
  assert (Hst : (λ s : demo_database * list (thread demo_database ()),
      ((λ r, (rl_status r, rl_helm_revision r)) <$> gt_rows s.1.2.2 !! 1,
       op_status <$> gt_rows s.1.1 !! 1, op_status <$> gt_rows s.1.1 !! 2))
      <$> pool_exec web_schedule (web_target_db, far_pool)
      = Some (Some ("succeeded", Some (2 ^ 31)%Z), Some "succeeded", Some "overloaded")) by by vm_compute.
  rewrite E in Hst. cbn -[Z.pow] in Hst. injection Hst as H1 H2 H3.
  destruct (gt_rows d'.2.2 !! 1) as [r|] eqn:Er; [|discriminate H1]. cbn -[Z.pow] in H1. injection H1 as Hs Hrev.
  destruct (stored_rows_can_be_served [demo_project] [demo_agent] demo_uuid_of str_of_Z "/"
    web_target_db far_pool web_schedule d' ths') as (Ho & _ & Hr).
  - unfold far_pool, web_pool. cbn [drop].
    constructor; [apply wr_release|constructor; [apply wr_consume|constructor; [apply wr_start|constructor]]].
  - exact Hex.
  - split.
    + intros k op Hk. cbn in Hk. apply lookup_singleton_Some in Hk as [<- <-].
      split; cbn; [done|by apply (bool_decide_eq_true_1 _)|lia|done].
    + intros k r' Hk. cbn in Hk. by rewrite lookup_empty in Hk.
  - exists d', ths', r. split_and!; [exact Hex|exact H2|exact H3|exact Ho|exact Er|exact Hs|].
    rewrite (Hr 1 r Er), Hrev. reflexivity.
Defined.

Lemma pages_hold_the_newest_rows_witness :
  _operations [demo_project] 1 " 7" (Some (Some 0%Z)) web_db = Ok [1] ∧
  newest (λ op, project_id (op_project op) =? 7) op_created_at 1 web_db.1 [1].
Proof.
  assert (H : _operations [demo_project] 1 " 7" (Some (Some 0%Z)) web_db = Ok [1]) by by vm_compute.
  split; [exact H|].
  destruct (pages_hold_the_newest_rows [demo_project] 1 " 7" (Some (Some 0%Z)) web_db) as [Ho _].
  destruct (Ho _ H) as (p & n & Hp & _ & _ & Hn & Hnew).
  apply list_elem_of_singleton in Hp as ->.
  destruct Hnew as [H1 H2 H3 H4]. split; [cbn; lia|exact H2|exact H3|].
  intros k op Hk Hop Hin. destruct (H4 k op Hk Hop Hin) as [_ Hle]. split; [reflexivity|exact Hle].
Defined.

Definition demo_gateway : option AgentGateway :=
  match gateway_init {["edge" := "token"]} 2 8 with Ok g => Some g | Err _ => None end.

Lemma form_starts_like_mutation_witness :
  let be := RuntimeGatewayBackend 5 demo_gateway (λ _, Ok true) in
  let '(d1, r) := run_thread (_start [demo_project] [demo_agent] be 20 "op-2" 1 "7" "3" "django_health") web_db in
  let '(d2, v) := run_thread (start_diagnostic [demo_project] [demo_agent] "/" be 20 "op-2" 1 7 3) web_db in
  d1 = d2 ∧ same_outcome r v.
Proof.
  apply (form_starts_like_mutation [demo_project] [demo_agent] "/" 20 5 demo_gateway (λ _, Ok true)
    "op-2" 1 "7" "3" 7 3 web_db); by vm_compute.
Defined.
