(* ===== verification/Migrations.v ===== *)
(** The database schema: the classes of [controlplane/models.py] and the two
    migrations of [controlplane/migrations], as data, and what applying a
    migration does to the project state.

    A field is declared by a class and keyword arguments; [field_of] is the value
    the keywords determine, whatever their order. *)

From S2P Require Import Prelude Text.

Open Scope string_scope.
Open Scope list_scope.
Open Scope nat_scope.

(** * Fields *)

Inductive field_class :=
| BigAutoField | SlugField | CharField | JSONField | DateTimeField | UUIDField
| PositiveIntegerField | ForeignKey | ManyToManyField.

#[export] Instance field_class_eq_dec : EqDecision field_class.
Proof. solve_decision. Defined.

Inductive default_value := DText (s : string) | DEmptyList | DEmptyDict | DUuid4.

#[export] Instance default_value_eq_dec : EqDecision default_value.
Proof. solve_decision. Defined.

Inductive deletion := CASCADE | PROTECT.

#[export] Instance deletion_eq_dec : EqDecision deletion.
Proof. solve_decision. Defined.

(** The keyword arguments the sources use. *)
Inductive keyword :=
| max_length_ (n : nat) | unique_ | null_ | blank_ | not_editable | primary_key_ | auto_created_
| not_serialized | verbose_name_ (s : string) | default_ (d : default_value)
| choices_ (l : list (string * string)) | auto_now_add_ | auto_now_
| to_ (label : string) | on_delete_ (d : deletion) | related_name_ (s : string).

Record field := mkField {
  f_class : field_class;
  f_max_length : option nat;
  f_unique : bool;
  f_null : bool;
  f_blank : bool;
  f_editable : bool;
  f_primary_key : bool;
  f_auto_created : bool;
  f_serialize : bool;
  f_verbose_name : option string;
  f_default : option default_value;
  f_choices : list (string * string);
  f_auto_now_add : bool;
  f_auto_now : bool;
  f_to : option string;
  f_on_delete : option deletion;
  f_related_name : option string
}.

#[export] Instance field_eq_dec : EqDecision field.
Proof. solve_decision. Defined.

Definition plain (c : field_class) : field :=
  mkField c None false false false true false false true None None [] false false None None None.

Definition set_keyword (f : field) (k : keyword) : field :=
  let '(mkField c ml u n b e pk ac se vn d ch aa an t od rn) := f in
  match k with
  | max_length_ x => mkField c (Some x) u n b e pk ac se vn d ch aa an t od rn
  | unique_ => mkField c ml true n b e pk ac se vn d ch aa an t od rn
  | null_ => mkField c ml u true b e pk ac se vn d ch aa an t od rn
  | blank_ => mkField c ml u n true e pk ac se vn d ch aa an t od rn
  | not_editable => mkField c ml u n b false pk ac se vn d ch aa an t od rn
  | primary_key_ => mkField c ml u n b e true ac se vn d ch aa an t od rn
  | auto_created_ => mkField c ml u n b e pk true se vn d ch aa an t od rn
  | not_serialized => mkField c ml u n b e pk ac false vn d ch aa an t od rn
  | verbose_name_ x => mkField c ml u n b e pk ac se (Some x) d ch aa an t od rn
  | default_ x => mkField c ml u n b e pk ac se vn (Some x) ch aa an t od rn
  | choices_ x => mkField c ml u n b e pk ac se vn d x aa an t od rn
  | auto_now_add_ => mkField c ml u n b e pk ac se vn d ch true an t od rn
  | auto_now_ => mkField c ml u n b e pk ac se vn d ch aa true t od rn
  | to_ x => mkField c ml u n b e pk ac se vn d ch aa an (Some x) od rn
  | on_delete_ x => mkField c ml u n b e pk ac se vn d ch aa an t (Some x) rn
  | related_name_ x => mkField c ml u n b e pk ac se vn d ch aa an t od (Some x)
  end.

Definition field_of (c : field_class) (kws : list keyword) : field := fold_left set_keyword kws (plain c).

(** * The project state *)

Record index := mkIndex { ix_name : string; ix_fields : list string }.
Record unique_constraint := mkUnique { uc_name : string; uc_fields : list string }.

Record model_state := mkModel {
  ms_fields : gmap string field;
  ms_ordering : list string;
  ms_indexes : list index;
  ms_constraints : list unique_constraint
}.

#[export] Instance index_eq_dec : EqDecision index.
Proof. solve_decision. Defined.
#[export] Instance unique_constraint_eq_dec : EqDecision unique_constraint.
Proof. solve_decision. Defined.
#[export] Instance model_state_eq_dec : EqDecision model_state.
Proof. solve_decision. Defined.

(** Models by the name they are referred to with, in lower case. *)
Definition project_state : Type := gmap string model_state.

(** * Model classes *)

Record model_class := mkClass {
  mc_name : string;
  mc_fields : list (string * field);
  mc_ordering : list string;
  mc_indexes : list index;
  mc_constraints : list unique_constraint
}.

(** The label of a class of this application. *)
Definition label (name : string) : string := "controlplane." +:+ lower name.

(** The primary key a class without one gets: [DEFAULT_AUTO_FIELD]. *)
Definition auto_id : string * field :=
  ("id", field_of BigAutoField [auto_created_; primary_key_; not_serialized; verbose_name_ "ID"]).

(** [settings.AUTH_USER_MODEL]: the settings leave Django's default. *)
Definition AUTH_USER_MODEL : string := "auth.User".

Definition Project_class : model_class :=
  mkClass "Project"
    [("slug", field_of SlugField [max_length_ 64; unique_]);
     ("name", field_of CharField [max_length_ 120]);
     ("release_root", field_of CharField [max_length_ 256; default_ (DText "current")]);
     ("members", field_of ManyToManyField [to_ AUTH_USER_MODEL; related_name_ "djangoops_projects"])]
    ["slug"] [] [].

Definition AgentRegistration_class : model_class :=
  mkClass "AgentRegistration"
    [("project", field_of ForeignKey [to_ (label "Project"); on_delete_ CASCADE; related_name_ "agents"]);
     ("agent_id", field_of CharField [max_length_ 64; unique_]);
     ("capabilities", field_of JSONField [default_ DEmptyList]);
     ("last_seen_at", field_of DateTimeField [null_; blank_])]
    ["agent_id"] [] [].

Definition DiagnosticOperation_Status : list (string * string) :=
  [("pending", "Pending"); ("running", "Running"); ("succeeded", "Succeeded"); ("failed", "Failed");
   ("cancelled", "Cancelled"); ("offline", "Offline"); ("overloaded", "Overloaded");
   ("disconnected", "Disconnected"); ("timeout", "Timeout")].

Definition DiagnosticOperation_class : model_class :=
  mkClass "DiagnosticOperation"
    [("public_id", field_of UUIDField [default_ DUuid4; unique_; not_editable]);
     ("project", field_of ForeignKey [to_ (label "Project"); on_delete_ CASCADE; related_name_ "operations"]);
     ("agent", field_of ForeignKey [to_ (label "AgentRegistration"); on_delete_ CASCADE; related_name_ "operations"]);
     ("requested_by", field_of ForeignKey
        [to_ AUTH_USER_MODEL; on_delete_ PROTECT; related_name_ "djangoops_operations"]);
     ("diagnostic", field_of CharField [max_length_ 32; default_ (DText "django_health")]);
     ("status", field_of CharField
        [max_length_ 16; choices_ DiagnosticOperation_Status; default_ (DText "pending")]);
     ("result_summary", field_of JSONField [default_ DEmptyDict]);
     ("error_code", field_of CharField [max_length_ 32; blank_]);
     ("created_at", field_of DateTimeField [auto_now_add_]);
     ("updated_at", field_of DateTimeField [auto_now_])]
    ["-created_at"] [mkIndex "cp_op_project_created" ["project"; "-created_at"]] [].

Definition KubernetesTarget_class : model_class :=
  mkClass "KubernetesTarget"
    [("public_id", field_of UUIDField [default_ DUuid4; unique_; not_editable]);
     ("project", field_of ForeignKey
        [to_ (label "Project"); on_delete_ CASCADE; related_name_ "kubernetes_targets"]);
     ("agent", field_of ForeignKey
        [to_ (label "AgentRegistration"); on_delete_ PROTECT; related_name_ "kubernetes_targets"]);
     ("name", field_of CharField [max_length_ 80]);
     ("api_server", field_of CharField [max_length_ 255]);
     ("namespace", field_of CharField [max_length_ 63]);
     ("release_name", field_of CharField [max_length_ 53]);
     ("credential_ref", field_of CharField [max_length_ 128]);
     ("ingress_class", field_of CharField [max_length_ 63; blank_]);
     ("tls_secret_name", field_of CharField [max_length_ 63; blank_]);
     ("validated_at", field_of DateTimeField [null_; blank_]);
     ("validation_summary", field_of JSONField [default_ DEmptyDict]);
     ("created_at", field_of DateTimeField [auto_now_add_]);
     ("updated_at", field_of DateTimeField [auto_now_])]
    ["name"] []
    [mkUnique "cp_k8s_cluster_release_unique" ["api_server"; "namespace"; "release_name"]].

Definition KubernetesRelease_Status : list (string * string) :=
  [("pending", "Pending"); ("validating", "Validating"); ("migrating", "Migrating");
   ("applying", "Applying"); ("verifying", "Verifying"); ("succeeded", "Succeeded");
   ("failed", "Failed"); ("cancelled", "Cancelled"); ("rolled_back", "Rolled back");
   ("rollback_blocked", "Rollback blocked")].

Definition KubernetesRelease_class : model_class :=
  mkClass "KubernetesRelease"
    [("public_id", field_of UUIDField [default_ DUuid4; unique_; not_editable]);
     ("project", field_of ForeignKey
        [to_ (label "Project"); on_delete_ CASCADE; related_name_ "kubernetes_releases"]);
     ("target", field_of ForeignKey
        [to_ (label "KubernetesTarget"); on_delete_ PROTECT; related_name_ "releases"]);
     ("requested_by", field_of ForeignKey
        [to_ AUTH_USER_MODEL; on_delete_ PROTECT; related_name_ "djangoops_kubernetes_releases"]);
     ("status", field_of CharField
        [max_length_ 24; choices_ KubernetesRelease_Status; default_ (DText "pending")]);
     ("operation_id", field_of CharField [max_length_ 64; unique_]);
     ("image", field_of CharField [max_length_ 255]);
     ("chart_version", field_of CharField [max_length_ 32]);
     ("values_digest", field_of CharField [max_length_ 64]);
     ("values_snapshot", field_of JSONField [default_ DEmptyDict]);
     ("helm_revision", field_of PositiveIntegerField [null_; blank_]);
     ("previous_helm_revision", field_of PositiveIntegerField [null_; blank_]);
     ("previous_image", field_of CharField [max_length_ 255; blank_]);
     ("previous_values_digest", field_of CharField [max_length_ 64; blank_]);
     ("migration_compatibility", field_of CharField [max_length_ 16; default_ (DText "unknown")]);
     ("rollback_status", field_of CharField [max_length_ 32; blank_]);
     ("error_code", field_of CharField [max_length_ 48; blank_]);
     ("result_summary", field_of JSONField [default_ DEmptyDict]);
     ("created_at", field_of DateTimeField [auto_now_add_]);
     ("updated_at", field_of DateTimeField [auto_now_])]
    ["-created_at"] [mkIndex "cp_k8s_project_created" ["project"; "-created_at"]] [].

Definition model_classes : list model_class :=
  [Project_class; AgentRegistration_class; DiagnosticOperation_class; KubernetesTarget_class;
   KubernetesRelease_class].

(** The state [makemigrations] compares the migrations with. *)
Definition state_of (c : model_class) : string * model_state :=
  (lower (mc_name c),
   mkModel (list_to_map (auto_id :: mc_fields c)) (mc_ordering c) (mc_indexes c) (mc_constraints c)).
Definition models_state : project_state := list_to_map (state_of <$> model_classes).

(** * Migrations *)

Inductive operation :=
| CreateModel (name : string) (fields : list (string * field)) (ordering : list string) (indexes : list index)
| AddConstraint (model_name : string) (constraint : unique_constraint)
| AddIndex (model_name : string) (index : index).

Inductive dependency := OnMigration (name : string) | Swappable (setting : string).

Record migration := mkMigration {
  mg_name : string;
  mg_dependencies : list dependency;
  mg_operations : list operation
}.

(** The models a field refers to exist: those of this application in the state,
    others before any of its migrations. *)
Definition reference_exists (s : project_state) (f : field) : bool :=
  match f_to f with
  | Some target =>
      if startswith "controlplane." target
      then bool_decide (is_Some (s !! str_drop 13 target)) else String.eqb target AUTH_USER_MODEL
  | None => true
  end.

(** A model can be created once, and changed when it exists. *)
Definition state_forwards (op : operation) (s : project_state) : option project_state :=
  match op with
  | CreateModel name fields ordering indexes =>
      if bool_decide (is_Some (s !! lower name)) || negb (forallb (λ f, reference_exists s f.2) fields)
      then None
      else Some (<[lower name := mkModel (list_to_map fields) ordering indexes []]> s)
  | AddConstraint model c =>
      m ← s !! model;
      Some (<[model := mkModel (ms_fields m) (ms_ordering m) (ms_indexes m) (ms_constraints m ++ [c])]> s)
  | AddIndex model i =>
      m ← s !! model;
      Some (<[model := mkModel (ms_fields m) (ms_ordering m) (ms_indexes m ++ [i]) (ms_constraints m)]> s)
  end.

Definition satisfied (applied : list string) (d : dependency) : bool :=
  match d with OnMigration name => str_in name applied | Swappable _ => true end.

Fixpoint apply_operations (ops : list operation) (s : project_state) : option project_state :=
  match ops with [] => Some s | op :: ops => s ← state_forwards op s; apply_operations ops s end.

(** [migrate]: the migrations in the given order, each after its dependencies. *)
Fixpoint migrate (plan : list migration) (applied : list string) (s : project_state) : option project_state :=
  match plan with
  | [] => Some s
  | m :: plan =>
      if forallb (satisfied applied) (mg_dependencies m)
      then s ← apply_operations (mg_operations m) s; migrate plan (mg_name m :: applied) s
      else None
  end.

Definition explicit_id : string * field :=
  ("id", field_of BigAutoField [auto_created_; primary_key_; not_serialized; verbose_name_ "ID"]).

Definition phase2_controlplane : migration :=
  mkMigration "0001_phase2_controlplane" [Swappable AUTH_USER_MODEL]
    [CreateModel "Project"
       [explicit_id;
        ("slug", field_of SlugField [max_length_ 64; unique_]);
        ("name", field_of CharField [max_length_ 120]);
        ("release_root", field_of CharField [default_ (DText "current"); max_length_ 256]);
        ("members", field_of ManyToManyField [related_name_ "djangoops_projects"; to_ AUTH_USER_MODEL])]
       ["slug"] [];
     CreateModel "AgentRegistration"
       [explicit_id;
        ("agent_id", field_of CharField [max_length_ 64; unique_]);
        ("capabilities", field_of JSONField [default_ DEmptyList]);
        ("last_seen_at", field_of DateTimeField [blank_; null_]);
        ("project", field_of ForeignKey [on_delete_ CASCADE; related_name_ "agents"; to_ "controlplane.project"])]
       ["agent_id"] [];
     CreateModel "DiagnosticOperation"
       [explicit_id;
        ("public_id", field_of UUIDField [default_ DUuid4; not_editable; unique_]);
        ("diagnostic", field_of CharField [default_ (DText "django_health"); max_length_ 32]);
        ("status", field_of CharField
           [choices_ [("pending", "Pending"); ("running", "Running"); ("succeeded", "Succeeded");
                      ("failed", "Failed"); ("cancelled", "Cancelled"); ("offline", "Offline");
                      ("overloaded", "Overloaded"); ("disconnected", "Disconnected"); ("timeout", "Timeout")];
            default_ (DText "pending"); max_length_ 16]);
        ("result_summary", field_of JSONField [default_ DEmptyDict]);
        ("error_code", field_of CharField [blank_; max_length_ 32]);
        ("created_at", field_of DateTimeField [auto_now_add_]);
        ("updated_at", field_of DateTimeField [auto_now_]);
        ("agent", field_of ForeignKey
           [on_delete_ CASCADE; related_name_ "operations"; to_ "controlplane.agentregistration"]);
        ("project", field_of ForeignKey
           [on_delete_ CASCADE; related_name_ "operations"; to_ "controlplane.project"]);
        ("requested_by", field_of ForeignKey
           [on_delete_ PROTECT; related_name_ "djangoops_operations"; to_ AUTH_USER_MODEL])]
       ["-created_at"] [mkIndex "cp_op_project_created" ["project"; "-created_at"]]].

Definition phase3_kubernetes : migration :=
  mkMigration "0002_phase3_kubernetes" [OnMigration "0001_phase2_controlplane"; Swappable AUTH_USER_MODEL]
    [CreateModel "KubernetesTarget"
       [explicit_id;
        ("public_id", field_of UUIDField [default_ DUuid4; not_editable; unique_]);
        ("name", field_of CharField [max_length_ 80]);
        ("api_server", field_of CharField [max_length_ 255]);
        ("namespace", field_of CharField [max_length_ 63]);
        ("release_name", field_of CharField [max_length_ 53]);
        ("credential_ref", field_of CharField [max_length_ 128]);
        ("ingress_class", field_of CharField [blank_; max_length_ 63]);
        ("tls_secret_name", field_of CharField [blank_; max_length_ 63]);
        ("validated_at", field_of DateTimeField [blank_; null_]);
        ("validation_summary", field_of JSONField [default_ DEmptyDict]);
        ("created_at", field_of DateTimeField [auto_now_add_]);
        ("updated_at", field_of DateTimeField [auto_now_]);
        ("agent", field_of ForeignKey
           [on_delete_ PROTECT; related_name_ "kubernetes_targets"; to_ "controlplane.agentregistration"]);
        ("project", field_of ForeignKey
           [on_delete_ CASCADE; related_name_ "kubernetes_targets"; to_ "controlplane.project"])]
       ["name"] [];
     AddConstraint "kubernetestarget"
       (mkUnique "cp_k8s_cluster_release_unique" ["api_server"; "namespace"; "release_name"]);
     CreateModel "KubernetesRelease"
       [explicit_id;
        ("public_id", field_of UUIDField [default_ DUuid4; not_editable; unique_]);
        ("status", field_of CharField
           [choices_ [("pending", "Pending"); ("validating", "Validating"); ("migrating", "Migrating");
                      ("applying", "Applying"); ("verifying", "Verifying"); ("succeeded", "Succeeded");
                      ("failed", "Failed"); ("cancelled", "Cancelled"); ("rolled_back", "Rolled back");
                      ("rollback_blocked", "Rollback blocked")];
            default_ (DText "pending"); max_length_ 24]);
        ("operation_id", field_of CharField [max_length_ 64; unique_]);
        ("image", field_of CharField [max_length_ 255]);
        ("chart_version", field_of CharField [max_length_ 32]);
        ("values_digest", field_of CharField [max_length_ 64]);
        ("values_snapshot", field_of JSONField [default_ DEmptyDict]);
        ("helm_revision", field_of PositiveIntegerField [blank_; null_]);
        ("previous_helm_revision", field_of PositiveIntegerField [blank_; null_]);
        ("previous_image", field_of CharField [blank_; max_length_ 255]);
        ("previous_values_digest", field_of CharField [blank_; max_length_ 64]);
        ("migration_compatibility", field_of CharField [default_ (DText "unknown"); max_length_ 16]);
        ("rollback_status", field_of CharField [blank_; max_length_ 32]);
        ("error_code", field_of CharField [blank_; max_length_ 48]);
        ("result_summary", field_of JSONField [default_ DEmptyDict]);
        ("created_at", field_of DateTimeField [auto_now_add_]);
        ("updated_at", field_of DateTimeField [auto_now_]);
        ("project", field_of ForeignKey
           [on_delete_ CASCADE; related_name_ "kubernetes_releases"; to_ "controlplane.project"]);
        ("requested_by", field_of ForeignKey
           [on_delete_ PROTECT; related_name_ "djangoops_kubernetes_releases"; to_ AUTH_USER_MODEL]);
        ("target", field_of ForeignKey
           [on_delete_ PROTECT; related_name_ "releases"; to_ "controlplane.kubernetestarget"])]
       ["-created_at"] [];
     AddIndex "kubernetesrelease" (mkIndex "cp_k8s_project_created" ["project"; "-created_at"])].

Definition migrations : list migration := [phase2_controlplane; phase3_kubernetes].

(** * Columns *)

(** What a column of text accepts: its width, and its choices when it has some. *)
Definition column_accepts (f : field) (value : string) : bool :=
  match f_max_length f with Some n => String.length value <=? n | None => true end &&
  match f_choices f with [] => true | choices => str_in value choices.*1 end.

Definition column_of (s : project_state) (model column : string) : option field :=
  m ← s !! model; ms_fields m !! column.
