(* ===== verification/MigrationsProps.v ===== *)
(** The properties of the database schema: the migrations build the models, and
    what requests store fits the columns. *)

From S2P Require Import Prelude Text Regex Dict Url Json Sha256 Gateway Store Models Services ServicesProps.
From S2P Require Import Kubernetes Schema SchemaProps Migrations.

Open Scope string_scope.
Open Scope list_scope.
Open Scope nat_scope.

Lemma built : migrate migrations [] ∅ = Some models_state.
Proof. apply (bool_decide_eq_true_1 _). vm_compute. reflexivity. Qed.

(** The migrations build the models: in whatever order they are tried on an
    empty database, only the order of their dependencies applies, and it ends in
    the state the model classes declare, field by field, with their orderings,
    indexes and constraints. *)
Theorem migrations_build_models plan :
  plan ≡ₚ migrations → is_Some (migrate plan [] ∅) →
  plan = migrations ∧ migrate plan [] ∅ = Some models_state.
Proof.
  intros [->| ->]%Permutation_sym%Permutation_length_2_inv H.
  - split; [done|]. exact built.
  - exfalso. destruct H as [s H]. vm_compute in H. discriminate H.
Qed.

Lemma migrations_build_models_witness :
  migrations = migrations ∧ migrate migrations [] ∅ = Some models_state.
Proof. apply migrations_build_models; [done|]. rewrite built. by eexists. Defined.

Lemma statuses_are_the_choices :
  DiagnosticOperation_Status.*1 = operation_statuses ∧ KubernetesRelease_Status.*1 = release_statuses.
Proof. split; reflexivity. Qed.

(** * Columns *)

(** The state of a migrated database. *)
Definition schema : project_state := default ∅ (migrate migrations [] ∅).

(** The columns of bounded text, in the migrated schema. *)
Definition text_columns (model : string) : list string :=
  match schema !! model with
  | Some m => (filter (λ cf : string * field, is_Some (f_max_length cf.2)) (map_to_list (ms_fields m))).*1
  | None => []
  end.

(** The values a row has in them. *)
Definition operation_columns (op : DiagnosticOperation) : list (string * string) :=
  [("diagnostic", op_diagnostic op); ("status", op_status op); ("error_code", op_error_code op)].

Definition target_columns (t : KubernetesTarget) : list (string * string) :=
  [("name", kt_name t); ("namespace", kt_namespace t); ("release_name", kt_release_name t);
   ("credential_ref", kt_credential_ref t); ("ingress_class", kt_ingress_class t);
   ("tls_secret_name", kt_tls_secret_name t); ("api_server", kt_api_server t)].

Definition release_columns (r : KubernetesRelease) : list (string * string) :=
  [("status", rl_status r); ("operation_id", rl_operation_id r); ("chart_version", rl_chart_version r);
   ("values_digest", rl_values_digest r); ("previous_values_digest", rl_previous_values_digest r);
   ("migration_compatibility", rl_migration_compatibility r); ("rollback_status", rl_rollback_status r);
   ("error_code", rl_error_code r); ("image", rl_image r); ("previous_image", rl_previous_image r)].

(** Each value is one its column in the migrated schema accepts. *)
Definition accepted (model : string) (columns : list (string * string)) : bool :=
  forallb (λ cv, match column_of schema model cv.1 with
                 | Some f => column_accepts f cv.2
                 | None => false
                 end) columns.

(** A row fits the schema: every column of bounded text accepts its value. *)
Definition fits (model : string) (columns : list (string * string)) : bool :=
  forallb (λ c, str_in c columns.*1) (text_columns model) && accepted model columns.

Lemma accepts_width f n v :
  f_max_length f = Some n → f_choices f = [] → String.length v ≤ n → column_accepts f v = true.
Proof. intros Hn Hc Hv%Nat.leb_le. unfold column_accepts. by rewrite Hn, Hc, Hv. Qed.

Lemma accepts_choice f n v :
  f_max_length f = Some n → String.length v ≤ n → v ∈ (f_choices f).*1 → column_accepts f v = true.
Proof.
  intros Hn Hv%Nat.leb_le Hin. unfold column_accepts. rewrite Hn, Hv.
  destruct (f_choices f); [done|]. by apply str_in_spec.
Qed.

(** What a statuses list bounds. *)
Lemma status_width n l s : forallb (λ s, String.length s <=? n) l = true → s ∈ l → String.length s ≤ n.
Proof. rewrite forallb_forall. intros H Hs%list_elem_of_In%H. by apply Nat.leb_le. Qed.

(** A column's declaration in the migrated schema. *)
Lemma accepted_cons model c v cols f :
  column_of schema model c = Some f → accepted model ((c, v) :: cols) = column_accepts f v && accepted model cols.
Proof.
  intros Hf.
  change (match column_of schema model c with Some f => column_accepts f v | None => false end &&
          accepted model cols = column_accepts f v && accepted model cols). by rewrite Hf.
Qed.

(** One column: its declaration, then a value it accepts. *)
Ltac column := erewrite accepted_cons by (vm_compute; reflexivity).
Ltac width_of H := column; erewrite accepts_width; [|reflexivity|reflexivity|exact H]; cbn [andb].

Lemma operation_fits op : operation_wf op → fits "diagnosticoperation" (operation_columns op) = true.
Proof.
  intros [Hd Hs Hc _]. apply andb_true_iff. split; [by vm_compute|]. unfold operation_columns.
  assert (Hd' : String.length (op_diagnostic op) ≤ 32) by (rewrite Hd; cbn; lia).
  width_of Hd'. column. erewrite accepts_choice;
    [|reflexivity|by eapply (status_width _ operation_statuses)|done]. cbn [andb]. by width_of Hc.
Qed.

(** What the service guarantees of targets and releases. *)
Record target_bounded (t : KubernetesTarget) : Prop := {
  tb_name : String.length (kt_name t) ≤ 80;
  tb_namespace : String.length (kt_namespace t) ≤ 63;
  tb_release_name : String.length (kt_release_name t) ≤ 53;
  tb_credential : String.length (kt_credential_ref t) ≤ 128;
  tb_ingress : String.length (kt_ingress_class t) ≤ 63;
  tb_tls : String.length (kt_tls_secret_name t) ≤ 63
}.

Record release_bounded (r : KubernetesRelease) : Prop := {
  rb_status : rl_status r ∈ release_statuses;
  rb_operation : String.length (rl_operation_id r) ≤ 64;
  rb_chart : String.length (rl_chart_version r) ≤ 32;
  rb_digest : String.length (rl_values_digest r) ≤ 64;
  rb_previous : String.length (rl_previous_values_digest r) ≤ 64;
  rb_compatibility : String.length (rl_migration_compatibility r) ≤ 16;
  rb_rollback : String.length (rl_rollback_status r) ≤ 32;
  rb_code : String.length (rl_error_code r) ≤ 48
}.

(** The API server and the images have columns of 255 characters that no check of
    their own keeps to. *)
Lemma target_fits t :
  target_bounded t → fits "kubernetestarget" (target_columns t) = (String.length (kt_api_server t) <=? 255).
Proof.
  intros [H1 H2 H3 H4 H5 H6]. unfold fits. transitivity (accepted "kubernetestarget" (target_columns t)); [done|].
  unfold target_columns.
  width_of H1. width_of H2. width_of H3. width_of H4. width_of H5. width_of H6. column.
  unfold column_accepts. cbn -[Nat.leb]. by rewrite !andb_true_r.
Qed.

Lemma release_fits r :
  release_bounded r →
  fits "kubernetesrelease" (release_columns r) =
    (String.length (rl_image r) <=? 255) && (String.length (rl_previous_image r) <=? 255).
Proof.
  intros [H1 H2 H3 H4 H5 H6 H7 H8]. unfold fits.
  transitivity (accepted "kubernetesrelease" (release_columns r)); [done|]. unfold release_columns. column.
  erewrite (accepts_choice _ _ (rl_status r));
    [|reflexivity|by eapply (status_width _ release_statuses)|done]. cbn [andb].
  width_of H2. width_of H3. width_of H4. width_of H5. width_of H6. width_of H7. width_of H8. do 2 column.
  unfold column_accepts. cbn -[Nat.leb]. by rewrite !andb_true_r.
Qed.

(** ** What is validated is bounded *)

Lemma validate_name_length release v v' :
  validate_name release v = Ok v' → String.length v' ≤ if release then 53 else 63.
Proof.
  unfold validate_name. cbv zeta. destruct (_ || _) eqn:E; [done|]. intros [= <-].
  apply orb_false_iff in E as [E _]. apply orb_false_iff in E as [_ E]. by apply Nat.ltb_ge in E.
Qed.

Lemma optional_name_length v v' : optional_name v = Ok v' → String.length v' ≤ 63.
Proof.
  unfold optional_name. destruct (String.eqb v ""); [intros [= <-]; cbn; lia|].
  intros H%validate_name_length. exact H.
Qed.

Lemma credential_length v v' : validate_credential_ref v = Ok v' → String.length v' ≤ 128.
Proof.
  unfold validate_credential_ref. destruct (fullmatch CREDENTIAL_REF v) eqn:E; [|done]. intros [= <-].
  unfold CREDENTIAL_REF, Between in E. rewrite fullmatch_head_tail in E.
  destruct v as [|c v]; [done|]. cbn -[Nat.leb] in E |- *. rewrite !andb_true_iff, !Nat.leb_le in E. lia.
Qed.

Lemma target_bounded_closed : target_closed target_bounded.
Proof.
  split; [|by intros now v t []].
  intros checks uuid project agent name api ns0 ns rel0 rel cred ing tls row Hns Hrel H.
  unfold new_target in H. binds H. injection H as <-.
  split; cbn; eauto using optional_name_length, credential_length.
  - apply str_take_length.
  - by apply validate_name_length in Hns.
  - by apply validate_name_length in Hrel.
Qed.

Lemma compatibility_length clean c : compatibility_of clean = Ok c → String.length c ≤ 16.
Proof.
  unfold compatibility_of. destruct (scalar_str _) as [s|]; [|done].
  destruct (str_in s _) eqn:E; [|done]. intros [= <-]. apply str_in_spec in E.
  rewrite !elem_of_cons, elem_of_nil in E. destruct E as [->|[->|[]]]; cbn; lia.
Qed.

Lemma release_bounded_closed : release_closed release_bounded "0.1.0".
Proof.
  split.
  - intros status code r [Hs Hc]%written_status []. by split.
  - intros res r0 r _ []. split; try done; [apply result_status|apply str_take_length..].
  - intros now uuid user project tpk image clean snapshot compat previous Hc Hp.
    split; cbn -[str_take values_digest]; try lia.
    + by apply (bool_decide_eq_true_1 _).
    + pose proof (str_take_length 20 uuid.2). change (4 + String.length (str_take 20 uuid.2) ≤ 64). lia.
    + unfold values_digest. by rewrite sha256_hex_length.
    + destruct previous as [r|]; cbn; [by apply (Hp r)|lia].
    + by eapply compatibility_length.
Qed.

(** ** Every stored row *)

Section columns.
Context {TO TT TR : Type} `{HO : Table DiagnosticOperation TO} `{HT : Table KubernetesTarget TT}
  `{HR : Table KubernetesRelease TR}.
Context `{!TableLaws DiagnosticOperation TO} `{!TableLaws KubernetesTarget TT} `{!TableLaws KubernetesRelease TR}.
Context (projects : list Project) (agents : list AgentRegistration) (uuid_of : string → option string).
Context (dashboard_url : string).
Implicit Types (d : TO * (TT * TR)).

Definition bounded d : Prop := table_wf d.1 ∧ cluster_wf target_bounded release_bounded d.2.

(** C31: whatever requests, background tasks and backends do and however they
    interleave, the rows they leave fit the migrated schema: in every column of
    bounded text the value is within the width and, where the column has choices,
    is one of them.  The one exception are the columns of API servers and images:
    such a row fits exactly when these are at most 255 characters long. *)
Theorem stored_rows_fit_columns d ths sched d' ths' :
  Forall (web_request projects agents uuid_of dashboard_url) ths →
  exec pool_step (d, ths) sched (d', ths') → bounded d →
  (∀ k op, tb_get d'.1 k = Some op → fits "diagnosticoperation" (operation_columns op) = true) ∧
  (∀ k t, tb_get d'.2.1 k = Some t →
     fits "kubernetestarget" (target_columns t) = (String.length (kt_api_server t) <=? 255)) ∧
  (∀ k r, tb_get d'.2.2 k = Some r →
     fits "kubernetesrelease" (release_columns r) =
       (String.length (rl_image r) <=? 255) && (String.length (rl_previous_image r) <=? 255)).
Proof.
  intros Hths Hex Hd.
  destruct (pool_run_maintains bounded _ _ _ Hex) as [Ho [Ht Hr]]; [|exact Hd|].
  - eapply Forall_impl; [exact Hths|].
    apply (web_request_maintains _ _ _ _ table_wf (cluster_wf target_bounded release_bounded)); intros;
      try (apply guarded_maintains; first [apply start_wf|apply cancel_wf|apply consume_wf]).
    + by apply register_target_cluster, target_bounded_closed.
    + apply start_release_cluster, release_bounded_closed.
    + eapply cancel_release_cluster, release_bounded_closed.
  - split_and!; eauto using operation_fits, target_fits, release_fits.
Qed.
End columns.

Lemma stored_rows_fit_columns_witness :
  ∃ d' ths', exec pool_step (web_target_db, web_pool) web_schedule (d', ths') ∧
    (rl_status <$> gt_rows d'.2.2 !! 1) = Some "succeeded" ∧
    (∀ k r, tb_get d'.2.2 k = Some r →
       fits "kubernetesrelease" (release_columns r) =
         (String.length (rl_image r) <=? 255) && (String.length (rl_previous_image r) <=? 255)).
Proof.
  destruct (pool_exec_some web_schedule (web_target_db, web_pool)) as (d' & ths' & E & Hex); [by vm_compute|].
  assert (Hst : (λ s : demo_database * list (thread demo_database ()), rl_status <$> gt_rows s.1.2.2 !! 1)
      <$> pool_exec web_schedule (web_target_db, web_pool) = Some (Some "succeeded")) by by vm_compute.
  rewrite E in Hst. cbn in Hst. injection Hst as H1.
  exists d', ths'. split_and!; [exact Hex|exact H1|].
  apply (stored_rows_fit_columns [demo_project] [demo_agent] demo_uuid_of "/"
    web_target_db web_pool web_schedule d' ths').
  - unfold web_pool. constructor; [apply wr_release|constructor; [apply wr_consume|constructor; [apply wr_start|constructor]]].
  - exact Hex.
  - split; [|split].
    + intros k op Hk. cbn in Hk. apply lookup_singleton_Some in Hk as [<- <-].
      split; cbn; [done|by apply (bool_decide_eq_true_1 _)|lia|done].
    + intros k t Hk. cbn in Hk. apply lookup_singleton_Some in Hk as [<- <-].
      split; apply Nat.leb_le; vm_compute; reflexivity.
    + intros k r Hk. cbn in Hk. by rewrite lookup_empty in Hk.
Defined.

(** The image and the API server have columns of 255 characters, and no check of
    their own: a longer image with a valid digest is accepted. *)
Example long_image_is_accepted :
  let image := repeat_char 300 "a" +:+ "@sha256:" +:+ repeat_char 64 "0" in
  validate_image image = Ok image ∧
  ((λ f, column_accepts f image) <$> column_of schema "kubernetesrelease" "image") = Some false.
Proof. split; vm_compute; reflexivity. Qed.
