(* ===== verification/Api.v ===== *)
(** The root types of the GraphQL schema: [Query], [Mutation] and the input object
    of a release ([controlplane/graphql/schema.py]), with the field and the inputs
    [controlplane/observability.py] installs into them.

    A root type is a table of fields: the declared arguments and the resolver.
    graphql-core coerces the arguments before it calls a resolver; [call] is a
    field applied to arguments that have passed. *)

From S2P Require Import Prelude Text Url Json Builtins Dict Gateway Store Models Services Telemetry Kubernetes Observability Schema.

Open Scope string_scope.
Open Scope list_scope.
Open Scope nat_scope.

(** * Arguments *)

Abbreviation arguments := (list (string * json)).

(** Coerced arguments: those present have the declared type, those of a non-null
    type are present. *)
Definition arguments_ok (declared : list (string * gtype)) (args : arguments) : bool :=
  forallb (λ '(name, t),
    match dict_get args name with
    | Some v => conforms t v
    | None => match t with GNonNull _ => false | _ => true end
    end) declared.

(** [args["name"]] of a text argument, [args.get("name")] of an optional one, and
    an integer: left out, null, or a number. *)
Definition str_arg (args : arguments) (name : string) : string :=
  match dict_get args name with Some (JStr s) => s | _ => "" end.
Definition str_option (args : arguments) (name : string) : option string :=
  match dict_get args name with Some (JStr s) => Some s | _ => None end.
Definition int_arg (args : arguments) (name : string) : option (option Z) :=
  match dict_get args name with
  | Some (JInt z) => Some (Some z)
  | Some _ => Some None
  | None => None
  end.
Definition object_arg (args : arguments) (name : string) : values :=
  match dict_get args name with Some (JObj entries) => entries | _ => [] end.

Definition KubernetesReleaseValuesInput : list (string * gtype) :=
  [("webReplicas", GInt);
   ("environmentSecretName", GString);
   ("migrationCompatibility", MigrationCompatibility);
   ("celeryWorkerEnabled", GBoolean);
   ("celeryBeatEnabled", GBoolean);
   ("ingressHost", GString);
   ("ingressClass", GString);
   ("tlsSecretName", GString)].

(** The inputs [install_graphql_field] adds. *)
Definition installed_inputs : list (string * gtype) :=
  [("observabilityEnabled", GBoolean); ("otlpEndpoint", GString); ("otelServiceNamespace", GString)].

Definition release_input : list (string * gtype) := KubernetesReleaseValuesInput ++ installed_inputs.

Definition SummaryType : list (field ObservabilitySummary) :=
  let int f s := JInt (Z.of_nat (f s)) in
  [("totalAgents", GNonNull GInt, int su_total_agents);
   ("connectedAgents", GNonNull GInt, int su_connected_agents);
   ("recentOperations", GNonNull GInt, int su_recent_operations);
   ("recentReleases", GNonNull GInt, int su_recent_releases);
   ("recentFailures", GNonNull GInt, int su_recent_failures);
   ("otlpConfigured", GNonNull GBoolean, λ s, JBool (su_otlp_configured s));
   ("telemetryStatus", GNonNull GString, λ s, JStr (su_telemetry_status s))].

(** A field of a root type. *)
Record root_field (A : Type) := mkRootField {
  rf_args : list (string * gtype);
  rf_resolve : arguments → A
}.
Arguments mkRootField {A} _ _.
Arguments rf_args {A} _.
Arguments rf_resolve {A} _.

Definition call {A} (fields : list (string * root_field A)) (name : string) (args : arguments) : option A :=
  match dict_get fields name with
  | Some f => if arguments_ok (rf_args f) args then Some (rf_resolve f args) else None
  | None => None
  end.

(** * The root types *)

(** What a query answers: rows, or their keys. *)
Inductive query_result :=
| Projects (projects : list Project)
| Agents (agents : list AgentRegistration)
| Operations (keys : list pk)
| Operation (key : pk)
| Targets (targets : list (pk * KubernetesTarget))
| Releases (keys : list pk)
| Summary (summary : ObservabilitySummary).

Inductive mutation_result :=
| OperationPayload (p : payload reply)
| TargetPayload (p : payload pk)
| ReleasePayload (p : payload KubernetesRelease).

(** What the resolvers draw on besides the database. *)
Record environment := mkEnv {
  en_operations : OperationsBackend;
  en_cluster : KubernetesBackend;
  en_checks : UrlChecks;
  en_now : Z;
  en_uuid : string * string
}.

Section api.
Context {TO TT TR : Type} `{Table DiagnosticOperation TO} `{Table KubernetesTarget TT}
  `{Table KubernetesRelease TR}.
Context (projects : list Project) (agents : list AgentRegistration) (uuid_of : string → option string).
Abbreviation database := (TO * (TT * TR))%type.

(** The resolver of [observabilitySummary]. *)
Definition observability_summary (be : OperationsBackend) (t : Telemetry) (user : nat) (projectId : string)
    (d : database) : result exn ObservabilitySummary :=
  pk ← int_of projectId;
  if (pk <? 0)%Z then Err (OtherError "Project.DoesNotExist")
  else summary_for_project be projects agents d.1 d.2.2 t user (Z.to_nat pk).

Definition Query (be : OperationsBackend) (t : Telemetry) (user : nat) (d : database)
    : list (string * root_field (result exn query_result)) :=
  [("projects", mkRootField [] (λ _, Ok (Projects (_projects projects user))));
   ("agents", mkRootField [("projectId", GNonNull GID)]
     (λ args, rows ← _agents projects agents user (str_arg args "projectId"); Ok (Agents rows)));
   ("diagnosticOperations", mkRootField [("projectId", GNonNull GID); ("first", GInt)]
     (λ args,
        keys ← _operations projects user (str_arg args "projectId") (int_arg args "first") d;
        Ok (Operations keys)));
   ("diagnosticOperation", mkRootField [("id", GNonNull GID)]
     (λ args, key ← _operation projects uuid_of user (str_arg args "id") d; Ok (Operation key)));
   ("kubernetesTargets", mkRootField [("projectId", GNonNull GID)]
     (λ args, rows ← _targets projects user (str_arg args "projectId") d; Ok (Targets rows)));
   ("kubernetesReleases", mkRootField [("projectId", GNonNull GID); ("first", GInt)]
     (λ args,
        keys ← _releases projects user (str_arg args "projectId") (int_arg args "first") d;
        Ok (Releases keys)));
   ("observabilitySummary", mkRootField [("projectId", GNonNull GID)]
     (λ args, s ← observability_summary be t user (str_arg args "projectId") d; Ok (Summary s)))].

Definition result_map {A B} (f : A → B) (r : result exn A) : result exn B := a ← r; Ok (f a).

Definition Mutation (env : environment) (user : nat)
    : list (string * root_field (thread database (result exn mutation_result))) :=
  [("startDiagnostic",
     mkRootField [("projectId", GNonNull GID); ("agentId", GNonNull GID); ("diagnostic", GNonNull DiagnosticKind)]
       (λ args, thread_map (result_map OperationPayload)
          (_start projects agents (en_operations env) (en_now env) (en_uuid env).1 user
             (str_arg args "projectId") (str_arg args "agentId") (str_arg args "diagnostic"))));
   ("cancelDiagnostic", mkRootField [("operationId", GNonNull GID)]
       (λ args, thread_map (result_map OperationPayload)
          (_cancel projects uuid_of (en_operations env) user (str_arg args "operationId"))));
   ("registerKubernetesTarget",
     mkRootField [("projectId", GNonNull GID); ("agentId", GNonNull GID); ("name", GNonNull GString);
                  ("apiServer", GNonNull GString); ("namespace", GNonNull GString);
                  ("releaseName", GNonNull GString); ("credentialRef", GNonNull GString);
                  ("ingressClass", GString); ("tlsSecretName", GString)]
       (λ args, thread_map (result_map TargetPayload)
          (_register_target projects agents (en_cluster env) (en_checks env) (en_now env) (en_uuid env).1 user
             (str_arg args "projectId") (str_arg args "agentId") (str_arg args "name")
             (str_arg args "apiServer") (str_arg args "namespace") (str_arg args "releaseName")
             (str_arg args "credentialRef") (str_option args "ingressClass")
             (str_option args "tlsSecretName"))));
   ("startKubernetesRelease",
     mkRootField [("targetId", GNonNull GID); ("image", GNonNull GString);
                  ("values", GNonNull (GObject release_input))]
       (λ args, thread_map (result_map ReleasePayload)
          (_start_kubernetes_release projects uuid_of (en_cluster env) (en_checks env) (en_now env) (en_uuid env)
             user (str_arg args "targetId") (str_arg args "image") (object_arg args "values"))));
   ("cancelKubernetesRelease", mkRootField [("releaseId", GNonNull GID)]
       (λ args, thread_map (result_map ReleasePayload)
          (_cancel_kubernetes_release projects uuid_of (en_cluster env) user (str_arg args "releaseId"))))].

(** * The dashboard

    [dashboard] of [controlplane/views.py]: what it hands to the template. *)

Record dashboard_row := mkDashboardRow {
  dr_project : Project;
  dr_agents : list (AgentRegistration * AgentState);
  dr_operations : list pk;
  dr_targets : list (pk * KubernetesTarget);
  dr_releases : list pk;
  dr_observability : ObservabilitySummary
}.

Definition dashboard_row_of (be : OperationsBackend) (t : Telemetry) (user : nat) (d : database) (p : Project)
    : result exn dashboard_row :=
  summary ← summary_for_project be projects agents d.1 d.2.2 t user (project_id p);
  Ok (mkDashboardRow p ((λ a, (a, agent_state be a)) <$> project_agents agents p)
        (project_operations p 20 d) (project_targets p d) (project_releases p 20 d) summary).

Fixpoint dashboard_rows (be : OperationsBackend) (t : Telemetry) (user : nat) (d : database) (ps : list Project)
    : result exn (list dashboard_row) :=
  match ps with
  | [] => Ok []
  | p :: ps =>
      row ← dashboard_row_of be t user d p;
      rows ← dashboard_rows be t user d ps;
      Ok (row :: rows)
  end.

(** [project_rows], [demo_enabled] and [demo_mode]; [mode] is the query parameter. *)
Definition dashboard (debug web_demo_enabled : bool) (mode : option string) (be : OperationsBackend)
    (t : Telemetry) (user : nat) (d : database) : result exn (list dashboard_row * bool * bool) :=
  let demo_enabled := debug && web_demo_enabled in
  let demo_mode := demo_enabled && negb (String.eqb (default "demo" mode) "live") in
  rows ← dashboard_rows be t user d (if demo_mode then [] else _projects projects user);
  Ok (rows, demo_enabled, demo_mode).
End api.
