(* ===== verification/Isolation.v ===== *)
(** Users stay within their projects: whatever a user requests, through the
    mutations of [controlplane/graphql/schema.py] or the views of
    [controlplane/views.py], the rows of other projects are as before. *)

From stdpp Require Import sorting.
From S2P Require Import Prelude Text Dict Json Builtins Url Gateway Store Models Services ServicesProps Kubernetes KubernetesProps Telemetry Observability ObservabilityProps Schema SchemaProps Api.

Open Scope string_scope.
Open Scope list_scope.
Open Scope nat_scope.

(** * Tables whose foreign rows are kept *)

Section keeps.
Context {Row T : Type} `{HT : Table Row T} `{!TableLaws Row T}.
Context (own : Row → bool).
Implicit Types (t : T) (k : pk) (r : Row).

(** The rows that are not one's own are the same in both tables. *)
Definition keeps t t' : Prop := ∀ k r, own r = false → tb_get t k = Some r ↔ tb_get t' k = Some r.
Definition own_at k t : Prop := ∀ r, tb_get t k = Some r → own r = true.

(** A statement about the row [k]: if that row is one's own it stays so, and the
    others are kept. *)
Definition touches k t t' : Prop := own_at k t → keeps t t' ∧ own_at k t'.

Lemma keeps_refl t : keeps t t.
Proof. done. Qed.

Lemma keeps_trans t1 t2 t3 : keeps t1 t2 → keeps t2 t3 → keeps t1 t3.
Proof. intros H1 H2 k r Hr. rewrite (H1 k r Hr). by apply H2. Qed.

Lemma touches_refl k t : touches k t t.
Proof. by split. Qed.

Lemma touches_update k (p : pk → Row → bool) f t :
  (∀ k' r, p k' r = true → k' = k) → (∀ r, own (f r) = own r) → touches k t (tb_update p f t).
Proof.
  intros Hp Hf Hk. split.
  - intros k' r Hr. rewrite tb_get_update. destruct (tb_get t k') as [r0|] eqn:E; [|done]. cbn.
    destruct (p k' r0) eqn:Epr; [|done]. apply Hp in Epr as ->. apply Hk in E.
    split; intros [= <-]; [congruence|]. rewrite Hf in Hr. congruence.
  - intros r. rewrite tb_get_update. intros (r0 & E & ->)%fmap_Some. apply Hk in E.
    destruct (p k r0); [by rewrite Hf|done].
Qed.

Lemma touches_delete k t : touches k t (tb_delete [k] t).
Proof.
  intros Hk. split.
  - intros k' r Hr. rewrite tb_get_delete. case_decide as Hd; [|done].
    apply list_elem_of_singleton in Hd as ->. split; [|done]. intros E%Hk. congruence.
  - intros r. rewrite tb_get_delete. by rewrite decide_True by apply list_elem_of_here.
Qed.

Lemma keeps_delete ks t : (∀ k, k ∈ ks → own_at k t) → keeps t (tb_delete ks t).
Proof.
  intros Hk k r Hr. rewrite tb_get_delete. case_decide as Hd; [|done].
  split; [|done]. intros E%(Hk _ Hd). congruence.
Qed.

Lemma keeps_create r t : own r = true → keeps t (tb_create r t).1 ∧ own_at (tb_create r t).2 (tb_create r t).1.
Proof.
  intros Hr. split.
  - intros k r' Hr'. rewrite tb_get_create. case_decide as Hd; [|done]. subst k.
    rewrite tb_create_fresh. split; [done|]. intros [= <-]. congruence.
  - intros r'. rewrite tb_get_create, decide_True by done. by intros [= <-].
Qed.

Lemma keeps_select p key t : (∀ k r, p k r = true → own r = true) → ∀ k, k ∈ tb_select p key t → own_at k t.
Proof. intros Hp k (r & Hr & Hpr)%tb_select_elem r' Hr'. simplify_eq. eauto. Qed.

(** A thread whose statements touch the row [k] only. *)
Lemma touching_keeps {A} k (th : thread T A) t :
  guarded (touches k) th → own_at k t → keeps t (run_thread th t).1.
Proof.
  intros Hg Hk. enough (keeps t (run_thread th t).1 ∧ own_at k (run_thread th t).1) by tauto.
  apply (rtc_preserves (touches k) (λ t', keeps t t' ∧ own_at k t') t); [|by apply run_thread_guarded|done].
  intros t1 t2 H12 [H1 Hk1]. destruct (H12 Hk1). split; [by eapply keeps_trans|done].
Qed.
End keeps.

(** * Diagnostic operations *)

Section operations.
Context {T : Type} `{HT : Table DiagnosticOperation T} `{!TableLaws DiagnosticOperation T}.
Context (own : nat → bool).
Implicit Types (t : T) (k : pk).

Definition own_operation (op : DiagnosticOperation) : bool := own (project_id (op_project op)).
Abbreviation keeps_operations := (keeps own_operation).

Lemma trim_keeps {A} project (a : A) t :
  own project = true → keeps_operations t (run_thread (trim_history project (λ _ : T, Return a)) t).1.
Proof.
  intros Hp. assert (Hstale : ∀ k, k ∈ stale_history project t → own_at own_operation k t).
  { intros k Hk. unfold stale_history in Hk.
    eapply (keeps_select own_operation (λ _ op, _) op_created_at); [|eapply subseteq_drop, Hk].
    intros k' op [E%Nat.eqb_eq _]%andb_true_iff. unfold own_operation. by rewrite E. }
  unfold trim_history. cbn. destruct (stale_history project t); cbn; [done|]. by apply keeps_delete.
Qed.

Lemma start_keeps be now uuid agent user diagnostic t :
  own (project_id (agent_project agent)) = true →
  keeps_operations t (run_thread (Services.start be now uuid agent user diagnostic) t).1.
Proof.
  intros Hp. unfold Services.start. destruct (negb _); [done|]. cbn -[trim_history tb_create].
  set (op := mkOperation _ _ _ _ _ _ _ _ _ _).
  destruct (keeps_create own_operation op t Hp) as [Hc Hk].
  set (t1 := (tb_create op t).1) in *. set (k := (tb_create op t).2) in *.
  assert (Hfin : ∀ t2 (v : result exn reply), keeps_operations t t2 →
    keeps_operations t (run_thread (trim_history (project_id (agent_project agent)) (λ _ : T, Return v)) t2).1).
  { intros t2 v H2. eapply keeps_trans; [exact H2|]. by apply trim_keeps. }
  assert (Hsave : ∀ status code, keeps_operations t (save_status now k status code t1)).
  { intros status code. eapply keeps_trans; [exact Hc|].
    refine (proj1 (touches_update own_operation k _ _ t1 _ _ Hk)); [|done].
    by intros k' r ->%Nat.eqb_eq. }
  assert (Hsaved : ∀ status code (v : result exn reply), keeps_operations t
    (run_thread (Stmt (save_status now k status code) (λ t : T,
       match tb_get t k with
       | Some _ => trim_history (project_id (agent_project agent)) (λ _ : T, Return v)
       | None => Return (Err (OtherError "save did not affect any rows"))
       end)) t1).1).
  { intros status code v. cbn -[trim_history]. destruct (tb_get _ k); [apply Hfin|]; apply Hsave. }
  destruct (be_connected be _); cbn [negb]; [|apply Hsaved].
  destruct (be_start be op) as [|[]]; try exact Hc; [by apply Hfin|].
  destruct (lower_contains _ _); apply Hsaved.
Qed.

Lemma cancel_touches be k : guarded (touches own_operation k) (cancel_operation (T := T) be k).
Proof.
  apply guarded_refresh; [apply touches_refl|]. intros op. destruct (terminal op); [constructor|].
  destruct (cancel_outcome _) as [[status code]|]; [|constructor]. constructor.
  - intros t. apply touches_update; [|done]. by intros k' r [->%Nat.eqb_eq _]%andb_true_iff.
  - intros t. apply guarded_refresh; [apply touches_refl|constructor].
Qed.
End operations.

(** * Targets and releases *)

Section cluster.
Context {TT TR : Type} `{HT : Table KubernetesTarget TT} `{HR : Table KubernetesRelease TR}.
Context `{!TableLaws KubernetesTarget TT} `{!TableLaws KubernetesRelease TR}.
Context (own : nat → bool).
Abbreviation db := (TT * TR)%type.
Implicit Types (c : db) (k : pk).

Definition own_target (t : KubernetesTarget) : bool := own (project_id (kt_project t)).
Definition own_release (r : KubernetesRelease) : bool := own (rl_project r).

Definition keeps_cluster c c' : Prop := keeps own_target c.1 c'.1 ∧ keeps own_release c.2 c'.2.

(** A release belongs to the project of its target. *)
Definition releases_match c : Prop :=
  ∀ k r t, tb_get c.2 k = Some r → tb_get c.1 (rl_target r) = Some t → rl_project r = project_id (kt_project t).

Definition touches_release k c c' : Prop := touches own_release k c.2 c'.2 ∧ c'.1 = c.1.

Lemma touching_release_keeps {A} k (th : thread db A) c :
  guarded (touches_release k) th → own_at own_release k c.2 → keeps_cluster c (run_thread th c).1.
Proof.
  intros Hg Hk.
  enough (keeps_cluster c (run_thread th c).1 ∧ own_at own_release k (run_thread th c).1.2) by tauto.
  apply (rtc_preserves (touches_release k) (λ c', keeps_cluster c c' ∧ own_at own_release k c'.2) c);
    [|by apply run_thread_guarded|done].
  intros c1 c2 [H12 He] [[H1 H2] Hk1]. destruct (H12 Hk1). split; [|done].
  split; [by rewrite He|by eapply keeps_trans].
Qed.

Lemma touches_release_refl k c : touches_release k c c.
Proof. split; [apply touches_refl|done]. Qed.

Lemma touches_release_update k (p : pk → KubernetesRelease → bool) f c :
  (∀ k' r, p k' r = true → k' = k) → (∀ r, own_release (f r) = own_release r) →
  touches_release k c (on_releases (tb_update p f) c).
Proof. intros Hp Hf. split; [by apply touches_update|done]. Qed.

Lemma touches_release_active k f c :
  (∀ r, own_release (f r) = own_release r) → touches_release k c (update_active_release k f c).
Proof. apply touches_release_update. by intros k' r [->%Nat.eqb_eq _]%andb_true_iff. Qed.

Lemma guarded_finish k k' :
  guarded (A := result exn KubernetesRelease) (touches_release k) (refresh_release k' (λ r, Return (Ok r))).
Proof. apply guarded_refresh_release; [apply touches_release_refl|constructor]. Qed.

Lemma cancel_release_touches be k : guarded (touches_release k) (cancel_release be k).
Proof.
  apply guarded_refresh_release; [apply touches_release_refl|]. intros r.
  destruct (str_in _ _); [constructor|]. destruct (kb_cancel be _) as [b|]; [|constructor].
  constructor; [intros; by apply touches_release_active|]. intros c. apply guarded_finish.
Qed.

Lemma dispatch_touches be target request k r : guarded (touches_release k) (dispatch_release be target request k r).
Proof.
  unfold dispatch_release, record_outcome. destruct (kb_start be target request) as [res|[]];
    solve [constructor; intros; [by apply touches_release_active|apply guarded_finish]|constructor].
Qed.

(** The transaction touches one release of the target, or creates one. *)
Lemma admit_keeps now uuid user key snapshot compat c target :
  releases_match c → tb_get c.1 (key_target key) = Some target → own_target target = true →
  let '(c', adm) := admit_release now uuid user key snapshot compat c in
  keeps_cluster c c' ∧ match adm with Dispatch k => own_at own_release k c'.2 | _ => True end.
Proof.
  intros Hm Ht Ho. unfold admit_release. rewrite Ht. destruct (tb_select _ _ c.2) as [|k l] eqn:E.
  - set (row := new_release _ _ _ _ _ _ _ _). destruct (tb_create row c.2) as [rs k] eqn:Ec.
    pose proof (keeps_create own_release row c.2 Ho) as [Hc Hk]. rewrite Ec in Hc, Hk. by split.
  - destruct (tb_get c.2 k) as [r|] eqn:Er; [|by split]. destruct (rl_active r); [by split|].
    assert (Hin : k ∈ tb_select (λ _ r, has_key key r && rl_open r) rl_created_at c.2)
      by (rewrite E; apply list_elem_of_here).
    apply tb_select_elem in Hin as (r0 & Hr0 & [<-%has_key_spec _]%andb_true_iff).
    assert (r0 = r) as -> by congruence.
    assert (Hown : own_at own_release k c.2).
    { intros r' Hr'. assert (r' = r) as -> by congruence. unfold own_release. by rewrite (Hm k r target Er Ht). }
    destruct (touches_release_update k (λ k' _, k' =? k) (set_release_status "validating" "") c) as [Htc _];
      [by intros k' r' ->%Nat.eqb_eq|done|]. destruct (Htc Hown) as [H1 H2]. done.
Qed.

Lemma start_release_keeps be checks now uuid tpk target user image vs chart c :
  releases_match c → tb_get c.1 tpk = Some target → own_target target = true →
  keeps_cluster c (run_thread (start_release be checks now uuid tpk target user image vs chart) c).1.
Proof.
  intros Hm Ht Ho. unfold start_release. destruct (checked_release _ _ _) as [[[clean image'] compat]|]; [|done].
  cbn -[admit_release dispatch_release after_admission].
  pose proof (admit_keeps now uuid user (mkKey tpk image' chart (values_digest clean)) (dumps (JObj clean))
    compat c target Hm Ht Ho) as Ha.
  destruct (admit_release _ _ _ _ _ _ c) as [c' [|k|k]]; destruct Ha as [Hc Hk]; cbn -[dispatch_release]; [done|..].
  - by destruct (tb_get c'.2 k).
  - destruct (tb_get c'.2 k) as [r|]; [|done].
    destruct (touching_release_keeps k _ c' (dispatch_touches be target
      (release_request target image' clean compat r) k r) Hk) as [H1 H2].
    destruct Hc. split; by eapply keeps_trans.
Qed.

Lemma register_keeps be checks now uuid project agent name api ns rel cred ing tls c :
  own (project_id project) = true →
  keeps_cluster c
    (run_thread (register_target be checks now uuid project agent name api ns rel cred ing tls) c).1.
Proof.
  intros Ho. unfold register_target. destruct (negb _); [done|].
  destruct (_ ≫= _) as [[[api' ns'] rel']|]; [|done]. cbn -[insert_target].
  destruct (identity_taken _ _ _ _ _); [done|].
  destruct (new_target _ _ _ _ _ _ _ _ _ _ _) as [row|] eqn:En; [|done]. cbn -[insert_target].
  assert (Hrow : own_target row = true) by (unfold new_target in En; binds En; by simplify_eq/=).
  destruct (insert_target row c.1) as [[t k]|] eqn:Ei; [|done].
  assert (Hi : keeps own_target c.1 t ∧ own_at own_target k t).
  { unfold insert_target in Ei. destruct (identity_taken _ _ _ _ _); simplify_eq.
    pose proof (keeps_create own_target row c.1 Hrow) as Hc. by destruct (tb_create row c.1); simplify_eq. }
  destruct Hi as [Hc Hk]. destruct (kb_validate be row) as [v|]; [|by split].
  destruct (valid v); cbn -[target_in_use]; [|destruct (target_in_use k (t, c.2)); [by split|]];
    split; cbn; try done; (eapply keeps_trans; [exact Hc|]).
  - refine (proj1 (touches_update own_target k _ _ t _ _ Hk)); [|done]. by intros k' r ->%Nat.eqb_eq.
  - by apply (touches_delete own_target k t).
Qed.
End cluster.

(** * Requests *)

(** The field [f] is the entry that [Hf] names; its resolver is not reduced. *)
Ltac root_field_is Hf := apply (f_equal snd) in Hf; cbv beta iota delta [snd] in Hf; rewrite Hf in *; clear Hf.

Section isolation.
Context {TO TT TR : Type} `{HO : Table DiagnosticOperation TO} `{HT : Table KubernetesTarget TT}
  `{HR : Table KubernetesRelease TR}.
Context `{!TableLaws DiagnosticOperation TO} `{!TableLaws KubernetesTarget TT} `{!TableLaws KubernetesRelease TR}.
Context (projects : list Project) (agents : list AgentRegistration) (uuid_of : string → option string).
Context (dashboard_url : string).
Abbreviation database := (TO * (TT * TR))%type.
Implicit Types (d : database) (k : pk).

(** What the user [user] may request: a field of [Mutation] with coerced arguments,
    or a view. *)
Inductive user_request (user : nat) : thread database () → Prop :=
| ur_mutation env field args th :
    call (Mutation projects agents uuid_of env user) field args = Some th → user_request user (forget th)
| ur_start_view be now uuid p a :
    user_request user (forget (start_diagnostic projects agents dashboard_url be now uuid user p a))
| ur_cancel_view be id :
    user_request user (forget (cancel_diagnostic projects uuid_of dashboard_url be user id))
| ur_update id : user_request user (forget (operation_update projects uuid_of user id)).

Definition keeps_foreign user d d' : Prop :=
  keeps (own_operation (member_of projects user)) d.1 d'.1 ∧
  keeps_cluster (member_of projects user) d.2 d'.2.

Lemma own_project_member user z p :
  own_project projects user z = Ok p → member_of projects user (project_id p) = true.
Proof.
  intros (Hp & Hu & _)%own_project_ok. unfold member_of. apply existsb_exists. exists p.
  split; [by apply list_elem_of_In|]. rewrite Nat.eqb_refl. by apply bool_decide_eq_true.
Qed.

Lemma own_agent_project p z a : own_agent agents p z = Ok a → project_id (agent_project a) = project_id p.
Proof.
  intros H%get_one_ok.
  assert (Hin : a ∈ filter (λ a, project_id (agent_project a) = project_id p ∧
    Z.of_nat (registration_id a) = z) agents) by (rewrite H; apply list_elem_of_here).
  apply list_elem_of_filter in Hin. tauto.
Qed.

Lemma _agent_own user pid aid p a :
  _agent projects agents user pid aid = Ok (p, a) →
  member_of projects user (project_id p) = true ∧ project_id (agent_project a) = project_id p.
Proof.
  unfold _agent, _project. intros H. binds H. injection H as <- <-.
  match goal with Hp : _ ≫= _ = Ok _ |- _ => binds Hp; apply own_project_member in Hp end.
  match goal with Ha : own_agent _ _ _ = Ok _ |- _ => by apply own_agent_project in Ha end.
Qed.

(** What the lookups by public id find is the user's. *)
Lemma found_own {Row T} `{TableLaws Row T} (own : Row → bool) model (p : Row → bool) key (t : T) k :
  get_one model (tb_select (λ _ r, own r && p r) key t) = Ok k → own_at own k t.
Proof.
  intros Hk%get_one_ok. apply (keeps_select own (λ _ r, own r && p r) key).
  - by intros k' r [? _]%andb_true_iff.
  - rewrite Hk. apply list_elem_of_here.
Qed.

Lemma start_foreign be now uuid agent user diagnostic d :
  member_of projects user (project_id (agent_project agent)) = true →
  keeps_foreign user d (run_thread (on_operations (Services.start be now uuid agent user diagnostic)) d).1.
Proof. intros Ho. rewrite run_on_operations. split; [by apply start_keeps|done]. Qed.

Lemma cancel_foreign be user id d k :
  _operation projects uuid_of user id d = Ok k →
  keeps_foreign user d (run_thread (on_operations (cancel_operation be k)) d).1.
Proof.
  intros Hk. rewrite run_on_operations. split; [|done]. cbn [fst].
  apply (touching_keeps _ k); [apply cancel_touches|].
  unfold _operation in Hk. binds Hk. by apply found_own in Hk.
Qed.

Lemma cluster_foreign {A} user d (th : thread (TT * TR) A) :
  keeps_cluster (member_of projects user) d.2 (run_thread th d.2).1 →
  keeps_foreign user d (run_thread (on_cluster th) d).1.
Proof. intros Hc. rewrite run_on_cluster. by split. Qed.

(** ** Mutations *)

Lemma _start_foreign be now uuid user projectId agentId diagnostic d :
  keeps_foreign user d
    (run_thread (_start projects agents be now uuid user projectId agentId diagnostic) d).1.
Proof.
  unfold _start. rewrite run_thread_map. cbn [fst].
  destruct (_agent _ _ _ _ _) as [[p a]|] eqn:E; [|done].
  apply _agent_own in E as [Hp Ha]. apply start_foreign. by rewrite Ha.
Qed.

Lemma _cancel_foreign be user id d :
  keeps_foreign user d (run_thread (_cancel projects uuid_of be user id) d).1.
Proof.
  unfold _cancel. rewrite run_thread_map. cbn -[_operation cancel_operation].
  destruct (_operation _ _ _ _ _) eqn:E; [by eapply cancel_foreign|done].
Qed.

Lemma _register_foreign be checks now uuid user pid aid name api ns rel cred ing tls d :
  keeps_foreign user d
    (run_thread (_register_target projects agents be checks now uuid user pid aid name api ns rel cred ing tls) d).1.
Proof.
  unfold _register_target. rewrite run_thread_map. cbn [fst].
  destruct (_agent _ _ _ _ _) as [[p a]|] eqn:E; [|done].
  apply _agent_own in E as [Hp _]. by apply cluster_foreign, register_keeps.
Qed.

Lemma _release_foreign be checks now uuid user id image raw d :
  releases_match d.2 →
  keeps_foreign user d
    (run_thread (_start_kubernetes_release projects uuid_of be checks now uuid user id image raw) d).1.
Proof.
  intros Hm. unfold _start_kubernetes_release. rewrite run_thread_map.
  cbn -[_target release_values start_release].
  destruct (_target projects uuid_of user id d) as [k|] eqn:E; [|done]. cbn -[release_values start_release].
  destruct (tb_get d.2.1 k) as [target|] eqn:Et; [|done]. cbn -[release_values start_release].
  destruct (release_values checks raw) as [vs|]; [|done]. cbn -[start_release].
  apply cluster_foreign, start_release_keeps; [done..|].
  unfold _target in E. binds E. by apply (found_own (own_target (member_of projects user))) in E; apply E.
Qed.

Lemma _cancel_release_foreign be user id d :
  keeps_foreign user d (run_thread (_cancel_kubernetes_release projects uuid_of be user id) d).1.
Proof.
  unfold _cancel_kubernetes_release. rewrite run_thread_map. cbn -[_release cancel_release].
  destruct (_release projects uuid_of user id d) as [k|] eqn:E; [|done].
  apply cluster_foreign, (touching_release_keeps _ k); [apply cancel_release_touches|].
  unfold _release in E. binds E. by apply (found_own (own_release (member_of projects user))) in E.
Qed.

(** A field of a root type is one of its entries. *)
Lemma call_some {A} (fields : list (string * root_field A)) name args a :
  call fields name args = Some a →
  ∃ f, (name, f) ∈ fields ∧ arguments_ok (rf_args f) args = true ∧ rf_resolve f args = a.
Proof.
  unfold call. destruct (dict_get fields name) as [f|] eqn:E; [|done].
  destruct (arguments_ok _ _) eqn:Ea; intros [= <-]. exists f. by apply dict_get_Some_elem in E.
Qed.

Lemma mutation_foreign env user field args th d :
  call (Mutation projects agents uuid_of env user) field args = Some th →
  releases_match d.2 → keeps_foreign user d (run_thread th d).1.
Proof.
  intros (f & Hf & _ & <-)%call_some Hm. unfold Mutation in Hf.
  repeat (apply elem_of_cons in Hf as [Hf|Hf]; [root_field_is Hf; cbv beta iota delta [rf_resolve];
    rewrite run_thread_map; cbn [fst]; auto using _start_foreign, _cancel_foreign, _register_foreign, _release_foreign,
      _cancel_release_foreign|]).
  by apply elem_of_nil in Hf.
Qed.

(** ** Views *)

Lemma start_view_foreign be now uuid user p a d :
  keeps_foreign user d (run_thread (start_diagnostic projects agents dashboard_url be now uuid user p a) d).1.
Proof.
  unfold start_diagnostic.
  destruct (own_project _ _ _) as [p'|[]] eqn:Ep; cbn -[Services.start]; try done; [|by destruct (endswith _ _)].
  destruct (own_agent _ _ _) as [a'|[]] eqn:Ea; cbn -[Services.start]; try done; [|by destruct (endswith _ _)].
  rewrite run_thread_map. apply start_foreign. rewrite (own_agent_project _ _ _ Ea).
  by eapply own_project_member.
Qed.

Lemma cancel_view_foreign be user id d :
  keeps_foreign user d (run_thread (cancel_diagnostic projects uuid_of dashboard_url be user id) d).1.
Proof.
  unfold cancel_diagnostic. cbn -[_operation cancel_operation].
  destruct (_operation _ _ _ _ _) as [k|[]] eqn:E; cbn -[cancel_operation]; try done;
    [|by destruct (endswith _ _)].
  rewrite run_thread_map. by eapply cancel_foreign.
Qed.

Lemma update_view_foreign user id d :
  keeps_foreign user d (run_thread (operation_update projects uuid_of user id) d).1.
Proof.
  unfold operation_update. cbn -[_operation].
  destruct (_operation _ _ _ _ _) as [k|[]]; cbn; try done; [|by destruct (endswith _ _)].
  by destruct (tb_get d.1 k).
Qed.

(** Whatever a user requests, every row of a project the user is no member of
    is afterwards as it was, and no such row is added. *)
Theorem requests_stay_in_own_projects user th d :
  user_request user th → releases_match d.2 → keeps_foreign user d (run_thread th d).1.
Proof.
  intros Hth Hm. destruct Hth; unfold forget; rewrite run_thread_map; cbn [fst].
  - by eapply mutation_foreign.
  - apply start_view_foreign.
  - apply cancel_view_foreign.
  - apply update_view_foreign.
Qed.

(** * Queries *)

(** A summary counts what belongs to the project [p] and nothing else: its agents,
    and some of its operations and releases, whose statuses it has read. *)
Definition counts_only (be : OperationsBackend) (p : Project) d (s : ObservabilitySummary) : Prop :=
  let agents := filter (λ a, project_id (agent_project a) = project_id p) agents in
  let failed statuses := count (λ st, str_in st FAILED_STATUSES) statuses in
  su_total_agents s = length agents ∧ su_connected_agents s = connected_agents be agents ∧
  ∃ ops rels : list (pk * string),
    NoDup ops.*1 ∧ NoDup rels.*1 ∧
    (∀ k st, (k, st) ∈ ops → ∃ op, tb_get d.1 k = Some op ∧ op_status op = st ∧
                                   project_id (op_project op) = project_id p) ∧
    (∀ k st, (k, st) ∈ rels → ∃ rl, tb_get d.2.2 k = Some rl ∧ rl_status rl = st ∧ rl_project rl = project_id p) ∧
    su_recent_operations s = length ops ∧ su_recent_releases s = length rels ∧
    su_recent_failures s = failed ops.*2 + failed rels.*2.

(** What a query may show a user. *)
Definition visible (be : OperationsBackend) (user : nat) d (r : query_result) : Prop :=
  let own := member_of projects user in
  match r with
  | Projects ps => ∀ p, p ∈ ps → own (project_id p) = true
  | Agents l => ∀ a, a ∈ l → own (project_id (agent_project a)) = true
  | Operations ks => ∀ k, k ∈ ks → own_at (own_operation own) k d.1
  | Operation k => own_at (own_operation own) k d.1
  | Targets l => ∀ k t, (k, t) ∈ l → tb_get d.2.1 k = Some t ∧ own_target own t = true
  | Releases ks => ∀ k, k ∈ ks → own_at (own_release own) k d.2.2
  | Summary s => ∃ p, p ∈ projects ∧ user ∈ members p ∧ counts_only be p d s
  end.

Lemma _project_own user id p : _project projects user id = Ok p → member_of projects user (project_id p) = true.
Proof. unfold _project. intros H. binds H. by eapply own_project_member. Qed.

Lemma page_own {Row T} `{TableLaws Row T} (own : nat → bool) (project : Row → nat) n key (t : T) p k :
  own p = true → k ∈ take n (tb_select (λ _ r, project r =? p) key t) → own_at (λ r, own (project r)) k t.
Proof.
  intros Hp Hk. eapply (keeps_select (λ r, own (project r)) (λ _ r, project r =? p) key);
    [|by eapply subseteq_take].
  by intros k' r ->%Nat.eqb_eq.
Qed.

Lemma listed_project user p : p ∈ _projects projects user → member_of projects user (project_id p) = true.
Proof.
  unfold _projects. rewrite merge_sort_Permutation. intros [Hu Hp]%list_elem_of_filter.
  unfold member_of. apply existsb_exists. exists p. split; [by apply list_elem_of_In|].
  rewrite Nat.eqb_refl. by apply bool_decide_eq_true.
Qed.

Lemma listed_agent user id l a :
  _agents projects agents user id = Ok l → a ∈ l → member_of projects user (project_id (agent_project a)) = true.
Proof.
  unfold _agents. intros H. binds H. injection H as <-. unfold project_agents. rewrite merge_sort_Permutation.
  intros [-> _]%list_elem_of_filter. by eapply _project_own.
Qed.

Lemma listed_target user id d l k t :
  _targets projects user id d = Ok l → (k, t) ∈ l →
  tb_get d.2.1 k = Some t ∧ own_target (member_of projects user) t = true.
Proof.
  unfold _targets. intros H. binds H. injection H as <-. unfold project_targets. rewrite merge_sort_Permutation.
  intros (k' & Hk' & (t' & Ht & [= -> ->])%fmap_Some)%list_elem_of_omap. split; [done|].
  apply tb_select_elem in Hk' as (t'' & Ht' & E%Nat.eqb_eq). simplify_eq.
  unfold own_target. rewrite E. by eapply _project_own.
Qed.

(** The statuses of a page of rows, with their keys. *)
Lemma page_statuses {Row T} `{TableLaws Row T} (project : Row → nat) (status : Row → string) n key (t : T) p :
  let ks := take n (tb_select (λ _ r, project r =? p) key t) in
  ∃ page : list (pk * string),
    page.*2 = omap (λ k, status <$> tb_get t k) ks ∧ NoDup page.*1 ∧
    ∀ k st, (k, st) ∈ page → ∃ r, tb_get t k = Some r ∧ status r = st ∧ project r = p.
Proof.
  intros ks.
  assert (Hks : ∀ k, k ∈ ks → ∃ r, tb_get t k = Some r ∧ project r = p).
  { intros k Hk%subseteq_take%tb_select_elem. destruct Hk as (r & Hr & E%Nat.eqb_eq). eauto. }
  assert (Hnd : NoDup ks).
  { assert (Hn : NoDup (tb_select (λ _ r, project r =? p) key t)) by apply tb_select_nodup.
    rewrite <- (take_drop n) in Hn. by apply NoDup_app in Hn as [? _]. }
  enough (∃ page : list (pk * string), page.*1 = ks ∧ page.*2 = omap (λ k, status <$> tb_get t k) ks ∧
    ∀ k st, (k, st) ∈ page → ∃ r, tb_get t k = Some r ∧ status r = st ∧ project r = p)
    as (page & Hk & Hs & Hrows) by (exists page; by rewrite Hk).
  clearbody ks. clear Hnd. induction ks as [|k ks IH]; [by exists []; split_and!; [..|intros ?? ?%elem_of_nil]|].
  destruct IH as (page & Hpk & Hps & Hrows); [intros k' Hk'; apply Hks; by right|].
  destruct (Hks k) as (r & Hr & Hp); [by left|]. exists ((k, status r) :: page). cbn. rewrite Hr. cbn.
  rewrite Hpk, Hps. split_and!; [done..|].
  intros k' st [[= -> ->]|?]%elem_of_cons; eauto.
Qed.

Lemma summary_own be telemetry user id d s :
  observability_summary projects agents be telemetry user id d = Ok s →
  ∃ p, p ∈ projects ∧ user ∈ members p ∧ counts_only be p d s.
Proof.
  unfold observability_summary. intros H. binds H. match type of H with context [(?z <? 0)%Z] => destruct (z <? 0)%Z end;
    [done|]. unfold summary_for_project in H.
  match type of H with context [filter ?P projects] => destruct (filter P projects) as [|p ps] eqn:E end; [done|].
  injection H as <-. assert (Hp := list_elem_of_here p ps). rewrite <- E in Hp.
  apply list_elem_of_filter in Hp as [[Hu _] Hp]. exists p. split_and!; [done..|].
  destruct (page_statuses (λ op, project_id (op_project op)) op_status 50 op_created_at d.1 (project_id p))
    as (ops & Ho & Hno & Hops).
  destruct (page_statuses rl_project rl_status 50 rl_created_at d.2.2 (project_id p)) as (rels & Hr & Hnr & Hrels).
  split_and!; [done..|]. exists ops, rels. unfold recent_operations, recent_releases. cbn.
  rewrite <- Ho, <- Hr, !length_fmap. by split_and!.
Qed.

(** C25: whatever a user queries through any field of [Query], the answer holds
    rows of the user's projects only; a summary is that of one of these projects,
    and counts its agents, operations and releases only. *)
Theorem queries_show_own_rows be telemetry user d field args r :
  call (Query projects agents uuid_of be telemetry user d) field args = Some (Ok r) → visible be user d r.
Proof.
  intros (f & Hf & _ & Hr)%call_some. unfold Query in Hf.
  repeat (apply elem_of_cons in Hf as [Hf|Hf]; [root_field_is Hf; cbv beta iota delta [rf_resolve] in Hr|]);
    [..|by apply elem_of_nil in Hf]; binds Hr; injection Hr as <-; cbn.
  - apply listed_project.
  - intros a. by eapply listed_agent.
  - intros k. unfold _operations in *. binds H. injection H as <-.
    apply (page_own _ (λ op, project_id (op_project op))). by eapply _project_own.
  - unfold _operation in *. binds H. by apply (found_own (own_operation (member_of projects user))) in H.
  - intros k t. by eapply listed_target.
  - intros k. unfold _releases in *. binds H. injection H as <-.
    apply (page_own _ rl_project). by eapply _project_own.
  - by eapply summary_own.
Qed.

(** The dashboard always renders, one row for each of the user's projects in the
    order of their slugs; in the demo mode there is none. *)
Lemma dashboard_rows_total be telemetry user d ps :
  (∀ p, p ∈ ps → p ∈ projects ∧ user ∈ members p) →
  ∃ rows, dashboard_rows projects agents be telemetry user d ps = Ok rows ∧ dr_project <$> rows = ps.
Proof.
  induction ps as [|p ps IH]; intros Hps; [by exists []|].
  destruct IH as (rows & Hrows & Hmap); [intros q Hq; apply Hps; by apply list_elem_of_further|].
  destruct (Hps p) as [Hin Hu]; [apply list_elem_of_here|].
  assert (∃ s, summary_for_project be projects agents d.1 d.2.2 telemetry user (project_id p) = Ok s) as [s Hs].
  { unfold summary_for_project.
    destruct (filter (λ q, user ∈ members q ∧ project_id q = project_id p) projects) as [|q qs] eqn:E; [|eauto].
    assert (Hf : p ∈ filter (λ q, user ∈ members q ∧ project_id q = project_id p) projects)
      by by apply list_elem_of_filter.
    rewrite E in Hf. by apply elem_of_nil in Hf. }
  cbn. unfold dashboard_row_of. rewrite Hs. cbn. rewrite Hrows. cbn. eexists. split; [reflexivity|].
  rewrite fmap_cons. cbn. by rewrite Hmap.
Qed.

Lemma dashboard_total debug demo mode be telemetry user d :
  ∃ rows demo_enabled demo_mode,
    dashboard projects agents debug demo mode be telemetry user d = Ok (rows, demo_enabled, demo_mode) ∧
    dr_project <$> rows = if demo_mode : bool then [] else _projects projects user.
Proof.
  unfold dashboard. set (dm := (debug && demo) && _).
  destruct (dashboard_rows_total be telemetry user d (if dm then [] else _projects projects user))
    as (rows & Hr & Hm).
  - destruct dm; [by intros p ?%elem_of_nil|]. intros p. unfold _projects. rewrite merge_sort_Permutation.
    intros [? ?]%list_elem_of_filter. done.
  - rewrite Hr. cbn. eauto.
Qed.
End isolation.

(** * A concrete request *)

(** A finished operation of another project, beside the user's own rows. *)
Definition other_project : Project := mkProject 8 "club" "Club" "current" [2].
Definition other_operation : DiagnosticOperation :=
  mkOperation "op-9" other_project (mkAgent 4 other_project "far" []) 2 "django_health" "failed" NoSummary
    "OFFLINE" 1 1.
Definition shared_db : demo_database :=
  (GTable 3 {[1 := demo_operation "failed"; 2 := other_operation]}, web_target_db.2).

Definition demo_env : environment := mkEnv demo_backend online k8s_checks 10 ("r-1", "aa").
Definition release_args : arguments :=
  [("targetId", JStr demo_public_id); ("image", JStr k8s_image); ("values", JObj [("webReplicas", JInt 2)])].
Definition release_request_thread : thread demo_database () :=
  match call (Mutation [demo_project; other_project] [demo_agent] demo_uuid_of demo_env 1)
          "startKubernetesRelease" release_args with
  | Some th => forget th
  | None => Return tt
  end.

Lemma requests_stay_in_own_projects_witness :
  let d' := (run_thread release_request_thread shared_db).1 in
  (rl_status <$> gt_rows d'.2.2 !! 1) = Some "succeeded" ∧
  tb_get d'.1 2 = Some other_operation ∧
  keeps_foreign [demo_project; other_project] 1 shared_db d'.
Proof.
  intros d'. split; [by vm_compute|].
  assert (H : keeps_foreign [demo_project; other_project] 1 shared_db d').
  { apply (requests_stay_in_own_projects [demo_project; other_project] [demo_agent] demo_uuid_of "/" 1
      release_request_thread shared_db).
    - by apply (ur_mutation _ _ _ _ _ demo_env "startKubernetesRelease" release_args).
    - intros k r t Hk. cbn in Hk. by rewrite lookup_empty in Hk. }
  split; [|exact H]. destruct H as [Ho _]. apply (Ho 2 other_operation); by vm_compute.
Defined.

Lemma queries_show_own_rows_witness :
  let q := Query [demo_project; other_project] [demo_agent] demo_uuid_of demo_backend seen_telemetry 1 shared_db in
  let summary := mkSummary 1 1 1 0 1 false "disabled" in
  let shown := visible [demo_project; other_project] [demo_agent] demo_backend 1 shared_db in
  call q "diagnosticOperations" [("projectId", JStr "7")] = Some (Ok (Operations [1])) ∧
  call q "observabilitySummary" [("projectId", JStr "8")] = Some (Err (OtherError "Project.DoesNotExist")) ∧
  call q "observabilitySummary" [("projectId", JStr "7")] = Some (Ok (Summary summary)) ∧
  shown (Operations [1]) ∧ shown (Summary summary).
Proof.
  intros q summary shown.
  assert (H : call q "diagnosticOperations" [("projectId", JStr "7")] = Some (Ok (Operations [1])))
    by by vm_compute.
  assert (Hs : call q "observabilitySummary" [("projectId", JStr "7")] = Some (Ok (Summary summary)))
    by by vm_compute.
  split; [exact H|]. split; [by vm_compute|]. split; [exact Hs|]. split.
  - apply (queries_show_own_rows [demo_project; other_project] [demo_agent] demo_uuid_of demo_backend
      seen_telemetry 1 shared_db _ _ _ H).
  - apply (queries_show_own_rows [demo_project; other_project] [demo_agent] demo_uuid_of demo_backend
      seen_telemetry 1 shared_db _ _ _ Hs).
Defined.
