(* ===== verification/Cli.v ===== *)
(** The command line: [cli/djangoops/cli.py], with the file operations of
    [config.py] and [compose.py].

    The parsed arguments are the commands; files are a map from paths to texts.
    Opening, writing, reading and removing may fail, and a write may be interrupted
    after any number of characters: a [disk] says when.  The remote operations are those
    of [Deploy], [Health] and [Backup]. *)

From S2P Require Import Prelude Text Url Json Builtins Dict Config Integrations Compose Shell Deploy Health Script Backup.

Open Scope string_scope.
Open Scope list_scope.
Open Scope nat_scope.

Definition CONFIG_FILENAME : string := "djangoops.yaml".
Definition COMPOSE_FILENAME : string := "docker-compose.yml".
Definition DEFAULT_BACKUP_SCHEDULE : string := "17 2 * * *".

(** * Files *)

(** What ends a command early: the operating system, an error of the program, or
    an interruption, which is no [Exception]. *)
Inductive failure :=
| FileExists
| OSError (message : string)
| Raised (e : eco_error)
| Interrupted.

(** How a write ends early. *)
Inductive write_end := WriteFails (message : string) | WriteInterrupted.

Record disk := mkDisk {
  open_fails : string → option string;
  read_fails : string → option string;
  unlink_fails : string → option string;
  write_stops : string → string → option (nat * write_end)
}.

Abbreviation files := (gmap string string).

Definition failed_write (w : write_end) : failure :=
  match w with WriteFails message => OSError message | WriteInterrupted => Interrupted end.

(** Reading in text mode: carriage returns become line feeds. *)
Fixpoint universal_newlines (s : string) : string :=
  match s with
  | EmptyString => EmptyString
  | String c rest =>
      if Ascii.eqb c (char 13) then
        String (char 10)
          (match rest with
           | String c' rest' => if Ascii.eqb c' (char 10) then universal_newlines rest' else universal_newlines rest
           | EmptyString => EmptyString
           end)
      else String c (universal_newlines rest)
  end.

Section disk.
Context (dk : disk).

(** [write_new_text]: an exclusive creation; what a failed write leaves is removed,
    unless that fails too: then its exception is the one that is raised. *)
Definition write_new_text (path rendered : string) (fs : files) : files * result failure () :=
  match open_fails dk path, fs !! path with
  | Some message, _ => (fs, Err (OSError message))
  | None, Some _ => (fs, Err FileExists)
  | None, None =>
      match write_stops dk path rendered with
      | None => (<[path := rendered]> fs, Ok ())
      | Some (n, WriteFails message) =>
          let fs := <[path := str_take n rendered]> fs in
          match unlink_fails dk path with
          | None => (delete path fs, Err (OSError message))
          | Some message => (fs, Err (OSError message))
          end
      | Some (n, WriteInterrupted) => (<[path := str_take n rendered]> fs, Err Interrupted)
      end
  end.

(** [path.write_text(...)]: the file is truncated, then written. *)
Definition write_text (path rendered : string) (fs : files) : files * result failure () :=
  match open_fails dk path with
  | Some message => (fs, Err (OSError message))
  | None =>
      match write_stops dk path rendered with
      | None => (<[path := rendered]> fs, Ok ())
      | Some (n, w) => (<[path := str_take n rendered]> fs, Err (failed_write w))
      end
  end.

(** [path.read_text(...)]: [None] when there is no file. *)
Definition read_file (path : string) (fs : files) : result failure (option string) :=
  match read_fails dk path with
  | Some message => Err (OSError message)
  | None => Ok (universal_newlines <$> fs !! path)
  end.

Definition read_text (path : string) (fs : files) : result failure string :=
  text ← read_file path fs;
  match text with
  | Some text => Ok text
  | None => Err (OSError ("[Errno 2] No such file or directory: " +:+ str_repr path))
  end.
End disk.

Definition raised {A} (m : result eco_error A) : result failure A :=
  match m with Ok a => Ok a | Err e => Err (Raised e) end.
Definition raised_py {A} (m : result exn A) : result failure A := raised (as_eco m).

(** * Commands *)

Record ssh_args := mkSsh {
  sa_host : string;
  sa_user : string;
  sa_port : Z;
  sa_remote_base : string;
  sa_identity_file : option string
}.

Record init_args := mkInit {
  in_project_name : option string;
  in_django_module : string;
  in_hostname : string;
  in_acme_email : string;
  in_storage_endpoint_url : string;
  in_storage_region : option string;
  in_static_bucket : string;
  in_media_bucket : string;
  in_backup_bucket : string;
  in_backup_schedule : string
}.

Inductive backup_command :=
| BackupSchedule | BackupRun | BackupList | BackupRestore (backup_id : string).

(** The namespace [parse_args] returns, by [args.command]. *)
Inductive command :=
| Init (args : init_args)
| ConfigUpgrade (config backup_bucket backup_schedule : string)
| ComposeStack (config output : string)
| DeployStack (target : ssh_args) (config compose_file : string)
| HealthCheckup (target : ssh_args) (compose_file : string) (json : bool)
| BackupCommand (what : backup_command) (target : ssh_args) (config compose_file : string).

(** ** The parser

    What [build_parser] declares: of each command the options with their defaults.
    Splitting the argument vector into options and values is argparse's; [given]
    holds what it found, the last value of an option given twice. *)
Record option_decl := mkOption { od_name : string; od_required : bool; od_default : option string }.

Definition required (name : string) : option_decl := mkOption name true None.
Definition optional_with (name value : string) : option_decl := mkOption name false (Some value).
Definition optional_flag (name : string) : option_decl := mkOption name false None.

Definition _add_ssh_target_args : list option_decl :=
  [required "host"; required "user"; optional_with "port" "22"; required "remote-base";
   optional_flag "identity-file"].
Definition _add_config_arg : list option_decl := [optional_with "config" CONFIG_FILENAME].
Definition _add_compose_file_arg : list option_decl := [optional_with "compose-file" COMPOSE_FILENAME].

Definition build_parser : list (string * list option_decl) :=
  [("init",
     [optional_flag "project-name"; required "django-module"; required "hostname"; required "acme-email";
      required "storage-endpoint-url"; optional_flag "storage-region"; required "static-bucket";
      required "media-bucket"; required "backup-bucket";
      optional_with "backup-schedule" DEFAULT_BACKUP_SCHEDULE]);
   ("config-upgrade",
     _add_config_arg ++ [required "backup-bucket"; optional_with "backup-schedule" DEFAULT_BACKUP_SCHEDULE]);
   ("compose", _add_config_arg ++ [optional_with "output" COMPOSE_FILENAME]);
   ("deploy", _add_ssh_target_args ++ _add_config_arg ++ _add_compose_file_arg);
   ("health", _add_ssh_target_args ++ _add_compose_file_arg ++ [optional_flag "json"]);
   ("backup-schedule", _add_ssh_target_args ++ _add_config_arg ++ _add_compose_file_arg);
   ("backup-run", _add_ssh_target_args ++ _add_config_arg ++ _add_compose_file_arg);
   ("backup-list", _add_ssh_target_args ++ _add_config_arg ++ _add_compose_file_arg);
   ("backup-restore",
     _add_ssh_target_args ++ _add_config_arg ++ _add_compose_file_arg ++ [required "backup_id"])].

(** Options are known, and those required are given. *)
Definition options_ok (declared : list option_decl) (given : list (string * string)) : bool :=
  forallb (λ kv : string * string, str_in kv.1 (od_name <$> declared)) given &&
  forallb (λ d, negb (od_required d) || dict_has given (od_name d)) declared.

(** [args.<name>], with its default. *)
Definition arg_option (declared : list option_decl) (given : list (string * string)) (name : string)
    : option string :=
  match dict_get given name with
  | Some value => Some value
  | None => match find (λ d, String.eqb (od_name d) name) declared with
            | Some d => od_default d
            | None => None
            end
  end.

(** The parsed command; [None] when argparse ends the process with its usage. *)
Definition parse_args (name : string) (given : list (string * string)) : option command :=
  declared ← dict_get build_parser name;
  if negb (options_ok declared given) then None
  else
    let opt := arg_option declared given in
    let arg key := default "" (opt key) in
    let ssh :=
      match int_of (arg "port") with
      | Ok port => Some (mkSsh (arg "host") (arg "user") port (arg "remote-base")
                           (path_as_posix <$> opt "identity-file"))
      | Err _ => None
      end in
    let backup what := target ← ssh; Some (BackupCommand what target (arg "config") (arg "compose-file")) in
    if String.eqb name "init" then
      Some (Init (mkInit (opt "project-name") (arg "django-module") (arg "hostname") (arg "acme-email")
              (arg "storage-endpoint-url") (opt "storage-region") (arg "static-bucket") (arg "media-bucket")
              (arg "backup-bucket") (arg "backup-schedule")))
    else if String.eqb name "config-upgrade" then
      Some (ConfigUpgrade (arg "config") (arg "backup-bucket") (arg "backup-schedule"))
    else if String.eqb name "compose" then Some (ComposeStack (arg "config") (arg "output"))
    else if String.eqb name "deploy" then
      target ← ssh; Some (DeployStack target (arg "config") (arg "compose-file"))
    else if String.eqb name "health" then
      target ← ssh; Some (HealthCheckup target (arg "compose-file") (dict_has given "json"))
    else if String.eqb name "backup-schedule" then backup BackupSchedule
    else if String.eqb name "backup-run" then backup BackupRun
    else if String.eqb name "backup-list" then backup BackupList
    else if String.eqb name "backup-restore" then backup (BackupRestore (arg "backup_id"))
    else None.

(** What the process leaves behind: its exit code and the lines of both streams,
    argparse's usage error, or the exception that ends it. *)
Inductive outcome :=
| Exits (code : Z) (out err : list string)
| UsageError
| Escapes (f : failure).

(** The [except] clauses: [OSError], [ValueError] (an [IntegrationError] is one)
    and, for the remote commands, the operational error, a [RuntimeError]. *)
Definition message_of (operational : bool) (f : failure) : option string :=
  match f with
  | OSError message => Some message
  | Raised (IntegrationError _ message) | Raised (PyError (ValueError message)) => Some message
  | Raised (PyError (RuntimeError message)) => if operational then Some message else None
  | _ => None
  end.

Definition report (operational : bool) (exists_message : option string) (r : result failure (Z * list string))
    : outcome :=
  match r with
  | Ok (code, out) => Exits code out []
  | Err f =>
      match f, exists_message with
      | FileExists, Some message => Exits 2 [] ["error: " +:+ message]
      | _, _ =>
          match message_of operational f with
          | Some message => Exits 2 [] ["error: " +:+ message]
          | None => Escapes f
          end
      end
  end.

Section main.
Context (py : Yaml) (checks : UrlChecks) (repr : yaml → string) (dk : disk).
Context (cwd : string).

(** The name of the current directory, and a path resolved against it. *)
Definition cwd_name : string := List.last (path_segments cwd) "".
Definition resolve_path (path : string) : string :=
  path_as_posix (if path_is_absolute path then path else cwd +:+ "/" +:+ path).
Definition path_name (path : string) : string := List.last (path_segments path) "".

Definition _target_from_args (is_file : string → bool) (args : ssh_args) : result exn DeploymentTarget :=
  create_target is_file (sa_host args) (sa_user args) (sa_port args) (sa_remote_base args)
    (sa_identity_file args).

(** [load_project_config] of a path. *)
Definition load_project_at (path : string) (fs : files)
    : result failure (DjangoOpsConfig * list IntegrationConfig) :=
  text ← read_file dk (resolve_path path) fs;
  raised (load_project_config py checks repr (path_name path) text).

Definition load_config_at (path : string) (fs : files) : result failure DjangoOpsConfig :=
  loaded ← load_project_at path fs; Ok loaded.1.

(** [generate_compose]. *)
Definition generate_compose (config_path output_path : string) (fs : files) : files * result failure () :=
  match
    loaded ← load_project_at config_path fs;
    raised (render_compose py loaded.1 loaded.2)
  with
  | Ok rendered => write_new_text dk (resolve_path output_path) rendered fs
  | Err f => (fs, Err f)
  end.

Definition init_config (args : init_args) : result exn DjangoOpsConfig :=
  create checks (default cwd_name (in_project_name args)) (in_django_module args) (in_hostname args)
    (in_acme_email args) (in_storage_endpoint_url args) (in_storage_region args) (in_static_bucket args)
    (in_media_bucket args) (in_backup_schedule args) (in_backup_bucket args) "djangoops-backups".

(** The lines a health report prints. *)
Definition report_lines (r : HealthReport) : list string :=
  ((λ c, "[" +:+ upper (hc_status c) +:+ "] " +:+ hc_name c) <$> r)
  ++ ["Overall: " +:+ upper (overall_status r)].

(** The outside world of the remote commands: SSH, the clock, the process id, the
    tree under the current directory and the position of a path in it. *)
Context (ssh : list call → call → ssh_result) (run : list string → completed) (remote : list string → capture).
Context (now : utc_time) (pid : Z) (tree : node) (relative : string → option string).

Definition exn_of (e : eco_error) : exn :=
  match e with IntegrationError _ message => ValueError message | PyError e => e end.

Definition is_file_in (fs : files) (path : string) : bool :=
  match fs !! resolve_path path with Some _ => true | None => false end.

(** [deploy_project] called with paths. *)
Definition deploy_at (args : ssh_args) (config compose_file : string) (fs : files) : result failure string :=
  target ← raised_py (_target_from_args (is_file_in fs) args);
  text ← read_file dk (resolve_path config) fs;
  let loaded := match load_config py checks repr (path_name config) text with
                | Ok c => Ok c
                | Err e => Err (exn_of e)
                end in
  raised_py (deploy_project ssh loaded (path_name compose_file) (is_file_in fs compose_file)
               (relative (resolve_path compose_file)) (relative (resolve_path config))
               cwd tree target (Some now) pid []).2.

(** The lines a backup command prints. *)
Definition perform_backup (what : backup_command) (c : DjangoOpsConfig) (target : DeploymentTarget)
    (compose_file : string) : result exn (list string) :=
  match what with
  | BackupSchedule =>
      _ ← (install_backup_schedule remote c target compose_file).2; Ok ["Backup schedule installed"]
  | BackupRun => id ← (run_backup remote target (Some now)).2; Ok [id]
  | BackupList => records ← (list_backups remote c target).2; Ok (map backup_id records)
  | BackupRestore id =>
      _ ← (restore_backup remote c target id compose_file).2; Ok ["Restored backup " +:+ id]
  end.

Definition backup_at (what : backup_command) (args : ssh_args) (config compose_file : string) (fs : files)
    : result failure (list string) :=
  c ← load_config_at config fs;
  target ← raised_py (_target_from_args (is_file_in fs) args);
  raised_py (perform_backup what c target compose_file).

(** [write_new_config]. *)
Definition write_new_config (path : string) (config : DjangoOpsConfig) (fs : files) : files * result failure () :=
  write_new_text dk path (render_config py config) fs.

(** The branches of [main]: the files it leaves and the outcome. *)
Definition main_command (c : command) (fs : files) : files * outcome :=
  match c with
  | Init args =>
      let target := cwd +:+ "/" +:+ CONFIG_FILENAME in
      let '(fs, r) :=
        match raised_py (init_config args) with
        | Ok config => write_new_config (resolve_path CONFIG_FILENAME) config fs
        | Err f => (fs, Err f)
        end in
      (fs, report false (Some (CONFIG_FILENAME +:+ " already exists; refusing to overwrite it"))
             (_ ← r; Ok (0%Z, ["Created " +:+ path_as_posix target])))
  | ConfigUpgrade config bucket schedule =>
      let '(fs, r) :=
        match
          original ← read_text dk (resolve_path config) fs;
          raised_py (upgrade_config py checks repr original bucket schedule)
        with
        | Ok rendered => write_text dk (resolve_path config) rendered fs
        | Err f => (fs, Err f)
        end in
      (fs, report false None
             (_ ← r; Ok (0%Z, ["Upgraded " +:+ path_as_posix config +:+ " to schema version 3"])))
  | ComposeStack config output =>
      let '(fs, r) := generate_compose config output fs in
      (fs, report false (Some (path_as_posix output +:+ " already exists; refusing to overwrite it"))
             (_ ← r; Ok (0%Z, ["Created " +:+ path_as_posix output])))
  | DeployStack target config compose_file =>
      (fs, report true None
             (id ← deploy_at target config compose_file fs; Ok (0%Z, ["Deployed release " +:+ id])))
  | HealthCheckup args compose_file json =>
      (fs, report true None
             (target ← raised_py (_target_from_args (is_file_in fs) args);
              r ← raised_py (health_project run target compose_file);
              Ok (if healthy r then 0%Z else 1%Z, if json then [report_json r] else report_lines r)))
  | BackupCommand what target config compose_file =>
      (fs, report true None (lines ← backup_at what target config compose_file fs; Ok (0%Z, lines)))
  end.

Definition main (name : string) (given : list (string * string)) (fs : files) : files * outcome :=
  match parse_args name given with
  | Some c => main_command c fs
  | None => (fs, UsageError)
  end.
End main.
