(* ===== verification/CliProps.v ===== *)
(** The properties of the command line ([cli/djangoops/cli.py]): what the commands
    that create files leave behind, and how [init] and [compose] fit together. *)

From S2P Require Import Prelude Text Url Json Builtins Dict Config ConfigProps Integrations IntegrationsProps Compose ComposeProps Shell Deploy Health Script Backup Cli.

Open Scope string_scope.
Open Scope list_scope.
Open Scope nat_scope.

Section props.
Context (py : Yaml) (checks : UrlChecks) (repr : yaml → string) (dk : disk) (cwd : string).
Context (ssh : list call → call → ssh_result) (run : list string → completed) (remote : list string → capture).
Context (now : utc_time) (pid : Z) (tree : node) (relative : string → option string).
Implicit Types (fs : files).

Abbreviation djangoops := (main_command py checks repr dk cwd ssh run remote now pid tree relative).

(** * Files that are created *)

(** The file a command creates and the text it is to hold. *)
Definition creates (c : command) fs : option (string * result failure string) :=
  match c with
  | Init args =>
      Some (resolve_path cwd CONFIG_FILENAME,
            config ← raised_py (init_config checks cwd args); Ok (render_config py config))
  | ComposeStack config output =>
      Some (resolve_path cwd output,
            loaded ← load_project_at py checks repr dk cwd config fs;
            raised (render_compose py loaded.1 loaded.2))
  | _ => None
  end.

(** What a write that failed has left, because removing it failed as well. *)
Definition left_behind fs (path : string) (text : result failure string) fs' (err : list string) : Prop :=
  ∃ t n w m, text = Ok t ∧ write_stops dk path t = Some (n, WriteFails w) ∧ unlink_fails dk path = Some m ∧
    fs !! path = None ∧ fs' = <[path := str_take n t]> fs ∧ err = ["error: " +:+ m].

(** A new file is complete, or not there, unless the process was interrupted or
    cleaning up failed. *)
Definition all_or_nothing fs (path : string) (text : result failure string) fs' (o : outcome) : Prop :=
  match o with
  | Exits 0 out err => ∃ t, text = Ok t ∧ fs !! path = None ∧ fs' = <[path := t]> fs ∧ err = []
  | Exits code out err => code = 2%Z ∧ out = [] ∧ (fs' = fs ∨ left_behind fs path text fs' err)
  | Escapes Interrupted =>
      ∃ t n, text = Ok t ∧ fs !! path = None ∧ fs' = <[path := str_take n t]> fs
  | UsageError => False
  | Escapes _ => fs' = fs
  end.

Lemma write_new_text_spec path t fs :
  let '(fs', r) := write_new_text dk path t fs in
  match r with
  | Ok _ => fs !! path = None ∧ fs' = <[path := t]> fs
  | Err Interrupted => fs !! path = None ∧ ∃ n, fs' = <[path := str_take n t]> fs
  | Err (OSError m) => fs' = fs ∨ left_behind fs path (Ok t) fs' ["error: " +:+ m]
  | Err _ => fs' = fs
  end.
Proof.
  unfold write_new_text. destruct (open_fails dk path); [by left|].
  destruct (fs !! path) eqn:E; [done|].
  destruct (write_stops dk path t) as [[n [w|]]|] eqn:Ew; [|by eauto|done].
  destruct (unlink_fails dk path) as [m|] eqn:Eu; [right|left; by rewrite delete_insert_id].
  by exists t, n, w, m.
Qed.

(** What a command makes of writing its file. *)
Lemma write_all_or_nothing path (text : result failure string) fs exists_message line :
  (∀ f, text = Err f → f ≠ Interrupted) →
  let '(fs', r) := match text with Ok t => write_new_text dk path t fs | Err f => (fs, Err f) end in
  all_or_nothing fs path text fs' (report false (Some exists_message) (_ ← r; Ok (0%Z, [line]))).
Proof.
  intros Hnot. destruct text as [t|f].
  - pose proof (write_new_text_spec path t fs) as H. destruct (write_new_text dk path t fs) as [fs' [u|f]].
    + destruct H. exists t. done.
    + destruct f as [| |[code m|[]]|]; cbn; split_and?; auto; destruct H as [? [n ->]]; by exists t, n.
  - specialize (Hnot f eq_refl). destruct f as [| |[code m|[]]|]; cbn; split_and?; auto; done.
Qed.

Lemma raised_not_interrupted {A} (m : result eco_error A) f : raised m = Err f → f ≠ Interrupted.
Proof. by destruct m; intros [= <-]. Qed.

Lemma loading_not_interrupted config fs f :
  load_project_at py checks repr dk cwd config fs = Err f → f ≠ Interrupted.
Proof.
  unfold load_project_at, read_file. destruct (read_fails dk _); cbn; [by intros [= <-]|].
  apply raised_not_interrupted.
Qed.

(** C32: [init] and [compose] never overwrite a file, touch no other, and leave the
    new one complete when they report success; when they report an error nothing
    has changed, unless the write failed and removing what it had left failed too:
    then the first part of the new file stays.  An interruption leaves a part as
    well. *)
Theorem created_files_are_complete c fs path text :
  creates c fs = Some (path, text) →
  all_or_nothing fs path text (djangoops c fs).1 (djangoops c fs).2.
Proof.
  destruct c as [args| |config output| | |]; cbn [creates]; intros [= <- <-]; unfold main_command, write_new_config.
  - pose proof (write_all_or_nothing (resolve_path cwd CONFIG_FILENAME)
      (config ← raised_py (init_config checks cwd args); Ok (render_config py config)) fs
      (CONFIG_FILENAME +:+ " already exists; refusing to overwrite it")
      ("Created " +:+ path_as_posix (cwd +:+ "/" +:+ CONFIG_FILENAME))) as H.
    destruct (raised_py (init_config checks cwd args)) as [config|f] eqn:E; cbn [mbind result_bind] in *.
    + destruct (write_new_text _ _ _ _) as [fs' r]. by apply H.
    + apply H. intros f' [= <-]. by eapply raised_not_interrupted.
  - pose proof (write_all_or_nothing (resolve_path cwd output)
      (loaded ← load_project_at py checks repr dk cwd config fs; raised (render_compose py loaded.1 loaded.2)) fs
      (path_as_posix output +:+ " already exists; refusing to overwrite it")
      ("Created " +:+ path_as_posix output)) as H.
    unfold generate_compose. destruct (_ ≫= _) as [t|f] eqn:E; cbn [fst snd] in *.
    + destruct (write_new_text _ _ _ _) as [fs' r]. by apply H.
    + apply H. intros f' [= <-]. apply bind_err in E as [E|(loaded & _ & E)];
        [by eapply loading_not_interrupted|by eapply raised_not_interrupted].
Qed.

(** * From nothing to a Compose file *)

Lemma universal_newlines_id s : char_in (char 13) s = false → universal_newlines s = s.
Proof.
  induction s as [|c s IH]; [done|]. cbn -[char Ascii.eqb]. rewrite (Ascii.eqb_sym c).
  destruct (Ascii.eqb (char 13) c); cbn; [discriminate|]. intros H. by rewrite IH.
Qed.

(** Nothing goes wrong with the files. *)
Record reliable : Prop := {
  rl_open : ∀ path, open_fails dk path = None;
  rl_read : ∀ path, read_fails dk path = None;
  rl_write : ∀ path text, write_stops dk path text = None
}.

Lemma reliable_creation path text fs :
  reliable → fs !! path = None → write_new_text dk path text fs = (<[path := text]> fs, Ok ()).
Proof. intros [Ho _ Hw] Hp. unfold write_new_text. by rewrite Ho, Hp, Hw. Qed.

Lemma reliable_loading `{!YamlLaws py} c config fs :
  reliable → from_mapping checks repr (to_mapping c) = Ok c → char_in (char 13) (render_config py c) = false →
  fs !! resolve_path cwd config = Some (render_config py c) →
  load_project_at py checks repr dk cwd config fs = Ok (c, []).
Proof.
  intros [_ Hr _] Hc Hcr Hfs. unfold load_project_at, read_file. rewrite Hr, Hfs. cbn.
  rewrite universal_newlines_id by done.
  pose proof (rendered_parses py checks repr c [] Hc eq_refl) as H.
  unfold load_project_config. change (render_config py c) with (render_project_config py c []).
  rewrite H; [done|]. by intros i ?%elem_of_nil.
Qed.

(** After a successful [init] in an empty place, [compose] reads the very
    configuration that was created and writes its Compose document, which is
    closed; both commands exit with 0. *)
Theorem init_then_compose `{!YamlLaws py} args output fs c :
  reliable → init_config checks cwd args = Ok c →
  char_in (char 13) (render_config py c) = false →
  let config_path := resolve_path cwd CONFIG_FILENAME in
  let output_path := resolve_path cwd output in
  output_path ≠ config_path → fs !! config_path = None → fs !! output_path = None →
  ∃ doc, compose_document c [] = Ok doc ∧ closed c doc ∧
    let '(fs1, o1) := djangoops (Init args) fs in
    let '(fs2, o2) := djangoops (ComposeStack CONFIG_FILENAME output) fs1 in
    fs1 !! config_path = Some (render_config py c) ∧ fs2 = <[output_path := safe_dump py doc]> fs1 ∧
    o1 = Exits 0 ["Created " +:+ path_as_posix (cwd +:+ "/" +:+ CONFIG_FILENAME)] [] ∧
    o2 = Exits 0 ["Created " +:+ path_as_posix output] [].
Proof.
  intros Hrel Hc Hcr config_path output_path Hne Hconf Hout.
  destruct (compose_total checks c YNull [] eq_refl) as (doc & Hdoc & Hclosed).
  exists doc. split_and!; [done|done|]. unfold main_command, raised_py, as_eco. rewrite Hc. cbn [raised].
  unfold write_new_config. rewrite reliable_creation by done. cbn [mbind result_bind report].
  apply (create_again _ repr) in Hc as [Hagain _].
  unfold generate_compose.
  rewrite (reliable_loading c CONFIG_FILENAME) by (done || apply lookup_insert_eq).
  cbn [mbind result_bind fst snd]. unfold render_compose. rewrite Hdoc. cbn [mbind result_bind raised].
  rewrite reliable_creation; [|done|by rewrite lookup_insert_ne].
  split_and!; [apply lookup_insert_eq|done..].
Qed.
End props.

(** * Concrete runs *)

Definition good_disk : disk := mkDisk (λ _, None) (λ _, None) (λ _, None) (λ _ _, None).
(** A disk that is full after ten characters. *)
Definition full_disk : disk := mkDisk (λ _, None) (λ _, None) (λ _, None)
  (λ _ text, if 10 <? String.length text then Some (10, WriteFails "[Errno 28] No space left on device") else None).

Definition demo_init : init_args :=
  mkInit None "config.settings" "Shop.Example.COM." "ops@example.com" "https://s3.example.com:9000/" (Some "eu-1")
    "shop-static" "shop-media" "shop-backups" DEFAULT_BACKUP_SCHEDULE.

Definition demo_main (dk : disk) (c : command) (fs : files) : files * outcome :=
  main_command json_yaml config_checks config_repr dk "/home/ops/shop" (λ _ _, NotStarted) (λ _, RunNotStarted)
    (λ _, CaptureNotStarted) (mkTime 2026 3 9 7 5 0) 42 (Dir []) (λ p, Some p) c fs.

Definition demo_old : string := safe_dump json_yaml (YMap (without_backup (YInt 2))).

(** The defaults of the parser. *)
Lemma default_paths : parse_args "compose" [] = Some (ComposeStack CONFIG_FILENAME COMPOSE_FILENAME).
Proof. by vm_compute. Qed.

Lemma parsed_init :
  parse_args "init"
    [("django-module", "config.settings"); ("hostname", "Shop.Example.COM."); ("acme-email", "ops@example.com");
     ("storage-endpoint-url", "https://s3.example.com:9000/"); ("storage-region", "eu-1");
     ("static-bucket", "shop-static"); ("media-bucket", "shop-media"); ("backup-bucket", "shop-backups")]
  = Some (Init demo_init).
Proof. by vm_compute. Qed.

(** A write that fails during [config-upgrade] leaves the configuration cut off. *)
Lemma failed_upgrade_loses_configuration :
  let '(fs, o) := demo_main full_disk (ConfigUpgrade "djangoops.yaml" "shop-backups" DEFAULT_BACKUP_SCHEDULE)
                    {["/home/ops/shop/djangoops.yaml" := demo_old]} in
  o = Exits 2 [] ["error: [Errno 28] No space left on device"] ∧
  (String.length <$> fs !! "/home/ops/shop/djangoops.yaml") = Some 10 ∧ 10 < String.length demo_old.
Proof. vm_compute. split_and!; try reflexivity. lia. Qed.

(** A disk that is remounted read-only while the file is written. *)
Definition lost_disk : disk := mkDisk (λ _, None) (λ _, None) (λ _, Some "[Errno 30] Read-only file system")
  (λ _ _, Some (10, WriteFails "[Errno 5] Input/output error")).

Lemma created_files_are_complete_witness :
  (let '(fs, o) := demo_main full_disk (Init demo_init) ∅ in
   fs = ∅ ∧ o = Exits 2 [] ["error: [Errno 28] No space left on device"]) ∧
  let '(fs, o) := demo_main lost_disk (Init demo_init) ∅ in
  o = Exits 2 [] ["error: [Errno 30] Read-only file system"] ∧ (String.length <$> fs !! "/home/ops/shop/djangoops.yaml") = Some 10.
Proof.
  assert (Ho : (demo_main full_disk (Init demo_init) ∅).2 = Exits 2 [] ["error: [Errno 28] No space left on device"])
    by (vm_compute; reflexivity).
  pose proof (created_files_are_complete json_yaml config_checks config_repr full_disk "/home/ops/shop"
    (λ _ _, NotStarted) (λ _, RunNotStarted) (λ _, CaptureNotStarted) (mkTime 2026 3 9 7 5 0) 42 (Dir [])
    (λ p, Some p) (Init demo_init) ∅ _ _ eq_refl) as H.
  split; [|vm_compute; split; reflexivity].
  fold (demo_main full_disk (Init demo_init) ∅) in H.
  destruct (demo_main full_disk (Init demo_init) ∅) as [fs o]. cbn [fst snd] in *. subst o.
  destruct H as (_ & _ & [->|(t & n & w & m & _ & _ & Hm & _)]); [split; reflexivity|discriminate Hm].
Defined.

Lemma init_then_compose_witness :
  ∃ doc, compose_document demo_config [] = Ok doc ∧ closed demo_config doc ∧
    let '(fs1, o1) := demo_main good_disk (Init demo_init) ∅ in
    let '(fs2, o2) := demo_main good_disk (ComposeStack CONFIG_FILENAME COMPOSE_FILENAME) fs1 in
    fs1 !! "/home/ops/shop/djangoops.yaml" = Some (render_config json_yaml demo_config) ∧
    fs2 = <["/home/ops/shop/docker-compose.yml" := safe_dump json_yaml doc]> fs1 ∧
    o1 = Exits 0 ["Created /home/ops/shop/djangoops.yaml"] [] ∧ o2 = Exits 0 ["Created docker-compose.yml"] [].
Proof.
  apply (init_then_compose json_yaml config_checks config_repr good_disk "/home/ops/shop"
    (λ _ _, NotStarted) (λ _, RunNotStarted) (λ _, CaptureNotStarted) (mkTime 2026 3 9 7 5 0) 42 (Dir [])
    (λ p, Some p) demo_init COMPOSE_FILENAME ∅ demo_config); try (vm_compute; reflexivity).
  - done.
  - by vm_compute.
Defined.
