(* ===== verification/Ecosystem.v ===== *)
(** The ecosystem view and the gateway's settings: [controlplane/ecosystem.py],
    [controlplane/ecosystem_views.py] and [controlplane/config.py].

    [json.loads] is an argument, its values those of [yaml], which has floats. *)

From S2P Require Import Prelude Text Url Json Builtins Dict Config Integrations Gateway Store Models Services Telemetry Kubernetes Graphql Schema.

Open Scope string_scope.
Open Scope list_scope.
Open Scope nat_scope.

(** * The catalogue *)

Record EcosystemIntegrationStatus := mkStatus {
  es_name : string;
  es_versions : list string;
  es_capabilities : list string
}.

Section ecosystem.
Context (projects : list Project).

Definition project_catalog (user project_id : nat) : result exn (list EcosystemIntegrationStatus) :=
  _ ← own_project projects user (Z.of_nat project_id);
  Ok ((λ d, mkStatus (df_name d) (df_versions d) (capability_value <$> df_capabilities d))
      <$> definitions BUILTIN_REGISTRY).

(** The results in order; [clock] gives the two readings for each. *)
Fixpoint evaluate_all (context : list (string * string)) (clock : nat → Z * Z) (index : nat)
    (integrations : list IntegrationConfig) : result eco_error (list IntegrationResult) :=
  match integrations with
  | [] => Ok []
  | i :: rest =>
      r ← evaluate_integration i (Some context) DEFAULT_BUDGET_MS (clock index).1 (clock index).2;
      results ← evaluate_all context clock (S index) rest;
      Ok (r :: results)
  end.

Definition evaluate_project_integrations (clock : nat → Z * Z) (user project_id : nat)
    (integrations : list IntegrationConfig) : result eco_error (list IntegrationResult) :=
  project ← as_eco (own_project projects user (Z.of_nat project_id));
  evaluate_all [("project", slug project)] clock 0 integrations.

(** * The view *)

Context (json_loads : string → result exn yaml) (checks : UrlChecks).

Definition json_strings (l : list string) : json := JArr (JStr <$> l).

Definition _catalog_payload (user project_id : nat) : result exn json :=
  items ← project_catalog user project_id;
  Ok (JArr ((λ item, JObj [("name", JStr (es_name item)); ("versions", json_strings (es_versions item));
                           ("capabilities", json_strings (es_capabilities item))]) <$> items)).

Definition result_payload (r : IntegrationResult) : json :=
  JObj [("name", JStr (ir_name r)); ("version", JStr (ir_version r)); ("status", JStr (ir_status r));
        ("capabilities", json_strings (ir_capabilities r));
        ("summary", JObj ((λ kv : string * string, (kv.1, JStr kv.2)) <$> ir_summary r))].

Definition error_code (status : nat) (code : string) : response :=
  mkResponse status (JObj [("error", JObj [("code", JStr code)])]).

(** The two methods; a body is posted. *)
Inductive ecosystem_request := GetCatalog | PostEvaluate (body : string).

Definition evaluate_body (clock : nat → Z * Z) (user project_id : nat) (body : string)
    : result eco_error response :=
  payload ← as_eco (json_loads (if String.eqb body "" then "{}" else body));
  match payload with
  | YMap entries =>
      integrations ← parse_integrations checks (default (YSeq []) (map_get entries "integrations"));
      results ← evaluate_project_integrations clock user project_id integrations;
      Ok (mkResponse 200 (JObj [("integrations", JArr (result_payload <$> results))]))
  | _ => Ok (error_code 400 "INVALID_REQUEST")
  end.

(** The [except] clauses; what they do not name ends as a server error. *)
Definition handle (r : result eco_error response) : result exn response :=
  match r with
  | Ok answer => Ok answer
  | Err (IntegrationError code _) => Ok (error_code 400 code)
  | Err (PyError (OtherError name)) =>
      if endswith ".DoesNotExist" name then Ok (error_code 404 "NOT_FOUND")
      else if str_in name ["JSONDecodeError"; "TypeError"] then Ok (error_code 400 "INVALID_REQUEST")
      else Err (OtherError name)
  | Err (PyError e) => Err e
  end.

Definition ecosystem_project (clock : nat → Z * Z) (user project_id : nat) (request : ecosystem_request)
    : result exn response :=
  handle
    match request with
    | GetCatalog =>
        catalog ← as_eco (_catalog_payload user project_id);
        Ok (mkResponse 200 (JObj [("integrations", catalog)]))
    | PostEvaluate body => evaluate_body clock user project_id body
    end.
End ecosystem.

(** * [GatewayConfig.from_env] *)

Record GatewayConfig := mkGatewayConfig {
  gc_listen : string;
  gc_certificate : string;
  gc_private_key : string;
  gc_agent_tokens : list (string * string)
}.

Section settings.
Context (environ : string → option string) (is_file : string → bool) (json_loads : string → result exn yaml).

Definition _required_path (name : string) : result exn string :=
  let value := default "" (environ name) in
  _ ← raise_if (String.eqb value "") (ValueError (name +:+ " is required"));
  _ ← raise_if (negb (is_file value)) (ValueError (name +:+ " must reference an existing file"));
  Ok value.

(** The loop over the parsed object. *)
Fixpoint agent_tokens (tokens : list (string * string)) (parsed : mapping) : result exn (list (string * string)) :=
  match parsed with
  | [] => Ok tokens
  | (YStr agent_id, YStr token) :: rest =>
      _ ← raise_if (String.eqb token "") (ValueError "agent token entries must be non-empty strings");
      agent_tokens (dict_set tokens agent_id token) rest
  | _ :: _ => Err (ValueError "agent token entries must be non-empty strings")
  end.

Definition from_env : result exn GatewayConfig :=
  let listen := default "127.0.0.1:8443" (environ "DJANGOOPS_CONTROLPLANE_LISTEN") in
  certificate ← _required_path "DJANGOOPS_CONTROLPLANE_TLS_CERT";
  private_key ← _required_path "DJANGOOPS_CONTROLPLANE_TLS_KEY";
  let raw_tokens := default "" (environ "DJANGOOPS_AGENT_TOKENS_JSON") in
  _ ← raise_if (String.eqb raw_tokens "") (ValueError "DJANGOOPS_AGENT_TOKENS_JSON is required");
  parsed ← json_loads raw_tokens;
  match parsed with
  | YMap ((_ :: _) as entries) =>
      tokens ← agent_tokens [] entries;
      Ok (mkGatewayConfig listen certificate private_key tokens)
  | _ => Err (ValueError "agent token configuration must be a non-empty object")
  end.
End settings.
