(* ===== verification/EcosystemProps.v ===== *)
(** The properties of the ecosystem view and of the gateway's settings
    ([controlplane/ecosystem.py], [ecosystem_views.py], [config.py]). *)

From S2P Require Import Prelude Text Regex Url Json Builtins Dict Config ConfigProps Integrations IntegrationsProps Gateway Store Models Services ServicesProps Telemetry Kubernetes Graphql Schema SchemaProps Ecosystem.

Open Scope string_scope.
Open Scope list_scope.
Open Scope nat_scope.

(** The context the control plane evaluates with. *)
Lemma slug_context slug :
  String.length slug ≤ 64 → validate_context [("project", slug)] = Ok [("project", slug)].
Proof.
  intros Hs. unfold validate_context. cbn -[Nat.ltb search String.length].
  assert (Hk : search SECRET_KEY_RE "project" = false) by by vm_compute. rewrite Hk.
  assert (Hv : (MAX_CONFIG_VALUE_CHARS <? String.length slug) = false)
    by (apply Nat.ltb_ge; unfold MAX_CONFIG_VALUE_CHARS; lia).
  by rewrite Hv.
Qed.

(** The result of an integration, as the control plane reports it. *)
Definition reports (slug : string) (i : IntegrationConfig) (r : IntegrationResult) : Prop :=
  ir_name r = ic_name i ∧ ir_version r = ic_version i ∧ ir_capabilities r = ic_capabilities i ∧
  if ic_enabled i
  then ir_status r = "ready" ∧ summary_of i [("project", slug)] (ir_summary r)
  else ir_status r = "disabled" ∧ ir_summary r = [].

Lemma evaluate_all_ok checks slug clock index l :
  String.length slug ≤ 64 → (∀ n, (clock n).2 - (clock n).1 ≤ 100 * 1000000)%Z →
  (∀ i, i ∈ l → integration_ok checks i) →
  ∃ results, evaluate_all [("project", slug)] clock index l = Ok results ∧ Forall2 (reports slug) l results.
Proof.
  intros Hs Hclock. revert index. induction l as [|i l IH]; intros index Hl; [by exists []|].
  destruct (IH (S index)) as (results & Hr & Hall); [intros j Hj; apply Hl; by apply list_elem_of_further|].
  destruct (evaluation checks i (Some [("project", slug)]) DEFAULT_BUDGET_MS (clock index).1 (clock index).2)
    as [Hoff Hon]; [apply Hl, list_elem_of_here|done|].
  cbn [evaluate_all]. unfold reports at 1. destruct (ic_enabled i) eqn:He.
  - destruct (Hon _ eq_refl (slug_context _ Hs)) as (s & Hsum & ->).
    specialize (Hclock index). rewrite (proj2 (Z.ltb_ge _ _)) by (unfold DEFAULT_BUDGET_MS; lia).
    cbn [mbind result_bind]. rewrite Hr. cbn [mbind result_bind]. eexists. split; [reflexivity|].
    constructor; [|done]. unfold reports. by rewrite He.
  - rewrite (Hoff eq_refl). cbn [mbind result_bind]. rewrite Hr. cbn [mbind result_bind].
    eexists. split; [reflexivity|]. constructor; [|done]. unfold reports. by rewrite He.
Qed.

Section view.
Context (projects : list Project) (json_loads : string → result exn yaml) (checks : UrlChecks).

(** A posted list of integrations that parses is evaluated for members of the
    project, each integration reporting in its place and none failing, and is not
    found for everyone else. *)
Theorem ecosystem_answers clock user project_id body entries l :
  json_loads body = Ok (YMap entries) → body ≠ "" →
  parse_integrations checks (default (YSeq []) (map_get entries "integrations")) = Ok l →
  (∀ n, (clock n).2 - (clock n).1 ≤ 100 * 1000000)%Z →
  let answer := ecosystem_project projects json_loads checks clock user project_id (PostEvaluate body) in
  match own_project projects user (Z.of_nat project_id) with
  | Ok p =>
      String.length (slug p) ≤ 64 →
      ∃ results, Forall2 (reports (slug p)) l results ∧
        answer = Ok (mkResponse 200 (JObj [("integrations", JArr (result_payload <$> results))]))
  | Err (OtherError "Project.DoesNotExist") => answer = Ok (error_code 404 "NOT_FOUND")
  | Err e => answer = Err e
  end.
Proof.
  intros Hj Hb Hl Hclock answer.
  assert (Ha : answer = handle (results ← evaluate_project_integrations projects clock user project_id l;
    Ok (mkResponse 200 (JObj [("integrations", JArr (result_payload <$> results))])))).
  { unfold answer, ecosystem_project, evaluate_body.
    destruct (String.eqb_spec body ""); [done|]. rewrite Hj. cbn -[parse_integrations map_get]. by rewrite Hl. }
  unfold evaluate_project_integrations in Ha. destruct (own_project _ _ _) as [p|e] eqn:Ep.
  - intros Hs. apply parse_integrations_ok in Hl as (_ & _ & Hok).
    destruct (evaluate_all_ok checks (slug p) clock 0 l Hs Hclock Hok) as (results & Hr & Hall).
    exists results. split; [done|]. rewrite Ha. cbn -[evaluate_all]. by rewrite Hr.
  - unfold own_project, get_one in Ep. destruct (filter _ projects) as [|? []]; simplify_eq; exact Ha.
Qed.
End view.

(** * Concrete requests *)

Definition demo_json_loads (s : string) : result exn yaml :=
  match loads s with Some v => Ok (of_json v) | None => Err (OtherError "JSONDecodeError") end.

(** A body that holds the given document. *)
Definition body_of (v : yaml) : string := dumps (to_json v).

Definition demo_body : string := body_of (YMap [(YStr "integrations", demo_raw)]).
Definition bad_endpoint_body : string :=
  body_of (YMap [(YStr "integrations",
    YSeq [YMap [(YStr "name", YStr "otlp-export"); (YStr "version", YStr "v1"); (YStr "enabled", YBool true);
                (YStr "capabilities", YSeq [YStr "telemetry"]);
                (YStr "config", YMap [(YStr "endpoint", YStr "http://[")])]])]).

(** An endpoint [urlsplit] rejects raises a plain [ValueError], which the view does
    not catch. *)
Lemma bad_endpoint_escapes :
  ecosystem_project [demo_project] demo_json_loads config_checks (λ _, (0, 0)%Z) 1 7 (PostEvaluate bad_endpoint_body)
  = Err (ValueError "Invalid IPv6 URL").
Proof. by vm_compute. Qed.

Lemma ecosystem_answers_witness :
  ∃ results, Forall2 (reports "shop") demo_integrations results ∧
    ecosystem_project [demo_project] demo_json_loads config_checks (λ _, (0, 5)%Z) 1 7 (PostEvaluate demo_body)
    = Ok (mkResponse 200 (JObj [("integrations", JArr (result_payload <$> results))])).
Proof.
  apply (ecosystem_answers [demo_project] demo_json_loads config_checks (λ _, (0, 5)%Z) 1 7 demo_body
    [(YStr "integrations", demo_raw)] demo_integrations).
  - by vm_compute.
  - by vm_compute.
  - by vm_compute.
  - intros n. cbn. lia.
  - cbn. lia.
Defined.

(** * The settings of the gateway *)

Lemma agent_tokens_ok tokens parsed out :
  agent_tokens tokens parsed = Ok out →
  Forall (λ kv : string * string, kv.2 ≠ "") tokens → Forall (λ kv : string * string, kv.2 ≠ "") out.
Proof.
  revert tokens. induction parsed as [|[k v] parsed IH]; intros tokens; [by intros [= <-]|].
  destruct k, v; try done. cbn -[dict_set]. intros H. apply bind_ok in H as (? & Ht%raise_if_ok & H).
  intros Hall. eapply IH; [exact H|]. apply Forall_forall. intros kv [->|Hin]%dict_set_elem.
  - cbn. by intros ->.
  - by eapply Forall_forall in Hall.
Qed.

(** Every token of a configuration is non-empty: nothing opens a session without
    one. *)
Lemma configured_tokens_are_nonempty environ is_file json_loads c agent token :
  from_env environ is_file json_loads = Ok c → dict_get (gc_agent_tokens c) agent = Some token → token ≠ "".
Proof.
  unfold from_env. intros H. binds H. destruct x2 as [| | | | | |[|e entries]|]; try done.
  binds H. injection H as <-. intros Hin%dict_get_Some_elem.
  match goal with Ht : agent_tokens _ _ = Ok _ |- _ =>
    apply agent_tokens_ok in Ht; [|constructor]; rewrite Forall_forall in Ht; apply (Ht _ Hin)
  end.
Qed.
