(* ===== verification/Settings.v ===== *)
(** [controlplane/settings.py]: the Django settings as a function of the
    environment, and [controlplane/urls.py]: the routes. *)

From S2P Require Import Prelude Text Json Builtins Graphql.

Open Scope string_scope.
Open Scope list_scope.
Open Scope nat_scope.

Record Settings := mkSettings {
  DEBUG : bool;
  SECRET_KEY : string;
  ALLOWED_HOSTS : list string;
  DATABASE_NAME : string;
  SESSION_COOKIE_SECURE : bool;
  CSRF_COOKIE_SECURE : bool;
  GRAPHQL_MAX_DEPTH : Z;
  GRAPHQL_MAX_FIELDS : Z;
  GRAPHQL_INTROSPECTION : bool;
  DIAGNOSTIC_TIMEOUT_SECONDS : pyfloat;
  WEB_DEMO_ENABLED : bool
}.

(** ** Constants *)

Definition INSTALLED_APPS : list string :=
  ["django.contrib.auth"; "django.contrib.contenttypes"; "django.contrib.sessions";
   "django.contrib.messages"; "django.contrib.staticfiles"; "controlplane.apps.ControlPlaneConfig"].
Definition MIDDLEWARE : list string :=
  ["django.middleware.security.SecurityMiddleware";
   "django.contrib.sessions.middleware.SessionMiddleware";
   "django.middleware.common.CommonMiddleware";
   "django.middleware.csrf.CsrfViewMiddleware";
   "django.contrib.auth.middleware.AuthenticationMiddleware";
   "django.contrib.messages.middleware.MessageMiddleware";
   "django.middleware.clickjacking.XFrameOptionsMiddleware"].
Definition LOGIN_URL : string := "/accounts/login/".
Definition LOGIN_REDIRECT_URL : string := "/".
Definition LOGOUT_REDIRECT_URL : string := "/accounts/login/".

Section settings.
Context (environ : string → option string) (base_dir : string).

(** [os.environ.get(name, default)]. *)
Definition env (name default_value : string) : string := default default_value (environ name).

(** The module, statement by statement; the first that raises ends the import. *)
Definition load_settings : result exn Settings :=
  let debug := String.eqb (env "DJANGOOPS_WEB_DEBUG" "1") "1" in
  let secret := env "DJANGOOPS_WEB_SECRET_KEY" "" in
  _ ← raise_if (String.eqb secret "" && negb debug) (OtherError "ImproperlyConfigured");
  let secret := if String.eqb secret "" then "dev-only-djangoops-secret" else secret in
  let allowed := env "DJANGOOPS_WEB_ALLOWED_HOSTS" "localhost,127.0.0.1,testserver" in
  let hosts := filter (λ item, item ≠ "") (split_on "," allowed) in
  let name := env "DJANGOOPS_WEB_DB" (base_dir +:+ "/djangoops-controlplane.sqlite3") in
  max_depth ← int_of (env "DJANGOOPS_GRAPHQL_MAX_DEPTH" "8");
  max_fields ← int_of (env "DJANGOOPS_GRAPHQL_MAX_FIELDS" "80");
  timeout ← float_of (env "DJANGOOPS_DIAGNOSTIC_TIMEOUT_SECONDS" "60");
  Ok (mkSettings debug secret hosts name (negb debug) (negb debug) max_depth max_fields debug timeout
        (debug && String.eqb (env "DJANGOOPS_WEB_DEMO" "0") "1")).
End settings.

(** The limits of the GraphQL view, with [frames] nested calls below the
    interpreter's recursion limit. *)
Definition limits_of (frames : nat) (s : Settings) : limits :=
  mkLimits (GRAPHQL_MAX_DEPTH s) (GRAPHQL_MAX_FIELDS s) (GRAPHQL_INTROSPECTION s) frames.

(** * Routes *)

Inductive endpoint :=
| LoginView | LogoutView | GraphqlView | EcosystemProject | Metrics | OperationUpdate
| CancelDiagnostic | StartDiagnostic | Dashboard.

#[export] Instance endpoint_eq_dec : EqDecision endpoint.
Proof. solve_decision. Defined.

(** Route, view and name of each [path]. *)
Definition urlpatterns : list (string * endpoint * string) :=
  [("accounts/login/", LoginView, "login");
   ("accounts/logout/", LogoutView, "logout");
   ("graphql/v1", GraphqlView, "graphql-v1");
   ("projects/<int:project_id>/ecosystem", EcosystemProject, "ecosystem-project");
   ("internal/metrics", Metrics, "metrics");
   ("operations/<str:operation_id>/updates", OperationUpdate, "operation-update");
   ("operations/<str:operation_id>/cancel", CancelDiagnostic, "cancel-diagnostic");
   ("projects/<int:project_id>/agents/<int:agent_id>/diagnostics/start", StartDiagnostic,
     "start-diagnostic");
   ("", Dashboard, "dashboard")].

(** What a converter captures: [<int:...>] an integer, [<str:...>] a text. *)
Inductive captured := CInt (n : nat) | CStr (s : string).

(** What Django's resolver makes of a list of patterns and a path: the view, and
    the keyword arguments the converters capture. *)
Definition resolver : Type :=
  list (string * endpoint * string) → string → option (endpoint * list (string * captured)).
