(* ===== verification/Http.v ===== *)
(** The HTTP surface: [controlplane/urls.py], the decorators of the views in
    [controlplane/views.py], [controlplane/ecosystem_views.py] and
    [controlplane/graphql/views.py], and what each route runs.

    A request is a thread over the database; the views themselves are those of
    [Schema], [Api], [Ecosystem] and [Graphql]. *)

From S2P Require Import Prelude Text Url Json Builtins Dict Gateway Store Models Services Telemetry Kubernetes Observability Schema Api.
From S2P Require Import Config Integrations Ecosystem Graphql Settings.

Open Scope string_scope.
Open Scope list_scope.
Open Scope nat_scope.

(** [request.user] is anonymous, or a user's key and its [is_staff]. *)
Record request := mkHttpRequest {
  ht_user : option (nat * bool);
  ht_method : string;
  ht_path : string;
  ht_mode : option string;
  ht_body : string
}.

Inductive http_response :=
| NoRoute
| ToLogin (next : string)
| NotAllowed (permitted : list string)
| AuthView (name : string)
| Viewed (v : view_response)
| Answered (r : Graphql.response)
| Rendered (rows : list dashboard_row) (demo_enabled demo_mode : bool).

(** What the process holds while it serves a request; [si_frames]: the nested calls
    the interpreter's recursion limit leaves to a view. *)
Record site := mkSite {
  si_settings : Settings;
  si_operations : OperationsBackend;
  si_telemetry : Telemetry;
  si_now : Z;
  si_uuid : string;
  si_clock : nat → Z * Z;
  si_frames : nat
}.

Section http.
Context {TO TT TR : Type} `{Table DiagnosticOperation TO} `{Table KubernetesTarget TT}
  `{Table KubernetesRelease TR}.
Context (projects : list Project) (agents : list AgentRegistration) (uuid_of : string → option string).
Context (dashboard_url : string) (checks : UrlChecks).
Context (resolve : resolver).

(** [json.loads] of the request body, into the values each view works with. *)
Context (json_loads : string → result exn json) (yaml_loads : string → result exn yaml).

(** The GraphQL library: [parse], and [graphql_sync] for a user's query and its
    variables. *)
Context (parse : string → result exn (list definition)).
Abbreviation database := (TO * (TT * TR))%type.
Context (execute : nat → string → json → thread database (result exn execution_result)).

Abbreviation answer := (thread database (result exn http_response)).

(** Django's decorators, applied to a request and the view they guard. *)
Context (login_required : request → (nat → bool → answer) → answer).
Context (require_http_methods : list string → request → answer → answer).

Definition require_GET := require_http_methods ["GET"].
Definition require_POST := require_http_methods ["POST"].

(** ** [graphql_view] *)

(** The query [graphql_view] hands to the library, with its variables, if it gets
    that far. *)
Definition query_of (l : limits) (body : result exn json) : option (string * json) :=
  match body with
  | Ok (JObj payload) =>
      match default (JStr "") (dict_get payload "query") with
      | JStr query =>
          if String.eqb (strip query) "" then None
          else
            match resource_error parse l query with
            | Ok None => Some (query, default JNull (dict_get payload "variables"))
            | _ => None
            end
      | _ => None
      end
  | _ => None
  end.

(** [json.loads(request.body or b"{}")]. *)
Definition decoded (r : request) : result exn json :=
  json_loads (if String.eqb (ht_body r) "" then "{}" else ht_body r).

Definition graphql_request (l : limits) (user : nat) (r : request)
    : thread database (result exn Graphql.response * string) :=
  thread_map (λ outcome, graphql_view parse l (λ _ _, outcome) (decoded r))
    match query_of l (decoded r) with
    | Some (query, variables) => execute user query variables
    | None => Return (Err (OtherError "not executed"))
    end.

(** ** Dispatch *)

Definition ecosystem_request_of (r : request) : ecosystem_request :=
  if String.eqb (ht_method r) "GET" then GetCatalog else PostEvaluate (ht_body r).

(** The keyword arguments of a view against its signature; others raise [TypeError]. *)
Definition type_error : answer := Return (Err (OtherError "TypeError")).

Definition no_argument (kwargs : list (string * captured)) (view : answer) : answer :=
  match kwargs with [] => view | _ => type_error end.
Definition text_argument (name : string) (kwargs : list (string * captured)) (view : string → answer) : answer :=
  match kwargs with
  | [(n, CStr s)] => if String.eqb n name then view s else type_error
  | _ => type_error
  end.
Definition int_argument (name : string) (kwargs : list (string * captured)) (view : nat → answer) : answer :=
  match kwargs with
  | [(n, CInt z)] => if String.eqb n name then view z else type_error
  | _ => type_error
  end.
Definition int_arguments (name1 name2 : string) (kwargs : list (string * captured))
    (view : nat → nat → answer) : answer :=
  match kwargs with
  | [(n1, CInt z1); (n2, CInt z2)] =>
      if String.eqb n1 name1 && String.eqb n2 name2 then view z1 z2 else type_error
  | _ => type_error
  end.

(** What a view of [Schema] or [Api] answers. *)
Definition viewed (th : thread database (result exn view_response)) : answer :=
  thread_map (λ v, v ← v; Ok (Viewed v)) th.

(** The view of a route, with its decorators. *)
Definition run_view (s : site) (r : request) (view : endpoint) (kwargs : list (string * captured)) : answer :=
  match view with
  | LoginView => Return (Ok (AuthView "login"))
  | LogoutView => Return (Ok (AuthView "logout"))
  | GraphqlView =>
      login_required r (λ user _, require_POST r (no_argument kwargs
        (thread_map (λ o, response ← o.1; Ok (Answered response))
           (graphql_request (limits_of (si_frames s) (si_settings s)) user r))))
  | EcosystemProject =>
      login_required r (λ user _, require_http_methods ["GET"; "POST"] r (int_argument "project_id" kwargs (λ project,
        Return (response ← ecosystem_project projects yaml_loads checks (si_clock s) user project
                             (ecosystem_request_of r);
                Ok (Answered response)))))
  | Metrics =>
      login_required r (λ _ is_staff, require_GET r (no_argument kwargs
        (read_then (λ d : database,
           Return (Ok (Viewed (metrics agents is_staff (si_operations s) (si_telemetry s) d)))))))
  | OperationUpdate =>
      login_required r (λ user _, require_GET r (text_argument "operation_id" kwargs (λ id,
        viewed (operation_update projects uuid_of user id))))
  | CancelDiagnostic =>
      login_required r (λ user _, require_POST r (text_argument "operation_id" kwargs (λ id,
        viewed (cancel_diagnostic projects uuid_of dashboard_url (si_operations s) user id))))
  | StartDiagnostic =>
      login_required r (λ user _, require_POST r (int_arguments "project_id" "agent_id" kwargs (λ project agent,
        viewed (start_diagnostic projects agents dashboard_url (si_operations s) (si_now s) (si_uuid s)
                  user project agent))))
  | Dashboard =>
      login_required r (λ user _, no_argument kwargs
        (read_then (λ d : database,
           Return ('(rows, enabled, mode) ←
                     dashboard projects agents (DEBUG (si_settings s)) (WEB_DEMO_ENABLED (si_settings s))
                       (ht_mode r) (si_operations s) (si_telemetry s) user d;
                   Ok (Rendered rows enabled mode)))))
  end.

Definition serve (s : site) (r : request) : answer :=
  match resolve urlpatterns (ht_path r) with
  | None => Return (Ok NoRoute)
  | Some (view, kwargs) => run_view s r view kwargs
  end.

(** The methods a route answers to. *)
Definition permitted (view : endpoint) : option (list string) :=
  match view with
  | GraphqlView | CancelDiagnostic | StartDiagnostic => Some ["POST"]
  | Metrics | OperationUpdate => Some ["GET"]
  | EcosystemProject => Some ["GET"; "POST"]
  | LoginView | LogoutView | Dashboard => None
  end.
End http.
