(* ===== verification/HttpProps.v ===== *)
(** The properties of the HTTP surface ([controlplane/urls.py], the views and
    their decorators, [controlplane/settings.py]). *)

From S2P Require Import Prelude Text Url Json Builtins Dict Gateway Store Models Services ServicesProps Telemetry.
From S2P Require Import Kubernetes KubernetesProps Observability ObservabilityProps Schema SchemaProps Api Isolation Config Integrations.
From S2P Require Import Ecosystem Graphql Settings Http.

Open Scope string_scope.
Open Scope list_scope.
Open Scope nat_scope.

(** * Linked releases *)

Section linked.
Context {TT TR : Type} `{HT : Table KubernetesTarget TT} `{HR : Table KubernetesRelease TR}.
Context `{!TableLaws KubernetesTarget TT} `{!TableLaws KubernetesRelease TR}.
Implicit Types (c : TT * TR).

(** The foreign key of a release: its target exists and is of the same project. *)
Definition linked c : Prop :=
  ∀ k r, tb_get c.2 k = Some r →
    ∃ t, tb_get c.1 (rl_target r) = Some t ∧ rl_project r = project_id (kt_project t).

Lemma linked_match c : linked c → releases_match c.
Proof. intros Hl k r t Hr Ht. destruct (Hl k r Hr) as (t' & Ht' & E). congruence. Qed.

Lemma linked_update (p : pk → KubernetesRelease → bool) f c :
  (∀ r, rl_target (f r) = rl_target r ∧ rl_project (f r) = rl_project r) →
  linked c → linked (on_releases (tb_update p f) c).
Proof.
  intros Hf Hl k r. cbn. rewrite tb_get_update. intros (r' & Hr' & ->)%fmap_Some.
  destruct (Hl _ _ Hr') as (t & Ht & E). destruct (p k r'); [|by exists t].
  destruct (Hf r') as [-> ->]. by exists t.
Qed.

Lemma linked_targets (f : TT → TT) c :
  (∀ k t, tb_get c.1 k = Some t → ∃ t', tb_get (f c.1) k = Some t' ∧ kt_project t' = kt_project t) →
  linked c → linked (on_targets f c).
Proof.
  intros Hf Hl k r Hr. destruct (Hl k r Hr) as (t & Ht & E).
  destruct (Hf _ _ Ht) as (t' & Ht' & Ep). exists t'. by rewrite Ep.
Qed.

Lemma linked_admit now uuid user key snapshot compat c :
  linked c → linked (admit_release now uuid user key snapshot compat c).1.
Proof.
  intros Hl. unfold admit_release. destruct (tb_get c.1 _) as [target|] eqn:Et; [|done].
  destruct (tb_select _ _ c.2) as [|k l].
  - set (row := new_release _ _ _ _ _ _ _ _).
    destruct (tb_create row c.2) as [rs k'] eqn:Ec. intros k r. cbn.
    pose proof (tb_get_create row c.2 k) as Hg. rewrite Ec in Hg. cbn in Hg. rewrite Hg.
    case_decide; [|apply Hl]. intros [= <-]. by exists target.
  - destruct (tb_get c.2 k) as [r|]; [|done]. destruct (rl_active r); [done|].
    by apply linked_update.
Qed.

Lemma linked_finish k :
  maintains (A := result exn KubernetesRelease) linked (refresh_release k (λ r, Return (Ok r))).
Proof. apply maintains_read. intros c _. destruct (tb_get c.2 k); constructor. Qed.

Lemma start_release_linked be checks now uuid tpk target user image vs chart :
  maintains linked (start_release be checks now uuid tpk target user image vs chart).
Proof.
  unfold start_release. destruct (checked_release _ _ _) as [[[clean image'] compat]|]; [|constructor].
  constructor; [intros; by apply linked_admit|]. intros c _. unfold after_admission, release_tx.
  destruct (admit_release _ _ _ _ _ _ c) as [c' [|k|k]]; [constructor|destruct (tb_get c'.2 k); constructor|].
  destruct (tb_get c'.2 k) as [r|]; [|constructor]. unfold dispatch_release, record_outcome.
  destruct (kb_start be target _) as [res|[]]; try constructor; auto using linked_finish;
    intros; by apply linked_update.
Qed.

Lemma cancel_release_linked be k : maintains linked (cancel_release be k).
Proof.
  apply maintains_read. intros c _. destruct (tb_get c.2 k) as [r|]; [|constructor].
  destruct (str_in _ _); [constructor|]. destruct (kb_cancel be _); [|constructor].
  constructor; [intros; by apply linked_update|auto using linked_finish].
Qed.

(** A target that is inserted, and deleted again, had no releases. *)
Lemma register_linked be checks now uuid project agent name api ns rel cred ing tls c :
  linked c → linked (run_thread (register_target be checks now uuid project agent name api ns rel cred ing tls) c).1.
Proof.
  intros Hl. unfold register_target. destruct (negb _); [done|].
  destruct (_ ≫= _) as [[[api' ns'] rel']|]; [|done]. cbn -[insert_target].
  destruct (identity_taken _ _ _ _ _); [done|].
  destruct (new_target _ _ _ _ _ _ _ _ _ _ _) as [row|]; [|done]. cbn -[insert_target].
  destruct (insert_target row c.1) as [[t k]|] eqn:Ei; [|done].
  assert (Hi : tb_get c.1 k = None ∧ ∀ k' r, tb_get c.1 k' = Some r → tb_get t k' = Some r).
  { unfold insert_target in Ei. destruct (identity_taken _ _ _ _ _); simplify_eq.
    pose proof (tb_create_fresh row c.1) as Hf. pose proof (tb_get_create row c.1) as Hg.
    destruct (tb_create row c.1) as [t0 k0]; simplify_eq. split; [done|].
    intros k' r Hr. rewrite Hg. case_decide; [cbn in *; congruence|done]. }
  destruct Hi as [Hk Hkeep].
  assert (Hl1 : linked (t, c.2)) by (apply (linked_targets (λ _, t) c); eauto).
  destruct (kb_validate be row) as [v|]; [|done].
  destruct (valid v); cbn -[target_in_use]; [|destruct (target_in_use k (t, c.2)); [exact Hl1|]].
  - apply (linked_targets _ (t, c.2)); [|done]. intros k' r Hr. cbn in *. rewrite tb_get_update, Hr. cbn.
    eexists. split; [done|]. by destruct (k' =? k).
  - intros k' r Hr. destruct (Hl k' r Hr) as (t' & Ht' & E). exists t'. split; [|done]. cbn.
    rewrite tb_get_delete. case_decide as Hd; [|by apply Hkeep].
    apply list_elem_of_singleton in Hd. congruence.
Qed.
End linked.

(** * Isolation at the surface *)

Section http.
Context {TO TT TR : Type} `{HO : Table DiagnosticOperation TO} `{HT : Table KubernetesTarget TT}
  `{HR : Table KubernetesRelease TR}.
Context `{!TableLaws DiagnosticOperation TO} `{!TableLaws KubernetesTarget TT} `{!TableLaws KubernetesRelease TR}.
Context (projects : list Project) (agents : list AgentRegistration) (uuid_of : string → option string).
Context (dashboard_url : string) (checks : UrlChecks).
Context (resolve : resolver).
Context (json_loads : string → result exn json) (yaml_loads : string → result exn yaml).
Context (parse : string → result exn (list definition)).
Abbreviation database := (TO * (TT * TR))%type.
Context (execute : nat → string → json → thread database (result exn execution_result)).
Implicit Types (d : database) (r : request).

Abbreviation answer := (thread database (result exn http_response)).

(** The decorators, as Django documents them. *)
Context (login_required : request → (nat → bool → answer) → answer).
Context (require_http_methods : list string → request → answer → answer).
Definition redirects_anonymous : Prop := ∀ r view,
  login_required r view =
    match ht_user r with
    | Some (user, is_staff) => view user is_staff
    | None => Return (Ok (ToLogin (ht_path r)))
    end.
Definition refuses_methods : Prop := ∀ methods r view,
  require_http_methods methods r view =
    if str_in (ht_method r) methods then view else Return (Ok (NotAllowed methods)).

Context (login_documented : redirects_anonymous) (methods_documented : refuses_methods).

Abbreviation serve_ := (serve projects agents uuid_of dashboard_url checks resolve json_loads yaml_loads
  parse execute login_required require_http_methods).
Abbreviation keeps_foreign_ := (keeps_foreign (TO := TO) (TT := TT) (TR := TR) projects).

(** What [graphql_sync] does with a query of [user]: it reads, and runs fields of
    [Mutation] one after the other. *)
Inductive runs_fields {A} (user : nat) : thread database A → Prop :=
| rf_return a : runs_fields user (Return a)
| rf_read k : (∀ d, runs_fields user (k d)) → runs_fields user (read_then k)
| rf_field env field args th k :
    call (Mutation projects agents uuid_of env user) field args = Some th →
    (∀ v, runs_fields user (k v)) → runs_fields user (thread_bind th k).

Lemma on_cluster_linked {A} (th : thread (TT * TR) A) d :
  linked (run_thread th d.2).1 → linked (run_thread (on_cluster th) d).1.2.
Proof. by rewrite run_on_cluster. Qed.

Lemma on_operations_linked {A} (th : thread TO A) d :
  linked d.2 → linked (run_thread (on_operations th) d).1.2.
Proof. by rewrite run_on_operations. Qed.

Lemma mutation_linked env user field args th d :
  call (Mutation projects agents uuid_of env user) field args = Some th →
  linked d.2 → linked (run_thread th d).1.2.
Proof.
  intros (f & Hf & _ & <-)%call_some Hl. unfold Mutation in Hf.
  repeat (apply elem_of_cons in Hf as [Hf|Hf]; [root_field_is Hf; cbv beta iota delta [rf_resolve];
    rewrite run_thread_map; cbn [fst]|]); [..|by apply elem_of_nil in Hf];
    unfold _start, _cancel, _register_target, _start_kubernetes_release, _cancel_kubernetes_release;
    rewrite run_thread_map; cbn [fst].
  - destruct (_agent _ _ _ _ _) as [[]|]; [by apply on_operations_linked|done].
  - cbn -[_operation cancel_operation]. destruct (_operation _ _ _ _ _); [by apply on_operations_linked|done].
  - destruct (_agent _ _ _ _ _) as [[]|]; [|done]. by apply on_cluster_linked, register_linked.
  - cbn -[_target release_values start_release]. destruct (_ ≫= _) as [[[k target] vs]|]; [|done].
    apply on_cluster_linked. by apply (maintains_run linked _ _ (start_release_linked _ _ _ _ _ _ _ _ _ _)).
  - cbn -[_release cancel_release]. destruct (_release _ _ _ _ _); [|done].
    apply on_cluster_linked. by apply (maintains_run linked _ _ (cancel_release_linked _ _)).
Qed.

Lemma keeps_foreign_trans user d1 d2 d3 :
  keeps_foreign_ user d1 d2 → keeps_foreign_ user d2 d3 → keeps_foreign_ user d1 d3.
Proof. intros [H1 [H2 H3]] [H4 [H5 H6]]. split; [|split]; by eapply keeps_trans. Qed.

Lemma fields_stay_own {A} user (th : thread database A) d :
  runs_fields user th → linked d.2 →
  keeps_foreign_ user d (run_thread th d).1 ∧ linked (run_thread th d).1.2.
Proof.
  intros Hth. revert d. induction Hth as [a|k _ IH|env field args th k Hc _ IH]; intros d Hl; [done| |].
  - cbn. by apply IH.
  - rewrite run_thread_bind.
    pose proof (mutation_foreign projects agents uuid_of dashboard_url env user field args th d Hc (linked_match _ Hl)) as Hf.
    destruct (IH (run_thread th d).2 _ (mutation_linked _ _ _ _ _ _ Hc Hl)) as [Hf' Hl'].
    split; [by eapply keeps_foreign_trans|done].
Qed.

(** ** One request *)

Create HintDb http.

(** A view that only reads leaves the database as it is. *)
Definition reads_only {A} (th : thread database A) : Prop := ∀ d, (run_thread th d).1 = d.

(** What a request of [user] may do. *)
Definition stays_own {A} user (th : thread database A) : Prop :=
  ∀ d, linked d.2 → keeps_foreign_ user d (run_thread th d).1 ∧ linked (run_thread th d).1.2.

Lemma reads_stay_own {A} user (th : thread database A) : reads_only th → stays_own user th.
Proof. intros Hr d Hl. by rewrite (Hr d). Qed.

Lemma stays_own_map {A B} user (f : A → B) (th : thread database A) :
  stays_own user th → stays_own user (thread_map f th).
Proof. intros Hs d Hl. rewrite run_thread_map. by apply Hs. Qed.

Lemma required_methods user methods r (view : thread database (result exn http_response)) :
  stays_own user view → stays_own user (require_http_methods methods r view).
Proof. intros Hv. rewrite methods_documented. destruct (str_in _ _); [done|by apply reads_stay_own]. Qed.

Lemma start_view_own be now uuid user p a :
  stays_own user (start_diagnostic (TO := TO) (TT := TT) (TR := TR) projects agents dashboard_url be now uuid user p a).
Proof.
  intros d Hl. split; [by apply start_view_foreign|]. unfold start_diagnostic, or_404.
  destruct (own_project _ _ _) as [p'|[]]; cbn -[Services.start]; try done; [|by destruct (endswith _ _)].
  destruct (own_agent _ _ _) as [a'|[]]; cbn -[Services.start]; try done; [|by destruct (endswith _ _)].
  rewrite run_thread_map. by apply on_operations_linked.
Qed.

Lemma cancel_view_own be user id :
  stays_own user (cancel_diagnostic (TO := TO) (TT := TT) (TR := TR) projects uuid_of dashboard_url be user id).
Proof.
  intros d Hl. split; [by apply cancel_view_foreign|]. unfold cancel_diagnostic, or_404.
  cbn -[_operation cancel_operation].
  destruct (_operation _ _ _ _ _) as [k|[]]; cbn -[cancel_operation]; try done; [|by destruct (endswith _ _)].
  rewrite run_thread_map. by apply on_operations_linked.
Qed.

Lemma update_view_reads user id :
  reads_only (operation_update (TO := TO) (TT := TT) (TR := TR) projects uuid_of user id).
Proof.
  intros d. unfold operation_update. cbn -[_operation].
  destruct (_operation _ _ _ _ _) as [k|[]]; cbn; try done; [|by destruct (endswith _ _)].
  by destruct (tb_get d.1 k).
Qed.

Lemma graphql_own l user r :
  (∀ query variables, runs_fields user (execute user query variables)) →
  stays_own user (graphql_request json_loads parse execute l user r).
Proof.
  intros Hex. apply stays_own_map. destruct (query_of _ _ _) as [[query variables]|].
  - intros d Hl. by apply fields_stay_own.
  - by apply reads_stay_own.
Qed.

(** Arguments that do not fit run nothing. *)
Lemma type_error_own user : stays_own user (type_error : answer).
Proof. by apply reads_stay_own. Qed.

Lemma no_argument_own user kwargs (view : answer) : stays_own user view → stays_own user (no_argument kwargs view).
Proof. intros Hv. destruct kwargs; [done|apply type_error_own]. Qed.
Lemma text_argument_own user name kwargs (view : string → answer) :
  (∀ s, stays_own user (view s)) → stays_own user (text_argument name kwargs view).
Proof.
  intros Hv. destruct kwargs as [|[n []] []]; try apply type_error_own. cbn.
  destruct (String.eqb n name); [done|apply type_error_own].
Qed.
Lemma int_argument_own user name kwargs (view : nat → answer) :
  (∀ z, stays_own user (view z)) → stays_own user (int_argument name kwargs view).
Proof.
  intros Hv. destruct kwargs as [|[n []] []]; try apply type_error_own. cbn.
  destruct (String.eqb n name); [done|apply type_error_own].
Qed.
Lemma int_arguments_own user name1 name2 kwargs (view : nat → nat → answer) :
  (∀ z1 z2, stays_own user (view z1 z2)) → stays_own user (int_arguments name1 name2 kwargs view).
Proof.
  intros Hv. destruct kwargs as [|[n1 []] [|[n2 []] []]]; try apply type_error_own. cbn.
  destruct (_ && _); [done|apply type_error_own].
Qed.
#[local] Hint Resolve no_argument_own text_argument_own int_argument_own int_arguments_own required_methods
  stays_own_map : http.

Lemma view_own s r user staff view kwargs :
  ht_user r = Some (user, staff) →
  (∀ query variables, runs_fields user (execute user query variables)) →
  stays_own user (run_view projects agents uuid_of dashboard_url checks json_loads yaml_loads parse execute
    login_required require_http_methods s r view kwargs).
Proof.
  intros Hu Hex.
  assert (Hret : ∀ v : result exn http_response, stays_own user (Return v : answer))
    by (intros; by apply reads_stay_own).
  assert (Hread : ∀ f, stays_own user (read_then (λ d : database, Return (f d : result exn http_response))))
    by (intros; by apply reads_stay_own).
  destruct view; cbn [run_view]; try apply Hret; rewrite login_documented, Hu; unfold require_GET, require_POST, viewed;
    eauto using graphql_own, start_view_own, cancel_view_own, reads_stay_own, update_view_reads with http.
Qed.

(** C2: at the HTTP surface: whatever request arrives at whatever path, an
    anonymous one leaves the database as it was, and one of a user leaves every
    row of a project the user is no member of as it was, and adds no such row; so
    do GraphQL operations of several mutations. *)
Theorem http_requests_stay_in_own_projects s r d :
  (∀ user query variables, runs_fields user (execute user query variables)) → linked d.2 →
  let d' := (run_thread (serve_ s r) d).1 in
  match ht_user r with
  | None => d' = d
  | Some (user, _) => keeps_foreign_ user d d' ∧ linked d'.2
  end.
Proof.
  intros Hex Hl. cbn zeta. unfold serve. destruct (resolve urlpatterns (ht_path r)) as [[view kwargs]|].
  - destruct (ht_user r) as [[user staff]|] eqn:Hu.
    + by eapply view_own.
    + by destruct view; cbn; rewrite ?login_documented, ?Hu.
  - by destruct (ht_user r) as [[user staff]|].
Qed.

(** ** Who gets in *)

(** An anonymous request, or one with a method its route does not answer to,
    runs no statement at all: it is sent to the login page, told the permitted
    methods, or finds no route; only Django's own login and logout views are open. *)
Theorem views_are_guarded s r :
  (ht_user r = None →
     ∃ answer, serve_ s r = Return (Ok answer) ∧
       match answer with NoRoute | AuthView _ => True | ToLogin next => next = ht_path r | _ => False end) ∧
  (∀ view kwargs methods user, resolve urlpatterns (ht_path r) = Some (view, kwargs) →
     permitted view = Some methods → ht_method r ∉ methods → ht_user r = Some user →
     serve_ s r = Return (Ok (NotAllowed methods))).
Proof.
  split.
  - intros Hu. unfold serve. destruct (resolve _ _) as [[view kwargs]|]; [|by eexists].
    destruct view; cbn; rewrite ?login_documented, ?Hu; by eexists.
  - intros view kwargs methods [user staff] Hr Hp Hm Hu. unfold serve. rewrite Hr.
    assert (Hin : str_in (ht_method r) methods = false)
      by (apply not_true_iff_false; by rewrite str_in_spec).
    destruct view; cbn in Hp; simplify_eq; cbn; unfold require_POST, require_GET;
      by rewrite login_documented, Hu, methods_documented, Hin.
Qed.

(** * The GraphQL view as a thread *)

(** Serving a GraphQL request is the view [Graphql.graphql_view] applied to the
    query's execution on the database: the query is executed at most once, and not
    at all when the view refuses it. *)
Theorem graphql_request_runs_view l user r d :
  let executed query variables := run_thread (execute user query variables) d in
  run_thread (graphql_request json_loads parse execute l user r) d =
    (match query_of parse l (decoded json_loads r) with
     | Some (query, variables) => (executed query variables).1
     | None => d
     end,
     graphql_view parse l (λ query variables, (executed query variables).2) (decoded json_loads r)).
Proof.
  cbn zeta. unfold graphql_request. rewrite run_thread_map.
  assert (Hview : ∀ ex1 ex2 : string → json → result exn execution_result,
    match query_of parse l (decoded json_loads r) with
    | Some (query, variables) => ex1 query variables = ex2 query variables
    | None => True
    end → graphql_view parse l ex1 (decoded json_loads r) = graphql_view parse l ex2 (decoded json_loads r)).
  { intros ex1 ex2. unfold graphql_view, graphql_body, query_of.
    destruct (decoded json_loads r) as [[]|]; try done. cbn.
    destruct (default _ _) as [| | |query| |]; try done. destruct (String.eqb _ _); [done|].
    destruct (resource_error parse l query) as [[code|]|]; cbn; try done. by intros ->. }
  destruct (query_of parse l (decoded json_loads r)) as [[query variables]|] eqn:E; cbn [run_thread fst snd];
    f_equal; apply Hview; by rewrite ?E.
Qed.
End http.

(** * Production settings *)

Lemma query_of_verdict parse l body query variables :
  query_of parse l body = Some (query, variables) →
  ∃ u, verdict l query u = None.
Proof.
  unfold query_of. destruct body as [[]|]; try done.
  destruct (default _ _) as [| | |q| |]; try done. destruct (String.eqb _ _); [done|].
  destruct (resource_error parse l q) as [[code|]|] eqn:E; try done. intros [= <- _].
  unfold resource_error in E. binds E.
  destruct (document_usage _ _) as [u|]; [|discriminate E]. injection E as E. by exists u.
Qed.

(** C29: outside debug mode the site is locked down: it starts only with a secret
    key of the environment, its cookies are secure, no introspection query reaches
    the GraphQL library, and the dashboard never shows demonstration data. *)
Theorem production_is_locked_down environ base_dir s :
  load_settings environ base_dir = Ok s → DEBUG s = false →
  (∃ key, environ "DJANGOOPS_WEB_SECRET_KEY" = Some key ∧ key ≠ "" ∧ SECRET_KEY s = key) ∧
  SESSION_COOKIE_SECURE s = true ∧ CSRF_COOKIE_SECURE s = true ∧
  (∀ parse frames body query variables, query_of parse (limits_of frames s) body = Some (query, variables) →
     contains "__schema" query = false ∧ contains "__type" query = false) ∧
  (∀ (d : gtable DiagnosticOperation * (gtable KubernetesTarget * gtable KubernetesRelease))
     projects agents mode be t user rows enabled demo,
     dashboard projects agents (DEBUG s) (WEB_DEMO_ENABLED s) mode be t user d = Ok (rows, enabled, demo) →
     enabled = false ∧ demo = false).
Proof.
  unfold load_settings. intros H Hd. binds H. injection H as <-. cbn in Hd.
  match goal with Hr : raise_if _ _ = Ok _ |- _ => apply raise_if_ok in Hr; rename Hr into Hkey end.
  unfold env in *. cbn -[String.eqb]. rewrite Hd in *. cbn [negb] in *. rewrite andb_true_r in Hkey.
  split_and!; try done.
  - rewrite Hkey. apply String.eqb_neq in Hkey.
    destruct (environ "DJANGOOPS_WEB_SECRET_KEY") as [key|]; cbn in *; [|done]. by exists key.
  - intros parse frames body query variables [u Hu]%query_of_verdict. unfold verdict in Hu.
    cbn -[contains Z.ltb Z.of_nat] in Hu.
    destruct (_ <? _)%Z; [discriminate Hu|]. destruct (_ <? _)%Z; [discriminate Hu|].
    destruct (contains "__schema" query), (contains "__type" query); by try discriminate Hu.
  - intros d projects agents mode be t user rows enabled demo Hdash. unfold dashboard in Hdash.
    cbn -[dashboard_rows] in Hdash. binds Hdash. by injection Hdash as _ <- <-.
Qed.

(** * Concrete requests *)

(** One segment of a route against one of a path. *)
Definition demo_segment (route path : string) : option (list (string * captured)) :=
  let name := str_take (String.length route - 6) (str_drop 5 route) in
  if startswith "<int:" route then
    match int_of path with
    | Ok z => if str_forallb is_digit path then Some [(name, CInt (Z.to_nat z))] else None
    | Err _ => None
    end
  else if startswith "<str:" route then (if String.eqb path "" then None else Some [(name, CStr path)])
  else if String.eqb route path then Some [] else None.

Fixpoint demo_segments (route path : list string) : option (list (string * captured)) :=
  match route, path with
  | [], [] => Some []
  | r :: route, p :: path => a ← demo_segment r p; b ← demo_segments route path; Some (a ++ b)
  | _, _ => None
  end.

(** A resolver as Django documents it: the first pattern that matches. *)
Fixpoint demo_resolve (patterns : list (string * endpoint * string)) (path : string)
    : option (endpoint * list (string * captured)) :=
  match patterns with
  | [] => None
  | (route, view, _) :: patterns =>
      match demo_segments (split_on "/" route) (split_on "/" path) with
      | Some kwargs => Some (view, kwargs)
      | None => demo_resolve patterns path
      end
  end.

Example routes_resolve :
  (demo_resolve urlpatterns <$>
     ["accounts/login/"; "graphql/v1"; "projects/7/ecosystem"; "operations/op-1/updates";
      "projects/7/agents/3/diagnostics/start"; ""; "projects/x/ecosystem"; "graphql/v1/"]) =
  [Some (LoginView, []); Some (GraphqlView, []); Some (EcosystemProject, [("project_id", CInt 7)]);
   Some (OperationUpdate, [("operation_id", CStr "op-1")]);
   Some (StartDiagnostic, [("project_id", CInt 7); ("agent_id", CInt 3)]); Some (Dashboard, []); None; None].
Proof. vm_compute. reflexivity. Qed.

Definition demo_settings : Settings :=
  match load_settings (λ _, None) "/srv" with
  | Ok s => s
  | Err _ => mkSettings true "" [] "" false false 0 0 false PNan false
  end.

(** The library running a mutation of two fields. *)
Definition demo_fields : list (string * arguments) :=
  [("startKubernetesRelease", release_args);
   ("startDiagnostic", [("projectId", JStr "7"); ("agentId", JStr "3"); ("diagnostic", JStr "django_health")])].

Fixpoint run_fields (user : nat) (fields : list (string * arguments))
    : thread demo_database (result exn execution_result) :=
  match fields with
  | [] => Return (Ok (mkExecution (Some (JObj [])) 0))
  | (field, args) :: fields =>
      match call (Mutation [demo_project; other_project] [demo_agent] demo_uuid_of demo_env user) field args with
      | Some th => thread_bind th (λ _, run_fields user fields)
      | None => Return (Err (OtherError "GraphQLError"))
      end
  end.

Lemma run_fields_runs user fields :
  runs_fields [demo_project; other_project] [demo_agent] demo_uuid_of user (run_fields user fields).
Proof.
  induction fields as [|[field args] fields IH]; cbn [run_fields]; [constructor|].
  destruct (call _ field args) as [th|] eqn:E; [|constructor]. by eapply rf_field.
Qed.

Definition demo_request (user : option (nat * bool)) (method path : string) : request :=
  mkHttpRequest user method path None "".

Definition demo_site : site := mkSite demo_settings demo_backend seen_telemetry 20 "op-2" (λ _, (0, 0)%Z) 900.

Abbreviation demo_answer := (thread demo_database (result exn http_response)).
Definition demo_login (r : request) (view : nat → bool → demo_answer) : demo_answer :=
  match ht_user r with
  | Some (user, is_staff) => view user is_staff
  | None => Return (Ok (ToLogin (ht_path r)))
  end.
Definition demo_methods (methods : list string) (r : request) (view : demo_answer) : demo_answer :=
  if str_in (ht_method r) methods then view else Return (Ok (NotAllowed methods)).

Definition demo_serve (r : request) : thread demo_database (result exn http_response) :=
  serve [demo_project; other_project] [demo_agent] demo_uuid_of "/" k8s_checks demo_resolve
    (λ _, Ok (JObj [("query", JStr "mutation")])) (λ _, Err (ValueError ""))
    (λ _, Ok []) (λ user _ _, run_fields user demo_fields) demo_login demo_methods demo_site r.

Lemma http_requests_stay_in_own_projects_witness :
  let r := demo_request (Some (1, false)) "POST" "graphql/v1" in
  let d' := (run_thread (demo_serve r) shared_db).1 in
  (rl_status <$> gt_rows d'.2.2 !! 1) = Some "succeeded" ∧
  (op_status <$> gt_rows d'.1 !! 3) = Some "overloaded" ∧
  keeps_foreign [demo_project; other_project] 1 shared_db d'.
Proof.
  intros r d'. split; [by vm_compute|]. split; [by vm_compute|].
  apply (http_requests_stay_in_own_projects [demo_project; other_project] [demo_agent] demo_uuid_of "/" k8s_checks
    demo_resolve (λ _, Ok (JObj [("query", JStr "mutation")])) (λ _, Err (ValueError "")) (λ _, Ok [])
    (λ user _ _, run_fields user demo_fields) demo_login demo_methods (λ _ _, eq_refl) (λ _ _ _, eq_refl) demo_site r shared_db).
  - intros. apply run_fields_runs.
  - intros k rel Hk. cbn in Hk. by rewrite lookup_empty in Hk.
Defined.

Lemma views_are_guarded_witness :
  demo_serve (demo_request (Some (1, false)) "GET" "operations/op-1/cancel") = Return (Ok (NotAllowed ["POST"])) ∧
  demo_serve (demo_request None "POST" "operations/op-1/cancel") = Return (Ok (ToLogin "operations/op-1/cancel")).
Proof.
  assert (H : ∀ r, _) by (intros r; exact (views_are_guarded [demo_project; other_project] [demo_agent] demo_uuid_of "/"
    k8s_checks demo_resolve (λ _, Ok (JObj [("query", JStr "mutation")])) (λ _, Err (ValueError "")) (λ _, Ok [])
    (λ user _ _, run_fields user demo_fields) demo_login demo_methods (λ _ _, eq_refl) (λ _ _ _, eq_refl) demo_site r)).
  split.
  - destruct (H (demo_request (Some (1, false)) "GET" "operations/op-1/cancel")) as [_ Hm].
    apply (Hm CancelDiagnostic [("operation_id", CStr "op-1")] _ (1, false)); [by vm_compute|done| |done].
    by intros ?%list_elem_of_singleton.
  - destruct (H (demo_request None "POST" "operations/op-1/cancel")) as [Ha _].
    by destruct (Ha eq_refl).
Defined.

Definition production (name : string) : option string :=
  dict_get [("DJANGOOPS_WEB_DEBUG", "0"); ("DJANGOOPS_WEB_SECRET_KEY", "s3cret"); ("DJANGOOPS_WEB_DEMO", "1")] name.

(** Without a key the process does not start. *)
Example production_needs_a_key :
  load_settings (λ name, if String.eqb name "DJANGOOPS_WEB_DEBUG" then Some "0" else None) "/srv"
  = Err (OtherError "ImproperlyConfigured").
Proof. reflexivity. Qed.

Lemma production_is_locked_down_witness :
  ∃ s, load_settings production "/srv" = Ok s ∧ DEBUG s = false ∧ WEB_DEMO_ENABLED s = false ∧
    SECRET_KEY s = "s3cret" ∧ SESSION_COOKIE_SECURE s = true.
Proof.
  eexists. split; [vm_compute; reflexivity|]. split; [reflexivity|]. split; [reflexivity|].
  match goal with |- SECRET_KEY ?s = _ ∧ _ =>
    destruct (production_is_locked_down production "/srv" s) as ((key & Hk & _ & Hs) & Hc & _)
  end; [vm_compute; reflexivity|reflexivity|].
  split; [rewrite Hs; vm_compute in Hk; congruence|exact Hc].
Defined.
