(* ===== verification/Runtime.v ===== *)
(** The processes of the control plane: [controlplane/runtime.py],
    [controlplane/gateway_runtime.py], [controlplane/server.py],
    [controlplane/webserver.py], the polling of [AgentGateway.wait_for_agent], and
    the hooks [controlplane/apps.py] installs when Django is ready. *)

From S2P Require Import Prelude Text Url Json Builtins Dict Gateway Store Models Services Telemetry Kubernetes Observability.
From S2P Require Import Schema Api Config Integrations Ecosystem Settings.

Open Scope string_scope.
Open Scope list_scope.
Open Scope nat_scope.

(** * The registered gateway *)

(** The two globals of [runtime.py]; a loop is known by a number. *)
Record runtime := mkRuntime { rt_gateway : option AgentGateway; rt_loop : option nat }.
Definition runtime_init : runtime := mkRuntime None None.

Definition register_gateway (gateway : AgentGateway) (loop : nat) (_ : runtime) : runtime :=
  mkRuntime (Some gateway) (Some loop).

Definition gateway_runtime (rt : runtime) : result exn (AgentGateway * nat) :=
  match rt_gateway rt, rt_loop rt with
  | Some gateway, Some loop => Ok (gateway, loop)
  | _, _ => Err (RuntimeError "Phase 1 gateway runtime is unavailable")
  end.

(** [GatewayRuntimeProxy]. *)
Definition proxy_gateway (rt : runtime) : option AgentGateway :=
  match gateway_runtime rt with Ok (gateway, _) => Some gateway | Err _ => None end.
Definition proxy_loop (rt : runtime) : option nat :=
  match gateway_runtime rt with Ok (_, loop) => Some loop | Err _ => None end.

(** ** The backend of [OperationsService] *)

Definition set_backend_factory {B} (factory : B) (_ : B) : B := factory.

(** [OperationsService.__init__]: the backend given, or a new one of the factory. *)
Definition service_backend {B} (backend : option B) (factory : () → B) : B :=
  match backend with Some b => b | None => factory () end.

(** ** [wait_for_agent] *)

(** [polls n] is the loop's time in milliseconds and the gateway when the condition
    is evaluated for the [n]th time; [None] when the fuel is spent. *)
Fixpoint wait_until (fuel : nat) (polls : nat → Z * AgentGateway) (agent : string) (deadline : Z) (n : nat)
    : option (result exn ()) :=
  match fuel with
  | 0 => None
  | S fuel =>
      if ((polls n).1 <? deadline)%Z
      then if is_connected agent (polls n).2 then Some (Ok ()) else wait_until fuel polls agent deadline (S n)
      else Some (Err (TimeoutError ("agent '" +:+ agent +:+ "' did not connect")))
  end.

Definition wait_for_agent (fuel : nat) (polls : nat → Z * AgentGateway) (agent : string) (timeout : Z) (now : Z)
    : option (result exn ()) :=
  wait_until fuel polls agent (now + timeout) 0.

(** * Processes *)

(** The calls a process makes of the libraries, in order, returning or raising. *)
Inductive process_event :=
| ServerCreated (max_receive_message_length : Z)
| ServicerAdded
| CredentialsMade (private_key certificate : string)
| PortBound (listen : string)
| GatewayRegistered (loop : nat)
| ServerStarted
| WebServing (host : string) (port : Z)
| ServerStopped (grace : Z).

#[export] Instance process_event_eq_dec : EqDecision process_event.
Proof. solve_decision. Defined.

(** A computation that leaves a trace and a runtime, and may raise. *)
Definition process (A : Type) : Type := runtime → list process_event * runtime * result exn A.

Definition done {A} (a : A) : process A := λ rt, ([], rt, Ok a).
Definition lift {A} (r : result exn A) : process A := λ rt, ([], rt, r).
Definition does (e : process_event) (r : result exn ()) : process () := λ rt, ([e], rt, r).

Definition andthen {A B} (m : process A) (k : A → process B) : process B := λ rt,
  match m rt with
  | (tr, rt, Err e) => (tr, rt, Err e)
  | (tr, rt, Ok a) => let '(tr', rt, b) := k a rt in (tr ++ tr', rt, b)
  end.

(** [try: m finally: f]; an exception of the [finally] block replaces the outcome. *)
Definition finally {A} (m : process A) (f : process ()) : process A := λ rt,
  let '(tr, rt, a) := m rt in
  let '(tr', rt, r) := f rt in
  (tr ++ tr', rt, match r with Ok _ => a | Err e => Err e end).

Declare Scope process_scope.
Delimit Scope process_scope with process.
Notation "x <- m ; k" := (andthen m (λ x, k)) (at level 100, m at next level, right associativity) : process_scope.
Notation "m ;; k" := (andthen m (λ _, k)) (at level 100, right associativity) : process_scope.

Section processes.
Context (environ : string → option string).
Context (is_file : string → bool) (read_bytes : string → result exn string).
Context (json_loads : string → result exn yaml).

(** grpc: credentials of a key and a certificate, binding a port with them, starting
    and stopping the server, and waiting for its end. *)
Context (ssl_credentials : string → string → result exn ()).
Context (add_secure_port : string → result exn Z).
Context (server_start termination server_stop : result exn ()).

(** uvicorn: the server for a host and a port, and how serving ends. *)
Context (web_server : string → Z → result exn ()) (web_serve : result exn ()).

(** [asyncio.get_running_loop()]. *)
Context (loop : nat).

Open Scope process_scope.

Definition build_server (config : GatewayConfig) : process AgentGateway :=
  does (ServerCreated (1024 * 1024)) (Ok ());;
  gateway <- lift (gateway_init (list_to_map (gc_agent_tokens config))
                     (Z.of_nat DEFAULT_MAX_COMPLETED_JOBS) (Z.of_nat DEFAULT_MAX_INFLIGHT_PER_AGENT));
  does ServicerAdded (Ok ());;
  key <- lift (read_bytes (gc_private_key config));
  certificate <- lift (read_bytes (gc_certificate config));
  does (CredentialsMade key certificate) (ssl_credentials key certificate);;
  bound <- lift (add_secure_port (gc_listen config));
  if (bound =? 0)%Z then lift (Err (RuntimeError "control-plane TLS listener could not bind"))
  else (does (PortBound (gc_listen config)) (Ok ());; done gateway).

Definition registered (gateway : AgentGateway) : process () :=
  λ rt, ([GatewayRegistered loop], register_gateway gateway loop rt, Ok ()).

(** [server.serve]. *)
Definition server_serve (config : GatewayConfig) : process () :=
  gateway <- build_server config;
  registered gateway;;
  does ServerStarted server_start;;
  lift termination.

(** [server.main]. *)
Definition server_main : process () :=
  config <- lift (from_env environ is_file json_loads);
  server_serve config.

(** [webserver.serve]. *)
Definition webserver_serve : process () :=
  config <- lift (from_env environ is_file json_loads);
  gateway <- build_server config;
  registered gateway;;
  does ServerStarted server_start;;
  let host := env environ "DJANGOOPS_WEB_HOST" "127.0.0.1" in
  port <- lift (int_of (env environ "DJANGOOPS_WEB_PORT" "8000"));
  lift (web_server host port);;
  finally (does (WebServing host port) web_serve) (does (ServerStopped 5) server_stop).
End processes.

(** * Hooks

    The module attributes [ControlPlaneConfig.ready] replaces or extends. *)

Record modules := mkModules {
  md_sanitize_values : values → result exn values;
  md_observability_marked : bool;
  md_backend_start : KubernetesTarget → ReleaseRequest → result exn ReleaseResult;
  md_receivers : list (string * string);
  md_signals_installed : bool;
  md_query_fields : list string;
  md_release_input : list (string * gtype);
  md_release_values : values → result exn values;
  md_graphql_installed : bool
}.

Section hooks.
Context (checks : UrlChecks) (random : string).

(** The wrapper around [kubernetes.sanitize_values]. *)
Definition observed_sanitize (original : values → result exn values) (vs : values) : result exn values :=
  let observability := default JNull (dict_get vs "observability") in
  cleaned ← original (dict_pop vs "observability");
  safe ← sanitize_observability checks observability;
  Ok (match safe with [] => cleaned | _ => dict_set cleaned "observability" (JObj safe) end).

(** The wrapper around [RuntimeKubernetesBackend.start]. *)
Definition correlated_start (original : KubernetesTarget → ReleaseRequest → result exn ReleaseResult)
    (target : KubernetesTarget) (request : ReleaseRequest) : result exn ReleaseResult :=
  request ← correlated_request random request;
  original target request.

Definition install_kubernetes_observability (m : modules) : modules :=
  if md_observability_marked m then m
  else mkModules (observed_sanitize (md_sanitize_values m)) true (correlated_start (md_backend_start m))
         (md_receivers m) (md_signals_installed m) (md_query_fields m) (md_release_input m)
         (md_release_values m) (md_graphql_installed m).

(** [post_save.connect]: a receiver already connected for the sender is not added. *)
Definition connect_receiver (receiver : string * string) (l : list (string * string)) : list (string * string) :=
  if bool_decide (receiver ∈ l) then l else l ++ [receiver].

Definition install_signals (m : modules) : modules :=
  if md_signals_installed m then m
  else mkModules (md_sanitize_values m) (md_observability_marked m) (md_backend_start m)
         (connect_receiver ("_release_saved", "KubernetesRelease")
            (connect_receiver ("_diagnostic_saved", "DiagnosticOperation") (md_receivers m)))
         true (md_query_fields m) (md_release_input m) (md_release_values m) (md_graphql_installed m).

(** [dict.setdefault]. *)
Definition set_default {A} (d : list (string * A)) (kv : string * A) : list (string * A) :=
  match dict_get d kv.1 with Some _ => d | None => d ++ [kv] end.

(** The wrapper around [_release_values]. *)
Definition observed_release_values (original : values → result exn values) (raw : values) : result exn values :=
  vs ← original raw;
  if truthy_json (dict_get raw "observabilityEnabled") then
    endpoint ← validate_otlp_endpoint checks (str_default raw "otlpEndpoint" "");
    let namespace := str_take 63 (str_default raw "otelServiceNamespace" "djangoops") in
    Ok (dict_set vs "observability"
          (JObj [("enabled", JBool true); ("otlpEndpoint", JStr endpoint); ("serviceNamespace", JStr namespace)]))
  else Ok vs.

Definition install_graphql_field (m : modules) : modules :=
  if md_graphql_installed m then m
  else mkModules (md_sanitize_values m) (md_observability_marked m) (md_backend_start m) (md_receivers m)
         (md_signals_installed m)
         (if str_in "observabilitySummary" (md_query_fields m) then md_query_fields m
          else md_query_fields m ++ ["observabilitySummary"])
         (fold_left set_default installed_inputs (md_release_input m))
         (observed_release_values (md_release_values m)) true.

(** [ControlPlaneConfig.ready]. *)
Definition ready (m : modules) : modules :=
  install_graphql_field (install_signals (install_kubernetes_observability m)).

(** The modules as they are imported; [registered], [stream] as in
    [RuntimeKubernetesBackend]. *)
Context (registered : bool) (stream : string → KubernetesReleaseRequest → list AgentFrame * stream_end).

Definition imported : modules :=
  mkModules sanitize_base false (λ target, run_request registered stream (agent_id (kt_agent target))) [] false
    ["projects"; "agents"; "diagnosticOperations"; "diagnosticOperation"; "kubernetesTargets"; "kubernetesReleases"]
    KubernetesReleaseValuesInput (λ raw, Ok (base_release_values raw)) false.
End hooks.
