(* ===== verification/RuntimeProps.v ===== *)
(** The properties of the processes and their hooks. *)

From S2P Require Import Prelude Text Url Json Builtins Dict Gateway Store Models Services Telemetry Kubernetes Observability.
From S2P Require Import Schema Api Config Integrations Ecosystem Settings Runtime.

Open Scope string_scope.
Open Scope list_scope.
Open Scope nat_scope.

(** * Hooks *)

Lemma ready_idempotent checks random m : ready checks random (ready checks random m) = ready checks random m.
Proof. by destruct m as [s [] b r [] q i v []]. Qed.

Lemma ready_again checks random n m : Nat.iter (S n) (ready checks random) m = ready checks random m.
Proof.
  induction n as [|n IH]; [done|]. change (Nat.iter (S (S n)) (ready checks random) m)
    with (ready checks random (Nat.iter (S n) (ready checks random) m)).
  rewrite IH. apply ready_idempotent.
Qed.

(** However often Django announces that it is ready, every hook is installed
    exactly once: the modules as imported become the validation of Helm values, the
    backend, the signal receivers, the GraphQL field and the GraphQL input the other
    theorems are about. *)
Theorem hooks_are_installed_once {TO TT TR} `{Table DiagnosticOperation TO} `{Table KubernetesTarget TT}
    `{Table KubernetesRelease TR} checks random registered stream n :
  let m := Nat.iter (S n) (ready checks random) (imported registered stream) in
  (∀ vs, md_sanitize_values m vs = sanitize_values checks vs) ∧
  (∀ uuid cancelled target request, md_backend_start m target request =
     kb_start (RuntimeKubernetesBackend registered uuid random stream cancelled) target request) ∧
  md_receivers m = [("_diagnostic_saved", "DiagnosticOperation"); ("_release_saved", "KubernetesRelease")] ∧
  (∀ projects agents uuid_of be t user (d : TO * (TT * TR)),
     md_query_fields m = (Query projects agents uuid_of be t user d).*1) ∧
  md_release_input m = release_input ∧
  (∀ raw, md_release_values m raw = release_values checks raw).
Proof. cbn zeta. rewrite ready_again. by split_and!. Qed.

(** * Waiting for an agent *)

Lemma wait_until_spec fuel polls agent deadline n :
  (∀ i, (polls i).1 + 50 <= (polls (S i)).1)%Z →
  (deadline <= (polls n).1 + 50 * Z.of_nat fuel - 50)%Z → 0 < fuel →
  ∃ r, wait_until fuel polls agent deadline n = Some r ∧
    (r = Ok () ↔ ∃ i, n ≤ i ∧ ((polls i).1 < deadline)%Z ∧ is_connected agent (polls i).2 = true).
Proof.
  intros Hmono. revert n. induction fuel as [|fuel IH]; intros n Hd Hf; [lia|].
  assert (Hle : ∀ i j, i ≤ j → ((polls i).1 <= (polls j).1)%Z).
  { intros i j. induction 1 as [|j _ IHj]; [lia|]. pose proof (Hmono j). lia. }
  cbn [wait_until]. destruct (Z.ltb_spec (polls n).1 deadline) as [Hlt|Hge].
  - destruct (is_connected agent (polls n).2) eqn:Ec.
    + eexists. split; [done|]. split; [|done]. intros _. by exists n.
    + pose proof (Hmono n). destruct (IH (S n)) as (r & -> & Hr); [lia|lia|].
      exists r. split; [done|]. rewrite Hr. split; intros (i & Hi & Hlt' & Hc); exists i.
      * split_and!; [lia|done|done].
      * split_and!; [|done|done]. destruct (decide (i = n)) as [->|]; [congruence|lia].
  - eexists. split; [done|]. split; [done|]. intros (i & Hi & Hlt & _). pose proof (Hle n i Hi). lia.
Qed.

Lemma wait_until_raises fuel polls agent deadline n e :
  wait_until fuel polls agent deadline n = Some (Err e) → ∃ message, e = TimeoutError message.
Proof.
  revert n. induction fuel as [|fuel IH]; intros n E; [done|]. cbn [wait_until] in E.
  repeat case_match; simplify_eq; eauto.
Qed.

(** With fifty milliseconds between two looks, waiting for an agent ends within
    [timeout / 50 + 2] looks, and it succeeds exactly when one of them, before the
    deadline, finds the agent connected; otherwise it raises [TimeoutError]. *)
Theorem wait_for_agent_ends (polls : nat → Z * AgentGateway) agent timeout now :
  (∀ i, (polls i).1 + 50 <= (polls (S i)).1)%Z → (now <= (polls 0%nat).1)%Z → (0 <= timeout)%Z →
  ∃ r, wait_for_agent (Z.to_nat (timeout / 50) + 2) polls agent timeout now = Some r ∧
    (r = Ok () ↔ ∃ i, ((polls i).1 < now + timeout)%Z ∧ is_connected agent (polls i).2 = true) ∧
    (∀ e, r = Err e → ∃ message, e = TimeoutError message).
Proof.
  intros Hmono Hnow Ht. unfold wait_for_agent.
  destruct (wait_until_spec (Z.to_nat (timeout / 50) + 2) polls agent (now + timeout) 0 Hmono) as (r & E & Hr).
  - pose proof (Z.div_mod timeout 50 ltac:(lia)). pose proof (Z.mod_pos_bound timeout 50 ltac:(lia)).
    pose proof (Z.div_pos timeout 50 ltac:(lia) ltac:(lia)). lia.
  - lia.
  - exists r. split; [done|]. split.
    + rewrite Hr. split; [intros (i & _ & H); by exists i|intros (i & H); exists i; split; [lia|done]].
    + intros e ->. by eapply wait_until_raises.
Qed.

(** * Processes *)

Section processes.
Context (environ : string → option string) (is_file : string → bool) (read_bytes : string → result exn string).
Context (json_loads : string → result exn yaml).
Context (ssl_credentials : string → string → result exn ()) (add_secure_port : string → result exn Z).
Context (server_start termination server_stop : result exn ()).
Context (web_server : string → Z → result exn ()) (web_serve : result exn ()) (loop : nat).

Abbreviation server_main_ := (server_main environ is_file read_bytes json_loads ssl_credentials
  add_secure_port server_start termination loop).
Abbreviation webserver_serve_ := (webserver_serve environ is_file read_bytes json_loads ssl_credentials
  add_secure_port server_start server_stop web_server web_serve loop).

(** What has happened when the server is started for a configuration. *)
Definition started_trace (config : GatewayConfig) (key certificate : string) : list process_event :=
  [ServerCreated (1024 * 1024); ServicerAdded; CredentialsMade key certificate; PortBound (gc_listen config);
   GatewayRegistered loop; ServerStarted].

(** A configuration whose key and certificate make credentials, and whose port is
    bound. *)
Definition usable (config : GatewayConfig) (key certificate : string) : Prop :=
  from_env environ is_file json_loads = Ok config ∧
  read_bytes (gc_private_key config) = Ok key ∧ read_bytes (gc_certificate config) = Ok certificate ∧
  ssl_credentials key certificate = Ok () ∧
  ∃ bound, add_secure_port (gc_listen config) = Ok bound ∧ bound ≠ 0%Z.

Definition gateway_of (config : GatewayConfig) : AgentGateway :=
  mkGateway (list_to_map (gc_agent_tokens config)) ∅ [] ∅ []
    DEFAULT_MAX_COMPLETED_JOBS DEFAULT_MAX_INFLIGHT_PER_AGENT ∅ ∅ 0.

(** The beginning both processes share. *)
Definition start_up : process () :=
  (config <- lift (from_env environ is_file json_loads);
   gateway <- build_server read_bytes ssl_credentials add_secure_port config;
   registered loop gateway;;
   does ServerStarted server_start)%process.

Lemma start_up_spec rt :
  let '(tr, rt', r) := start_up rt in
  (ServerStarted ∈ tr →
     ∃ config key certificate, usable config key certificate ∧ tr = started_trace config key certificate ∧
       gateway_runtime rt' = Ok (gateway_of config, loop) ∧ r = server_start) ∧
  (ServerStarted ∉ tr → rt' = rt ∧ ∃ e, r = Err e).
Proof.
  unfold start_up, andthen at 1, lift at 1. destruct (from_env _ _ _) as [config|e] eqn:Ef; [|set_solver].
  unfold build_server, andthen, does, lift, registered, done. cbn -[gateway_init].
  assert (Hg : gateway_init (list_to_map (gc_agent_tokens config)) (Z.of_nat DEFAULT_MAX_COMPLETED_JOBS)
    (Z.of_nat DEFAULT_MAX_INFLIGHT_PER_AGENT) = Ok (gateway_of config)) by reflexivity.
  rewrite Hg. cbn.
  destruct (read_bytes (gc_private_key config)) as [key|] eqn:Ek; cbn; [|set_solver].
  destruct (read_bytes (gc_certificate config)) as [certificate|] eqn:Ec; cbn; [|set_solver].
  destruct (ssl_credentials key certificate) as [[]|] eqn:Es; cbn; [|set_solver].
  destruct (add_secure_port (gc_listen config)) as [bound|] eqn:Ep; cbn; [|set_solver].
  destruct (Z.eqb_spec bound 0) as [->|Hb]; cbn; [set_solver|]. split; [|set_solver].
  intros _. exists config, key, certificate. split_and!; try done. repeat split; try done. by exists bound.
Qed.

Lemma andthen_assoc {A B C} (m : process A) (k : A → process B) (h : B → process C) rt :
  andthen (andthen m k) h rt = andthen m (λ a, andthen (k a) h) rt.
Proof.
  unfold andthen. destruct (m rt) as [[tr rt1] [a|e]]; [|done].
  destruct (k a rt1) as [[tr1 rt2] [b|e]]; [|done].
  destruct (h b rt2) as [[tr2 rt3] c]. by rewrite (assoc_L (++)).
Qed.

Lemma andthen_ext {A B} (m : process A) (k h : A → process B) rt :
  (∀ a rt, k a rt = h a rt) → andthen m k rt = andthen m h rt.
Proof. intros E. unfold andthen. destruct (m rt) as [[tr rt1] [a|e]]; [|done]. by rewrite E. Qed.

(** A process that begins with [start_up]. *)
Lemma after_start_up {A} (k : () → process A) rt :
  (config <- lift (from_env environ is_file json_loads);
   gateway <- build_server read_bytes ssl_credentials add_secure_port config;
   registered loop gateway;;
   does ServerStarted server_start;;
   k ())%process rt = andthen start_up k rt.
Proof.
  unfold start_up. rewrite andthen_assoc. apply andthen_ext. intros config rt1. rewrite andthen_assoc.
  apply andthen_ext. intros gateway rt2. rewrite andthen_assoc. apply andthen_ext. intros _ rt3.
  by apply andthen_ext; intros [] rt4.
Qed.

(** What the web process does once the gRPC server runs. *)
Definition web_part : process () :=
  (port <- lift (int_of (env environ "DJANGOOPS_WEB_PORT" "8000"));
   lift (web_server (env environ "DJANGOOPS_WEB_HOST" "127.0.0.1") port);;
   finally (does (WebServing (env environ "DJANGOOPS_WEB_HOST" "127.0.0.1") port) web_serve)
     (does (ServerStopped 5) server_stop))%process.

(** A gRPC server is started with TLS credentials made of the configured files,
    on a bound port, after its gateway, empty and with the configured tokens, has
    been registered; the web process stops it after serving, however that ends,
    when the web server could be created at all. *)
Theorem started_servers_are_ready rt :
  let ready tr rt' config key certificate :=
    usable config key certificate ∧ started_trace config key certificate `prefix_of` tr ∧
    gateway_runtime rt' = Ok (gateway_of config, loop) in
  (let '(tr, rt', _) := server_main_ rt in
   ServerStarted ∈ tr → ∃ config key certificate, ready tr rt' config key certificate) ∧
  (let '(tr, rt', r) := webserver_serve_ rt in
   ServerStarted ∈ tr →
   ∃ config key certificate, ready tr rt' config key certificate ∧
     let host := env environ "DJANGOOPS_WEB_HOST" "127.0.0.1" in
     match server_start, int_of (env environ "DJANGOOPS_WEB_PORT" "8000") with
     | Ok _, Ok port =>
         web_server host port = Ok () →
         tr = started_trace config key certificate ++ [WebServing host port; ServerStopped 5] ∧
         r = match server_stop with Ok _ => web_serve | Err e => Err e end
     | _, _ => True
     end).
Proof.
  cbn zeta. pose proof (start_up_spec rt) as Hs. split.
  - assert (E : server_main_ rt = andthen start_up (λ _, lift termination) rt) by apply (after_start_up (λ _, lift termination)).
    rewrite E. unfold andthen at 1. destruct (start_up rt) as [[tr rt1] r] eqn:Es. destruct Hs as [Hs1 Hs2].
    destruct (decide (ServerStarted ∈ tr)) as [Hin|Hn].
    + destruct (Hs1 Hin) as (config & key & certificate & Hu & -> & Hg & ->).
      destruct server_start; cbn; intros _; exists config, key, certificate; split_and!; try done; by eexists.
    + destruct (Hs2 Hn) as [-> [e ->]]. done.
  - assert (E : webserver_serve_ rt = andthen start_up (λ _, web_part) rt) by apply (after_start_up (λ _, web_part)).
    rewrite E. unfold andthen at 1. destruct (start_up rt) as [[tr rt1] r] eqn:Es. destruct Hs as [Hs1 Hs2].
    destruct (decide (ServerStarted ∈ tr)) as [Hin|Hn].
    + destruct (Hs1 Hin) as (config & key & certificate & Hu & -> & Hg & ->).
      destruct server_start as [[]|e].
      * unfold web_part, andthen, lift, finally, does.
        destruct (int_of _) as [port|e]; [|cbn; intros _; exists config, key, certificate; split_and!; try done; by eexists].
        destruct (web_server _ port) as [[]|e];
          cbn; intros _; exists config, key, certificate; split_and!; try done; by eexists.
      * cbn. intros _. exists config, key, certificate. split_and!; try done; by eexists.
    + destruct (Hs2 Hn) as [-> [e ->]]. done.
Qed.
End processes.

(** * Concrete runs *)

Definition edge_gateway : AgentGateway :=
  mkGateway {["edge" := "t0ken"]} {["edge" := 0]} [] ∅ [] 256 4 ∅ ∅ 1.
Definition edge_polls (i : nat) : Z * AgentGateway :=
  ((Z.of_nat i * 50)%Z, if i <? 2 then gateway_of (mkGatewayConfig "" "" "" []) else edge_gateway).

Lemma wait_for_agent_ends_witness :
  wait_for_agent (Z.to_nat (200 / 50) + 2) edge_polls "edge" 200 0 = Some (Ok ()).
Proof.
  destruct (wait_for_agent_ends edge_polls "edge" 200 0) as (r & -> & Hr & _).
  - intros i. unfold edge_polls. cbn [fst]. lia.
  - unfold edge_polls. cbn [fst]. lia.
  - lia.
  - f_equal. apply Hr. exists 2. by split.
Defined.

Definition site_environ (port : string) (name : string) : option string :=
  dict_get [("DJANGOOPS_CONTROLPLANE_TLS_CERT", "/tls/crt"); ("DJANGOOPS_CONTROLPLANE_TLS_KEY", "/tls/key");
            ("DJANGOOPS_AGENT_TOKENS_JSON", "{..}"); ("DJANGOOPS_WEB_PORT", port)] name.

Definition site_process (port : string) : process () :=
  webserver_serve (site_environ port) (λ _, true) (λ path, Ok ("bytes of " +:+ path))
    (λ _, Ok (YMap [(YStr "edge", YStr "t0ken")])) (λ _ _, Ok ()) (λ _, Ok 8443%Z) (Ok ()) (Ok ())
    (λ _ _, Ok ()) (Err (OtherError "KeyboardInterrupt")) 1.

Definition site_config : GatewayConfig :=
  mkGatewayConfig "127.0.0.1:8443" "/tls/crt" "/tls/key" [("edge", "t0ken")].

Lemma started_servers_are_ready_witness :
  let '(tr, rt, r) := site_process "8000" runtime_init in
  tr = started_trace 1 site_config "bytes of /tls/key" "bytes of /tls/crt"
       ++ [WebServing "127.0.0.1" 8000; ServerStopped 5] ∧
  r = Err (OtherError "KeyboardInterrupt") ∧ ∃ config, gateway_runtime rt = Ok (gateway_of config, 1).
Proof.
  pose proof (started_servers_are_ready (site_environ "8000") (λ _, true) (λ path, Ok ("bytes of " +:+ path))
    (λ _, Ok (YMap [(YStr "edge", YStr "t0ken")])) (λ _ _, Ok ()) (λ _, Ok 8443%Z) (Ok ()) (Ok ()) (Ok ())
    (λ _ _, Ok ()) (Err (OtherError "KeyboardInterrupt")) 1 runtime_init) as [_ H].
  change (webserver_serve _ _ _ _ _ _ _ _ _ _ _) with (site_process "8000") in H.
  destruct (site_process "8000" runtime_init) as [[tr rt] r] eqn:E.
  assert (Ht : (site_process "8000" runtime_init).1.1 = started_trace 1 site_config "bytes of /tls/key" "bytes of /tls/crt"
       ++ [WebServing "127.0.0.1" 8000; ServerStopped 5]) by (vm_compute; reflexivity).
  rewrite E in Ht. cbn [fst] in Ht.
  destruct H as (config & key & certificate & (_ & _ & Hg) & Hr).
  - rewrite Ht. apply (bool_decide_eq_true_1 _). vm_compute. reflexivity.
  - split; [exact Ht|]. split; [by destruct (Hr eq_refl)|by exists config].
Defined.

(** The port is read after the server was started and before the [try]: when it is no
    number, the started server is not stopped. *)
Example unreadable_port_leaves_server :
  let '(tr, _, r) := site_process "http" runtime_init in
  last tr = Some ServerStarted ∧ r = Err (ValueError "invalid literal for int() with base 10: 'http'").
Proof. vm_compute. by split. Qed.
